(** * VisualMem: ingestion and retrieval pipelines

    A shallow embedding of the parts of [gui_backend_server.py],
    [gui/workers/record_worker.py] and [vlm_backend_transformer/main.py]
    that carry the pipeline logic: the dense/sparse merge, time-window
    fusion, the batch write buffer, the frame-difference filter,
    identifier allocation, the OCR queue and the request handlers' error
    paths; then the life of the write buffer, timestamps as text, the
    remote capture loop, the browsing, image and statistics handlers, the
    retrieval pipeline, the VLM server, and the start and the stop of the
    recorder and of the backend. *)

From Stdlib Require Import ZArith QArith Qabs Lia Bool Ascii.
From stdpp Require Import gmap strings list pretty.

Local Open Scope string_scope.
Local Open Scope list_scope.
Local Open Scope Z_scope.

(** ** Python results, exceptions and stateful calls *)

Module Py.

(** The exception classes the modelled code raises or catches.  All of
    them derive from [Exception]. *)
Inductive exn :=
| ValueError
| KeyError
| RuntimeError
| QueueFull
| QueueEmpty
| IOError
| AssertionError
| OverflowError
| HTTPException (status_code : Z).

(** A call either returns a value or raises. *)
Inductive outcome (A : Type) :=
| Returned (a : A)
| Raised (e : exn).
Arguments Returned {A} a.
Arguments Raised {A} e.

(** Code running over a state [S] that may raise. *)
Definition M (S A : Type) : Type := S → outcome A * S.

Definition ret {S A} (a : A) : M S A := λ s, (Returned a, s).

Definition bind {S A B} (m : M S A) (k : A → M S B) : M S B :=
  λ s, match m s with
       | (Returned a, s') => k a s'
       | (Raised e, s') => (Raised e, s')
       end.

Definition raise {S A} (e : exn) : M S A := λ s, (Raised e, s).

(** [try: m except Exception as e: h e] *)
Definition try_except {S A} (m : M S A) (h : exn → M S A) : M S A :=
  λ s, match m s with
       | (Returned a, s') => (Returned a, s')
       | (Raised e, s') => h e s'
       end.

Definition get {S} : M S S := λ s, (Returned s, s).

Definition modify {S} (f : S → S) : M S unit := λ s, (Returned tt, f s).

(** [for x in l: body x] *)
Fixpoint for_each {S X} (l : list X) (body : X → M S unit) : M S unit :=
  match l with
  | [] => ret tt
  | x :: l' => bind (body x) (λ _, for_each l' body)
  end.

Definition is_returned {A} (o : outcome A) : bool :=
  match o with Returned _ => true | Raised _ => false end.

End Py.

Import Py.

Notation "'let!' x := m 'in' k" := (Py.bind m (λ x, k))
  (at level 10, x name, m at level 100, k at level 200, only parsing).
Notation "'do!' m 'in' k" := (Py.bind m (λ _, k))
  (at level 10, m at level 100, k at level 200, only parsing).

(** ** Timestamps and the identifier format *)

Module Datetime.

(** A [datetime]; its fields are in their calendar ranges, in particular
    [0 <= microsecond <= 999999]. *)
Record datetime := Mk {
  year : Z;
  month : Z;
  day : Z;
  hour : Z;
  minute : Z;
  second : Z;
  microsecond : Z
}.

(** [ts.replace(microsecond=us)] *)
Definition replace_microsecond (ts : datetime) (us : Z) : datetime :=
  Mk (year ts) (month ts) (day ts) (hour ts) (minute ts) (second ts) us.

Definition digit (n : Z) : Ascii.ascii :=
  Ascii.ascii_of_N (48 + Z.to_N (n mod 10)).

(** [f"{n:0{width}d}"] for [0 <= n < 10^width], which the fields of a
    datetime satisfy for the widths used below. *)
Fixpoint zero_pad (width : nat) (n : Z) : string :=
  match width with
  | O => EmptyString
  | S w => zero_pad w (n / 10) +:+ String (digit n) EmptyString
  end.

(** [ts.strftime("%Y%m%d")] *)
Definition strftime_date (ts : datetime) : string :=
  zero_pad 4 (year ts) +:+ zero_pad 2 (month ts) +:+ zero_pad 2 (day ts).

(** [ts.strftime("%Y%m%d_%H%M%S_")] *)
Definition strftime_prefix (ts : datetime) : string :=
  strftime_date ts +:+ "_" +:+ zero_pad 2 (hour ts) +:+ zero_pad 2 (minute ts)
  +:+ zero_pad 2 (second ts) +:+ "_".

(** [ts.strftime("%Y%m%d_%H%M%S_") + f"{us:06d}"] *)
Definition format_id (ts : datetime) (us : Z) : string :=
  strftime_prefix ts +:+ zero_pad 6 us.

(** [ts.strftime("%Y-%m-%d")] *)
Definition strftime_iso_date (ts : datetime) : string :=
  zero_pad 4 (year ts) +:+ "-" +:+ zero_pad 2 (month ts) +:+ "-"
  +:+ zero_pad 2 (day ts).

Definition is_leap (y : Z) : bool :=
  ((y mod 4 =? 0) && negb (y mod 100 =? 0)) || (y mod 400 =? 0).

Definition days_in_month (y m : Z) : Z :=
  if m =? 2 then (if is_leap y then 29 else 28)
  else if (m =? 4) || (m =? 6) || (m =? 9) || (m =? 11) then 30
  else 31.

(** [ts + timedelta(days=1)]; past 9999-12-31 it raises. *)
Definition add_one_day (ts : datetime) : outcome datetime :=
  if day ts <? days_in_month (year ts) (month ts) then
    Returned (Mk (year ts) (month ts) (day ts + 1) (hour ts) (minute ts)
                (second ts) (microsecond ts))
  else if month ts <? 12 then
    Returned (Mk (year ts) (month ts + 1) 1 (hour ts) (minute ts)
                (second ts) (microsecond ts))
  else if year ts <? 9999 then
    Returned (Mk (year ts + 1) 1 1 (hour ts) (minute ts) (second ts)
                (microsecond ts))
  else Raised OverflowError.

End Datetime.

(** ** The entry queued for durable storage ([frame_data] in [store_frame]) *)

Module Frame.

Record frame_data := FrameData {
  frame_id : string;
  timestamp : Datetime.datetime;
  image : string;
  embedding : list Q;
  ocr_text : string;
  image_path : string;
  ocr_text_json : string;
  ocr_engine : string;
  ocr_confidence : Q;
  device_name : string;
  metadata : string
}.

(** The keyword arguments of [sqlite_storage.store_frame_with_ocr]. *)
Record sqlite_row := SqliteRow {
  row_frame_id : string;
  row_timestamp : Datetime.datetime;
  row_image_path : string;
  row_ocr_text : string;
  row_ocr_text_json : string;
  row_ocr_engine : string;
  row_ocr_confidence : Q;
  row_device_name : string;
  row_metadata : string
}.

Definition row_of (fd : frame_data) : sqlite_row :=
  SqliteRow (frame_id fd) (timestamp fd) (image_path fd) (ocr_text fd)
    (ocr_text_json fd) (ocr_engine fd) (ocr_confidence fd) (device_name fd)
    (metadata fd).

End Frame.

(** ** Hybrid retrieval: merge and de-duplication
    ([query_rag_with_time], the "Merge & dedup" block) *)

Module Merge.

(** A search hit is a Python dict; [r.get("frame_id")] may be [None]. *)
Record hit := Hit {
  frame_id : option string;
  timestamp : option Z;
  image_path : option string;
  ocr_text : string;
  from_sparse : bool
}.

(** Truthiness of [fid]: [None] and the empty string are falsy. *)
Definition truthy (fid : option string) : bool :=
  match fid with
  | Some s => negb (bool_decide (s = EmptyString))
  | None => false
  end.

(** One iteration of either [for r in ...] loop: the pair is
    ([frames], [seen]). *)
Definition merge_step (acc : list hit * gset string) (r : hit)
  : list hit * gset string :=
  match frame_id r with
  | None => acc
  | Some fid =>
      if negb (truthy (Some fid)) || bool_decide (fid ∈ acc.2) then acc
      else (acc.1 ++ [r], {[fid]} ∪ acc.2)
  end.

Definition merge_loops (dense_results sparse_results : list hit)
  : list hit * gset string :=
  foldl merge_step (foldl merge_step ([], ∅) dense_results) sparse_results.

Definition merge (dense_results sparse_results : list hit) : list hit :=
  (merge_loops dense_results sparse_results).1.

(** The hits one loop appends, given the identifiers already seen. *)
Fixpoint kept (seen : gset string) (l : list hit) : list hit :=
  match l with
  | [] => []
  | r :: l' =>
      match frame_id r with
      | None => kept seen l'
      | Some fid =>
          if negb (truthy (Some fid)) || bool_decide (fid ∈ seen)
          then kept seen l'
          else r :: kept ({[fid]} ∪ seen) l'
      end
  end.

(** Identifiers of a list of hits (the falsy ones are left out). *)
Definition ids (l : list hit) : list string :=
  omap frame_id l.

Definition dense_part (dense_results : list hit) : list hit :=
  kept ∅ dense_results.

Definition sparse_part (dense_results sparse_results : list hit) : list hit :=
  kept (list_to_set (ids (dense_part dense_results))) sparse_results.

(** The concrete lists of the merge example: [B] is returned by both
    searches, as two different dicts. *)
Definition dense_hit (fid : string) : hit :=
  Hit (Some fid) (Some 0) (Some ("/img/" +:+ fid +:+ ".jpg")) EmptyString false.

Definition sparse_hit (fid : string) : hit :=
  Hit (Some fid) (Some 0) (Some ("/img/" +:+ fid +:+ ".jpg")) "text" true.

Arguments ids : simpl never.

Lemma ids_cons_Some (r : hit) (l : list hit) (fid : string) :
  frame_id r = Some fid → ids (r :: l) = fid :: ids l.
Proof. intros H. unfold ids. simpl. by rewrite H. Qed.

Lemma foldl_merge_step (l : list hit) (frames : list hit) (seen : gset string) :
  foldl merge_step (frames, seen) l
  = (frames ++ kept seen l, list_to_set (ids (kept seen l)) ∪ seen).
Proof.
  revert frames seen.
  induction l as [|r l IH]; intros frames seen; simpl.
  - rewrite app_nil_r. f_equal. set_solver.
  - unfold merge_step at 2. simpl.
    destruct (frame_id r) as [fid|] eqn:Hfid; [|apply IH].
    destruct (negb (negb (bool_decide (fid = EmptyString))) || bool_decide (fid ∈ seen))
      eqn:Hskip; [apply IH|].
    rewrite IH. rewrite <- app_assoc. simpl. f_equal.
    rewrite (ids_cons_Some _ _ _ Hfid). set_solver.
Qed.

Lemma merge_split (dense_results sparse_results : list hit) :
  merge dense_results sparse_results
  = dense_part dense_results ++ sparse_part dense_results sparse_results.
Proof.
  unfold merge, merge_loops, dense_part, sparse_part.
  rewrite !foldl_merge_step. simpl.
  replace (list_to_set (ids (kept ∅ dense_results)) ∪ ∅)
    with (list_to_set (C := gset string) (ids (kept ∅ dense_results)))
    by set_solver.
  reflexivity.
Qed.

Lemma kept_app (l1 l2 : list hit) (seen : gset string) :
  kept seen (l1 ++ l2)
  = kept seen l1 ++ kept (list_to_set (ids (kept seen l1)) ∪ seen) l2.
Proof.
  revert seen. induction l1 as [|r l1 IH]; intros seen; simpl.
  - f_equal. set_solver.
  - destruct (frame_id r) as [fid|] eqn:Hfid; [|apply IH].
    destruct (negb (negb (bool_decide (fid = EmptyString))) || bool_decide (fid ∈ seen));
      [apply IH|].
    simpl. rewrite IH. do 3 f_equal.
    rewrite (ids_cons_Some _ _ _ Hfid). set_solver.
Qed.

Lemma merge_kept (dense_results sparse_results : list hit) :
  merge dense_results sparse_results = kept ∅ (dense_results ++ sparse_results).
Proof.
  rewrite merge_split, kept_app. unfold dense_part, sparse_part.
  do 2 f_equal. set_solver.
Qed.

Lemma kept_sublist (l : list hit) (seen : gset string) :
  sublist (kept seen l) l.
Proof.
  revert seen. induction l as [|r l IH]; intros seen; simpl.
  - constructor.
  - destruct (frame_id r) as [fid|]; [|by apply sublist_cons].
    destruct (_ || _); [by apply sublist_cons | by apply sublist_skip].
Qed.

Lemma kept_fresh (l : list hit) (seen : gset string) (r : hit) :
  r ∈ kept seen l →
  ∃ fid, frame_id r = Some fid ∧ fid ≠ EmptyString ∧ fid ∉ seen.
Proof.
  revert seen. induction l as [|x l IH]; intros seen; simpl.
  - by intros ?%elem_of_nil.
  - destruct (frame_id x) as [fid|] eqn:Hfid; [|apply IH].
    destruct (negb (negb (bool_decide (fid = EmptyString))) || bool_decide (fid ∈ seen))
      eqn:Hskip; [apply IH|].
    apply orb_false_elim in Hskip as [Hne Hin].
    rewrite negb_involutive in Hne.
    apply bool_decide_eq_false in Hne, Hin.
    intros [->|Hr]%elem_of_cons; [by exists fid|].
    destruct (IH _ Hr) as (f & ? & ? & ?). exists f. set_solver.
Qed.

Lemma ids_elem (l : list hit) (fid : string) :
  fid ∈ ids l ↔ ∃ r, r ∈ l ∧ frame_id r = Some fid.
Proof. unfold ids. rewrite list_elem_of_omap. reflexivity. Qed.

Lemma kept_ids_NoDup (l : list hit) (seen : gset string) :
  NoDup (ids (kept seen l)).
Proof.
  revert seen. induction l as [|x l IH]; intros seen; simpl.
  - constructor.
  - destruct (frame_id x) as [fid|] eqn:Hfid; [|apply IH].
    destruct (_ || _); [apply IH|].
    rewrite (ids_cons_Some _ _ _ Hfid). constructor; [|apply IH].
    intros (r & Hr & Hrf)%ids_elem.
    apply kept_fresh in Hr as (f & Hf & _ & Hnot). set_solver.
Qed.

Lemma kept_all_ids (l : list hit) (seen : gset string) :
  frame_id <$> kept seen l = Some <$> ids (kept seen l).
Proof.
  assert (H : ∀ r, r ∈ kept seen l → is_Some (frame_id r)).
  { intros r (f & -> & _)%kept_fresh. eauto. }
  induction (kept seen l) as [|r k IH]; [done|].
  unfold ids. simpl.
  destruct (H r) as [f Hf]; [by left|]. rewrite Hf. simpl.
  f_equal. apply IH. intros ? ?. apply H. by right.
Qed.

Lemma kept_first (l : list hit) (seen : gset string) (r : hit) :
  r ∈ kept seen l →
  ∃ pre post, l = pre ++ r :: post ∧ ∀ x, x ∈ pre → frame_id x ≠ frame_id r.
Proof.
  revert seen. induction l as [|x l IH]; intros seen; simpl.
  - by intros ?%elem_of_nil.
  - destruct (frame_id x) as [fid|] eqn:Hfid.
    + destruct (negb (negb (bool_decide (fid = EmptyString))) || bool_decide (fid ∈ seen))
        eqn:Hskip.
      * intros Hr. destruct (IH _ Hr) as (pre & post & -> & Hpre).
        exists (x :: pre), post. split; [done|].
        intros y [->|Hy]%elem_of_cons; [|by apply Hpre].
        apply kept_fresh in Hr as (f & Hf & Hne & Hnot).
        rewrite Hfid, Hf. intros [= ->].
        apply orb_true_iff in Hskip as [Hs|Hs].
        -- rewrite negb_involutive in Hs. by apply bool_decide_eq_true in Hs.
        -- by apply bool_decide_eq_true in Hs.
      * intros [->|Hr]%elem_of_cons.
        -- exists [], l. split; [done|]. by intros ? ?%elem_of_nil.
        -- destruct (IH _ Hr) as (pre & post & -> & Hpre).
           exists (x :: pre), post. split; [done|].
           intros y [->|Hy]%elem_of_cons; [|by apply Hpre].
           apply kept_fresh in Hr as (f & Hf & _ & Hnot).
           rewrite Hfid, Hf. intros [= ->]. set_solver.
    + intros Hr. destruct (IH _ Hr) as (pre & post & -> & Hpre).
      exists (x :: pre), post. split; [done|].
      intros y [->|Hy]%elem_of_cons; [|by apply Hpre].
      apply kept_fresh in Hr as (f & Hf & _). by rewrite Hfid, Hf.
Qed.

Lemma kept_complete (l : list hit) (seen : gset string) (r : hit) (fid : string) :
  r ∈ l → frame_id r = Some fid → fid ≠ EmptyString → fid ∉ seen →
  fid ∈ ids (kept seen l).
Proof.
  revert seen. induction l as [|x l IH]; intros seen; simpl.
  - by intros ?%elem_of_nil.
  - intros Hr Hf Hne Hnot.
    destruct (frame_id x) as [g|] eqn:Hg.
    + destruct (negb (negb (bool_decide (g = EmptyString))) || bool_decide (g ∈ seen))
        eqn:Hskip.
      * apply elem_of_cons in Hr as [->|Hr]; [|by apply IH].
        rewrite Hg in Hf. injection Hf as ->.
        apply orb_true_iff in Hskip as [Hs|Hs].
        -- rewrite negb_involutive in Hs. by apply bool_decide_eq_true in Hs.
        -- by apply bool_decide_eq_true in Hs.
      * rewrite (ids_cons_Some _ _ _ Hg).
        destruct (decide (fid = g)) as [->|Hfg]; [by left|]. right.
        apply elem_of_cons in Hr as [->|Hr]; [congruence|].
        apply (IH _ Hr Hf Hne). set_solver.
    + apply elem_of_cons in Hr as [->|Hr]; [congruence|]. by apply IH.
Qed.

(** C1. Merging the dense and the sparse hits gives the hits kept from
    the dense list followed by the hits kept from the sparse list, each
    in its original relative order; no frame_id occurs twice in the
    result; every hit of the result is the first hit of dense ++ sparse
    that carries its frame_id (so the dense dict wins when both lists
    have it); every non-empty frame_id of the inputs is represented; and
    dense [A,B,C] with sparse [B,D] gives [A,B,C,D] with the dense [B]. *)
Theorem merge_dense_first_unique (dense_results sparse_results : list hit) :
  NoDup (frame_id <$> merge dense_results sparse_results)
  ∧ (merge dense_results sparse_results
       = dense_part dense_results ++ sparse_part dense_results sparse_results
     ∧ sublist (dense_part dense_results) dense_results
     ∧ sublist (sparse_part dense_results sparse_results) sparse_results)
  ∧ (∀ r, r ∈ merge dense_results sparse_results →
       ∃ pre post, dense_results ++ sparse_results = pre ++ r :: post
                   ∧ ∀ x, x ∈ pre → frame_id x ≠ frame_id r)
  ∧ (∀ r fid, r ∈ dense_results ++ sparse_results →
       frame_id r = Some fid → fid ≠ EmptyString →
       Some fid ∈ frame_id <$> merge dense_results sparse_results)
  ∧ merge [dense_hit "A"; dense_hit "B"; dense_hit "C"]
          [sparse_hit "B"; sparse_hit "D"]
    = [dense_hit "A"; dense_hit "B"; dense_hit "C"; sparse_hit "D"].
Proof.
  split; [|split; [|split; [|split]]].
  - rewrite merge_kept, kept_all_ids.
    apply (NoDup_fmap_2 Some), kept_ids_NoDup.
  - split; [apply merge_split|]. split; apply kept_sublist.
  - intros r. rewrite merge_kept. apply kept_first.
  - intros r fid Hr Hf Hne. rewrite merge_kept, kept_all_ids.
    apply list_elem_of_fmap_2. eapply kept_complete; eauto. set_solver.
  - vm_compute. reflexivity.
Qed.

End Merge.

(** ** Time resolution: fusing the explicit and the model-inferred window
    ([query_rag_with_time], step 4) *)

Module TimeFusion.

(** An instant is a UTC datetime, here as microseconds on the time line;
    a datetime object is always truthy, so [if x] tests [x is not None]. *)
Definition instant := Z.

Definition window : Type := option instant * option instant.

Definition is_set (x : option instant) : bool :=
  match x with Some _ => true | None => false end.

(** [start_time > end_time] under the guard [start_time and end_time]. *)
Definition inverted (w : window) : bool :=
  match w with
  | (Some s, Some e) => e <? s
  | _ => false
  end.

(** The [if/elif/elif] chain computing the start; [start_time] holds
    [explicit_start] on entry and stays when no branch fires. *)
Definition fuse_start (explicit_start llm_start : option instant)
  : option instant :=
  let start_time := explicit_start in
  match explicit_start, llm_start with
  | Some e, Some l => Some (Z.max e l)
  | Some _, None => explicit_start
  | None, Some _ => llm_start
  | None, None => start_time
  end.

Definition fuse_end (explicit_end llm_end : option instant)
  : option instant :=
  let end_time := explicit_end in
  match explicit_end, llm_end with
  | Some e, Some l => Some (Z.min e l)
  | Some _, None => explicit_end
  | None, Some _ => llm_end
  | None, None => end_time
  end.

(** The whole step: [llm_time_range] is [None] when the rewrite call
    failed or returned no range. *)
Definition resolve_time (explicit : window) (llm_time_range : option window)
  : window :=
  let '(explicit_start, explicit_end) := explicit in
  match llm_time_range with
  | None => (explicit_start, explicit_end)
  | Some (llm_start, llm_end) =>
      let start_time := fuse_start explicit_start llm_start in
      let end_time := fuse_end explicit_end llm_end in
      if inverted (start_time, end_time) then
        if is_set explicit_start || is_set explicit_end
        then (explicit_start, explicit_end)
        else (llm_start, llm_end)
      else (start_time, end_time)
  end.

(** The rule in the words of the specification: the maximum of the
    starts that are present, the minimum of the ends that are present. *)
Definition present (bounds : list (option instant)) : list instant :=
  omap id bounds.

Definition max_of (l : list instant) : option instant :=
  match l with
  | [] => None
  | x :: l' => Some (foldr Z.max x l')
  end.

Definition min_of (l : list instant) : option instant :=
  match l with
  | [] => None
  | x :: l' => Some (foldr Z.min x l')
  end.

Definition intersection (explicit inferred : window) : window :=
  (max_of (present [explicit.1; inferred.1]),
   min_of (present [explicit.2; inferred.2])).

Definition spec_resolve (explicit inferred : window) : window :=
  let w := intersection explicit inferred in
  match w with
  | (Some s, Some e) =>
      if e <? s then
        match explicit with
        | (None, None) => inferred
        | _ => explicit
        end
      else w
  | _ => w
  end.

Definition no_window : window := (None, None).

Definition closed (s e : instant) : window := (Some s, Some e).

(** C2. For all explicit and inferred windows, with any bound absent,
    the window the handler computes is the one the rule describes: the
    intersection (max of the present starts, min of the present ends),
    unless its start exceeds its end, in which case the explicit window
    is returned unchanged when it has a bound and the inferred window
    otherwise; an absent model window behaves as one with no bounds.
    The three examples of the specification are instances. *)
Theorem resolve_time_is_intersection_with_fallback :
  (∀ explicit inferred : window,
     resolve_time explicit (Some inferred) = spec_resolve explicit inferred)
  ∧ (∀ explicit : window,
       resolve_time explicit None = spec_resolve explicit no_window)
  ∧ resolve_time (closed 10 20) (Some (closed 15 25)) = closed 15 20
  ∧ resolve_time (closed 10 20) (Some (closed 25 30)) = closed 10 20
  ∧ resolve_time no_window (Some (closed 5 9)) = closed 5 9.
Proof.
  split; [|split; [|repeat split]].
  - intros [[es|] [ee|]] [[ls|] [le|]]; unfold resolve_time, spec_resolve,
      intersection; simpl; try reflexivity.
    all: rewrite ?(Z.max_comm ls es), ?(Z.min_comm le ee).
    all: repeat case_match; simplify_eq; try reflexivity; try lia.
  - intros [[es|] [ee|]]; unfold resolve_time, spec_resolve, intersection;
      simpl; try reflexivity.
    by destruct (ee <? es).
Qed.

End TimeFusion.

(** ** The batch write buffer ([BatchWriteBuffer]) *)

Module Batch.

Import Frame.

(** What the server does that can be observed from outside: the calls
    to the two stores and to the other collaborators, and the log lines.
    The buffer itself issues the first two calls and the log lines. *)
Inductive log_line :=
| BatchSizeReached
| IntervalReached
| BatchWriteStart (n : nat)
| BatchWriteOk (n : nat)
| BatchWriteFailed
| SqliteWriteFailed (fid : string)
| BatchWriteRaised
| InvalidTimestamp (timestamp : string)
| OcrFailed (fid : string).

Inductive event :=
| CallStoreFramesBatch (frames : list frame_data)
| CallStoreFrameWithOcr (row : sqlite_row)
| CallImageSave (path : string)
| CallEncodeImage (path : string)
| CallOcrRecognize (fid : string)
| CallAddFrame (frame_data : frame_data)
| LogInfo (l : log_line)
| LogError (l : log_line).

Record buffer_state := BufferState {
  batch_size : Z;
  flush_interval : Q;
  buffer : list frame_data;
  last_flush_time : Q
}.

Section Stores.

(** The two stores are external: their states and the results of their
    write calls are left open. *)
Context {vdb sdb : Type}.
Variable store_frames_batch : list frame_data → vdb → outcome bool * vdb.
Variable store_frame_with_ocr : sqlite_row → sdb → outcome unit * sdb.

Record world := World {
  bwb : buffer_state;
  vector_storage : option vdb;
  sqlite_storage : option sdb;
  trace : list event
}.

Definition emit (e : event) : M world unit :=
  modify (λ w, World (bwb w) (vector_storage w) (sqlite_storage w)
                 (trace w ++ [e])).

Definition set_bwb (b : buffer_state) : M world unit :=
  modify (λ w, World b (vector_storage w) (sqlite_storage w) (trace w)).

(** [vector_storage.store_frames_batch(frames_to_write)] *)
Definition call_store_frames_batch (frames : list frame_data) (v : vdb)
  : M world bool :=
  λ w, let r := store_frames_batch frames v in
       (r.1, World (bwb w) (Some r.2) (sqlite_storage w)
               (trace w ++ [CallStoreFramesBatch frames])).

(** [sqlite_storage.store_frame_with_ocr(frame_id=..., ...)] *)
Definition call_store_frame_with_ocr (row : sqlite_row) : M world unit :=
  λ w, match sqlite_storage w with
       | Some s =>
           let r := store_frame_with_ocr row s in
           (r.1, World (bwb w) (vector_storage w) (Some r.2)
                   (trace w ++ [CallStoreFrameWithOcr row]))
       | None => (Raised RuntimeError, w)
       end.

(** The part of [_flush_buffer] after the lock is released. *)
Definition write_frames (frames_to_write : list frame_data) : M world unit :=
  try_except
    (do! emit (LogInfo (BatchWriteStart (length frames_to_write))) in
     let! w := get in
     do! match vector_storage w with
         | Some v =>
             let! success := call_store_frames_batch frames_to_write v in
             if success
             then emit (LogInfo (BatchWriteOk (length frames_to_write)))
             else emit (LogError BatchWriteFailed)
         | None => ret tt
         end in
     let! w := get in
     match sqlite_storage w with
     | Some _ =>
         for_each frames_to_write (λ frame_data,
           try_except
             (call_store_frame_with_ocr (row_of frame_data))
             (λ e, emit (LogError (SqliteWriteFailed (frame_id frame_data)))))
     | None => ret tt
     end)
    (λ e, emit (LogError BatchWriteRaised)).

(** [_flush_buffer]; [now] is the value [time.time()] returns. *)
Definition _flush_buffer (now : Q) : M world unit :=
  let! w := get in
  match buffer (bwb w) with
  | [] => ret tt
  | _ :: _ =>
      let frames_to_write := buffer (bwb w) in
      do! set_bwb (BufferState (batch_size (bwb w)) (flush_interval (bwb w))
                     [] now) in
      match frames_to_write with
      | [] => ret tt
      | _ :: _ => write_frames frames_to_write
      end
  end.

(** [add_frame] *)
Definition add_frame (now : Q) (frame_data : frame_data) : M world unit :=
  let! w := get in
  let b := bwb w in
  let buffer' := buffer b ++ [frame_data] in
  do! set_bwb (BufferState (batch_size b) (flush_interval b) buffer'
                 (last_flush_time b)) in
  let should_flush := batch_size b <=? Z.of_nat (length buffer') in
  do! (if should_flush then emit (LogInfo BatchSizeReached) else ret tt) in
  if should_flush then _flush_buffer now else ret tt.

(** One round of the loop of [_periodic_flush], after its [sleep(1)]:
    [now] is the clock read under the lock, [now'] the one the flush
    reads. *)
Definition periodic_tick (now now' : Q) : M world unit :=
  let! w := get in
  let elapsed := (now - last_flush_time (bwb w))%Q in
  let should_flush :=
    Qle_bool (flush_interval (bwb w)) elapsed
    && (0 <? Z.of_nat (length (buffer (bwb w)))) in
  if should_flush
  then do! emit (LogInfo IntervalReached) in _flush_buffer now'
  else ret tt.

(** [stop], once the ticker thread has been joined, and the handler of
    [/api/recording/stop]: both call [_flush_buffer] directly. *)
Definition stop (now : Q) : M world unit := _flush_buffer now.

(** The events an operation adds to the trace. *)
Definition emitted {A} (m : M world A) (w : world) : list event :=
  drop (length (trace w)) (trace (m w).2).

Definition is_batch_start (e : event) : bool :=
  match e with
  | LogInfo (BatchWriteStart _) => true
  | _ => false
  end.

(** An operation flushed when it handed a batch to the writers. *)
Definition flushed (evs : list event) : bool :=
  existsb is_batch_start evs.

Definition is_sqlite_call (e : event) : bool :=
  match e with
  | CallStoreFrameWithOcr _ => true
  | _ => false
  end.

Definition is_batch_call (e : event) : bool :=
  match e with
  | CallStoreFramesBatch _ => true
  | _ => false
  end.

(** What the per-entry loop leaves behind: the store after the calls
    and, per entry, the call followed by an error line when it raised. *)
Fixpoint sqlite_pass (frames : list frame_data) (s : sdb) : sdb * list event :=
  match frames with
  | [] => (s, [])
  | fd :: l =>
      let r := store_frame_with_ocr (row_of fd) s in
      let p := sqlite_pass l r.2 in
      (p.1,
       CallStoreFrameWithOcr (row_of fd)
       :: (if is_returned r.1 then []
           else [LogError (SqliteWriteFailed (frame_id fd))]) ++ p.2)
  end.

(** The line logged after the batched call, by its result. *)
Definition batch_verdict (n : nat) (r : outcome bool) : event :=
  match r with
  | Returned true => LogInfo (BatchWriteOk n)
  | Returned false => LogError BatchWriteFailed
  | Raised _ => LogError BatchWriteRaised
  end.

Definition write_result (frames : list frame_data) (w : world) : world :=
  let start := LogInfo (BatchWriteStart (length frames)) in
  match vector_storage w with
  | None =>
      match sqlite_storage w with
      | None => World (bwb w) None None (trace w ++ [start])
      | Some s =>
          let p := sqlite_pass frames s in
          World (bwb w) None (Some p.1) (trace w ++ start :: p.2)
      end
  | Some v =>
      let r := store_frames_batch frames v in
      let evs := [start; CallStoreFramesBatch frames;
                  batch_verdict (length frames) r.1] in
      match r.1, sqlite_storage w with
      | Returned _, Some s =>
          let p := sqlite_pass frames s in
          World (bwb w) (Some r.2) (Some p.1) (trace w ++ evs ++ p.2)
      | _, ss => World (bwb w) (Some r.2) ss (trace w ++ evs)
      end
  end.

Lemma for_each_sqlite (frames : list frame_data) (b : buffer_state)
    (vs : option vdb) (s : sdb) (tr : list event) :
  for_each frames (λ frame_data,
      try_except (call_store_frame_with_ocr (row_of frame_data))
        (λ e, emit (LogError (SqliteWriteFailed (frame_id frame_data)))))
    (World b vs (Some s) tr)
  = (Returned tt,
     World b vs (Some (sqlite_pass frames s).1)
       (tr ++ (sqlite_pass frames s).2)).
Proof.
  revert s tr. induction frames as [|fd l IH]; intros s tr.
  - simpl. unfold ret. by rewrite app_nil_r.
  - cbn [for_each sqlite_pass]. unfold bind at 1.
    unfold try_except, call_store_frame_with_ocr. cbn [sqlite_storage].
    destruct (store_frame_with_ocr (row_of fd) s) as [[[]|e] s'] eqn:Hcall;
      cbn [fst snd is_returned bwb vector_storage trace].
    + rewrite IH. cbn -[sqlite_pass]. by rewrite <- app_assoc.
    + unfold emit, modify. cbn [bwb vector_storage sqlite_storage trace].
      rewrite IH. cbn -[sqlite_pass]. by rewrite <- !app_assoc.
Qed.

Lemma write_frames_eq (frames : list frame_data) (w : world) :
  write_frames frames w = (Returned tt, write_result frames w).
Proof.
  destruct w as [b vs ss tr].
  unfold write_frames, write_result, try_except.
  unfold bind at 1. unfold emit at 1, modify at 1.
  cbn [bwb vector_storage sqlite_storage trace].
  unfold bind at 1, get at 1. cbn [vector_storage].
  destruct vs as [v|].
  - unfold bind at 1 2, call_store_frames_batch.
    cbn [bwb vector_storage sqlite_storage trace].
    destruct (store_frames_batch frames v) as [[[|]|e] v'] eqn:Hcall;
      cbn [fst snd batch_verdict];
      unfold emit, modify; cbn [bwb vector_storage sqlite_storage trace].
    1,2: unfold bind, get; cbn [sqlite_storage];
      destruct ss as [s|];
      [rewrite for_each_sqlite; by rewrite <- !app_assoc
      |unfold ret; by rewrite <- !app_assoc].
    destruct ss; by rewrite <- !app_assoc.
  - unfold bind at 1, ret at 1. unfold bind, get. cbn [sqlite_storage].
    destruct ss as [s|]; [|done].
    rewrite for_each_sqlite. by rewrite <- app_assoc.
Qed.

Lemma sqlite_pass_calls (frames : list frame_data) (s : sdb) :
  filter (λ e, is_sqlite_call e = true) (sqlite_pass frames s).2
  = (λ fd, CallStoreFrameWithOcr (row_of fd)) <$> frames.
Proof.
  revert s. induction frames as [|fd l IH]; intros s; [done|].
  cbn [sqlite_pass snd fmap list_fmap].
  rewrite filter_cons_True by done. f_equal.
  rewrite filter_app, IH.
  by destruct (is_returned _).
Qed.

(** The entries whose per-entry write raised, in order. *)
Fixpoint sqlite_failed (frames : list frame_data) (s : sdb) : list frame_data :=
  match frames with
  | [] => []
  | fd :: l =>
      let r := store_frame_with_ocr (row_of fd) s in
      (if is_returned r.1 then [] else [fd]) ++ sqlite_failed l r.2
  end.

Definition is_sqlite_error (e : event) : bool :=
  match e with
  | LogError (SqliteWriteFailed _) => true
  | _ => false
  end.

Lemma sqlite_pass_errors (frames : list frame_data) (s : sdb) :
  filter (λ e, is_sqlite_error e = true) (sqlite_pass frames s).2
  = (λ fd, LogError (SqliteWriteFailed (frame_id fd))) <$> sqlite_failed frames s.
Proof.
  revert s. induction frames as [|fd l IH]; intros s; [done|].
  cbn [sqlite_pass sqlite_failed snd].
  rewrite filter_cons_False by (simpl; congruence).
  rewrite filter_app, IH, fmap_app.
  by destruct (is_returned _).
Qed.

Lemma sqlite_pass_no_batch_call (frames : list frame_data) (s : sdb) :
  filter (λ e, is_batch_call e = true) (sqlite_pass frames s).2 = [].
Proof.
  revert s. induction frames as [|fd l IH]; intros s; [done|].
  cbn [sqlite_pass snd].
  rewrite filter_cons_False by (simpl; congruence).
  rewrite filter_app, IH.
  by destruct (is_returned _).
Qed.

Lemma sqlite_pass_no_start (frames : list frame_data) (s : sdb) :
  existsb is_batch_start (sqlite_pass frames s).2 = false.
Proof.
  revert s. induction frames as [|fd l IH]; intros s; [done|].
  cbn [sqlite_pass snd existsb is_batch_start].
  rewrite existsb_app, IH.
  by destruct (is_returned _).
Qed.

Lemma emitted_app {A} (m : M world A) (w : world) (evs : list event) :
  trace (m w).2 = trace w ++ evs → emitted m w = evs.
Proof. intros H. unfold emitted. rewrite H. apply drop_app_length. Qed.

(** The writers keep the buffer object as it is and extend the trace,
    starting with the line that announces the batch. *)
Lemma write_result_trace (frames : list frame_data) (w : world) :
  bwb (write_result frames w) = bwb w
  ∧ ∃ evs, trace (write_result frames w)
           = trace w ++ LogInfo (BatchWriteStart (length frames)) :: evs.
Proof.
  unfold write_result.
  destruct (vector_storage w) as [v|].
  - destruct (store_frames_batch frames v) as [[b|e] v']; cbn [fst snd];
      destruct (sqlite_storage w); cbn [bwb trace]; eauto.
  - destruct (sqlite_storage w); cbn [bwb trace]; eauto.
Qed.

Lemma flush_buffer_eq (now : Q) (w : world) :
  _flush_buffer now w
  = (Returned tt,
     match buffer (bwb w) with
     | [] => w
     | _ :: _ =>
         write_result (buffer (bwb w))
           (World (BufferState (batch_size (bwb w)) (flush_interval (bwb w))
                     [] now)
              (vector_storage w) (sqlite_storage w) (trace w))
     end).
Proof.
  unfold _flush_buffer, bind at 1, get.
  destruct (buffer (bwb w)) as [|fd l] eqn:Hb; [done|].
  unfold bind, set_bwb, modify. by rewrite write_frames_eq.
Qed.

Lemma flush_buffer_flushed (now : Q) (w : world) :
  (_flush_buffer now w).1 = Returned tt
  ∧ buffer (bwb (_flush_buffer now w).2) = []
  ∧ flushed (emitted (_flush_buffer now) w)
    = negb (bool_decide (buffer (bwb w) = [])).
Proof.
  rewrite flush_buffer_eq. cbn [fst snd]. split; [done|].
  destruct (buffer (bwb w)) as [|fd l] eqn:Hb.
  - split; [done|]. unfold emitted. rewrite flush_buffer_eq, Hb. cbn [snd].
    by rewrite drop_all.
  - set (w1 := World _ _ _ _).
    destruct (write_result_trace (fd :: l) w1) as [Hbwb [evs Htr]].
    split; [by rewrite Hbwb|].
    rewrite (emitted_app _ _ (LogInfo (BatchWriteStart (length (fd :: l))) :: evs)).
    + done.
    + rewrite flush_buffer_eq, Hb. cbn [snd]. fold w1. by rewrite Htr.
Qed.

Lemma add_frame_eq (now : Q) (fd : frame_data) (w : world) :
  add_frame now fd w
  = (Returned tt,
     if batch_size (bwb w) <=? Z.of_nat (length (buffer (bwb w))) + 1
     then write_result (buffer (bwb w) ++ [fd])
            (World (BufferState (batch_size (bwb w)) (flush_interval (bwb w))
                      [] now)
               (vector_storage w) (sqlite_storage w)
               (trace w ++ [LogInfo BatchSizeReached]))
     else World (BufferState (batch_size (bwb w)) (flush_interval (bwb w))
                   (buffer (bwb w) ++ [fd]) (last_flush_time (bwb w)))
            (vector_storage w) (sqlite_storage w) (trace w)).
Proof.
  unfold add_frame, bind at 1, get. unfold bind at 1, set_bwb, modify.
  rewrite length_app, Nat2Z.inj_add.
  change (Z.of_nat (length [fd])) with 1.
  destruct (batch_size (bwb w) <=? Z.of_nat (length (buffer (bwb w))) + 1).
  - unfold bind, emit, modify. rewrite flush_buffer_eq.
    cbn [bwb buffer batch_size flush_interval vector_storage
         sqlite_storage trace].
    destruct (buffer (bwb w) ++ [fd]) eqn:Happ; [|done].
    by apply app_eq_nil in Happ as [_ ?].
  - unfold bind, ret. done.
Qed.

(** The events the writers add, and what they can be. *)
Definition write_events (frames : list frame_data) (w : world) : list event :=
  drop (length (trace w)) (trace (write_result frames w)).

Definition is_buffer_event (e : event) : bool :=
  match e with
  | CallStoreFramesBatch _ | CallStoreFrameWithOcr _ | LogInfo _ | LogError _ =>
      true
  | _ => false
  end.

Lemma write_result_trace_eq (frames : list frame_data) (w : world) :
  trace (write_result frames w) = trace w ++ write_events frames w.
Proof.
  unfold write_events.
  destruct (write_result_trace frames w) as [_ [evs ->]].
  by rewrite drop_app_length.
Qed.

Lemma sqlite_pass_buffer_events (frames : list frame_data) (s : sdb) :
  Forall (λ e, is_buffer_event e = true) (sqlite_pass frames s).2.
Proof.
  revert s. induction frames as [|fd l IH]; intros s; [constructor|].
  cbn [sqlite_pass snd]. constructor; [done|].
  apply Forall_app. split; [|apply IH].
  destruct (is_returned _); repeat constructor.
Qed.

Lemma write_events_buffer_events (frames : list frame_data) (w : world) :
  Forall (λ e, is_buffer_event e = true) (write_events frames w).
Proof.
  unfold write_events, write_result.
  destruct (vector_storage w) as [v|].
  - destruct (store_frames_batch frames v) as [[b|e] v']; cbn [fst snd].
    + destruct (sqlite_storage w) as [s|]; cbn [trace];
        rewrite drop_app_length.
      * repeat (constructor; [by destruct b|]). apply sqlite_pass_buffer_events.
      * repeat (constructor; [by destruct b|]). constructor.
    + destruct (sqlite_storage w); cbn [trace]; rewrite drop_app_length;
        repeat constructor.
  - destruct (sqlite_storage w) as [s|]; cbn [trace]; rewrite drop_app_length.
    + constructor; [done|]. apply sqlite_pass_buffer_events.
    + repeat constructor.
Qed.

(** Every row the writers hand to the secondary index is the row of an
    entry of the batch. *)
Lemma write_events_rows (frames : list frame_data) (w : world) :
  filter (λ e, is_sqlite_call e = true) (write_events frames w) = []
  ∨ filter (λ e, is_sqlite_call e = true) (write_events frames w)
    = (λ fd, CallStoreFrameWithOcr (row_of fd)) <$> frames.
Proof.
  unfold write_events, write_result.
  destruct (vector_storage w) as [v|].
  - destruct (store_frames_batch frames v) as [[b|e] v']; cbn [fst snd].
    + destruct (sqlite_storage w) as [s|]; cbn [trace];
        rewrite drop_app_length.
      * right. rewrite filter_app, sqlite_pass_calls. by destruct b.
      * left. by destruct b.
    + left. destruct (sqlite_storage w); cbn [trace];
        by rewrite drop_app_length.
  - destruct (sqlite_storage w) as [s|]; cbn [trace]; rewrite drop_app_length.
    + right. rewrite filter_cons_False by (simpl; congruence).
      apply sqlite_pass_calls.
    + by left.
Qed.

(** C3. Sequentially, the buffer hands a batch to the writers in
    [add_frame] exactly when the size after the append has reached
    [batch_size], and then inside that call, which returns with the
    buffer empty; in a round of the ticker exactly when the elapsed time
    has reached [flush_interval] and the buffer is not empty; after a
    flush the buffer is empty; [stop] is a direct call of the flush; and
    a flush of an empty buffer changes nothing and emits nothing. *)
Theorem batch_flush_triggers (now now' : Q) (fd : frame_data) (w : world) :
  let b := bwb w in
  let size_reached := batch_size b <=? Z.of_nat (length (buffer b)) + 1 in
  let interval_reached :=
    Qle_bool (flush_interval b) (now - last_flush_time b)%Q
    && negb (bool_decide (buffer b = [])) in
  ((add_frame now fd w).1 = Returned tt
   ∧ flushed (emitted (add_frame now fd) w) = size_reached
   ∧ buffer (bwb (add_frame now fd w).2)
     = (if size_reached then [] else buffer b ++ [fd])
   ∧ (add_frame now fd w).2
     = (if size_reached
        then write_result (buffer b ++ [fd])
               (World (BufferState (batch_size b) (flush_interval b) [] now)
                  (vector_storage w) (sqlite_storage w)
                  (trace w ++ [LogInfo BatchSizeReached]))
        else World (BufferState (batch_size b) (flush_interval b)
                      (buffer b ++ [fd]) (last_flush_time b))
               (vector_storage w) (sqlite_storage w) (trace w)))
  ∧ ((periodic_tick now now' w).1 = Returned tt
     ∧ flushed (emitted (periodic_tick now now') w) = interval_reached
     ∧ buffer (bwb (periodic_tick now now' w).2)
       = (if interval_reached then [] else buffer b))
  ∧ (buffer (bwb (_flush_buffer now w).2) = []
     ∧ stop now w = _flush_buffer now w
     ∧ (buffer b = [] →
        _flush_buffer now w = (Returned tt, w)
        ∧ emitted (_flush_buffer now) w = [])).
Proof.
  intros b size_reached interval_reached.
  split; [|split].
  - pose proof (add_frame_eq now fd w) as Hadd.
    fold b in Hadd. fold size_reached in Hadd.
    rewrite Hadd. cbn [fst snd]. split; [done|].
    split; [|split; [|done]].
    + destruct size_reached.
      * set (w1 := World _ _ _ _) in *.
        destruct (write_result_trace (buffer b ++ [fd]) w1) as [_ [evs Htr]].
        rewrite (emitted_app _ _
          (LogInfo BatchSizeReached
           :: LogInfo (BatchWriteStart (length (buffer b ++ [fd]))) :: evs)).
        -- done.
        -- rewrite Hadd. cbn [snd]. rewrite Htr. subst w1. cbn [trace].
           by rewrite <- app_assoc.
      * rewrite (emitted_app _ _ []); [done|].
        rewrite Hadd. cbn [snd trace]. by rewrite app_nil_r.
    + destruct size_reached; [|done].
      set (w1 := World _ _ _ _).
      by destruct (write_result_trace (buffer b ++ [fd]) w1) as [-> _].
  - assert (Hnil : (0 <? Z.of_nat (length (buffer b)))
                   = negb (bool_decide (buffer b = []))).
    { destruct (buffer b); [done|]. cbn [length].
      rewrite bool_decide_eq_false_2 by done. simpl negb.
      apply Z.ltb_lt. lia. }
    assert (Htick : periodic_tick now now' w
      = if interval_reached
        then _flush_buffer now'
               (World b (vector_storage w) (sqlite_storage w)
                  (trace w ++ [LogInfo IntervalReached]))
        else (Returned tt, w)).
    { unfold periodic_tick, bind at 1, get. fold b. rewrite Hnil.
      fold interval_reached. destruct interval_reached; [|done].
      unfold bind, emit, modify. done. }
    rewrite Htick. destruct interval_reached eqn:Hint.
    + set (w1 := World _ _ _ _).
      destruct (flush_buffer_flushed now' w1) as (Hret & Hbuf & _).
      split; [done|]. split; [|done].
      apply andb_true_iff in Hint as [_ Hne].
      apply negb_true_iff, bool_decide_eq_false in Hne.
      destruct (buffer b) as [|fd0 l] eqn:Hb; [done|].
      assert (H1 : _flush_buffer now' w1
                   = (Returned tt,
                      write_result (fd0 :: l)
                        (World (BufferState (batch_size b) (flush_interval b)
                                  [] now')
                           (vector_storage w) (sqlite_storage w)
                           (trace w ++ [LogInfo IntervalReached]))))
        by (rewrite flush_buffer_eq; subst w1; cbn [bwb]; by rewrite Hb).
      set (w2 := World _ _ _ _) in H1.
      destruct (write_result_trace (fd0 :: l) w2) as [_ [evs Htr]].
      rewrite (emitted_app _ _
        (LogInfo IntervalReached
         :: LogInfo (BatchWriteStart (length (fd0 :: l))) :: evs)).
      * done.
      * rewrite Htick. fold w1. rewrite H1. cbn [snd]. rewrite Htr.
        subst w2. cbn [trace]. by rewrite <- app_assoc.
    + split; [done|]. split; [|done].
      rewrite (emitted_app _ _ []); [done|].
      rewrite Htick. cbn [snd]. by rewrite app_nil_r.
  - destruct (flush_buffer_flushed now w) as (_ & Hbuf & _).
    split; [done|]. split; [done|]. intros Hb.
    assert (H1 : _flush_buffer now w = (Returned tt, w))
      by (rewrite flush_buffer_eq; fold b; by rewrite Hb).
    split; [done|].
    rewrite (emitted_app _ _ []); [done|].
    rewrite H1. cbn [snd]. by rewrite app_nil_r.
Qed.

(** C6 (as amended). A flush of a non-empty buffer, with both stores
    initialised, never raises and issues exactly one batched call to the
    vector index, carrying the whole batch.  When that call returns,
    whether it reports success or failure (the failure is logged), one
    call to the secondary index is made for every entry, in order,
    whatever the results of the other entries' calls, and each call that
    raises is logged.  When the batched call raises, the flush logs it
    and makes no call to the secondary index. *)
Theorem flush_writes_per_store (now : Q) (bs : Z) (fi lft : Q)
    (fd : frame_data) (rest : list frame_data) (v : vdb) (s : sdb)
    (tr : list event) :
  let frames := fd :: rest in
  let n := length frames in
  let w := World (BufferState bs fi frames lft) (Some v) (Some s) tr in
  let evs := emitted (_flush_buffer now) w in
  (_flush_buffer now w).1 = Returned tt
  ∧ filter (λ e, is_batch_call e = true) evs = [CallStoreFramesBatch frames]
  ∧ match (store_frames_batch frames v).1 with
    | Returned success =>
        evs = [LogInfo (BatchWriteStart n); CallStoreFramesBatch frames;
               if success then LogInfo (BatchWriteOk n)
               else LogError BatchWriteFailed]
              ++ (sqlite_pass frames s).2
        ∧ filter (λ e, is_sqlite_call e = true) evs
          = (λ fd, CallStoreFrameWithOcr (row_of fd)) <$> frames
        ∧ filter (λ e, is_sqlite_error e = true) evs
          = (λ fd, LogError (SqliteWriteFailed (frame_id fd)))
              <$> sqlite_failed frames s
    | Raised _ =>
        evs = [LogInfo (BatchWriteStart n); CallStoreFramesBatch frames;
               LogError BatchWriteRaised]
    end.
Proof.
  intros frames n w evs.
  assert (Hrun : _flush_buffer now w
    = (Returned tt,
       write_result frames (World (BufferState bs fi [] now) (Some v) (Some s) tr)))
    by (by rewrite flush_buffer_eq).
  split; [by rewrite Hrun|].
  assert (Hevs : evs
    = [LogInfo (BatchWriteStart n); CallStoreFramesBatch frames;
       batch_verdict n (store_frames_batch frames v).1]
      ++ (if is_returned (store_frames_batch frames v).1
          then (sqlite_pass frames s).2 else [])).
  { subst evs. apply emitted_app. rewrite Hrun. cbn [snd].
    unfold write_result. cbn [vector_storage sqlite_storage trace bwb].
    fold n. destruct (store_frames_batch frames v) as [[b|e] v'];
      cbn [fst snd is_returned trace]; [done|]. by rewrite app_nil_r. }
  rewrite Hevs. clear Hevs Hrun.
  destruct (store_frames_batch frames v) as [[b|e] v'];
    cbn [fst snd is_returned batch_verdict].
  - pose proof (sqlite_pass_calls frames s) as Hc.
    pose proof (sqlite_pass_errors frames s) as He.
    pose proof (sqlite_pass_no_batch_call frames s) as Hb.
    rewrite !filter_app, Hc, He, Hb.
    destruct b; done.
  - done.
Qed.

End Stores.

(** A vector index whose batched write raises, a secondary index that
    accepts every row, and a buffer holding one entry. *)
Definition raising_batch (frames : list frame_data) (v : unit)
  : outcome bool * unit := (Raised IOError, v).

Definition accepting_row (row : sqlite_row) (s : unit)
  : outcome unit * unit := (Returned tt, s).

Definition accepting_batch (frames : list frame_data) (v : unit)
  : outcome bool * unit := (Returned true, v).

Definition sample_frame : frame_data :=
  FrameData "20251201_143025_123456"
    (Datetime.Mk 2025 12 1 14 30 25 123456) "jpeg" [] EmptyString
    "/data/20251201/20251201_143025_123456.jpg" EmptyString "pending" 0
    "remote-gui" "{}".

Definition one_entry_world : world :=
  World (BufferState 10 60 [sample_frame] 0) (Some tt) (Some tt) [].

(** Counterexample to C6 as stated: the batched write fails by raising,
    and the flush attempts no secondary-index write for the entry. *)
Lemma raising_batch_write_skips_sqlite :
  (raising_batch [sample_frame] tt).1 = Raised IOError
  ∧ emitted (_flush_buffer raising_batch accepting_row 1) one_entry_world
    = [LogInfo (BatchWriteStart 1); CallStoreFramesBatch [sample_frame];
       LogError BatchWriteRaised]
  ∧ filter (λ e, is_sqlite_call e = true)
      (emitted (_flush_buffer raising_batch accepting_row 1) one_entry_world)
    = [].
Proof. by vm_compute. Qed.

(** Nine entries added to a buffer with batch size 10 and interval 60:
    they stay in the buffer, a ticker round at 59 leaves them there, and
    either a tenth entry or a ticker round at 60 hands them to the
    writers. *)
Definition nine_added : world :=
  foldl (λ w now, (add_frame accepting_batch accepting_row now sample_frame w).2)
    (World (BufferState 10 60 [] 0) (Some tt) (Some tt) [])
    [1%Q; 2%Q; 3%Q; 4%Q; 5%Q; 6%Q; 7%Q; 8%Q; 9%Q].

Example nine_entries_wait :
  length (buffer (bwb nine_added)) = 9%nat
  ∧ trace nine_added = []
  ∧ (periodic_tick accepting_batch accepting_row 59 59 nine_added).2
    = nine_added
  ∧ buffer (bwb (periodic_tick accepting_batch accepting_row 60 60
                   nine_added).2) = []
  ∧ filter (λ e, is_batch_call e = true)
      (trace (periodic_tick accepting_batch accepting_row 60 60 nine_added).2)
    = [CallStoreFramesBatch (replicate 9 sample_frame)]
  ∧ filter (λ e, is_batch_call e = true)
      (trace (add_frame accepting_batch accepting_row 10 sample_frame
                nine_added).2)
    = [CallStoreFramesBatch (replicate 10 sample_frame)].
Proof. by vm_compute. Qed.

End Batch.

(** ** The frame-difference filter ([RecordWorker._should_keep_frame]) *)

Module Dedup.

Section Filter.

(** Images and the score function [calculate_normalized_rms_diff] come
    from outside this file; the score is a number in [0, 1], taken here
    as a rational.  [threshold] is [config.SIMPLE_FILTER_DIFF_THRESHOLD]. *)
Context {image : Type}.
Variable calculate_normalized_rms_diff : image → image → Q.
Variable threshold : Q.

(** The method, with [self.last_frame_image] passed in and out. *)
Definition _should_keep_frame (last_frame_image : option image) (img : image)
  : bool * option image :=
  match last_frame_image with
  | None => (true, Some img)
  | Some baseline =>
      let diff_score := calculate_normalized_rms_diff baseline img in
      if Qlt_le_dec diff_score threshold
      then (false, Some baseline)
      else (true, Some img)
  end.

(** The capture loop applies the filter to the frames in turn. *)
Fixpoint run (last_frame_image : option image) (frames : list image)
  : list (image * bool) :=
  match frames with
  | [] => []
  | img :: rest =>
      let r := _should_keep_frame last_frame_image img in
      (img, r.1) :: run r.2 rest
  end.

(** The baseline after the loop. *)
Definition final (last_frame_image : option image) (frames : list image)
  : option image :=
  foldl (λ st img, (_should_keep_frame st img).2) last_frame_image frames.

Definition kept_frames (decided : list (image * bool)) : list image :=
  fst <$> filter (λ p, p.2 = true) decided.

(** Every kept frame differs from the kept frame before it (or from
    the baseline the run started with) by at least the threshold. *)
Fixpoint chain (baseline : option image) (l : list image) : Prop :=
  match l with
  | [] => True
  | a :: l' =>
      match baseline with
      | None => True
      | Some b => (threshold <= calculate_normalized_rms_diff b a)%Q
      end ∧ chain (Some a) l'
  end.

Lemma should_keep_first (img : image) :
  _should_keep_frame None img = (true, Some img).
Proof. reflexivity. Qed.

Lemma should_keep_next (baseline img : image) :
  let d := calculate_normalized_rms_diff baseline img in
  ((threshold <= d)%Q ∧ _should_keep_frame (Some baseline) img = (true, Some img))
  ∨ ((d < threshold)%Q
     ∧ _should_keep_frame (Some baseline) img = (false, Some baseline)).
Proof.
  intros d. unfold _should_keep_frame. fold d.
  destruct (Qlt_le_dec d threshold); [right|left]; done.
Qed.

Lemma run_app (st : option image) (l1 l2 : list image) :
  run st (l1 ++ l2) = run st l1 ++ run (final st l1) l2.
Proof.
  revert st. induction l1 as [|a l1 IH]; intros st; [done|].
  simpl. by rewrite IH.
Qed.

Lemma run_length (st : option image) (l : list image) :
  length (run st l) = length l.
Proof. revert st. induction l as [|a l IH]; intros st; simpl; auto. Qed.

(** The baseline is the last kept frame, or the initial one when
    nothing was kept. *)
Lemma final_last_kept (st : option image) (l : list image) :
  final st l = match last (kept_frames (run st l)) with
               | Some k => Some k
               | None => st
               end.
Proof.
  revert st. induction l as [|a l IH]; intros st; [by destruct st|].
  unfold final in *. cbn [foldl run]. rewrite IH. unfold kept_frames.
  destruct (_should_keep_frame st a) as [[|] st'] eqn:Hk; cbn [fst snd].
  - rewrite filter_cons_True by done. cbn [fmap list_fmap fst].
    assert (st' = Some a) as ->.
    { unfold _should_keep_frame in Hk. destruct st as [b|]; [|congruence].
      destruct (Qlt_le_dec _ _); congruence. }
    generalize ((filter (λ p : image * bool, p.2 = true) (run (Some a) l)).*1).
    intros [|x ks]; [done|].
    rewrite (last_cons a). by destruct (last (x :: ks)).
  - rewrite filter_cons_False by (simpl; congruence).
    assert (st' = st) as ->; [|done].
    unfold _should_keep_frame in Hk. destruct st as [b|]; [|congruence].
    destruct (Qlt_le_dec _ _); congruence.
Qed.

Lemma kept_chain (st : option image) (l : list image) :
  chain st (kept_frames (run st l)).
Proof.
  revert st. induction l as [|a l IH]; intros st; [done|].
  cbn [run]. unfold kept_frames.
  destruct st as [b|].
  - destruct (should_keep_next b a) as [[Hd ->]|[Hd ->]]; cbn [fst snd].
    + rewrite filter_cons_True by done. split; [done|apply IH].
    + rewrite filter_cons_False by (simpl; congruence). apply IH.
  - rewrite should_keep_first. cbn [fst snd].
    rewrite filter_cons_True by done. split; [done|apply IH].
Qed.

Lemma chain_adjacent (st : option image) (l : list image) (i : nat)
    (a b : image) :
  chain st l → l !! i = Some a → l !! S i = Some b →
  (threshold <= calculate_normalized_rms_diff a b)%Q.
Proof.
  revert st i. induction l as [|x l IH]; intros st i Hc Ha Hb; [done|].
  destruct Hc as [_ Hc]. destruct i as [|i].
  - simpl in Ha. injection Ha as ->.
    destruct l as [|y l]; [done|]. simpl in Hb. injection Hb as ->.
    by destruct Hc.
  - by apply (IH (Some x) i).
Qed.

Lemma should_keep_sets_baseline (st : option image) (img : image) :
  is_Some (_should_keep_frame st img).2.
Proof.
  unfold _should_keep_frame. destruct st as [b|]; [|by eexists].
  destruct (Qlt_le_dec _ _); by eexists.
Qed.

Lemma final_None (st : option image) (l : list image) :
  final st l = None → st = None ∧ l = [].
Proof.
  revert st. induction l as [|a l IH]; intros st H; [done|].
  unfold final in H. cbn [foldl] in H. apply IH in H as [H _].
  destruct (should_keep_sets_baseline st a) as [x Hx]. congruence.
Qed.

(** The decision taken at position [i] of a run. *)
Lemma run_lookup (st : option image) (frames : list image) (i : nat)
    (img : image) (keep : bool) :
  run st frames !! i = Some (img, keep) →
  frames !! i = Some img
  ∧ keep = (_should_keep_frame (final st (take i frames)) img).1.
Proof.
  revert st i. induction frames as [|a l IH]; intros st i H; [done|].
  destruct i as [|i].
  - simpl in H. injection H as <- <-. done.
  - cbn [run] in H. simpl in H. apply IH in H as [H1 H2]. done.
Qed.

(** C4. The first candidate is kept and becomes the baseline.  A later
    candidate is kept exactly when its score against the baseline is at
    least the threshold, and the baseline changes only when it is kept.
    Hence, in a run of the capture loop, the decision at every position
    is taken against the last frame kept before it (a dropped frame
    scores below the threshold against that frame), and any two
    consecutive kept frames score at least the threshold. *)
Theorem dedup_compares_with_last_kept (frames : list image) :
  (∀ img, _should_keep_frame None img = (true, Some img))
  ∧ (∀ baseline img,
       let d := calculate_normalized_rms_diff baseline img in
       let r := _should_keep_frame (Some baseline) img in
       (r.1 = true ↔ (threshold <= d)%Q)
       ∧ (r.1 = false ↔ (d < threshold)%Q)
       ∧ r.2 = Some (if r.1 then img else baseline))
  ∧ (∀ (i : nat) (img : image) (keep : bool),
       run None frames !! i = Some (img, keep) →
       frames !! i = Some img
       ∧ match last (kept_frames (run None (take i frames))) with
         | None => keep = true ∧ i = 0%nat
         | Some k =>
             if keep return Prop
             then (threshold <= calculate_normalized_rms_diff k img)%Q
             else (calculate_normalized_rms_diff k img < threshold)%Q
         end)
  ∧ (∀ (j : nat) (a b : image),
       kept_frames (run None frames) !! j = Some a →
       kept_frames (run None frames) !! S j = Some b →
       (threshold <= calculate_normalized_rms_diff a b)%Q).
Proof.
  split; [done|]. split; [|split].
  - intros baseline img d r. subst r.
    destruct (should_keep_next baseline img) as [[Hd ->]|[Hd ->]];
      fold d in Hd; cbn [fst snd].
    + split; [done|]. split; [|done].
      split; [done|]. intros Hlt. by apply Qlt_not_le in Hlt.
    + split; [|done]. split; [done|]. intros Hle. by apply Qlt_not_le in Hd.
  - intros i img keep H. apply run_lookup in H as [Himg ->].
    split; [done|]. rewrite final_last_kept.
    destruct (last (kept_frames (run None (take i frames)))) as [k|] eqn:Hlast.
    + destruct (should_keep_next k img) as [[Hd ->]|[Hd ->]]; done.
    + split; [done|].
      pose proof (final_last_kept None (take i frames)) as Hf.
      rewrite Hlast in Hf. apply final_None in Hf as [_ Hf].
      destruct i; [done|]. destruct frames; done.
  - intros j a b. apply chain_adjacent with (st := None). apply kept_chain.
Qed.

End Filter.

(** A slow drift with scores taken as distances on a line and threshold
    6: the frame at 4 is dropped, and the frame at 8 is kept because it
    is 8 away from the kept frame at 0, although only 4 away from the
    dropped frame before it. *)
Definition distance (a b : Q) : Q := Qabs (a - b).

Example drift_is_measured_from_last_kept :
  run distance 6 None [0%Q; 4%Q; 8%Q; 10%Q]
  = [(0%Q, true); (4%Q, false); (8%Q, true); (10%Q, false)].
Proof. reflexivity. Qed.

End Dedup.

(** ** Identifier allocation
    ([store_frame], the file-name probe; [RecordWorker._generate_frame_id]) *)

Module Allocator.

Import Datetime.

(** [RecordWorker._generate_frame_id]: the identifier is a function of
    the timestamp alone. *)
Definition _generate_frame_id (timestamp : datetime) : string :=
  strftime_prefix timestamp +:+ zero_pad 6 (microsecond timestamp).

Section Probe.

(** [config.IMAGE_STORAGE_PATH], as an absolute directory. *)
Variable IMAGE_STORAGE_PATH : string.

(** [(date_path / f"{base_frame_id}.jpg").resolve()], where [date_path]
    is computed once, from the request's timestamp. *)
Definition image_path_of (ts : datetime) (base_frame_id : string) : string :=
  IMAGE_STORAGE_PATH +:+ "/" +:+ strftime_date ts +:+ "/"
  +:+ base_frame_id +:+ ".jpg".

(** The storage slot of the identifier with microsecond component [us]. *)
Definition slot (ts : datetime) (us : Z) : string :=
  image_path_of ts (format_id ts us).

(** The [while image_path.exists()] loop; [files] are the paths that
    exist.  [None] means the loop is still running when the fuel ends. *)
Fixpoint probe (fuel : nat) (files : gset string) (ts : datetime)
    (counter : Z) (base_frame_id image_path : string)
  : option (string * string) :=
  match fuel with
  | O => None
  | S fuel' =>
      if bool_decide (image_path ∈ files) then
        let adjusted_microsecond := Z.min (microsecond ts + counter) 999999 in
        let adjusted_ts := replace_microsecond ts adjusted_microsecond in
        let base_frame_id :=
          strftime_prefix adjusted_ts +:+ zero_pad 6 adjusted_microsecond in
        let image_path := image_path_of ts base_frame_id in
        probe fuel' files ts (counter + 1) base_frame_id image_path
      else Some (base_frame_id, image_path)
  end.

(** The identifier and path [store_frame] settles on. *)
Definition allocate (fuel : nat) (files : gset string) (ts : datetime)
  : option (string * string) :=
  let base_frame_id := strftime_prefix ts +:+ zero_pad 6 (microsecond ts) in
  let image_path := image_path_of ts base_frame_id in
  if bool_decide (image_path ∈ files)
  then probe fuel files ts 1 base_frame_id image_path
  else Some (base_frame_id, image_path).

(** [K] frames with the same timestamp stored one after the other; each
    stored image occupies its path. *)
Fixpoint allocate_many (fuel : nat) (files : gset string) (ts : datetime)
    (K : nat) : option (list string * gset string) :=
  match K with
  | O => Some ([], files)
  | S K' =>
      match allocate fuel files ts with
      | None => None
      | Some (base_frame_id, image_path) =>
          match allocate_many fuel ({[image_path]} ∪ files) ts K' with
          | None => None
          | Some (ids, files') => Some (base_frame_id :: ids, files')
          end
      end
  end.

End Probe.

(** Reading back [width] decimal digits. *)
Definition digit_value (a : Ascii.ascii) : Z :=
  Z.of_N (Ascii.N_of_ascii a) - 48.

Fixpoint read_digits (width : nat) (acc : Z) (s : string) : Z :=
  match width, s with
  | S w, String a s' => read_digits w (acc * 10 + digit_value a) s'
  | _, _ => acc
  end.

Lemma append_cons (a : Ascii.ascii) (s t : string) :
  String a s +:+ t = String a (s +:+ t).
Proof. reflexivity. Qed.

Lemma append_assoc (s t u : string) : (s +:+ t) +:+ u = s +:+ (t +:+ u).
Proof.
  induction s as [|a s IH]; [reflexivity|].
  rewrite !append_cons. by rewrite IH.
Qed.

Lemma digit_value_digit (n : Z) : digit_value (digit n) = n mod 10.
Proof.
  unfold digit_value, digit.
  pose proof (Z.mod_pos_bound n 10 ltac:(lia)) as Hb.
  rewrite Ascii.N_ascii_embedding by lia. lia.
Qed.

(** Read-back of a zero-padded number: the format loses nothing. *)
Lemma read_zero_pad (width : nat) (n acc : Z) (rest : string) :
  0 ≤ n < 10 ^ Z.of_nat width →
  read_digits width acc (zero_pad width n +:+ rest)
  = acc * 10 ^ Z.of_nat width + n.
Proof.
  revert n acc rest.
  assert (Hgen : ∀ (w k : nat) (n acc : Z) (rest : string),
    0 ≤ n < 10 ^ Z.of_nat w →
    read_digits (w + k) acc (zero_pad w n +:+ rest)
    = read_digits k (acc * 10 ^ Z.of_nat w + n) rest).
  { induction w as [|w IH]; intros k n acc rest Hn.
    - simpl in *. replace n with 0 by lia. f_equal. lia.
    - cbn [zero_pad]. rewrite append_assoc, append_cons.
      replace (S w + k)%nat with (w + S k)%nat by lia.
      assert (Hdiv : 0 ≤ n / 10 < 10 ^ Z.of_nat w).
      { rewrite Nat2Z.inj_succ, Z.pow_succ_r in Hn by lia.
        split; [apply Z.div_pos; lia|apply Z.div_lt_upper_bound; lia]. }
      rewrite (IH (S k) _ _ _ Hdiv). cbn [read_digits].
      rewrite digit_value_digit. f_equal.
      rewrite Nat2Z.inj_succ, Z.pow_succ_r by lia.
      pose proof (Z.div_mod n 10 ltac:(lia)). lia. }
  intros n acc rest Hn.
  specialize (Hgen width 0%nat n acc rest Hn).
  rewrite Nat.add_0_r in Hgen. rewrite Hgen. by destruct rest.
Qed.

Lemma zero_pad_inj (width : nat) (a b : Z) (rest : string) :
  0 ≤ a < 10 ^ Z.of_nat width → 0 ≤ b < 10 ^ Z.of_nat width →
  zero_pad width a +:+ rest = zero_pad width b +:+ rest → a = b.
Proof.
  intros Ha Hb Heq.
  pose proof (read_zero_pad width a 0 rest Ha) as Ra.
  pose proof (read_zero_pad width b 0 rest Hb) as Rb.
  rewrite Heq in Ra. lia.
Qed.

Lemma strftime_prefix_replace (ts : datetime) (us : Z) :
  strftime_prefix (replace_microsecond ts us) = strftime_prefix ts.
Proof. reflexivity. Qed.

(** Different microsecond components give different storage slots (and
    different identifiers). *)
Lemma slot_inj (root : string) (ts : datetime) (a b : Z) :
  0 ≤ a ≤ 999999 → 0 ≤ b ≤ 999999 →
  slot root ts a = slot root ts b → a = b.
Proof.
  intros Ha Hb. unfold slot, image_path_of, format_id.
  intros H. do 4 apply String.app_inj in H.
  rewrite !append_assoc in H. apply String.app_inj in H.
  apply (zero_pad_inj 6 a b ".jpg"); [lia|lia|done].
Qed.

Lemma format_id_inj (ts : datetime) (a b : Z) :
  0 ≤ a ≤ 999999 → 0 ≤ b ≤ 999999 →
  format_id ts a = format_id ts b → a = b.
Proof.
  intros Ha Hb H. unfold format_id in H. apply String.app_inj in H.
  apply (zero_pad_inj 6 a b EmptyString); [lia|lia|by rewrite H].
Qed.

Section ProbeFacts.

Variable root : string.
Variable files : gset string.
Variable ts : datetime.

(** The microsecond component the loop is looking at when its counter
    is [c]. *)
Definition current (c : Z) : Z := Z.min (microsecond ts + c - 1) 999999.

(** With a free slot ahead and fuel to reach it, the loop stops at the
    first free slot. *)
Lemma probe_finds (fuel : nat) (c m : Z) :
  current c ≤ m ≤ 999999 →
  slot root ts m ∉ files →
  (Z.to_nat (m - current c) < fuel)%nat →
  ∃ m', (current c ≤ m' ≤ m)
        ∧ (slot root ts m' ∉ files)
        ∧ (∀ j, current c ≤ j < m' → slot root ts j ∈ files)
        ∧ probe root fuel files ts c (format_id ts (current c))
            (slot root ts (current c))
          = Some (format_id ts m', slot root ts m').
Proof.
  revert c. induction fuel as [|fuel IH]; intros c Hm Hfree Hfuel; [lia|].
  cbn [probe]. destruct (decide (slot root ts (current c) ∈ files)) as [Hin|Hout].
  - rewrite bool_decide_eq_true_2 by done.
    assert (current c ≠ m) by (intros Heq; by rewrite Heq in Hin).
    assert (Hnext : Z.min (microsecond ts + c) 999999 = current (c + 1))
      by (unfold current; f_equal; lia).
    rewrite Hnext, strftime_prefix_replace.
    assert (Hstep : current (c + 1) = current c + 1) by (unfold current in *; lia).
    destruct (IH (c + 1)) as (m' & Hm' & Hfree' & Hleast & Hrun);
      [lia|done|lia|].
    exists m'. split; [lia|]. split; [done|]. split; [|exact Hrun].
    intros j Hj. destruct (decide (j = current c)) as [->|]; [done|].
    apply Hleast. lia.
  - rewrite bool_decide_eq_false_2 by done.
    exists (current c). split; [lia|]. split; [done|]. split; [lia|done].
Qed.

(** With every slot from the current one up to 999999 occupied, the loop
    never stops: the capped component stays at 999999. *)
Lemma probe_diverges (fuel : nat) (c : Z) :
  (∀ j, current c ≤ j ≤ 999999 → slot root ts j ∈ files) →
  probe root fuel files ts c (format_id ts (current c))
    (slot root ts (current c)) = None.
Proof.
  revert c. induction fuel as [|fuel IH]; intros c Hocc; [done|].
  cbn [probe]. rewrite bool_decide_eq_true_2
    by (apply Hocc; unfold current; lia).
  assert (Hnext : Z.min (microsecond ts + c) 999999 = current (c + 1))
    by (unfold current; f_equal; lia).
  rewrite Hnext, strftime_prefix_replace. apply IH.
  intros j Hj. apply Hocc. unfold current in *. lia.
Qed.

Lemma allocate_probe (fuel : nat) :
  microsecond ts ≤ 999999 → (0 < fuel)%nat →
  allocate root fuel files ts
  = probe root fuel files ts 1 (format_id ts (current 1))
      (slot root ts (current 1)).
Proof.
  intros Hus Hfuel. unfold allocate.
  replace (current 1) with (microsecond ts) by (unfold current; lia).
  fold (format_id ts (microsecond ts)). fold (slot root ts (microsecond ts)).
  destruct fuel as [|fuel]; [lia|].
  destruct (decide (slot root ts (microsecond ts) ∈ files)).
  - by rewrite bool_decide_eq_true_2.
  - rewrite bool_decide_eq_false_2 by done. cbn [probe].
    by rewrite bool_decide_eq_false_2.
Qed.

(** Allocation returns the first unused slot at or after the timestamp's
    own microsecond. *)
Lemma allocate_finds (fuel : nat) (m : Z) :
  microsecond ts ≤ m ≤ 999999 →
  slot root ts m ∉ files →
  (Z.to_nat (m - microsecond ts) < fuel)%nat →
  ∃ m', (microsecond ts ≤ m' ≤ m)
        ∧ (slot root ts m' ∉ files)
        ∧ (∀ j, microsecond ts ≤ j < m' → slot root ts j ∈ files)
        ∧ allocate root fuel files ts
          = Some (format_id ts m', slot root ts m').
Proof.
  intros Hm Hfree Hfuel.
  assert (Hc : current 1 = microsecond ts) by (unfold current; lia).
  rewrite allocate_probe by lia.
  destruct (probe_finds fuel 1 m) as (m' & ? & ? & Hleast & ?);
    [lia|done|lia|].
  exists m'. rewrite Hc in *. done.
Qed.

Lemma allocate_diverges (fuel : nat) :
  microsecond ts ≤ 999999 →
  (∀ j, microsecond ts ≤ j ≤ 999999 → slot root ts j ∈ files) →
  allocate root fuel files ts = None.
Proof.
  intros Hus Hocc. destruct fuel as [|fuel].
  - unfold allocate. fold (format_id ts (microsecond ts)).
    fold (slot root ts (microsecond ts)).
    rewrite bool_decide_eq_true_2 by (apply Hocc; lia). done.
  - rewrite allocate_probe by lia. apply probe_diverges.
    intros j Hj. apply Hocc. unfold current in *. lia.
Qed.

(** Whatever the loop returns is a slot at or after the current one,
    unused, with every slot passed over occupied. *)
Lemma probe_sound (fuel : nat) (c : Z) (id path : string) :
  probe root fuel files ts c (format_id ts (current c))
    (slot root ts (current c)) = Some (id, path) →
  ∃ m, (current c ≤ m ≤ 999999)
       ∧ id = format_id ts m ∧ path = slot root ts m
       ∧ (path ∉ files)
       ∧ ∀ j, current c ≤ j < m → slot root ts j ∈ files.
Proof.
  revert c. induction fuel as [|fuel IH]; intros c; [done|].
  cbn [probe].
  destruct (decide (slot root ts (current c) ∈ files)) as [Hin|Hout].
  - rewrite bool_decide_eq_true_2 by done.
    assert (Hnext : Z.min (microsecond ts + c) 999999 = current (c + 1))
      by (unfold current; f_equal; lia).
    rewrite Hnext, strftime_prefix_replace.
    intros (m & Hm & -> & -> & Hfree & Hocc)%IH.
    exists m. split; [unfold current in *; lia|]. do 3 (split; [done|]).
    intros j Hj.
    destruct (decide (j < current (c + 1))) as [Hlt|Hge]; [|apply Hocc; lia].
    replace j with (current c) by (unfold current in *; lia). done.
  - rewrite bool_decide_eq_false_2 by done. intros [= <- <-].
    exists (current c). split; [unfold current; lia|].
    do 3 (split; [done|]). lia.
Qed.

Lemma allocate_sound (fuel : nat) (id path : string) :
  microsecond ts ≤ 999999 →
  allocate root fuel files ts = Some (id, path) →
  ∃ m, (microsecond ts ≤ m ≤ 999999)
       ∧ id = format_id ts m ∧ path = slot root ts m
       ∧ (path ∉ files)
       ∧ ∀ j, microsecond ts ≤ j < m → slot root ts j ∈ files.
Proof.
  intros Hus. assert (Hc : current 1 = microsecond ts) by (unfold current; lia).
  destruct fuel as [|fuel].
  - unfold allocate. fold (format_id ts (microsecond ts)).
    fold (slot root ts (microsecond ts)).
    destruct (decide (slot root ts (microsecond ts) ∈ files)).
    + by rewrite bool_decide_eq_true_2.
    + rewrite bool_decide_eq_false_2 by done. intros [= <- <-].
      exists (microsecond ts). split; [lia|]. do 3 (split; [done|]). lia.
  - rewrite allocate_probe by lia. intros H%probe_sound.
    by rewrite Hc in H.
Qed.

End ProbeFacts.

Lemma filter_ne_absent (x : Z) (l : list Z) :
  x ∉ l → filter (λ y, y ≠ x) l = l.
Proof.
  induction l as [|y l IH]; intros Hx; [done|].
  apply not_elem_of_cons in Hx as [Hne Hx].
  rewrite filter_cons_True by done. by rewrite IH.
Qed.

Lemma filter_ne_length (x : Z) (l : list Z) :
  NoDup l → (length l ≤ S (length (filter (λ y, y ≠ x) l)))%nat.
Proof.
  induction 1 as [|y l Hy Hl IH]; [simpl; lia|].
  destruct (decide (y = x)) as [->|Hne].
  - rewrite filter_cons_False by naive_solver.
    rewrite filter_ne_absent by done. simpl. lia.
  - rewrite filter_cons_True by done. simpl. lia.
Qed.

(** C5 (as amended). In [store_frame], [K] frames with the same
    timestamp stored one after the other get [K] distinct identifiers,
    each the timestamp's prefix with a microsecond component between the
    timestamp's own and 999999, whenever at least [K] storage slots in
    that range are unused (and the fuel reaches them): every identifier
    is found by probing upwards one microsecond at a time, so each slot
    passed over is occupied, by an older file or by an earlier frame of
    the burst. *)
Theorem colliding_frames_get_distinct_ids (root : string) (files : gset string)
    (ts : datetime) (K fuel : nat) (l : list Z) :
  0 ≤ microsecond ts ≤ 999999 →
  NoDup l → (K ≤ length l)%nat →
  (∀ m, m ∈ l →
     microsecond ts ≤ m ≤ 999999 ∧ (slot root ts m ∉ files)
     ∧ (Z.to_nat (m - microsecond ts) < fuel)%nat) →
  ∃ ms : list Z,
    allocate_many root fuel files ts K
    = Some (format_id ts <$> ms, list_to_set (slot root ts <$> ms) ∪ files)
    ∧ length ms = K
    ∧ NoDup (format_id ts <$> ms)
    ∧ (∀ m, m ∈ ms →
         microsecond ts ≤ m ≤ 999999 ∧ (slot root ts m ∉ files)
         ∧ ∀ j, microsecond ts ≤ j < m → slot root ts j ∈ files ∨ j ∈ ms).
Proof.
  intros Hus. revert files l.
  induction K as [|K IH]; intros files l Hnd Hlen Hl.
  { exists []. simpl. split; [|split; [done|split; [constructor|]]].
    - do 2 f_equal. set_solver.
    - intros m Hm. by apply elem_of_nil in Hm. }
  destruct l as [|m0 l0]; [simpl in Hlen; lia|].
  destruct (Hl m0) as (Hm0 & Hfree0 & Hfuel0); [by left|].
  destruct (allocate_finds root files ts fuel m0 Hm0 Hfree0 Hfuel0)
    as (m' & Hm' & Hfree' & Hleast & Halloc).
  set (files1 := {[slot root ts m']} ∪ files).
  destruct (IH files1 (filter (λ y, y ≠ m') (m0 :: l0)))
    as (ms & Hrun & Hlen' & Hnd' & Hms).
  { by apply NoDup_filter. }
  { pose proof (filter_ne_length m' (m0 :: l0) Hnd). simpl in *. lia. }
  { intros m [Hne Hm]%list_elem_of_filter.
    destruct (Hl m Hm) as (Hr & Hf & Hfu). split; [done|]. split; [|done].
    subst files1. intros [Heq%elem_of_singleton|?]%elem_of_union; [|done].
    apply slot_inj in Heq; [done|lia|lia]. }
  assert (Hnotin : m' ∉ ms).
  { intros Hin. destruct (Hms m' Hin) as (_ & Hf & _).
    apply Hf. subst files1. set_solver. }
  exists (m' :: ms). split; [|split; [|split]].
  - cbn [allocate_many]. rewrite Halloc. fold files1. rewrite Hrun.
    cbn [fmap list_fmap]. do 2 f_equal. subst files1.
    cbn [list_to_set]. set_solver.
  - simpl. lia.
  - cbn [fmap list_fmap]. constructor; [|done].
    intros (m & Heq & Hm)%list_elem_of_fmap.
    destruct (Hms m Hm) as (Hr & _).
    apply format_id_inj in Heq; [congruence|lia|lia].
  - intros m [->|Hm]%elem_of_cons.
    + split; [lia|]. split; [done|]. intros j Hj. left. by apply Hleast.
    + destruct (Hms m Hm) as (Hr & Hf & Hprobe).
      split; [done|]. split; [subst files1; set_solver|].
      intros j Hj. destruct (Hprobe j Hj) as [Hin|Hin]; [|right; by right].
      subst files1. apply elem_of_union in Hin as [Heq%elem_of_singleton|?];
        [|by left].
      apply slot_inj in Heq; [|lia|lia]. subst j. right. by left.
Qed.

(** A burst of three frames at 14:30:25.123456 when the base slot is
    already taken. *)
Definition burst_ts : datetime := Mk 2025 12 1 14 30 25 123456.

Definition burst_files : gset string := {[slot "/data" burst_ts 123456]}.

Definition burst_free : list Z := [123457; 123458; 123459].

Lemma colliding_frames_witness :
  (0 ≤ microsecond burst_ts ≤ 999999)
  ∧ NoDup burst_free
  ∧ (3 ≤ length burst_free)%nat
  ∧ (∀ m, m ∈ burst_free →
       microsecond burst_ts ≤ m ≤ 999999
       ∧ (slot "/data" burst_ts m ∉ burst_files)
       ∧ (Z.to_nat (m - microsecond burst_ts) < 5)%nat)
  ∧ ∃ ms : list Z,
      allocate_many "/data" 5 burst_files burst_ts 3
      = Some (format_id burst_ts <$> ms,
              list_to_set (slot "/data" burst_ts <$> ms) ∪ burst_files)
      ∧ length ms = 3%nat
      ∧ NoDup (format_id burst_ts <$> ms)
      ∧ (∀ m, m ∈ ms →
           microsecond burst_ts ≤ m ≤ 999999
           ∧ (slot "/data" burst_ts m ∉ burst_files)
           ∧ ∀ j, microsecond burst_ts ≤ j < m →
                  slot "/data" burst_ts j ∈ burst_files ∨ j ∈ ms).
Proof.
  assert (H1 : 0 ≤ microsecond burst_ts ≤ 999999) by (simpl; lia).
  assert (H2 : NoDup burst_free)
    by (apply (bool_decide_unpack _); vm_compute; exact I).
  assert (H3 : (3 ≤ length burst_free)%nat) by (simpl; lia).
  assert (H4 : ∀ m, m ∈ burst_free →
       microsecond burst_ts ≤ m ≤ 999999
       ∧ (slot "/data" burst_ts m ∉ burst_files)
       ∧ (Z.to_nat (m - microsecond burst_ts) < 5)%nat).
  { intros m Hm. unfold burst_free in Hm.
    assert (Hr : 123457 ≤ m ≤ 123459).
    { repeat (apply elem_of_cons in Hm as [->|Hm]; [lia|]).
      by apply elem_of_nil in Hm. }
    split; [simpl; lia|]. split; [|simpl; lia].
    unfold burst_files. intros Heq%elem_of_singleton.
    apply slot_inj in Heq; simpl in *; lia. }
  split; [exact H1|]. split; [exact H2|]. split; [exact H3|].
  split; [exact H4|].
  exact (colliding_frames_get_distinct_ids "/data" burst_files burst_ts 3 5
           burst_free H1 H2 H3 H4).
Defined.

Example burst_ids :
  fst <$> allocate_many "/data" 5 burst_files burst_ts 3
  = Some ["20251201_143025_123457"; "20251201_143025_123458";
          "20251201_143025_123459"].
Proof. by vm_compute. Qed.

(** Two frames stamped at the last microsecond of a second. *)
Definition last_us_ts : datetime := Mk 2025 12 1 14 30 25 999999.

(** Counterexample to C5 as stated: on the GUI side two frames with the
    same timestamp get the same identifier; and in [store_frame] the
    second of two frames stamped at microsecond 999999 never gets one,
    because the capped probe stays on the occupied slot. *)
Lemma colliding_ids_not_always_distinct :
  _generate_frame_id <$> [last_us_ts; last_us_ts]
  = ["20251201_143025_999999"; "20251201_143025_999999"]
  ∧ ∀ fuel, allocate_many "/data" fuel ∅ last_us_ts 2 = None.
Proof.
  split; [by vm_compute|].
  intros fuel. cbn [allocate_many].
  assert (Hfirst : allocate "/data" fuel ∅ last_us_ts
                   = Some (format_id last_us_ts 999999,
                           slot "/data" last_us_ts 999999)).
  { unfold allocate. rewrite bool_decide_eq_false_2 by set_solver. done. }
  rewrite Hfirst.
  rewrite allocate_diverges; [done|simpl; lia|].
  intros j Hj. simpl in Hj. replace j with 999999 by lia. set_solver.
Qed.

End Allocator.

(** ** A reader for ISO timestamps

    [datetime.fromisoformat] is a library function; the handlers below
    take it as a parameter.  This reader covers the strings
    [datetime.isoformat()] produces for naive timestamps
    ([YYYY-MM-DD], [YYYY-MM-DDTHH:MM:SS], [YYYY-MM-DDTHH:MM:SS.ffffff])
    and rejects everything else; it instantiates the parameter in the
    examples. *)

Module Iso.

Import Datetime Allocator.

Definition is_digit (a : Ascii.ascii) : bool :=
  let n := Ascii.N_of_ascii a in ((48 <=? n) && (n <=? 57))%N.

Fixpoint all_digits (s : string) : bool :=
  match s with
  | EmptyString => true
  | String a s' => is_digit a && all_digits s'
  end.

(** The number written in the [width] characters from [pos]. *)
Definition number_at (pos width : nat) (s : string) : option Z :=
  let sub := String.substring pos width s in
  if bool_decide (String.length sub = width) && all_digits sub
  then Some (read_digits width 0 sub)
  else None.

Definition char_is (pos : nat) (c : Ascii.ascii) (s : string) : bool :=
  bool_decide (String.get pos s = Some c).

Definition in_range (lo x hi : Z) : bool := (lo <=? x) && (x <=? hi).

Definition parse_date (s : string) : option datetime :=
  y ← number_at 0 4 s;
  m ← number_at 5 2 s;
  d ← number_at 8 2 s;
  if char_is 4 "-"%char s && char_is 7 "-"%char s && in_range 1 y 9999
     && in_range 1 m 12 && in_range 1 d (days_in_month y m)
  then Some (Mk y m d 0 0 0 0)
  else None.

Definition parse_time (s : string) (date : datetime) : option datetime :=
  h ← number_at 11 2 s;
  mi ← number_at 14 2 s;
  sec ← number_at 17 2 s;
  if char_is 13 ":"%char s && char_is 16 ":"%char s && in_range 0 h 23
     && in_range 0 mi 59 && in_range 0 sec 59
  then Some (Mk (year date) (month date) (day date) h mi sec 0)
  else None.

Definition parse_fraction (s : string) (t : datetime) : option datetime :=
  us ← number_at 20 6 s;
  if char_is 19 "."%char s && in_range 0 us 999999
  then Some (replace_microsecond t us)
  else None.

Definition fromisoformat (s : string) : option datetime :=
  let n := String.length s in
  if bool_decide (n = 10%nat) then parse_date s
  else if bool_decide (n = 19%nat) then
    d ← parse_date s; parse_time s d
  else if bool_decide (n = 26%nat) then
    d ← parse_date s; t ← parse_time s d; parse_fraction s t
  else None.

Lemma fromisoformat_microsecond (s : string) (ts : datetime) :
  fromisoformat s = Some ts → 0 ≤ microsecond ts ≤ 999999.
Proof.
  unfold fromisoformat, parse_date, parse_time, parse_fraction, in_range.
  intros H.
  repeat (case_bool_decide || case_match || simplify_option_eq);
    simpl; try lia.
Qed.

Example fromisoformat_full :
  fromisoformat "2025-12-01T14:30:25.123456"
  = Some (Mk 2025 12 1 14 30 25 123456).
Proof. by vm_compute. Qed.

Example fromisoformat_date : fromisoformat "2025-12-01" = Some (Mk 2025 12 1 0 0 0 0).
Proof. by vm_compute. Qed.

Example fromisoformat_rejects :
  fromisoformat "yesterday" = None ∧ fromisoformat "2025-13-01" = None
  ∧ fromisoformat "2025-02-30" = None.
Proof. by vm_compute. Qed.

End Iso.

(** ** The request handlers of the backend
    ([store_frame], [get_frames_by_date]) *)

Module Server.

Import Datetime Frame Batch Allocator.

(** The JSON body of [/api/store_frame]. *)
Record StoreFrameRequest := MkStoreFrameRequest {
  req_frame_id : string;
  req_timestamp : string;
  image_base64 : string;
  req_metadata : option string
}.

(** [OCRResult] *)
Record OCRResult := MkOCRResult {
  text : string;
  text_json : string;
  engine : string;
  confidence : Q
}.

(** The values the OCR fields hold when no recognition has produced any. *)
Definition pending_ocr : OCRResult :=
  MkOCRResult EmptyString EmptyString "pending" 0.

(** The JSON body of [/api/frames/date]. *)
Record GetFramesByDateRequest := MkGetFramesByDateRequest {
  date : string;
  offset : Z;
  limit : Z
}.

(** A row of the [SELECT] in [get_frames_by_date]. *)
Record frame_row := MkFrameRow {
  sel_frame_id : string;
  sel_timestamp : string;
  sel_image_path : option string;
  sel_ocr_text : option string
}.

(** An element of the list [get_frames_by_date] returns. *)
Record frame_json := MkFrameJson {
  json_frame_id : string;
  json_timestamp : string;
  json_image_path : string;
  json_ocr_text : string
}.

(** What the framework answers: the status of an [HTTPException], 500
    for any other exception that leaves the handler, 200 otherwise. *)
Definition http_status {A} (r : outcome A) : Z :=
  match r with
  | Returned _ => 200
  | Raised (HTTPException status_code) => status_code
  | Raised _ => 500
  end.

Definition is_client_error (status : Z) : bool :=
  (400 <=? status) && (status <=? 499).

Section Handlers.

Context {vdb sdb : Type}.
Variable store_frames_batch : list frame_data → vdb → outcome bool * vdb.
Variable store_frame_with_ocr : sqlite_row → sdb → outcome unit * sdb.

(** Collaborators: [datetime.fromisoformat] ([None] stands for its
    [ValueError]) and [isoformat], decoding the image
    ([b64decode], [PILImage.open], [convert]), [encoder.encode_image],
    the rendering of [{"size": image.size}], the global [ocr_engine],
    the [SELECT] of the browsing handler and the storage root. *)
Variable fromisoformat : string → option datetime.
Variable isoformat : datetime → string.
Variable decode_image : string → outcome string.
Variable encode_image : string → list Q.
Variable size_metadata : string → string.
Variable ocr_engine : option (string → outcome OCRResult).
Variable select_frames : string → string → Z → Z → sdb → outcome (list frame_row).
Variable IMAGE_STORAGE_PATH : string.

(** The server: the files on its disk and the global components. *)
Record server := MkServer {
  files : gset string;
  components : @world vdb sdb
}.

Definition record (e : event) (w : @world vdb sdb) : @world vdb sdb :=
  World (bwb w) (vector_storage w) (sqlite_storage w) (trace w ++ [e]).

(** The OCR block of [store_frame]: the fields and the events. *)
Definition run_ocr (frame_id image : string) : OCRResult * list event :=
  match ocr_engine with
  | None => (pending_ocr, [])
  | Some recognize =>
      match recognize image with
      | Returned result => (result, [CallOcrRecognize frame_id])
      | Raised _ =>
          (pending_ocr,
           [CallOcrRecognize frame_id; LogError (OcrFailed frame_id)])
      end
  end.

(** The dict [frame_data] built in [store_frame]. *)
Definition entry_of (req : StoreFrameRequest) (ts : datetime)
    (image frame_id image_path : string) (ocr : OCRResult) : frame_data :=
  FrameData frame_id ts image (encode_image image) (text ocr) image_path
    (text_json ocr) (engine ocr) (confidence ocr) "remote-gui"
    (match req_metadata req with
     | Some m => m
     | None => size_metadata image
     end).

(** [store_frame]; [None] when the file-name loop has not stopped within
    the fuel. *)
Definition store_frame (fuel : nat) (now : Q) (req : StoreFrameRequest)
    (s : server) : option (outcome string * server) :=
  let w := components s in
  match vector_storage w, sqlite_storage w with
  | Some _, Some _ =>
      match fromisoformat (req_timestamp req) with
      | None =>
          Some (Raised ValueError,
                MkServer (files s)
                  (record (LogError (InvalidTimestamp (req_timestamp req))) w))
      | Some ts =>
          match decode_image (image_base64 req) with
          | Raised e => Some (Raised e, s)
          | Returned image =>
              match allocate IMAGE_STORAGE_PATH fuel (files s) ts with
              | None => None
              | Some (base_frame_id, image_path) =>
                  let w1 := record (CallImageSave image_path) w in
                  let frame_id := base_frame_id in
                  let w2 := record (CallEncodeImage image_path) w1 in
                  let ocr := run_ocr frame_id image in
                  let w3 := foldl (λ w e, record e w) w2 ocr.2 in
                  let frame_data :=
                    entry_of req ts image frame_id image_path ocr.1 in
                  let r := add_frame store_frames_batch store_frame_with_ocr
                             now frame_data
                             (record (CallAddFrame frame_data) w3) in
                  Some (match r.1 with
                        | Returned _ => Returned "ok"
                        | Raised e => Raised e
                        end,
                        MkServer ({[image_path]} ∪ files s) r.2)
              end
          end
      end
  | _, _ => Some (Raised AssertionError, s)
  end.

(** The loop over the rows in [get_frames_by_date]. *)
Fixpoint rows_to_json (rows : list frame_row) : outcome (list frame_json) :=
  match rows with
  | [] => Returned []
  | row :: rest =>
      match sel_image_path row with
      | None => rows_to_json rest
      | Some path =>
          if bool_decide (path = EmptyString) then rows_to_json rest
          else
            match fromisoformat (sel_timestamp row) with
            | None => Raised ValueError
            | Some ts =>
                match rows_to_json rest with
                | Returned result =>
                    Returned (MkFrameJson (sel_frame_id row) (isoformat ts) path
                                (default EmptyString (sel_ocr_text row))
                              :: result)
                | Raised e => Raised e
                end
            end
      end
  end.

(** The [try] block of [get_frames_by_date]. *)
Definition frames_by_date_body (req : GetFramesByDateRequest) (db : sdb)
  : outcome (list frame_json) :=
  let start_time_str := date req in
  match fromisoformat (date req) with
  | None => Raised ValueError
  | Some date_obj =>
      match add_one_day date_obj with
      | Raised e => Raised e
      | Returned next_day =>
          let end_time_str := strftime_iso_date next_day in
          let limit := Z.min (Z.max 1 (limit req)) 200 in
          let offset := Z.max 0 (offset req) in
          match select_frames start_time_str end_time_str limit offset db with
          | Raised e => Raised e
          | Returned rows => rows_to_json rows
          end
      end
  end.

(** [get_frames_by_date] with its two [except] clauses. *)
Definition get_frames_by_date (req : GetFramesByDateRequest) (s : server)
  : outcome (list frame_json) :=
  match sqlite_storage (components s) with
  | None => Raised (HTTPException 500)
  | Some db =>
      match frames_by_date_body req db with
      | Returned result => Returned result
      | Raised ValueError => Raised (HTTPException 400)
      | Raised _ => Raised (HTTPException 500)
      end
  end.

Definition with_frame_id (other : string) (req : StoreFrameRequest)
  : StoreFrameRequest :=
  MkStoreFrameRequest other (req_timestamp req) (image_base64 req)
    (req_metadata req).

(** The events a handler adds to the trace. *)
Definition emitted_by (s s' : server) : list event :=
  drop (length (trace (components s))) (trace (components s')).

Definition is_add_frame (e : event) : bool :=
  match e with
  | CallAddFrame _ => true
  | _ => false
  end.

Definition is_recognize (e : event) : bool :=
  match e with
  | CallOcrRecognize _ => true
  | _ => false
  end.

(** What [add_frame] appends to the trace for a given entry. *)
Definition add_frame_events (now : Q) (fd : frame_data) (w : @world vdb sdb)
  : list event :=
  if batch_size (bwb w) <=? Z.of_nat (length (buffer (bwb w))) + 1
  then LogInfo BatchSizeReached
       :: write_events store_frames_batch store_frame_with_ocr
            (buffer (bwb w) ++ [fd])
            (World (BufferState (batch_size (bwb w)) (flush_interval (bwb w))
                      [] now)
               (vector_storage w) (sqlite_storage w)
               (trace w ++ [LogInfo BatchSizeReached]))
  else [].

Lemma add_frame_trace (now : Q) (fd : frame_data) (w : @world vdb sdb) :
  (add_frame store_frames_batch store_frame_with_ocr now fd w).1 = Returned tt
  ∧ trace (add_frame store_frames_batch store_frame_with_ocr now fd w).2
    = trace w ++ add_frame_events now fd w.
Proof.
  rewrite add_frame_eq. cbn [fst snd]. split; [done|].
  unfold add_frame_events.
  destruct (batch_size (bwb w) <=? Z.of_nat (length (buffer (bwb w))) + 1).
  - rewrite write_result_trace_eq. cbn [trace]. by rewrite <- app_assoc.
  - cbn [trace]. by rewrite app_nil_r.
Qed.

Lemma add_frame_events_buffer (now : Q) (fd : frame_data) (w : @world vdb sdb) :
  Forall (λ e, is_buffer_event e = true) (add_frame_events now fd w).
Proof.
  unfold add_frame_events. destruct (_ <=? _); [|constructor].
  constructor; [done|]. apply write_events_buffer_events.
Qed.

Lemma add_frame_events_rows (now : Q) (fd : frame_data) (w : @world vdb sdb) :
  filter (λ e, is_sqlite_call e = true) (add_frame_events now fd w) = []
  ∨ filter (λ e, is_sqlite_call e = true) (add_frame_events now fd w)
    = (λ fd, CallStoreFrameWithOcr (row_of fd)) <$> (buffer (bwb w) ++ [fd]).
Proof.
  unfold add_frame_events. destruct (_ <=? _); [|by left].
  rewrite filter_cons_False by (simpl; congruence). apply write_events_rows.
Qed.

Lemma trace_foldl_record (evs : list event) (w : @world vdb sdb) :
  trace (foldl (λ w e, record e w) w evs) = trace w ++ evs
  ∧ bwb (foldl (λ w e, record e w) w evs) = bwb w
  ∧ vector_storage (foldl (λ w e, record e w) w evs) = vector_storage w
  ∧ sqlite_storage (foldl (λ w e, record e w) w evs) = sqlite_storage w.
Proof.
  revert w. induction evs as [|e evs IH]; intros w; simpl.
  - by rewrite app_nil_r.
  - destruct (IH (record e w)) as (-> & -> & -> & ->). cbn [record trace].
    by rewrite <- app_assoc.
Qed.

(** The events of a run of [store_frame] that gets as far as storing:
    the image is saved and encoded, OCR is run if an engine is set, the
    entry is handed to the buffer, and the buffer may flush. *)
Definition store_events (now : Q) (req : StoreFrameRequest) (ts : datetime)
    (image id path : string) (w : @world vdb sdb) : list event :=
  let ocr := run_ocr id image in
  let fd := entry_of req ts image id path ocr.1 in
  [CallImageSave path; CallEncodeImage path] ++ ocr.2 ++ [CallAddFrame fd]
  ++ add_frame_events now fd
       (World (bwb w) (vector_storage w) (sqlite_storage w)
          (trace w ++ [CallImageSave path; CallEncodeImage path] ++ ocr.2
           ++ [CallAddFrame fd])).

Lemma store_frame_stored (fuel : nat) (now : Q) (req : StoreFrameRequest)
    (s : server) (v : vdb) (db : sdb) (ts : datetime)
    (image id path : string) :
  vector_storage (components s) = Some v →
  sqlite_storage (components s) = Some db →
  fromisoformat (req_timestamp req) = Some ts →
  decode_image (image_base64 req) = Returned image →
  allocate IMAGE_STORAGE_PATH fuel (files s) ts = Some (id, path) →
  ∃ s', store_frame fuel now req s = Some (Returned "ok", s')
        ∧ files s' = {[path]} ∪ files s
        ∧ emitted_by s s' = store_events now req ts image id path (components s).
Proof.
  intros Hv Hdb Hts Himg Halloc.
  unfold store_frame. rewrite Hv, Hdb, Hts, Himg, Halloc.
  set (ocr := run_ocr id image).
  set (fd := entry_of req ts image id path ocr.1).
  set (w3 := foldl _ _ _).
  destruct (add_frame_trace now fd (record (CallAddFrame fd) w3)) as [Hret Htr].
  rewrite Hret. eexists. split; [reflexivity|]. split; [done|].
  unfold emitted_by. cbn [components]. rewrite Htr.
  destruct (trace_foldl_record ocr.2
    (record (CallEncodeImage path)
       (record (CallImageSave path) (components s))))
    as (Ht3 & Hb3 & Hv3 & Hs3).
  fold w3 in Ht3, Hb3, Hv3, Hs3.
  unfold store_events. fold ocr. fold fd.
  assert (Hw : record (CallAddFrame fd) w3
    = World (bwb (components s)) (vector_storage (components s))
        (sqlite_storage (components s))
        (trace (components s) ++ [CallImageSave path; CallEncodeImage path]
         ++ ocr.2 ++ [CallAddFrame fd])).
  { unfold record at 1. rewrite Ht3, Hb3, Hv3, Hs3. cbn [record trace bwb
      vector_storage sqlite_storage]. f_equal.
    rewrite <- !app_assoc. done. }
  rewrite Hw. cbn [trace]. generalize (add_frame_events now fd (World
    (bwb (components s)) (vector_storage (components s))
    (sqlite_storage (components s))
    (trace (components s) ++ [CallImageSave path; CallEncodeImage path]
     ++ ocr.2 ++ [CallAddFrame fd]))).
  intros tail. rewrite <- !app_assoc. by rewrite drop_app_length.
Qed.

Lemma filter_none (P : event → bool) (l : list event) :
  Forall (λ e, P e = false) l → filter (λ e, P e = true) l = [].
Proof.
  induction 1 as [|e l He Hl IH]; [done|].
  rewrite filter_cons_False by congruence. done.
Qed.

Lemma buffer_events_not (P : event → bool) (l : list event) :
  (∀ e, is_buffer_event e = true → P e = false) →
  Forall (λ e, is_buffer_event e = true) l →
  filter (λ e, P e = true) l = [].
Proof.
  intros HP Hl. apply filter_none. eapply Forall_impl; [exact Hl|]. exact HP.
Qed.

Lemma run_ocr_events (id image : string) :
  (run_ocr id image).2 = []
  ∨ (run_ocr id image).2 = [CallOcrRecognize id]
  ∨ (run_ocr id image).2 = [CallOcrRecognize id; LogError (OcrFailed id)].
Proof.
  unfold run_ocr. destruct ocr_engine as [recognize|]; [|by left].
  destruct (recognize image); auto.
Qed.

(** The events of [store_frame] up to the hand-over to the buffer. *)
Definition before_queue (id image path : string) : list event :=
  [CallImageSave path; CallEncodeImage path] ++ (run_ocr id image).2.

Lemma store_events_split (now : Q) (req : StoreFrameRequest) (ts : datetime)
    (image id path : string) (w : @world vdb sdb) :
  let fd := entry_of req ts image id path (run_ocr id image).1 in
  ∃ tail,
    store_events now req ts image id path w
    = before_queue id image path ++ [CallAddFrame fd] ++ tail
    ∧ Forall (λ e, is_buffer_event e = true) tail
    ∧ (filter (λ e, is_sqlite_call e = true) tail = []
       ∨ filter (λ e, is_sqlite_call e = true) tail
         = (λ fd, CallStoreFrameWithOcr (row_of fd)) <$> (buffer (bwb w) ++ [fd])).
Proof.
  intros fd. unfold store_events. fold fd.
  set (w' := World _ _ _ _).
  exists (add_frame_events now fd w'). split; [|split].
  - unfold before_queue. by rewrite <- !app_assoc.
  - apply add_frame_events_buffer.
  - apply (add_frame_events_rows now fd w').
Qed.

Lemma before_queue_no_store_call (id image path : string) :
  filter (λ e, is_sqlite_call e = true) (before_queue id image path) = []
  ∧ filter (λ e, is_add_frame e = true) (before_queue id image path) = [].
Proof.
  unfold before_queue.
  destruct (run_ocr_events id image) as [->|[->| ->]]; done.
Qed.

Lemma store_frame_invalid_timestamp (fuel : nat) (now : Q)
    (req : StoreFrameRequest) (s : server) (v : vdb) (db : sdb) :
  vector_storage (components s) = Some v →
  sqlite_storage (components s) = Some db →
  fromisoformat (req_timestamp req) = None →
  store_frame fuel now req s
  = Some (Raised ValueError,
          MkServer (files s)
            (record (LogError (InvalidTimestamp (req_timestamp req)))
               (components s))).
Proof. intros Hv Hdb Hts. unfold store_frame. by rewrite Hv, Hdb, Hts. Qed.

Lemma get_frames_by_date_invalid_date (req : GetFramesByDateRequest)
    (s : server) (db : sdb) :
  sqlite_storage (components s) = Some db →
  fromisoformat (date req) = None →
  get_frames_by_date req s = Raised (HTTPException 400).
Proof.
  intros Hdb Hd. unfold get_frames_by_date, frames_by_date_body.
  by rewrite Hdb, Hd.
Qed.

(** C10. The [frame_id] of the request plays no part in [store_frame]:
    changing it changes neither the result nor the server afterwards.
    When the handler returns normally, the timestamp of the request was
    read as some [ts] and exactly one entry was handed to the buffer;
    for a [ts] whose microsecond is in range, the entry's identifier is
    [ts] in the format YYYYMMDD_HHMMSS_ffffff with the microsecond moved
    up to the first unused slot, and every row the call writes to the
    secondary index is the row of a buffered entry.  The handler does
    return when the stores are set, the timestamp and the image are read
    and an unused slot is within the fuel. *)
Theorem store_frame_id_from_timestamp (fuel : nat) (now : Q)
    (req : StoreFrameRequest) (s : server) :
  (∀ other,
     store_frame fuel now (with_frame_id other req) s
     = store_frame fuel now req s)
  ∧ (∀ r s',
       store_frame fuel now req s = Some (Returned r, s') →
       ∃ ts image,
         fromisoformat (req_timestamp req) = Some ts
         ∧ decode_image (image_base64 req) = Returned image
         ∧ (microsecond ts ≤ 999999 →
            ∃ m, (microsecond ts ≤ m ≤ 999999)
              ∧ (∀ j, microsecond ts ≤ j < m →
                      slot IMAGE_STORAGE_PATH ts j ∈ files s)
              ∧ (slot IMAGE_STORAGE_PATH ts m ∉ files s)
              ∧ files s' = {[slot IMAGE_STORAGE_PATH ts m]} ∪ files s
              ∧ ∃ fd,
                  frame_id fd = format_id ts m
                  ∧ timestamp fd = ts
                  ∧ image_path fd = slot IMAGE_STORAGE_PATH ts m
                  ∧ filter (λ e, is_add_frame e = true) (emitted_by s s')
                    = [CallAddFrame fd]
                  ∧ (filter (λ e, is_sqlite_call e = true) (emitted_by s s')
                     = []
                     ∨ filter (λ e, is_sqlite_call e = true) (emitted_by s s')
                       = (λ fd, CallStoreFrameWithOcr (row_of fd))
                           <$> (buffer (bwb (components s)) ++ [fd]))))
  ∧ (∀ v db ts image m,
       vector_storage (components s) = Some v →
       sqlite_storage (components s) = Some db →
       fromisoformat (req_timestamp req) = Some ts →
       decode_image (image_base64 req) = Returned image →
       microsecond ts ≤ m ≤ 999999 →
       slot IMAGE_STORAGE_PATH ts m ∉ files s →
       (Z.to_nat (m - microsecond ts) < fuel)%nat →
       ∃ s', store_frame fuel now req s = Some (Returned "ok", s')).
Proof.
  split; [done|]. split.
  - intros r s' Hrun.
    destruct (vector_storage (components s)) as [v|] eqn:Hv;
      [|by unfold store_frame in Hrun; rewrite Hv in Hrun].
    destruct (sqlite_storage (components s)) as [db|] eqn:Hdb;
      [|by unfold store_frame in Hrun; rewrite Hv, Hdb in Hrun].
    destruct (fromisoformat (req_timestamp req)) as [ts|] eqn:Hts;
      [|by unfold store_frame in Hrun; rewrite Hv, Hdb, Hts in Hrun].
    destruct (decode_image (image_base64 req)) as [image|e] eqn:Himg;
      [|by unfold store_frame in Hrun; rewrite Hv, Hdb, Hts, Himg in Hrun].
    destruct (allocate IMAGE_STORAGE_PATH fuel (files s) ts) as [[id path]|]
      eqn:Halloc;
      [|by unfold store_frame in Hrun;
           rewrite Hv, Hdb, Hts, Himg, Halloc in Hrun].
    exists ts, image. split; [done|]. split; [done|]. intros Hus.
    destruct (store_frame_stored fuel now req s v db ts image id path
                Hv Hdb Hts Himg Halloc) as (s1 & Hs1 & Hfiles & Hev).
    rewrite Hs1 in Hrun. injection Hrun as <- <-.
    destruct (allocate_sound _ _ _ _ _ _ Hus Halloc)
      as (m & Hm & -> & -> & Hfree & Hocc).
    exists m. do 4 (split; [done|]).
    set (id := format_id ts m) in *.
    set (path := slot IMAGE_STORAGE_PATH ts m) in *.
    exists (entry_of req ts image id path (run_ocr id image).1).
    do 3 (split; [done|]). rewrite Hev.
    destruct (store_events_split now req ts image id path (components s))
      as (tail & -> & Htail & Hrows).
    destruct (before_queue_no_store_call id image path) as [Hb1 Hb2].
    rewrite !filter_app, Hb1, Hb2.
    rewrite (buffer_events_not is_add_frame tail) by (done || by intros []).
    split; [done|]. exact Hrows.
  - intros v db ts image m Hv Hdb Hts Himg Hm Hfree Hfuel.
    destruct (allocate_finds IMAGE_STORAGE_PATH (files s) ts fuel m Hm Hfree
                Hfuel) as (m' & _ & _ & _ & Halloc).
    destruct (store_frame_stored fuel now req s v db ts image _ _
                Hv Hdb Hts Himg Halloc) as (s1 & Hs1 & _).
    by exists s1.
Qed.

(** In [store_frame] the OCR runs before the entry is handed to the
    buffer, the entry carries what the OCR returned, and no row is
    written to the secondary index before the hand-over. *)
Lemma store_frame_ocr_before_queue (fuel : nat) (now : Q)
    (req : StoreFrameRequest) (s : server) (v : vdb) (db : sdb)
    (ts : datetime) (image id path : string) :
  vector_storage (components s) = Some v →
  sqlite_storage (components s) = Some db →
  fromisoformat (req_timestamp req) = Some ts →
  decode_image (image_base64 req) = Returned image →
  allocate IMAGE_STORAGE_PATH fuel (files s) ts = Some (id, path) →
  let fd := entry_of req ts image id path (run_ocr id image).1 in
  ∃ s' tail,
    store_frame fuel now req s = Some (Returned "ok", s')
    ∧ emitted_by s s' = before_queue id image path ++ [CallAddFrame fd] ++ tail
    ∧ filter (λ e, is_sqlite_call e = true) (before_queue id image path) = []
    ∧ (∀ recognize result,
         ocr_engine = Some recognize → recognize image = Returned result →
         CallOcrRecognize id ∈ before_queue id image path
         ∧ Frame.ocr_text fd = text result
         ∧ Frame.ocr_engine fd = engine result)
    ∧ (ocr_engine = None →
       Frame.ocr_engine fd = "pending"
       ∧ filter (λ e, is_recognize e = true) (emitted_by s s') = []).
Proof.
  intros Hv Hdb Hts Himg Halloc fd.
  destruct (store_frame_stored fuel now req s v db ts image id path
              Hv Hdb Hts Himg Halloc) as (s' & Hrun & _ & Hev).
  destruct (store_events_split now req ts image id path (components s))
    as (tail & Hsplit & Htail & _).
  exists s', tail. split; [done|]. split; [by rewrite Hev, Hsplit|].
  split; [apply before_queue_no_store_call|]. split.
  - intros recognize result Hengine Hres. subst fd.
    unfold before_queue, run_ocr. rewrite Hengine, Hres. cbn [fst snd].
    split; [|done]. apply elem_of_app. right. by left.
  - intros Hnone. rewrite Hev, Hsplit. subst fd.
    unfold before_queue, run_ocr. rewrite Hnone. cbn [fst snd].
    split; [done|]. rewrite !filter_app.
    rewrite (buffer_events_not is_recognize tail) by (done || by intros []).
    done.
Qed.

End Handlers.

(** Concrete collaborators for the examples: stores that accept every
    write, an image decoder and an encoder that do nothing, an OCR
    engine that recognises the same text in every image. *)
Definition decode_any (image_base64 : string) : outcome string :=
  Returned image_base64.

Definition encode_none (image : string) : list Q := [].

Definition size_any (image : string) : string := "{size}".

Definition tesseract (image : string) : outcome OCRResult :=
  Returned (MkOCRResult "hello" "[]" "pytesseract" (9 # 10)).

Definition select_none (start_time end_time : string) (limit offset : Z)
    (db : unit) : outcome (list frame_row) := Returned [].

Definition fresh_server : server :=
  MkServer ∅ (World (BufferState 10 60 [] 0) (Some tt) (Some tt) []).

(** [store_frame] with these collaborators and the engine given. *)
Definition store_frame_with (engine : option (string → outcome OCRResult))
  : nat → Q → StoreFrameRequest → server → option (outcome string * server) :=
  store_frame accepting_batch accepting_row Iso.fromisoformat decode_any
    encode_none size_any engine "/data".

Definition upload (frame_id timestamp : string) : StoreFrameRequest :=
  MkStoreFrameRequest frame_id timestamp "aGVsbG8=" None.

(** Two uploads with the same timestamp and identifiers of the client's
    own: the entries buffered carry the timestamp's identifier and the
    next one. *)
Example store_frame_ignores_client_id :
  (s1 ← snd <$> store_frame_with None 5 1 (upload "frame-A" "2025-12-01T14:30:25.123456") fresh_server;
   s2 ← snd <$> store_frame_with None 5 2 (upload "frame-B" "2025-12-01T14:30:25.123456") s1;
   Some (frame_id <$> buffer (bwb (components s2))))
  = Some ["20251201_143025_123456"; "20251201_143025_123457"].
Proof. by vm_compute. Qed.

Lemma store_frame_id_witness :
  ∃ s' fd,
    store_frame_with None 5 1
      (upload "frame-A" "2025-12-01T14:30:25.123456") fresh_server
    = Some (Returned "ok", s')
    ∧ frame_id fd = "20251201_143025_123456"
    ∧ filter (λ e, is_add_frame e = true) (emitted_by fresh_server s')
      = [CallAddFrame fd].
Proof.
  set (req := upload "frame-A" "2025-12-01T14:30:25.123456").
  destruct (store_frame_id_from_timestamp accepting_batch accepting_row
              Iso.fromisoformat decode_any encode_none size_any None "/data"
              5 1 req fresh_server)
    as (_ & Hret & Htotal).
  destruct (Htotal tt tt (Mk 2025 12 1 14 30 25 123456) "aGVsbG8=" 123456)
    as [s' Hs']; try reflexivity.
  { simpl. lia. }
  { set_solver. }
  { simpl. lia. }
  destruct (Hret _ _ Hs') as (ts & image & Hts & _ & Hrest).
  assert (ts = Mk 2025 12 1 14 30 25 123456) as ->
    by (vm_compute in Hts; congruence).
  destruct Hrest as (m & Hm & Hocc & _ & _ & fd & Hid & _ & _ & Hadd & _);
    [simpl; lia|].
  assert (m = 123456) as ->.
  { simpl in Hm. destruct (decide (m = 123456)) as [|Hne]; [done|].
    specialize (Hocc 123456). simpl in Hocc. set_solver by lia. }
  exists s', fd. split; [exact Hs'|]. split; [|exact Hadd].
  rewrite Hid. by vm_compute.
Defined.

(** C9: an upload whose timestamp cannot be read leaves [store_frame]
    as a [ValueError], which the framework answers with status 500, not
    with a client error; the browsing handler answers a malformed date
    with status 400. *)
Theorem store_frame_invalid_timestamp_is_server_error :
  Iso.fromisoformat "yesterday" = None
  ∧ (fst <$> store_frame_with None 5 1 (upload "frame-A" "yesterday") fresh_server)
    = Some (Raised ValueError)
  ∧ http_status (Raised (A := string) ValueError) = 500
  ∧ is_client_error (http_status (Raised (A := string) ValueError)) = false
  ∧ get_frames_by_date Iso.fromisoformat strftime_iso_date select_none
      (MkGetFramesByDateRequest "yesterday" 0 50) fresh_server
    = Raised (HTTPException 400)
  ∧ is_client_error (http_status (Raised (A := list frame_json)
                                    (HTTPException 400))) = true.
Proof.
  assert (Hbad : Iso.fromisoformat "yesterday" = None) by (by vm_compute).
  split; [exact Hbad|]. split.
  { unfold store_frame_with.
    by rewrite (store_frame_invalid_timestamp _ _ _ _ _ _ _ _ _ _ _ _ tt tt). }
  split; [done|]. split; [done|]. split; [|done].
  by apply (get_frames_by_date_invalid_date _ _ _ _ _ tt).
Qed.

End Server.

(** ** The recording worker of the GUI, local mode
    ([RecordWorker]: the OCR queue, its worker and the capture loop) *)

Module Recorder.

Import Datetime Frame.

(** The dict put on [ocr_queue]. *)
Record task := Task {
  task_frame_id : string;
  task_timestamp : datetime;
  task_image : string;
  task_image_path : string
}.

(** [OCRResult] *)
Record OCRResult := MkOCRResult {
  text : string;
  text_json : string;
  engine : string;
  confidence : Q
}.

(** Calls and log lines, by the place in the code they come from. *)
Inductive event :=
| CallStoreMain (fid : string)
| CallStorePending (row : sqlite_row)
| LogPendingFailed (fid : string)
| PutTask (fid : string)
| LogQueueFull (fid : string)
| LogEnqueueFailed (fid : string)
| CallRecognize (fid : string)
| CallStoreOcr (row : sqlite_row)
| LogWorkerError
| LogRecordingError
| LogStoreFailed.

(** [queue.Queue(maxsize=100)] in [_init_ocr]. *)
Definition OCR_QUEUE_MAXSIZE : nat := 100.

Section Worker.

(** Collaborators: [image.copy()], [ocr_engine.recognize], the main
    storage behind [_store_frame], the SQLite index, and the rendering of
    [{"size": image.size}]. *)
Context {sdb : Type}.
Variable image_copy : string → outcome string.
Variable recognize : string → outcome OCRResult.
Variable store_main : string → outcome bool.
Variable store_frame_with_ocr : sqlite_row → sdb → outcome unit * sdb.
Variable size_metadata : string → string.
Variable IMAGE_STORAGE_PATH : string.

Record worker := Worker {
  use_ocr : bool;
  ocr_queue : list task;
  sqlite_storage : sdb;
  trace : list event
}.

(** The end of [_init_ocr] in local mode: the queue is created empty. *)
Definition _init_ocr (enable_ocr engine_loaded : bool) (db : sdb) : worker :=
  Worker (enable_ocr && engine_loaded) [] db [].

Definition emit (e : event) : M worker unit :=
  modify (λ w, Worker (use_ocr w) (ocr_queue w) (sqlite_storage w)
                 (trace w ++ [e])).

(** [self.ocr_queue.put(task, block=False)] *)
Definition put_nowait (t : task) : M worker unit :=
  λ w, if (length (ocr_queue w) <? OCR_QUEUE_MAXSIZE)%nat
       then (Returned tt,
             Worker (use_ocr w) (ocr_queue w ++ [t]) (sqlite_storage w)
               (trace w ++ [PutTask (task_frame_id t)]))
       else (Raised QueueFull, w).

(** [self.ocr_queue.get(timeout=1.0)], after the timeout *)
Definition get_task : M worker task :=
  λ w, match ocr_queue w with
       | [] => (Raised QueueEmpty, w)
       | t :: q => (Returned t,
                    Worker (use_ocr w) q (sqlite_storage w) (trace w))
       end.

Definition lift {A} (r : outcome A) : M worker A := λ w, (r, w).

(** [self.sqlite_storage.store_frame_with_ocr(...)], recorded as [call]. *)
Definition call_sqlite (call : sqlite_row → event) (row : sqlite_row)
  : M worker unit :=
  λ w, let r := store_frame_with_ocr row (sqlite_storage w) in
       (r.1, Worker (use_ocr w) (ocr_queue w) r.2 (trace w ++ [call row])).

(** [_enqueue_ocr_task] *)
Definition _enqueue_ocr_task (frame_id : string) (timestamp : datetime)
    (image image_path : string) : M worker unit :=
  let! w := get in
  if negb (use_ocr w) then ret tt
  else
    try_except
      (let! copy := lift (image_copy image) in
       put_nowait (Task frame_id timestamp copy image_path))
      (λ e, match e with
            | QueueFull => emit (LogQueueFull frame_id)
            | _ => emit (LogEnqueueFailed frame_id)
            end).

(** [_store_to_sqlite] *)
Definition _store_to_sqlite (frame_id : string) (timestamp : datetime)
    (image image_path : string) : M worker unit :=
  try_except
    (call_sqlite CallStorePending
       (SqliteRow frame_id timestamp image_path EmptyString EmptyString
          "pending" 0 "default" (size_metadata image)))
    (λ e, emit (LogPendingFailed frame_id)).

(** One round of the loop of [_ocr_worker]. *)
Definition worker_round : M worker unit :=
  try_except
    (let! task := get_task in
     do! emit (CallRecognize (task_frame_id task)) in
     let! ocr_result := lift (recognize (task_image task)) in
     call_sqlite CallStoreOcr
       (SqliteRow (task_frame_id task) (task_timestamp task)
          (task_image_path task) (text ocr_result) (text_json ocr_result)
          (engine ocr_result) (confidence ocr_result) "default"
          (size_metadata (task_image task))))
    (λ e, match e with
          | QueueEmpty => ret tt
          | _ => emit LogWorkerError
          end).

(** Steps 3 to 7 of the capture loop in local mode, for a frame that
    passed the filter; the loop's own [except] ends the round. *)
Definition process_frame (timestamp : datetime) (image : string)
  : M worker unit :=
  try_except
    (let frame_id := Allocator._generate_frame_id timestamp in
     let image_path :=
       IMAGE_STORAGE_PATH +:+ "/" +:+ strftime_date timestamp +:+ "/"
       +:+ frame_id +:+ ".jpg" in
     do! emit (CallStoreMain frame_id) in
     let! success := lift (store_main frame_id) in
     if negb success then emit LogStoreFailed
     else
       do! _store_to_sqlite frame_id timestamp image image_path in
       let! w := get in
       if use_ocr w
       then _enqueue_ocr_task frame_id timestamp image image_path
       else ret tt)
    (λ e, emit LogRecordingError).

(** What the two threads do, in some interleaving. *)
Inductive action :=
| Capture (timestamp : datetime) (image : string)
| WorkerRound.

Definition step (a : action) (w : worker) : worker :=
  match a with
  | Capture timestamp image => (process_frame timestamp image w).2
  | WorkerRound => (worker_round w).2
  end.

Definition run (acts : list action) (w : worker) : worker :=
  foldl (λ w a, step a w) w acts.

(** Submitting a list of tasks with no worker round in between. *)
Definition submit_all (tasks : list task) (w : worker) : worker :=
  foldl (λ w t, (_enqueue_ocr_task (task_frame_id t) (task_timestamp t)
                   (task_image t) (task_image_path t) w).2) w tasks.

(** What [_enqueue_ocr_task] leaves behind. *)
Definition enqueue_effect (frame_id : string) (timestamp : datetime)
    (image image_path : string) (w : worker) : worker :=
  if negb (use_ocr w) then w
  else
    match image_copy image with
    | Returned copy =>
        if (length (ocr_queue w) <? OCR_QUEUE_MAXSIZE)%nat
        then Worker (use_ocr w)
               (ocr_queue w ++ [Task frame_id timestamp copy image_path])
               (sqlite_storage w) (trace w ++ [PutTask frame_id])
        else Worker (use_ocr w) (ocr_queue w) (sqlite_storage w)
               (trace w ++ [LogQueueFull frame_id])
    | Raised QueueFull =>
        Worker (use_ocr w) (ocr_queue w) (sqlite_storage w)
          (trace w ++ [LogQueueFull frame_id])
    | Raised _ =>
        Worker (use_ocr w) (ocr_queue w) (sqlite_storage w)
          (trace w ++ [LogEnqueueFailed frame_id])
    end.

Lemma enqueue_eq (frame_id : string) (timestamp : datetime)
    (image image_path : string) (w : worker) :
  _enqueue_ocr_task frame_id timestamp image image_path w
  = (Returned tt, enqueue_effect frame_id timestamp image image_path w).
Proof.
  unfold _enqueue_ocr_task, enqueue_effect, bind at 1, get.
  unfold try_except, bind, lift, put_nowait, emit, modify.
  destruct w as [[|] q db tr]; cbn [negb use_ocr ocr_queue]; [|done].
  destruct (image_copy image) as [copy|e].
  - destruct (length q <? OCR_QUEUE_MAXSIZE)%nat; reflexivity.
  - destruct e; reflexivity.
Qed.

Lemma submit_all_cons (t : task) (tasks : list task) (w : worker) :
  submit_all (t :: tasks) w
  = submit_all tasks
      (enqueue_effect (task_frame_id t) (task_timestamp t) (task_image t)
         (task_image_path t) w).
Proof. unfold submit_all. cbn [foldl]. by rewrite enqueue_eq. Qed.

(** Submissions with no worker round in between fill the room left and
    are dropped from then on. *)
Lemma submit_all_fills (tasks : list task) (w : worker) :
  use_ocr w = true →
  (∀ t, t ∈ tasks → image_copy (task_image t) = Returned (task_image t)) →
  let room := (OCR_QUEUE_MAXSIZE - length (ocr_queue w))%nat in
  submit_all tasks w
  = Worker true (ocr_queue w ++ take room tasks) (sqlite_storage w)
      (trace w ++ ((λ t, PutTask (task_frame_id t)) <$> take room tasks)
       ++ ((λ t, LogQueueFull (task_frame_id t)) <$> drop room tasks)).
Proof.
  revert w. induction tasks as [|t tasks IH]; intros w Huse Hcopy room.
  - simpl. rewrite take_nil, drop_nil. simpl. rewrite !app_nil_r.
    destruct w; simpl in *; by subst.
  - rewrite submit_all_cons. unfold enqueue_effect. rewrite Huse. cbn [negb].
    rewrite (Hcopy t) by by left.
    assert (Hcopy' : ∀ t', t' ∈ tasks →
              image_copy (task_image t') = Returned (task_image t'))
      by (intros; apply Hcopy; by right).
    destruct (Nat.ltb_spec (length (ocr_queue w)) OCR_QUEUE_MAXSIZE) as [Hlt|Hge].
    + rewrite IH by done. cbn [ocr_queue sqlite_storage trace].
      rewrite length_app. cbn [length].
      subst room.
      replace (OCR_QUEUE_MAXSIZE - length (ocr_queue w))%nat
        with (S (OCR_QUEUE_MAXSIZE - (length (ocr_queue w) + 1)))%nat by lia.
      cbn [take drop fmap list_fmap]. destruct t; cbn.
      by rewrite <- !app_assoc.
    + rewrite IH by done. cbn [ocr_queue sqlite_storage trace].
      subst room.
      replace (OCR_QUEUE_MAXSIZE - length (ocr_queue w))%nat with 0%nat by lia.
      rewrite !take_0, !drop_0. cbn [fmap list_fmap].
      rewrite !app_nil_r. by rewrite <- !app_assoc.
Qed.

(** The row [_store_to_sqlite] writes. *)
Definition pending_row_of (fid : string) (timestamp : datetime)
    (image image_path : string) : sqlite_row :=
  SqliteRow fid timestamp image_path EmptyString EmptyString "pending" 0
    "default" (size_metadata image).

(** The row the worker writes for a task and its OCR result. *)
Definition ocr_row (t : task) (r : OCRResult) : sqlite_row :=
  SqliteRow (task_frame_id t) (task_timestamp t) (task_image_path t)
    (text r) (text_json r) (engine r) (confidence r) "default"
    (size_metadata (task_image t)).

(** What a capture round leaves behind. *)
Definition capture_effect (timestamp : datetime) (image : string) (w : worker)
  : worker :=
  let fid := Allocator._generate_frame_id timestamp in
  let image_path :=
    IMAGE_STORAGE_PATH +:+ "/" +:+ strftime_date timestamp +:+ "/"
    +:+ fid +:+ ".jpg" in
  let tr1 := trace w ++ [CallStoreMain fid] in
  match store_main fid with
  | Raised _ =>
      Worker (use_ocr w) (ocr_queue w) (sqlite_storage w)
        (tr1 ++ [LogRecordingError])
  | Returned false =>
      Worker (use_ocr w) (ocr_queue w) (sqlite_storage w)
        (tr1 ++ [LogStoreFailed])
  | Returned true =>
      let row := pending_row_of fid timestamp image image_path in
      let c := store_frame_with_ocr row (sqlite_storage w) in
      enqueue_effect fid timestamp image image_path
        (Worker (use_ocr w) (ocr_queue w) c.2
           (tr1 ++ CallStorePending row
            :: (if is_returned c.1 then [] else [LogPendingFailed fid])))
  end.

Lemma process_frame_eq (timestamp : datetime) (image : string) (w : worker) :
  process_frame timestamp image w
  = (Returned tt, capture_effect timestamp image w).
Proof.
  unfold process_frame, capture_effect, _store_to_sqlite, call_sqlite,
    pending_row_of.
  unfold try_except, bind, emit, modify, lift, get, ret.
  destruct w as [use q db tr]. cbn [use_ocr ocr_queue sqlite_storage trace].
  set (fid := Allocator._generate_frame_id timestamp).
  set (row := SqliteRow _ _ _ _ _ _ _ _ _).
  destruct (store_main fid) as [[|]|e];
    cbn [negb use_ocr ocr_queue sqlite_storage trace]; [|reflexivity..].
  destruct (store_frame_with_ocr row db) as [[[]|e] db'];
    cbn [fst snd is_returned use_ocr ocr_queue sqlite_storage trace].
  - destruct use.
    + rewrite enqueue_eq. cbn [fst snd]. rewrite <- app_assoc. reflexivity.
    + unfold enqueue_effect. cbn [negb use_ocr]. rewrite <- app_assoc.
      reflexivity.
  - destruct use.
    + rewrite enqueue_eq. cbn [fst snd]. rewrite <- !app_assoc. reflexivity.
    + unfold enqueue_effect. cbn [negb use_ocr]. rewrite <- !app_assoc.
      reflexivity.
Qed.

(** What the worker's [except] clauses log. *)
Definition handler_log (e : exn) : list event :=
  match e with
  | QueueEmpty => []
  | _ => [LogWorkerError]
  end.

(** What a round of the worker leaves behind. *)
Definition round_effect (w : worker) : worker :=
  match ocr_queue w with
  | [] => w
  | t :: q =>
      let tr1 := trace w ++ [CallRecognize (task_frame_id t)] in
      match recognize (task_image t) with
      | Raised e =>
          Worker (use_ocr w) q (sqlite_storage w) (tr1 ++ handler_log e)
      | Returned r =>
          let c := store_frame_with_ocr (ocr_row t r) (sqlite_storage w) in
          Worker (use_ocr w) q c.2
            (tr1 ++ CallStoreOcr (ocr_row t r)
             :: match c.1 with
                | Returned _ => []
                | Raised e => handler_log e
                end)
      end
  end.

Lemma worker_round_eq (w : worker) :
  worker_round w = (Returned tt, round_effect w).
Proof.
  unfold worker_round, round_effect, call_sqlite, get_task.
  unfold try_except, bind, emit, modify, lift, get, ret.
  destruct w as [use q db tr]. cbn [use_ocr ocr_queue sqlite_storage trace].
  destruct q as [|t q]; [reflexivity|].
  cbn [use_ocr ocr_queue sqlite_storage trace].
  destruct (recognize (task_image t)) as [r|e].
  - fold (ocr_row t r).
    destruct (store_frame_with_ocr (ocr_row t r) db) as [[[]|e] db'];
      cbn [fst snd use_ocr ocr_queue sqlite_storage trace].
    + by rewrite <- app_assoc.
    + destruct e; cbn [handler_log use_ocr ocr_queue sqlite_storage trace];
        rewrite <- ?app_assoc; reflexivity.
  - destruct e; cbn [handler_log use_ocr ocr_queue sqlite_storage trace];
      rewrite ?app_nil_r; reflexivity.
Qed.

Lemma step_eq (a : action) (w : worker) :
  step a w = match a with
             | Capture timestamp image => capture_effect timestamp image w
             | WorkerRound => round_effect w
             end.
Proof.
  destruct a; unfold step; by rewrite ?process_frame_eq, ?worker_round_eq.
Qed.

(** The row a frame is first stored with: placeholders in the OCR
    fields. *)
Definition pending_row (fid : string) (row : sqlite_row) : Prop :=
  row_frame_id row = fid ∧ row_ocr_engine row = "pending"
  ∧ row_ocr_text row = EmptyString.

(** The events a capture round can add for the frame [fid] besides the
    call to the main storage and the hand-over to the queue. *)
Definition capture_event (fid : string) (e : event) : Prop :=
  match e with
  | CallStorePending row => pending_row fid row
  | LogPendingFailed f | LogQueueFull f | LogEnqueueFailed f => f = fid
  | LogStoreFailed | LogRecordingError => True
  | PutTask _ | CallStoreMain _ | CallRecognize _ | CallStoreOcr _
  | LogWorkerError => False
  end.

Lemma enqueue_effect_shape (fid : string) (timestamp : datetime)
    (image image_path : string) (w : worker) :
  ∃ evs newq,
    enqueue_effect fid timestamp image image_path w
    = Worker (use_ocr w) (ocr_queue w ++ newq) (sqlite_storage w)
        (trace w ++ evs)
    ∧ ((newq = [] ∧ (evs = [] ∨ evs = [LogQueueFull fid]
                     ∨ evs = [LogEnqueueFailed fid]))
       ∨ (∃ copy, newq = [Task fid timestamp copy image_path]
                  ∧ evs = [PutTask fid])).
Proof.
  unfold enqueue_effect. destruct w as [use q db tr].
  cbn [use_ocr ocr_queue sqlite_storage trace].
  destruct use; cbn [negb].
  - destruct (image_copy image) as [copy|e].
    + destruct (length q <? OCR_QUEUE_MAXSIZE)%nat.
      * exists [PutTask fid], [Task fid timestamp copy image_path].
        split; [done|]. right. by exists copy.
      * exists [LogQueueFull fid], []. rewrite app_nil_r. split; [done|].
        left. auto.
    + destruct e;
        first [by exists [LogQueueFull fid], []; rewrite app_nil_r;
                 (split; [reflexivity|]); left; auto
              |by exists [LogEnqueueFailed fid], []; rewrite app_nil_r;
                 (split; [reflexivity|]); left; auto].
  - exists [], []. rewrite !app_nil_r. split; [done|]. left. auto.
Qed.

Lemma capture_effect_shape (timestamp : datetime) (image : string)
    (w : worker) :
  let fid := Allocator._generate_frame_id timestamp in
  ∃ db' evs newq,
    capture_effect timestamp image w
    = Worker (use_ocr w) (ocr_queue w ++ newq) db'
        (trace w ++ CallStoreMain fid :: evs)
    ∧ ((newq = [] ∧ Forall (capture_event fid) evs)
       ∨ (∃ t row logs, newq = [t] ∧ task_frame_id t = fid
                        ∧ pending_row fid row
                        ∧ evs = CallStorePending row :: logs ++ [PutTask fid]
                        ∧ Forall (capture_event fid) logs)).
Proof.
  intros fid. unfold capture_effect. fold fid.
  destruct (store_main fid) as [[|]|e].
  - set (path := IMAGE_STORAGE_PATH +:+ _).
    set (row := pending_row_of fid timestamp image path).
    set (c := store_frame_with_ocr row (sqlite_storage w)).
    set (logs := if is_returned c.1 then [] else [LogPendingFailed fid]).
    assert (Hrow : pending_row fid row) by done.
    assert (Hlogs : Forall (capture_event fid) logs)
      by (subst logs; destruct (is_returned _); by repeat constructor).
    destruct (enqueue_effect_shape fid timestamp image path
                (Worker (use_ocr w) (ocr_queue w) c.2
                   ((trace w ++ [CallStoreMain fid])
                    ++ CallStorePending row :: logs)))
      as (evs & newq & -> & Hshape).
    cbn [use_ocr ocr_queue sqlite_storage trace].
    exists c.2, (CallStorePending row :: logs ++ evs), newq.
    split; [by rewrite <- !app_assoc|].
    destruct Hshape as [[-> Hevs]|(copy & -> & ->)].
    + left. split; [done|]. constructor; [done|]. apply Forall_app.
      split; [done|]. destruct Hevs as [->|[->| ->]]; by repeat constructor.
    + right. by exists (Task fid timestamp copy path), row, logs.
  - exists (sqlite_storage w), [LogStoreFailed], [].
    rewrite app_nil_r, <- app_assoc. split; [done|].
    left. split; [done|by repeat constructor].
  - exists (sqlite_storage w), [LogRecordingError], [].
    rewrite app_nil_r, <- app_assoc. split; [done|].
    left. split; [done|by repeat constructor].
Qed.

Lemma round_effect_shape (w : worker) :
  (ocr_queue w = [] ∧ round_effect w = w)
  ∨ ∃ t q db' evs,
      ocr_queue w = t :: q
      ∧ round_effect w
        = Worker (use_ocr w) q db'
            (trace w ++ CallRecognize (task_frame_id t) :: evs)
      ∧ (Forall (λ e, e = LogWorkerError) evs
         ∨ ∃ r logs, recognize (task_image t) = Returned r
                     ∧ evs = CallStoreOcr (ocr_row t r) :: logs
                     ∧ Forall (λ e, e = LogWorkerError) logs).
Proof.
  unfold round_effect. destruct (ocr_queue w) as [|t q]; [by left|].
  right. exists t, q.
  assert (Hlog : ∀ e, Forall (λ e, e = LogWorkerError) (handler_log e))
    by (intros []; by repeat constructor).
  destruct (recognize (task_image t)) as [r|e].
  - eexists _, _. split; [done|]. rewrite <- app_assoc. split; [done|].
    right. eexists r, _. split; [done|]. split; [done|].
    destruct (store_frame_with_ocr _ _).1; [constructor|apply Hlog].
  - eexists _, _. split; [done|]. rewrite <- app_assoc. split; [done|].
    left. apply Hlog.
Qed.

(** An event that concerns the OCR of frame [fid]: its task entering the
    queue, its recognition, or the write of its OCR result. *)
Definition touches (fid : string) (e : event) : bool :=
  match e with
  | PutTask f | CallRecognize f => bool_decide (f = fid)
  | CallStoreOcr row => bool_decide (row_frame_id row = fid)
  | _ => false
  end.

(** No task for [fid] is waiting. *)
Definition absent (fid : string) (w : worker) : Prop :=
  ∀ t, t ∈ ocr_queue w → task_frame_id t ≠ fid.

Lemma capture_event_no_touch (fid' fid : string) (evs : list event) :
  Forall (capture_event fid') evs → Forall (λ e, touches fid e = false) evs.
Proof. intros H. eapply Forall_impl; [exact H|]. by intros []. Qed.

Lemma step_no_touch (fid : string) (a : action) (w : worker) :
  absent fid w →
  (∀ timestamp image,
     a = Capture timestamp image →
     Allocator._generate_frame_id timestamp ≠ fid) →
  ∃ evs, trace (step a w) = trace w ++ evs
         ∧ Forall (λ e, touches fid e = false) evs
         ∧ absent fid (step a w).
Proof.
  intros Habs Hne. rewrite step_eq. destruct a as [timestamp image|].
  - specialize (Hne timestamp image eq_refl).
    destruct (capture_effect_shape timestamp image w)
      as (db' & evs & newq & -> & Hshape).
    eexists. split; [reflexivity|].
    destruct Hshape as [[-> Hevs]|(t & row & logs & -> & Ht & _ & -> & Hlogs)].
    + split.
      * constructor; [done|]. by eapply capture_event_no_touch.
      * intros t. cbn [ocr_queue]. rewrite app_nil_r. apply Habs.
    + split.
      * constructor; [done|]. constructor; [done|]. apply Forall_app. split.
        -- by eapply capture_event_no_touch.
        -- constructor; [|constructor]. simpl.
           by apply bool_decide_eq_false.
      * intros t'. cbn [ocr_queue].
        intros [Hin|Hin%list_elem_of_singleton]%elem_of_app;
          [by apply Habs|]. subst t'. by rewrite Ht.
  - destruct (round_effect_shape w) as [[Hq ->]|(t & q & db' & evs & Hq & -> & Hshape)].
    + exists []. rewrite app_nil_r. split; [done|]. split; [constructor|done].
    + assert (Hrest : absent fid (Worker (use_ocr w) q db'
                        (trace w ++ CallRecognize (task_frame_id t) :: evs))).
      { intros t' Hin. apply Habs. rewrite Hq. by right. }
      assert (Ht : task_frame_id t ≠ fid)
        by (apply Habs; rewrite Hq; by left).
      eexists. split; [reflexivity|]. split; [|done].
      constructor; [simpl; by apply bool_decide_eq_false|].
      destruct Hshape as [Hlogs|(r & logs & _ & -> & Hlogs)].
      * eapply Forall_impl; [exact Hlogs|]. by intros ? ->.
      * constructor; [simpl; by apply bool_decide_eq_false|].
        eapply Forall_impl; [exact Hlogs|]. by intros ? ->.
Qed.

Lemma run_no_touch (fid : string) (acts : list action) (w : worker) :
  absent fid w →
  (∀ timestamp image,
     Capture timestamp image ∈ acts →
     Allocator._generate_frame_id timestamp ≠ fid) →
  ∃ evs, trace (run acts w) = trace w ++ evs
         ∧ Forall (λ e, touches fid e = false) evs.
Proof.
  revert w. induction acts as [|a acts IH]; intros w Habs Hne.
  - exists []. by rewrite app_nil_r.
  - destruct (step_no_touch fid a w Habs) as (evs1 & Htr1 & Hev1 & Habs1).
    { intros timestamp image ->. apply (Hne timestamp image). by left. }
    destruct (IH (step a w) Habs1) as (evs2 & Htr2 & Hev2).
    { intros timestamp image Hin. apply (Hne timestamp image). by right. }
    exists (evs1 ++ evs2). unfold run in *. cbn [foldl].
    rewrite Htr2, Htr1, <- app_assoc. split; [done|].
    by apply Forall_app.
Qed.

(** C7. [_enqueue_ocr_task] always returns normally.  The queue is
    created empty with capacity 100.  A submission to a full queue
    leaves the queue as it is and logs the drop; tasks submitted with no
    worker round in between fill the first 100 places and the others
    are dropped and logged.  After a drop of [fid], whatever the capture
    loop (on other frames) and the worker do next, no task for [fid] is
    queued, recognised or written: the stored row keeps its placeholders.
    The capture round returns normally whatever the queue does. *)
Theorem ocr_submit_drops_when_full :
  (∀ fid timestamp image image_path w,
     (_enqueue_ocr_task fid timestamp image image_path w).1 = Returned tt)
  ∧ (OCR_QUEUE_MAXSIZE = 100%nat
     ∧ ∀ enable loaded db, ocr_queue (_init_ocr enable loaded db) = [])
  ∧ (∀ fid timestamp image image_path w copy,
       use_ocr w = true →
       image_copy image = Returned copy →
       (OCR_QUEUE_MAXSIZE ≤ length (ocr_queue w))%nat →
       (_enqueue_ocr_task fid timestamp image image_path w).2
       = Worker true (ocr_queue w) (sqlite_storage w)
           (trace w ++ [LogQueueFull fid]))
  ∧ (∀ tasks db,
       (∀ t, t ∈ tasks → image_copy (task_image t) = Returned (task_image t)) →
       submit_all tasks (_init_ocr true true db)
       = Worker true (take 100 tasks) db
           (((λ t, PutTask (task_frame_id t)) <$> take 100 tasks)
            ++ ((λ t, LogQueueFull (task_frame_id t)) <$> drop 100 tasks)))
  ∧ (∀ fid timestamp image image_path w copy acts,
       use_ocr w = true →
       image_copy image = Returned copy →
       (OCR_QUEUE_MAXSIZE ≤ length (ocr_queue w))%nat →
       absent fid w →
       (∀ timestamp' image',
          Capture timestamp' image' ∈ acts →
          Allocator._generate_frame_id timestamp' ≠ fid) →
       let w' := (_enqueue_ocr_task fid timestamp image image_path w).2 in
       ∃ evs, trace (run acts w') = trace w' ++ evs
              ∧ Forall (λ e, touches fid e = false) evs)
  ∧ (∀ timestamp image w,
       (process_frame timestamp image w).1 = Returned tt).
Proof.
  assert (Hfull : ∀ fid timestamp image image_path w copy,
       use_ocr w = true →
       image_copy image = Returned copy →
       (OCR_QUEUE_MAXSIZE ≤ length (ocr_queue w))%nat →
       (_enqueue_ocr_task fid timestamp image image_path w).2
       = Worker true (ocr_queue w) (sqlite_storage w)
           (trace w ++ [LogQueueFull fid])).
  { intros fid timestamp image image_path w copy Huse Hcopy Hlen.
    rewrite enqueue_eq. cbn [snd]. unfold enqueue_effect.
    rewrite Huse, Hcopy. cbn [negb].
    destruct (Nat.ltb_spec (length (ocr_queue w)) OCR_QUEUE_MAXSIZE);
      [lia|done]. }
  split; [|split; [|split; [|split; [|split]]]].
  - intros. by rewrite enqueue_eq.
  - done.
  - exact Hfull.
  - intros tasks db Hcopy.
    rewrite (submit_all_fills tasks (_init_ocr true true db)) by done.
    cbn [_init_ocr ocr_queue sqlite_storage trace andb length app].
    reflexivity.
  - intros fid timestamp image image_path w copy acts Huse Hcopy Hlen Habs Hne.
    rewrite (Hfull _ _ _ _ _ _ Huse Hcopy Hlen). cbn zeta.
    apply run_no_touch; [|done]. exact Habs.
  - intros. by rewrite process_frame_eq.
Qed.

(** *** Order of the writes in local mode *)

(** The frame's row has been written with placeholders. *)
Definition stored_pending (fid : string) (pre : list event) : Prop :=
  ∃ row, CallStorePending row ∈ pre ∧ pending_row fid row.

(** What must have happened before an event: a task is queued or
    recognised only after the pending row of its frame was written, and
    an OCR result is written only after that and after the recognition. *)
Definition admissible (pre : list event) (e : event) : Prop :=
  match e with
  | PutTask fid | CallRecognize fid => stored_pending fid pre
  | CallStoreOcr row =>
      stored_pending (row_frame_id row) pre
      ∧ CallRecognize (row_frame_id row) ∈ pre
  | _ => True
  end.

Fixpoint ordered_from (pre tr : list event) : Prop :=
  match tr with
  | [] => True
  | e :: rest => admissible pre e ∧ ordered_from (pre ++ [e]) rest
  end.

Definition ordered (tr : list event) : Prop := ordered_from [] tr.

Lemma ordered_from_app (pre a b : list event) :
  ordered_from pre (a ++ b) ↔ ordered_from pre a ∧ ordered_from (pre ++ a) b.
Proof.
  revert pre. induction a as [|e a IH]; intros pre; simpl.
  - rewrite app_nil_r. tauto.
  - rewrite IH, <- app_assoc. simpl. tauto.
Qed.

Lemma ordered_from_split (pre tr p q : list event) (e : event) :
  ordered_from pre tr → tr = p ++ e :: q → admissible (pre ++ p) e.
Proof.
  intros H ->. apply ordered_from_app in H as [_ H]. by destruct H.
Qed.

Lemma stored_pending_mono (fid : string) (pre evs : list event) :
  stored_pending fid pre → stored_pending fid (pre ++ evs).
Proof. intros (row & Hin & Hrow). exists row. split; [set_solver|done]. Qed.

(** Events of a capture round other than the hand-over need nothing
    before them. *)
Lemma capture_events_ordered (fid : string) (pre evs : list event) :
  Forall (capture_event fid) evs → ordered_from pre evs.
Proof.
  revert pre. induction evs as [|e evs IH]; intros pre; [done|].
  intros [He Hevs]%Forall_cons. split; [|by apply IH].
  by destruct e.
Qed.

Lemma log_events_ordered (pre evs : list event) :
  Forall (λ e, e = LogWorkerError) evs → ordered_from pre evs.
Proof.
  revert pre. induction evs as [|e evs IH]; intros pre; [done|].
  intros [-> Hevs]%Forall_cons. split; [done|by apply IH].
Qed.

(** The invariant of the recorder: the trace is ordered and every task
    waiting in the queue belongs to a frame whose pending row is written. *)
Definition inv (w : worker) : Prop :=
  ordered (trace w)
  ∧ ∀ t, t ∈ ocr_queue w → stored_pending (task_frame_id t) (trace w).

Lemma inv_init (enable loaded : bool) (db : sdb) :
  inv (_init_ocr enable loaded db).
Proof. split; [done|]. intros t Hin. by apply elem_of_nil in Hin. Qed.

Lemma inv_step (a : action) (w : worker) : inv w → inv (step a w).
Proof.
  intros [Hord Hq]. rewrite step_eq. destruct a as [timestamp image|].
  - destruct (capture_effect_shape timestamp image w)
      as (db' & evs & newq & -> & Hshape).
    set (fid := Allocator._generate_frame_id timestamp) in *.
    unfold inv, ordered. cbn [trace ocr_queue].
    destruct Hshape as [[-> Hevs]|(t & row & logs & -> & Ht & Hrow & -> & Hlogs)].
    + split.
      * apply ordered_from_app. split; [done|]. split; [done|].
        by eapply capture_events_ordered.
      * intros t. rewrite app_nil_r. intros Hin.
        by apply stored_pending_mono, Hq.
    + assert (Hnow : ∀ tail, stored_pending fid
               ((trace w ++ [CallStoreMain fid]) ++ CallStorePending row :: tail)).
      { intros tail. exists row. split; [set_solver|done]. }
      split.
      * apply ordered_from_app. split; [done|]. split; [done|].
        split; [done|]. cbn [app]. apply ordered_from_app. split.
        -- by eapply capture_events_ordered.
        -- split; [|done]. simpl.
           rewrite <- app_assoc. cbn [app]. apply (Hnow logs).
      * intros t' [Hin|Hin%list_elem_of_singleton]%elem_of_app.
        -- by apply stored_pending_mono, Hq.
        -- subst t'. rewrite Ht. exists row. split; [set_solver|done].
  - destruct (round_effect_shape w)
      as [[Hempty ->]|(t & q & db' & evs & Hqueue & -> & Hshape)]; [done|].
    assert (Ht : stored_pending (task_frame_id t) (trace w))
      by (apply Hq; rewrite Hqueue; by left).
    unfold inv, ordered. cbn [trace ocr_queue]. split.
    + apply ordered_from_app. split; [done|]. split; [done|]. cbn [app].
      destruct Hshape as [Hlogs|(r & logs & _ & -> & Hlogs)].
      * by apply log_events_ordered.
      * split; [|by apply log_events_ordered].
        simpl. split; [by apply stored_pending_mono|set_solver].
    + intros t' Hin. apply stored_pending_mono, Hq. rewrite Hqueue. by right.
Qed.

Lemma inv_run (acts : list action) (w : worker) : inv w → inv (run acts w).
Proof.
  revert w. induction acts as [|a acts IH]; intros w Hw; [done|].
  unfold run. cbn [foldl]. apply IH. by apply inv_step.
Qed.

(** In every interleaving of capture rounds and worker rounds, starting
    from the initialised worker, the recognition of a frame and the
    write of its OCR result come after the frame's row was written with
    placeholders. *)
Lemma local_writes_ordered (enable loaded : bool) (db : sdb)
    (acts : list action) (pre post : list event) (e : event) :
  trace (run acts (_init_ocr enable loaded db)) = pre ++ e :: post →
  admissible pre e.
Proof.
  intros Hsplit.
  destruct (inv_run acts (_init_ocr enable loaded db) (inv_init _ _ _))
    as [Hord _].
  by apply (ordered_from_split [] _ pre post e Hord).
Qed.

End Worker.

(** A burst of 101 submissions with no worker round in between, with
    collaborators that always succeed. *)
Definition copy_ok (image : string) : outcome string := Returned image.

Definition recognise_ok (image : string) : outcome OCRResult :=
  Returned (MkOCRResult "hello" "[]" "pytesseract" (9 # 10)).

Definition store_ok (fid : string) : outcome bool := Returned true.

Definition accept_row (row : sqlite_row) (db : unit) : outcome unit * unit :=
  (Returned tt, db).

Definition numbered_task (n : nat) : task :=
  Task (format_id (Mk 2025 12 1 14 30 25 0) (Z.of_nat n))
    (Mk 2025 12 1 14 30 25 (Z.of_nat n)) "pixels" "/data/frame.jpg".

Definition burst : list task := numbered_task <$> seq 1 101.

Definition is_drop (e : event) : bool :=
  match e with
  | LogQueueFull _ => true
  | _ => false
  end.

(** One frame captured and then one round of the worker. *)
Definition one_frame_run : worker :=
  run copy_ok recognise_ok store_ok accept_row (λ _, "{size}") "/data"
    [Capture (Mk 2025 12 1 14 30 25 7) "pixels"; WorkerRound]
    (_init_ocr true true tt).

Definition one_frame_pending : sqlite_row :=
  SqliteRow "20251201_143025_000007" (Mk 2025 12 1 14 30 25 7)
    "/data/20251201/20251201_143025_000007.jpg" EmptyString EmptyString
    "pending" 0 "default" "{size}".

Definition one_frame_ocr : sqlite_row :=
  SqliteRow "20251201_143025_000007" (Mk 2025 12 1 14 30 25 7)
    "/data/20251201/20251201_143025_000007.jpg" "hello" "[]" "pytesseract"
    (9 # 10) "default" "{size}".

Example one_frame_trace :
  trace one_frame_run
  = [CallStoreMain "20251201_143025_000007";
     CallStorePending one_frame_pending;
     PutTask "20251201_143025_000007";
     CallRecognize "20251201_143025_000007";
     CallStoreOcr one_frame_ocr].
Proof. by vm_compute. Qed.

Lemma ocr_backpressure_101 :
  (∀ t, t ∈ burst → copy_ok (task_image t) = Returned (task_image t))
  ∧ ocr_queue (submit_all copy_ok burst (_init_ocr true true tt))
    = numbered_task <$> seq 1 100
  ∧ filter (λ e, is_drop e = true)
      (trace (submit_all copy_ok burst (_init_ocr true true tt)))
    = [LogQueueFull "20251201_143025_000101"]
  ∧ (_enqueue_ocr_task copy_ok "20251201_143025_000101"
       (Mk 2025 12 1 14 30 25 101) "pixels" "/data/frame.jpg"
       (submit_all copy_ok (take 100 burst) (_init_ocr true true tt))).1
    = Returned tt.
Proof.
  assert (Hcopy : ∀ t, t ∈ burst →
            copy_ok (task_image t) = Returned (task_image t)) by done.
  destruct (ocr_submit_drops_when_full copy_ok recognise_ok store_ok
              accept_row (λ _, "{size}") "/data")
    as (Hret & _ & _ & Hfill & _).
  split; [exact Hcopy|].
  rewrite (Hfill burst tt Hcopy). cbn [ocr_queue trace].
  split; [by vm_compute|]. split; [by vm_compute|]. apply Hret.
Defined.

End Recorder.

(** ** Order of OCR and storage on the two ingestion paths *)

Module Ordering.

Import Datetime Frame.

Section Paths.

(** The collaborators of the backend handler ... *)
Context {vdb sdb : Type}.
Variable store_frames_batch : list frame_data → vdb → outcome bool * vdb.
Variable store_frame_with_ocr : sqlite_row → sdb → outcome unit * sdb.
Variable fromisoformat : string → option datetime.
Variable decode_image : string → outcome string.
Variable encode_image : string → list Q.
Variable size_metadata : string → string.
Variable ocr_engine : option (string → outcome Server.OCRResult).
Variable IMAGE_STORAGE_PATH : string.

(** ... and of the recording worker. *)
Context {ldb : Type}.
Variable image_copy : string → outcome string.
Variable recognize : string → outcome Recorder.OCRResult.
Variable store_main : string → outcome bool.
Variable local_store_frame_with_ocr : sqlite_row → ldb → outcome unit * ldb.

Definition backend_store_frame :=
  Server.store_frame store_frames_batch store_frame_with_ocr fromisoformat
    decode_image encode_image size_metadata ocr_engine IMAGE_STORAGE_PATH.

Definition local_run :=
  Recorder.run image_copy recognize store_main local_store_frame_with_ocr
    size_metadata IMAGE_STORAGE_PATH.


End Paths.

(** The entry the backend queues for an upload stamped
    2025-12-01T14:30:25.123456 when the OCR engine is set. *)
Definition recognised_entry : frame_data :=
  FrameData "20251201_143025_123456" (Mk 2025 12 1 14 30 25 123456)
    "aGVsbG8=" [] "hello" "/data/20251201/20251201_143025_123456.jpg" "[]"
    "pytesseract" (9 # 10) "remote-gui" "{size}".



End Ordering.

(** ** The batch write buffer over the server's life
    ([BatchWriteBuffer]: [add_frame], [_periodic_flush], [_flush_buffer],
    [stop]) *)

Module BufferLife.

Import Frame Batch.

Section Life.

Context {vdb sdb : Type}.
Variable store_frames_batch : list frame_data → vdb → outcome bool * vdb.
Variable store_frame_with_ocr : sqlite_row → sdb → outcome unit * sdb.

(** What reaches the buffer, one operation after the other: [store_frame]
    adds an entry, the ticker runs a round, or a flush is asked for
    ([stop], the shutdown hook, [/api/recording/stop]). *)
Inductive op :=
| Add (now : Q) (frame_data : frame_data)
| Tick (now now' : Q)
| Flush (now : Q).

Definition apply (o : op) (w : @world vdb sdb) : @world vdb sdb :=
  match o with
  | Add now frame_data =>
      (add_frame store_frames_batch store_frame_with_ocr now frame_data w).2
  | Tick now now' =>
      (periodic_tick store_frames_batch store_frame_with_ocr now now' w).2
  | Flush now => (stop store_frames_batch store_frame_with_ocr now w).2
  end.

Definition life (ops : list op) (w : @world vdb sdb) : @world vdb sdb :=
  foldl (λ w o, apply o w) w ops.

(** The entries added by a sequence of operations, in order. *)
Definition added (ops : list op) : list frame_data :=
  omap (λ o, match o with Add _ frame_data => Some frame_data | _ => None end)
       ops.

(** The batches handed to [store_frames_batch] and the rows handed to
    [store_frame_with_ocr], in call order. *)
Definition batches (tr : list event) : list (list frame_data) :=
  omap (λ e, match e with CallStoreFramesBatch frames => Some frames
             | _ => None end) tr.

Definition rows (tr : list event) : list sqlite_row :=
  omap (λ e, match e with CallStoreFrameWithOcr row => Some row
             | _ => None end) tr.

(** The state a buffer is created in by [_init_all_components]. *)
Definition started (batch_size : Z) (flush_interval now : Q) (v : vdb) (s : sdb)
  : @world vdb sdb :=
  World (BufferState batch_size flush_interval [] now) (Some v) (Some s) [].

(** What a sequence of operations adds to the two call sequences. *)
Definition written (ops : list op) (w : @world vdb sdb)
  : list (list frame_data) :=
  batches (drop (length (trace w)) (trace (life ops w))).

Definition rows_written (ops : list op) (w : @world vdb sdb) : list sqlite_row :=
  rows (drop (length (trace w)) (trace (life ops w))).

(** Whether an operation hands the buffer to the writers, the clock value
    the flush stores, and the line logged before it. *)
Definition fires (o : op) (w : @world vdb sdb) : bool :=
  let b := bwb w in
  match o with
  | Add _ _ => batch_size b <=? Z.of_nat (length (buffer b)) + 1
  | Tick now _ =>
      Qle_bool (flush_interval b) (now - last_flush_time b)%Q
      && (0 <? Z.of_nat (length (buffer b)))
  | Flush _ => negb (bool_decide (buffer b = []))
  end.

Definition flush_clock (o : op) : Q :=
  match o with Add now _ => now | Tick _ now' => now' | Flush now => now end.

Definition announce (o : op) : list event :=
  match o with
  | Add _ _ => [LogInfo BatchSizeReached]
  | Tick _ _ => [LogInfo IntervalReached]
  | Flush _ => []
  end.

Lemma apply_eq (o : op) (w : @world vdb sdb) :
  apply o w
  = let b := bwb w in
    if fires o w
    then write_result store_frames_batch store_frame_with_ocr
           (buffer b ++ added [o])
           (World (BufferState (batch_size b) (flush_interval b) []
                     (flush_clock o))
              (vector_storage w) (sqlite_storage w) (trace w ++ announce o))
    else World (BufferState (batch_size b) (flush_interval b)
                  (buffer b ++ added [o]) (last_flush_time b))
           (vector_storage w) (sqlite_storage w) (trace w).
Proof.
  destruct w as [[bs fi buf lft] vs ss tr].
  destruct o as [now fd|now now'|now]; cbn [apply fires flush_clock announce added
    omap list_omap bwb buffer batch_size flush_interval last_flush_time
    vector_storage sqlite_storage trace].
  - rewrite add_frame_eq. cbn [snd bwb buffer batch_size flush_interval
      last_flush_time vector_storage sqlite_storage trace]. done.
  - unfold periodic_tick, bind at 1, get.
    cbn [bwb buffer batch_size flush_interval last_flush_time].
    destruct (Qle_bool fi (now - lft) && (0 <? Z.of_nat (length buf))) eqn:Hf.
    + unfold bind, emit, modify. rewrite flush_buffer_eq.
      cbn [snd bwb buffer batch_size flush_interval last_flush_time
           vector_storage sqlite_storage trace].
      rewrite app_nil_r.
      destruct buf as [|fd l]; [|done].
      apply andb_true_iff in Hf as [_ Hf]. by simpl in Hf.
    + unfold ret. cbn [snd]. by rewrite app_nil_r.
  - unfold stop. rewrite flush_buffer_eq.
    cbn [snd bwb buffer batch_size flush_interval last_flush_time
         vector_storage sqlite_storage trace].
    rewrite !app_nil_r.
    destruct buf as [|fd l]; [done|].
    by rewrite bool_decide_eq_false_2.
Qed.

Lemma sqlite_pass_batches (frames : list frame_data) (s : sdb) :
  batches (sqlite_pass store_frame_with_ocr frames s).2 = [].
Proof.
  revert s. induction frames as [|fd l IH]; intros s; [done|].
  cbn [sqlite_pass snd]. unfold batches. cbn [omap list_omap].
  rewrite omap_app. fold (batches (sqlite_pass store_frame_with_ocr l
    (store_frame_with_ocr (row_of fd) s).2).2). rewrite IH.
  by destruct (is_returned _).
Qed.

Lemma sqlite_pass_rows (frames : list frame_data) (s : sdb) :
  rows (sqlite_pass store_frame_with_ocr frames s).2 = row_of <$> frames.
Proof.
  revert s. induction frames as [|fd l IH]; intros s; [done|].
  cbn [sqlite_pass snd]. unfold rows. cbn [omap list_omap fmap list_fmap].
  f_equal. rewrite omap_app. fold (rows (sqlite_pass store_frame_with_ocr l
    (store_frame_with_ocr (row_of fd) s).2).2). rewrite IH.
  by destruct (is_returned _).
Qed.

(** The events of one batch write, by the stores that are present. *)
Lemma write_result_events (frames : list frame_data) (w : @world vdb sdb) :
  ∃ evs, trace (write_result store_frames_batch store_frame_with_ocr frames w) = trace w ++ evs
    ∧ bwb (write_result store_frames_batch store_frame_with_ocr frames w) = bwb w
    ∧ (is_Some (vector_storage (write_result store_frames_batch store_frame_with_ocr frames w)) ↔ is_Some (vector_storage w))
    ∧ (is_Some (sqlite_storage (write_result store_frames_batch store_frame_with_ocr frames w)) ↔ is_Some (sqlite_storage w))
    ∧ batches evs
      = match vector_storage w with Some _ => [frames] | None => [] end
    ∧ rows evs
      = match vector_storage w, sqlite_storage w with
        | Some v, Some _ =>
            if is_returned (store_frames_batch frames v).1
            then row_of <$> frames else []
        | None, Some _ => row_of <$> frames
        | _, None => []
        end.
Proof.
  unfold write_result.
  destruct (vector_storage w) as [v|] eqn:Hv.
  - destruct (store_frames_batch frames v) as [[b|e] v'];
      cbn [fst snd is_returned].
    + destruct (sqlite_storage w) as [s|] eqn:Hs;
        cbn [bwb vector_storage sqlite_storage trace];
        eexists; (split; [reflexivity|]); (split; [done|]);
        (split; [by split; eauto|]); (split; [by split; eauto|]).
      * unfold batches, rows. rewrite !omap_app.
        fold (batches (sqlite_pass store_frame_with_ocr frames s).2).
        fold (rows (sqlite_pass store_frame_with_ocr frames s).2).
        rewrite sqlite_pass_batches, sqlite_pass_rows. by destruct b.
      * by destruct b.
    + destruct (sqlite_storage w) as [s|] eqn:Hs;
        cbn [bwb vector_storage sqlite_storage trace];
        eexists; (split; [reflexivity|]); (split; [done|]);
        (split; [by split; eauto|]); (split; [by split; eauto|]); done.
  - destruct (sqlite_storage w) as [s|] eqn:Hs;
      cbn [bwb vector_storage sqlite_storage trace];
      eexists; (split; [reflexivity|]); (split; [done|]);
      (split; [by split; eauto|]); (split; [by split; eauto|]).
    + unfold batches, rows. cbn [omap list_omap].
      fold (batches (sqlite_pass store_frame_with_ocr frames s).2).
      fold (rows (sqlite_pass store_frame_with_ocr frames s).2).
      by rewrite sqlite_pass_batches, sqlite_pass_rows.
    + done.
Qed.

(** One operation: the trace grows, the stores stay, the limits stay,
    and the entries are either still buffered or in the one batch the
    operation wrote. *)
Lemma apply_step (o : op) (w : @world vdb sdb) :
  ∃ evs, trace (apply o w) = trace w ++ evs
    ∧ batch_size (bwb (apply o w)) = batch_size (bwb w)
    ∧ flush_interval (bwb (apply o w)) = flush_interval (bwb w)
    ∧ (is_Some (vector_storage (apply o w)) ↔ is_Some (vector_storage w))
    ∧ (is_Some (sqlite_storage (apply o w)) ↔ is_Some (sqlite_storage w))
    ∧ (if fires o w
       then buffer (bwb (apply o w)) = []
            ∧ batches evs
              = match vector_storage w with
                | Some _ => [buffer (bwb w) ++ added [o]]
                | None => []
                end
            ∧ rows evs
              = match vector_storage w, sqlite_storage w with
                | Some v, Some _ =>
                    if is_returned
                         (store_frames_batch (buffer (bwb w) ++ added [o]) v).1
                    then row_of <$> (buffer (bwb w) ++ added [o]) else []
                | None, Some _ => row_of <$> (buffer (bwb w) ++ added [o])
                | _, None => []
                end
       else buffer (bwb (apply o w)) = buffer (bwb w) ++ added [o] ∧ evs = []).
Proof.
  rewrite apply_eq. cbn zeta.
  destruct (fires o w) eqn:Hf.
  - set (w1 := World _ _ _ _).
    destruct (write_result_events (buffer (bwb w) ++ added [o]) w1)
      as (evs & Htr & Hb & Hv & Hs & Hbat & Hrows).
    exists (announce o ++ evs).
    split; [rewrite Htr; subst w1; cbn [trace]; by rewrite app_assoc|].
    rewrite Hb. subst w1.
    cbn [bwb batch_size flush_interval buffer vector_storage sqlite_storage]
      in *.
    do 4 (split; [done|]). split; [done|].
    unfold batches, rows in *. rewrite !omap_app.
    replace (omap _ (announce o)) with (@nil (list frame_data))
      by by destruct o.
    replace (omap _ (announce o)) with (@nil sqlite_row) by by destruct o.
    done.
  - exists []. cbn [bwb batch_size flush_interval buffer vector_storage
      sqlite_storage trace]. by rewrite app_nil_r.
Qed.

Lemma life_cons (o : op) (ops : list op) (w : @world vdb sdb) :
  life (o :: ops) w = life ops (apply o w).
Proof. done. Qed.

Lemma life_trace (ops : list op) (w : @world vdb sdb) :
  ∃ evs, trace (life ops w) = trace w ++ evs.
Proof.
  revert w. induction ops as [|o ops IH]; intros w.
  - exists []. by rewrite app_nil_r.
  - rewrite life_cons. destruct (IH (apply o w)) as [evs ->].
    destruct (apply_step o w) as (evs0 & -> & _).
    exists (evs0 ++ evs). by rewrite app_assoc.
Qed.

Lemma written_cons (o : op) (ops : list op) (w : @world vdb sdb) :
  written (o :: ops) w
  = batches (drop (length (trace w)) (trace (apply o w)))
    ++ written ops (apply o w).
Proof.
  unfold written. rewrite life_cons.
  destruct (life_trace ops (apply o w)) as [evs ->].
  rewrite drop_app_length.
  destruct (apply_step o w) as (evs0 & -> & _).
  rewrite <- app_assoc, !drop_app_length.
  unfold batches. by rewrite omap_app.
Qed.

Lemma rows_written_cons (o : op) (ops : list op) (w : @world vdb sdb) :
  rows_written (o :: ops) w
  = rows (drop (length (trace w)) (trace (apply o w)))
    ++ rows_written ops (apply o w).
Proof.
  unfold rows_written. rewrite life_cons.
  destruct (life_trace ops (apply o w)) as [evs ->].
  rewrite drop_app_length.
  destruct (apply_step o w) as (evs0 & -> & _).
  rewrite <- app_assoc, !drop_app_length.
  unfold rows. by rewrite omap_app.
Qed.

Lemma added_cons (o : op) (ops : list op) :
  added (o :: ops) = added [o] ++ added ops.
Proof. unfold added. simpl. by destruct o. Qed.

(** Hand-over to the vector index: over any sequence of additions,
    ticker rounds and flushes, with the vector index initialised, the
    batches handed to [store_frames_batch], read one after the other and
    followed by what is still buffered, are the entries that were
    buffered at the start followed by the entries added since: every
    entry is handed over at most once, in the order of arrival, and none
    is dropped before it is handed over.  No batch is empty. *)
Theorem batches_hand_over_each_entry_once (ops : list op)
    (w : @world vdb sdb) :
  is_Some (vector_storage w) →
  concat (written ops w) ++ buffer (bwb (life ops w))
  = buffer (bwb w) ++ added ops
  ∧ Forall (λ frames, frames ≠ []) (written ops w).
Proof.
  revert w. induction ops as [|o ops IH]; intros w Hv.
  - unfold written, life. cbn [foldl added omap list_omap].
    rewrite drop_all, app_nil_r. by split.
  - rewrite written_cons, added_cons, life_cons.
    destruct (apply_step o w) as (evs & Htr & _ & _ & Hv' & _ & Hcase).
    destruct (IH (apply o w)) as [Heq Hne]; [by apply Hv'|].
    rewrite Htr, drop_app_length.
    destruct Hv as [v Hv]. rewrite Hv in Hcase.
    destruct (fires o w) eqn:Hf.
    + destruct Hcase as (Hbuf & Hbat & _). rewrite Hbat, Hbuf in *.
      simpl in Heq. simpl. rewrite <- !app_assoc, Heq.
      split; [done|]. constructor; [|done].
      intros Hnil. apply app_eq_nil in Hnil as [Hb Ha].
      destruct o as [now fd|now now'|now]; [done| |];
        cbn [fires] in Hf; rewrite Hb in Hf.
      * by rewrite andb_false_r in Hf.
      * by rewrite bool_decide_eq_true_2 in Hf.
    + destruct Hcase as [Hbuf ->]. cbn [batches omap list_omap app].
      rewrite Heq, Hbuf. by rewrite app_assoc.
Qed.

(** Hand-over to the secondary index: with both stores initialised,
    the rows handed to [store_frame_with_ocr] are rows of entries of the
    batches, in the order of the batches and with no row twice; when the
    batched write never raises they are the rows of all of them. *)
Theorem secondary_rows_follow_batches (ops : list op) (w : @world vdb sdb) :
  is_Some (vector_storage w) → is_Some (sqlite_storage w) →
  sublist (rows_written ops w) (row_of <$> concat (written ops w))
  ∧ ((∀ frames v, is_returned (store_frames_batch frames v).1 = true) →
     rows_written ops w = row_of <$> concat (written ops w)).
Proof.
  revert w. induction ops as [|o ops IH]; intros w Hv Hs.
  - unfold rows_written, written, life. cbn [foldl].
    rewrite drop_all. by split.
  - rewrite rows_written_cons, written_cons.
    destruct (apply_step o w) as (evs & Htr & _ & _ & Hv' & Hs' & Hcase).
    destruct (IH (apply o w)) as [Hsub Heq]; [by apply Hv'|by apply Hs'|].
    rewrite Htr, drop_app_length.
    destruct Hv as [v Hv]. destruct Hs as [s Hs]. rewrite Hv, Hs in Hcase.
    rewrite concat_app, fmap_app.
    destruct (fires o w).
    + destruct Hcase as (_ & -> & ->). cbn [concat]. rewrite app_nil_r.
      split.
      * apply sublist_app; [|done].
        destruct (is_returned _); [done|apply sublist_nil_l].
      * intros Hok. rewrite Hok, Heq by done. done.
    + destruct Hcase as [_ ->]. cbn [rows batches omap list_omap concat
        fmap list_fmap app]. split; [done|]. intros Hok. by apply Heq.
Qed.

(** The buffer stays below its limit: with [batch_size] at least 1 and a
    buffer that starts below it, the buffer holds fewer than [batch_size]
    entries after every operation, and every batch handed to the vector
    index holds between 1 and [batch_size] entries. *)
Theorem buffer_stays_below_batch_size (ops : list op) (w : @world vdb sdb) :
  1 ≤ batch_size (bwb w) →
  Z.of_nat (length (buffer (bwb w))) < batch_size (bwb w) →
  batch_size (bwb (life ops w)) = batch_size (bwb w)
  ∧ Z.of_nat (length (buffer (bwb (life ops w)))) < batch_size (bwb w)
  ∧ Forall (λ frames, 1 ≤ Z.of_nat (length frames) ≤ batch_size (bwb w))
      (written ops w).
Proof.
  revert w. induction ops as [|o ops IH]; intros w Hbs Hlen.
  - unfold written, life. cbn [foldl]. rewrite drop_all. by repeat split.
  - rewrite written_cons, life_cons.
    destruct (apply_step o w) as (evs & Htr & Hsize & _ & _ & _ & Hcase).
    rewrite Htr, drop_app_length.
    assert (Z.of_nat (length (buffer (bwb (apply o w))))
            < batch_size (bwb (apply o w))
            ∧ Forall (λ frames,
                1 ≤ Z.of_nat (length frames) ≤ batch_size (bwb w))
                (batches evs)) as [Hlen' Hbat].
    { rewrite Hsize. destruct (fires o w) eqn:Hf.
      - destruct Hcase as (-> & -> & _). split; [simpl; lia|].
        destruct (vector_storage w); [|constructor].
        constructor; [|constructor]. rewrite length_app, Nat2Z.inj_add.
        destruct o as [now fd|now now'|now]; cbn [fires] in Hf;
          cbn [added omap list_omap length].
        + apply Z.leb_le in Hf. lia.
        + apply andb_true_iff in Hf as [_ Hf]. apply Z.ltb_lt in Hf. lia.
        + apply negb_true_iff, bool_decide_eq_false in Hf.
          destruct (buffer (bwb w)); [done|]. simpl in *. lia.
      - destruct Hcase as [-> ->]. split; [|constructor].
        rewrite length_app, Nat2Z.inj_add.
        destruct o as [now fd|now now'|now]; cbn [fires] in Hf;
          cbn [added omap list_omap length]; [|lia|lia].
        apply Z.leb_gt in Hf. lia. }
    destruct (IH (apply o w)) as (Hsz & Hl & Hall); [lia|done|].
    rewrite Hsize in *. split; [done|]. split; [done|].
    apply Forall_app. by split.
Qed.

End Life.

(** A short life: a buffer of size 2 receives three entries, the ticker
    fires once after the interval, and the server stops. *)
Definition numbered (n : Z) : frame_data :=
  FrameData (Datetime.zero_pad 2 n) (Datetime.Mk 2025 12 1 14 30 n 0)
    EmptyString [] EmptyString EmptyString EmptyString "pending" 0
    "remote-gui" EmptyString.

Definition short_life : list op :=
  [Add 1 (numbered 1); Add 2 (numbered 2); Add 3 (numbered 3);
   Tick 70 71; Flush 80].

Definition fresh : @world unit unit := started 2 60 0 tt tt.

Lemma batches_hand_over_witness :
  is_Some (vector_storage fresh)
  ∧ (concat (written accepting_batch accepting_row short_life fresh)
     ++ buffer (bwb (life accepting_batch accepting_row short_life fresh))
     = buffer (bwb fresh) ++ added short_life
     ∧ Forall (λ frames, frames ≠ [])
         (written accepting_batch accepting_row short_life fresh)).
Proof.
  split; [by eexists|].
  apply (batches_hand_over_each_entry_once accepting_batch accepting_row).
  by eexists.
Defined.

Lemma secondary_rows_witness :
  is_Some (vector_storage fresh) ∧ is_Some (sqlite_storage fresh)
  ∧ (sublist (rows_written accepting_batch accepting_row short_life fresh)
       (row_of
        <$> concat (written accepting_batch accepting_row short_life fresh))
     ∧ ((∀ frames v, is_returned (accepting_batch frames v).1 = true) →
        rows_written accepting_batch accepting_row short_life fresh
        = row_of
          <$> concat (written accepting_batch accepting_row short_life fresh))).
Proof.
  split; [by eexists|]. split; [by eexists|].
  apply (secondary_rows_follow_batches accepting_batch accepting_row);
    by eexists.
Defined.

Lemma buffer_bound_witness :
  1 ≤ batch_size (bwb fresh)
  ∧ Z.of_nat (length (buffer (bwb fresh))) < batch_size (bwb fresh)
  ∧ (batch_size (bwb (life accepting_batch accepting_row short_life fresh))
     = batch_size (bwb fresh)
     ∧ Z.of_nat (length (buffer (bwb (life accepting_batch accepting_row
                                         short_life fresh))))
       < batch_size (bwb fresh)
     ∧ Forall (λ frames,
         1 ≤ Z.of_nat (length frames) ≤ batch_size (bwb fresh))
         (written accepting_batch accepting_row short_life fresh)).
Proof.
  split; [simpl; lia|]. split; [simpl; lia|].
  apply (buffer_stays_below_batch_size accepting_batch accepting_row);
    simpl; lia.
Defined.

Example short_life_batches :
  written accepting_batch accepting_row short_life fresh
  = [[numbered 1; numbered 2]; [numbered 3]]
  ∧ rows_written accepting_batch accepting_row short_life fresh
    = row_of <$> [numbered 1; numbered 2; numbered 3].
Proof. by vm_compute. Qed.

End BufferLife.

(** ** Timestamps as text: [isoformat], the identifier format and their
    order

    [isoformat] is the library function the recorder calls on a frame's
    timestamp before uploading it ([payload] in [start_recording]) and the
    handlers call on the rows they return.  Python compares strings
    character by character, as [String.compare] does. *)

Module Stamps.

Import Datetime Allocator Iso.

(** The ranges Python keeps the fields of a datetime in. *)
Definition valid (ts : datetime) : Prop :=
  1 ≤ year ts ≤ 9999 ∧ 1 ≤ month ts ≤ 12
  ∧ 1 ≤ day ts ≤ days_in_month (year ts) (month ts)
  ∧ 0 ≤ hour ts ≤ 23 ∧ 0 ≤ minute ts ≤ 59 ∧ 0 ≤ second ts ≤ 59
  ∧ 0 ≤ microsecond ts ≤ 999999.

(** [ts.isoformat()] of a naive datetime: the fraction is written only
    when the microsecond is not zero. *)
Definition isoformat (ts : datetime) : string :=
  strftime_iso_date ts +:+ "T" +:+ zero_pad 2 (hour ts) +:+ ":"
  +:+ zero_pad 2 (minute ts) +:+ ":" +:+ zero_pad 2 (second ts)
  +:+ (if microsecond ts =? 0 then EmptyString
       else "." +:+ zero_pad 6 (microsecond ts)).

(** Comparison of two naive datetimes: field by field. *)
Definition lex (c : comparison) (rest : comparison) : comparison :=
  match c with Eq => rest | _ => c end.

Definition compare (a b : datetime) : comparison :=
  lex (year a ?= year b)
   (lex (month a ?= month b)
     (lex (day a ?= day b)
       (lex (hour a ?= hour b)
         (lex (minute a ?= minute b)
           (lex (second a ?= second b)
              (microsecond a ?= microsecond b)))))).

(** The datetime at midnight of the same day ([fromisoformat] of a date). *)
Definition midnight (ts : datetime) : datetime :=
  Mk (year ts) (month ts) (day ts) 0 0 0 0.

Lemma is_digit_digit (n : Z) : is_digit (digit n) = true.
Proof.
  unfold is_digit, digit.
  pose proof (Z.mod_pos_bound n 10 ltac:(lia)) as Hb.
  rewrite Ascii.N_ascii_embedding by lia.
  apply andb_true_iff. split; apply N.leb_le; lia.
Qed.

Lemma digits_value (a b c d e f : Z) :
  digit_value (digit a) = a mod 10 ∧ digit_value (digit b) = b mod 10
  ∧ digit_value (digit c) = c mod 10 ∧ digit_value (digit d) = d mod 10
  ∧ digit_value (digit e) = e mod 10 ∧ digit_value (digit f) = f mod 10.
Proof. by rewrite !digit_value_digit. Qed.

Lemma length_append (s t : string) :
  String.length (s +:+ t) = (String.length s + String.length t)%nat.
Proof.
  induction s as [|a s IH]; [done|].
  rewrite append_cons. cbn [String.length]. by rewrite IH.
Qed.

Lemma append_nil_r (s : string) : s +:+ EmptyString = s.
Proof.
  induction s as [|a s IH]; [done|]. rewrite append_cons. by rewrite IH.
Qed.

Lemma length_zero_pad (width : nat) (n : Z) :
  String.length (zero_pad width n) = width.
Proof.
  revert n. induction width as [|w IH]; intros n; [done|].
  cbn [zero_pad]. rewrite length_append, IH. simpl. lia.
Qed.

Lemma all_digits_append (s t : string) :
  all_digits (s +:+ t) = all_digits s && all_digits t.
Proof.
  induction s as [|a s IH]; [done|].
  rewrite append_cons. cbn [all_digits]. by rewrite IH, andb_assoc.
Qed.

Lemma all_digits_zero_pad (width : nat) (n : Z) :
  all_digits (zero_pad width n) = true.
Proof.
  revert n. induction width as [|w IH]; intros n; [done|].
  cbn [zero_pad]. rewrite all_digits_append, IH. cbn [all_digits].
  by rewrite is_digit_digit.
Qed.

Lemma number_at_zero_pad (pos width : nat) (s : string) (n : Z) :
  0 ≤ n < 10 ^ Z.of_nat width →
  String.substring pos width s = zero_pad width n →
  number_at pos width s = Some n.
Proof.
  intros Hn Hs. unfold number_at. rewrite Hs.
  rewrite length_zero_pad, all_digits_zero_pad, bool_decide_eq_true_2 by done.
  cbn [andb]. f_equal.
  pose proof (read_zero_pad width n 0 EmptyString Hn) as Hr.
  rewrite append_nil_r in Hr. rewrite Hr. lia.
Qed.

Lemma substring_0_0 (s : string) : String.substring 0 0 s = EmptyString.
Proof. by destruct s. Qed.

(** The characters of the two shapes of [isoformat]. *)
Definition date_chars (ts : datetime) (rest : string) : string :=
  String (digit (year ts / 10 / 10 / 10))
    (String (digit (year ts / 10 / 10))
      (String (digit (year ts / 10))
        (String (digit (year ts))
          (String "-"
            (String (digit (month ts / 10))
              (String (digit (month ts))
                (String "-"
                  (String (digit (day ts / 10))
                    (String (digit (day ts)) rest))))))))).

Definition time_chars (ts : datetime) (rest : string) : string :=
  String "T"
    (String (digit (hour ts / 10))
      (String (digit (hour ts))
        (String ":"
          (String (digit (minute ts / 10))
            (String (digit (minute ts))
              (String ":"
                (String (digit (second ts / 10))
                  (String (digit (second ts)) rest)))))))).

Lemma strftime_iso_date_chars (ts : datetime) :
  strftime_iso_date ts = date_chars ts EmptyString.
Proof. reflexivity. Qed.

Lemma isoformat_chars (ts : datetime) :
  isoformat ts
  = date_chars ts (time_chars ts
      (if microsecond ts =? 0 then EmptyString
       else String "." (zero_pad 6 (microsecond ts)))).
Proof. unfold isoformat. by destruct (microsecond ts =? 0). Qed.

Lemma parse_date_chars (ts : datetime) (rest : string) :
  valid ts → parse_date (date_chars ts rest) = Some (midnight ts).
Proof.
  intros (Hy & Hm & Hd & _).
  pose proof (Hdm := Hd). 
  assert (days_in_month (year ts) (month ts) ≤ 31).
  { unfold days_in_month. repeat case_match; lia. }
  unfold parse_date.
  rewrite (number_at_zero_pad 0 4 _ (year ts)) by (done || lia).
  rewrite (number_at_zero_pad 5 2 _ (month ts)) by (done || lia).
  rewrite (number_at_zero_pad 8 2 _ (day ts))
    by (lia || (unfold date_chars; cbn [String.substring];
                by rewrite substring_0_0)).
  cbn [mbind option_bind]. unfold char_is, date_chars. cbn [String.get].
  rewrite !bool_decide_eq_true_2 by done. unfold in_range.
  repeat match goal with
  | |- context [?a <=? ?b] =>
      rewrite (proj2 (Z.leb_le a b)) by lia
  end.
  done.
Qed.

Lemma parse_time_chars (ts d : datetime) (rest : string) :
  valid ts →
  parse_time (date_chars ts (time_chars ts rest)) d
  = Some (Mk (year d) (month d) (day d) (hour ts) (minute ts) (second ts) 0).
Proof.
  intros (_ & _ & _ & Hh & Hmi & Hs & _).
  unfold parse_time.
  rewrite (number_at_zero_pad 11 2 _ (hour ts)) by (done || lia).
  rewrite (number_at_zero_pad 14 2 _ (minute ts)) by (done || lia).
  rewrite (number_at_zero_pad 17 2 _ (second ts))
    by (lia || (unfold date_chars, time_chars; cbn [String.substring];
                by rewrite substring_0_0)).
  cbn [mbind option_bind]. unfold char_is, date_chars, time_chars.
  cbn [String.get].
  rewrite !bool_decide_eq_true_2 by done. unfold in_range.
  repeat match goal with
  | |- context [?a <=? ?b] =>
      rewrite (proj2 (Z.leb_le a b)) by lia
  end.
  done.
Qed.

(** Reading back what [isoformat] wrote gives the timestamp itself. *)
Lemma fromisoformat_isoformat (ts : datetime) :
  valid ts → fromisoformat (isoformat ts) = Some ts.
Proof.
  intros Hv. rewrite isoformat_chars. unfold fromisoformat.
  destruct (microsecond ts =? 0) eqn:Hus.
  - apply Z.eqb_eq in Hus.
    change (String.length (date_chars ts (time_chars ts EmptyString)))
      with 19%nat.
    rewrite bool_decide_eq_false_2, bool_decide_eq_true_2 by done.
    rewrite parse_date_chars by done. cbn [mbind option_bind].
    rewrite parse_time_chars by done. destruct ts; simpl in *. by subst.
  - apply Z.eqb_neq in Hus.
    assert (String.length (date_chars ts (time_chars ts
              (String "." (zero_pad 6 (microsecond ts))))) = 26%nat) as ->.
    { unfold date_chars, time_chars. cbn [String.length].
      by rewrite length_zero_pad. }
    rewrite !bool_decide_eq_false_2, bool_decide_eq_true_2 by done.
    rewrite parse_date_chars by done. cbn [mbind option_bind].
    rewrite parse_time_chars by done. cbn [mbind option_bind].
    destruct Hv as (_ & _ & _ & _ & _ & _ & Hv).
    unfold parse_fraction.
    rewrite (number_at_zero_pad 20 6 _ (microsecond ts)); [|lia|].
    + cbn [mbind option_bind]. unfold char_is, date_chars, time_chars.
      cbn [String.get]. rewrite bool_decide_eq_true_2 by done.
      unfold in_range.
      rewrite (proj2 (Z.leb_le 0 _)), (proj2 (Z.leb_le _ 999999)) by lia.
      by destruct ts.
    + unfold date_chars, time_chars. cbn [String.substring].
      generalize (zero_pad 6 (microsecond ts)) (length_zero_pad 6 (microsecond ts)).
      intros s Hs. do 7 (destruct s as [|? s]; try done).
Qed.



(** *** Order *)

Lemma compare_append (p q s t : string) :
  String.length p = String.length q →
  String.compare (p +:+ s) (q +:+ t)
  = lex (String.compare p q) (String.compare s t).
Proof.
  revert q. induction p as [|a p IH]; intros [|b q] Hlen; try done.
  rewrite !append_cons. cbn [String.compare].
  destruct (Ascii.compare a b); [|done|done].
  apply IH. by injection Hlen.
Qed.

Lemma compare_refl (s : string) : String.compare s s = Eq.
Proof.
  induction s as [|a s IH]; [done|]. cbn [String.compare].
  unfold Ascii.compare. by rewrite N.compare_refl.
Qed.

Lemma compare_digit (a b : Z) :
  Ascii.compare (digit a) (digit b) = (a mod 10 ?= b mod 10).
Proof.
  unfold Ascii.compare, digit.
  pose proof (Z.mod_pos_bound a 10 ltac:(lia)).
  pose proof (Z.mod_pos_bound b 10 ltac:(lia)).
  rewrite !Ascii.N_ascii_embedding by lia.
  destruct (Z.compare_spec (a mod 10) (b mod 10));
    [apply N.compare_eq_iff|apply N.compare_lt_iff|apply N.compare_gt_iff];
    lia.
Qed.

Lemma compare_div_mod (a b : Z) :
  0 ≤ a → 0 ≤ b →
  lex (a / 10 ?= b / 10) (a mod 10 ?= b mod 10) = (a ?= b).
Proof.
  intros Ha Hb.
  pose proof (Z.div_mod a 10 ltac:(lia)).
  pose proof (Z.div_mod b 10 ltac:(lia)).
  pose proof (Z.mod_pos_bound a 10 ltac:(lia)).
  pose proof (Z.mod_pos_bound b 10 ltac:(lia)).
  destruct (Z.compare_spec (a / 10) (b / 10)) as [Hq|Hq|Hq]; cbn [lex].
  - destruct (Z.compare_spec (a mod 10) (b mod 10));
      symmetry; [apply Z.compare_eq_iff|apply Z.compare_lt_iff
                |apply Z.compare_gt_iff]; lia.
  - symmetry. apply Z.compare_lt_iff. lia.
  - symmetry. apply Z.compare_gt_iff. lia.
Qed.

(** Zero-padded numbers of one width compare as the numbers do. *)
Lemma compare_zero_pad (width : nat) (a b : Z) :
  0 ≤ a < 10 ^ Z.of_nat width → 0 ≤ b < 10 ^ Z.of_nat width →
  String.compare (zero_pad width a) (zero_pad width b) = (a ?= b).
Proof.
  revert a b. induction width as [|w IH]; intros a b Ha Hb.
  - simpl in *. by replace a with 0 by lia; replace b with 0 by lia.
  - cbn [zero_pad].
    rewrite compare_append by by rewrite !length_zero_pad.
    rewrite Nat2Z.inj_succ, Z.pow_succ_r in Ha, Hb by lia.
    rewrite IH by
      (split; [apply Z.div_pos; lia|apply Z.div_lt_upper_bound; lia]).
    cbn [String.compare]. rewrite compare_digit.
    replace (match a mod 10 ?= b mod 10 with
             | Eq => Eq | Lt => Lt | Gt => Gt end)
      with (a mod 10 ?= b mod 10) by by destruct (_ ?= _).
    apply compare_div_mod; lia.
Qed.

Lemma generate_frame_id_parts (ts : datetime) :
  _generate_frame_id ts
  = zero_pad 4 (year ts) +:+ zero_pad 2 (month ts) +:+ zero_pad 2 (day ts)
    +:+ "_" +:+ zero_pad 2 (hour ts) +:+ zero_pad 2 (minute ts)
    +:+ zero_pad 2 (second ts) +:+ "_" +:+ zero_pad 6 (microsecond ts).
Proof.
  unfold _generate_frame_id, strftime_prefix, strftime_date.
  by rewrite !append_assoc.
Qed.

(** Frame identifiers sort as their timestamps do: comparing two
    identifiers as strings gives the comparison of the two timestamps.
    ([strftime] writes the year with four digits from the year 1000
    on.) *)
Theorem frame_ids_sort_like_timestamps (a b : datetime) :
  valid a → valid b → 1000 ≤ year a → 1000 ≤ year b →
  String.compare (_generate_frame_id a) (_generate_frame_id b) = compare a b.
Proof.
  intros (Hy & Hm & Hd & Hh & Hmi & Hs & Hus)
         (Hy' & Hm' & Hd' & Hh' & Hmi' & Hs' & Hus') _ _.
  assert (days_in_month (year a) (month a) ≤ 31)
    by (unfold days_in_month; repeat case_match; lia).
  assert (days_in_month (year b) (month b) ≤ 31)
    by (unfold days_in_month; repeat case_match; lia).
  rewrite !generate_frame_id_parts. unfold compare.
  repeat (rewrite compare_append by by rewrite ?length_zero_pad);
  rewrite !compare_zero_pad by lia.
  rewrite !compare_refl. done.
Qed.

(** *** Dates *)

(** Comparison of the dates of two datetimes. *)
Definition date_compare (a b : datetime) : comparison :=
  lex (year a ?= year b) (lex (month a ?= month b) (day a ?= day b)).

Lemma days_in_month_bounds (y m : Z) : 28 ≤ days_in_month y m ≤ 31.
Proof. unfold days_in_month. repeat case_match; lia. Qed.

Lemma length_iso_date (ts : datetime) :
  String.length (strftime_iso_date ts) = 10%nat.
Proof. reflexivity. Qed.

Lemma iso_date_parts (ts : datetime) :
  strftime_iso_date ts
  = zero_pad 4 (year ts) +:+ "-" +:+ zero_pad 2 (month ts) +:+ "-"
    +:+ zero_pad 2 (day ts) +:+ EmptyString.
Proof. reflexivity. Qed.

(** ISO dates, also when followed by a time, compare as the dates do. *)
Lemma compare_iso_date (a b : datetime) (ra rb : string) :
  valid a → valid b →
  String.compare (strftime_iso_date a +:+ ra) (strftime_iso_date b +:+ rb)
  = lex (date_compare a b) (String.compare ra rb).
Proof.
  intros (Hy & Hm & Hd & _) (Hy' & Hm' & Hd' & _).
  pose proof (days_in_month_bounds (year a) (month a)).
  pose proof (days_in_month_bounds (year b) (month b)).
  rewrite compare_append by done.
  rewrite !iso_date_parts. unfold date_compare.
  repeat (rewrite compare_append by by rewrite ?length_zero_pad);
  rewrite !compare_zero_pad by lia.
  rewrite !compare_refl.
  by destruct (year a ?= year b), (month a ?= month b), (day a ?= day b).
Qed.

Lemma date_compare_eq (a b : datetime) :
  date_compare a b = Eq →
  strftime_iso_date a = strftime_iso_date b.
Proof.
  unfold date_compare, lex, strftime_iso_date.
  destruct (Z.compare_spec (year a) (year b)); [|done|done].
  destruct (Z.compare_spec (month a) (month b)); [|done|done].
  destruct (Z.compare_spec (day a) (day b)); [|done|done].
  congruence.
Qed.

(** A date as one number that grows with the date. *)
Definition ord (ts : datetime) : Z := (year ts * 16 + month ts) * 32 + day ts.

Lemma date_compare_ord (a b : datetime) :
  valid a → valid b → date_compare a b = (ord a ?= ord b).
Proof.
  intros (_ & Hm & Hd & _) (_ & Hm' & Hd' & _).
  pose proof (days_in_month_bounds (year a) (month a)).
  pose proof (days_in_month_bounds (year b) (month b)).
  unfold date_compare, lex, ord.
  destruct (Z.compare_spec (year a) (year b));
    [destruct (Z.compare_spec (month a) (month b));
       [destruct (Z.compare_spec (day a) (day b))|..]|..];
    symmetry;
    first [apply Z.compare_eq_iff; lia | apply Z.compare_lt_iff; lia
          | apply Z.compare_gt_iff; lia].
Qed.

(** [d + timedelta(days=1)] is the day after [d]: it is a date again,
    it is later than [d], and no date lies between the two. *)
Lemma add_one_day_next (d n : datetime) :
  valid d → add_one_day d = Returned n →
  valid n ∧ date_compare d n = Lt
  ∧ ∀ a, valid a → date_compare d a = Lt → date_compare a n ≠ Lt.
Proof.
  intros Hv Hnext.
  assert (Hn : valid n ∧ ord d < ord n
               ∧ ∀ a, valid a → ord d < ord a → ord n ≤ ord a).
  { destruct Hv as (Hy & Hm & Hd & Hh & Hmi & Hs & Hus).
    pose proof (days_in_month_bounds (year d) (month d)).
    unfold add_one_day in Hnext.
    assert (Hsame : ∀ a, valid a → year a = year d → month a = month d →
                         day a ≤ days_in_month (year d) (month d)).
    { intros a (_ & _ & Hda & _) <- <-. lia. }
    destruct (Z.ltb_spec (day d) (days_in_month (year d) (month d))).
    { injection Hnext as <-. unfold valid, ord. cbn [year month day hour
        minute second microsecond].
      split; [lia|]. split; [lia|]. intros a Ha Hlt.
      destruct Ha as (_ & Hma & Hda & _).
      pose proof (days_in_month_bounds (year a) (month a)). lia. }
    destruct (Z.ltb_spec (month d) 12).
    { injection Hnext as <-.
      pose proof (days_in_month_bounds (year d) (month d + 1)).
      unfold valid, ord. cbn [year month day hour minute second microsecond].
      split; [lia|]. split; [lia|]. intros a Ha Hlt.
      pose proof (Hsame a Ha) as Hsame'.
      destruct Ha as (_ & Hma & Hda & _).
      pose proof (days_in_month_bounds (year a) (month a)).
      destruct (decide (year a = year d)) as [Hya|]; [|lia].
      destruct (decide (month a = month d)) as [Hmo|]; [|lia].
      specialize (Hsame' Hya Hmo). lia. }
    destruct (Z.ltb_spec (year d) 9999); [|done].
    injection Hnext as <-.
    pose proof (days_in_month_bounds (year d + 1) 1).
    unfold valid, ord.
    cbn [year month day hour minute second microsecond].
    split; [lia|]. split; [lia|]. intros a Ha Hlt.
    pose proof (Hsame a Ha) as Hsame'.
    destruct Ha as (_ & Hma & Hda & _).
    pose proof (days_in_month_bounds (year a) (month a)).
    destruct (decide (year a = year d)) as [Hya|]; [|lia].
    destruct (decide (month a = month d)) as [Hmo|]; [|lia].
    specialize (Hsame' Hya Hmo). lia. }
  destruct Hn as (Hvn & Hlt & Hnext').
  split; [done|]. split.
  - rewrite date_compare_ord by done. exact Hlt.
  - intros a Ha. rewrite !date_compare_ord by done.
    intros Hda Han. specialize (Hnext' a Ha Hda).
    assert (ord a < ord n) by exact Han. lia.
Qed.

Lemma valid_intro (ts : datetime) :
  (in_range 1 (year ts) 9999 && in_range 1 (month ts) 12
   && in_range 1 (day ts) (days_in_month (year ts) (month ts))
   && in_range 0 (hour ts) 23 && in_range 0 (minute ts) 59
   && in_range 0 (second ts) 59 && in_range 0 (microsecond ts) 999999) = true →
  valid ts.
Proof.
  unfold in_range, valid. rewrite !andb_true_iff, !Z.leb_le. tauto.
Qed.

(** The last microsecond of a second and the first of the next. *)
Definition before_tick : datetime := Mk 2025 12 1 14 30 25 999999.
Definition after_tick : datetime := Mk 2025 12 1 14 30 26 0.

Lemma frame_ids_order_witness :
  valid before_tick ∧ valid after_tick
  ∧ 1000 ≤ year before_tick ∧ 1000 ≤ year after_tick
  ∧ String.compare (_generate_frame_id before_tick)
      (_generate_frame_id after_tick)
    = compare before_tick after_tick.
Proof.
  assert (Ha : valid before_tick) by by apply valid_intro.
  assert (Hb : valid after_tick) by by apply valid_intro.
  split; [exact Ha|]. split; [exact Hb|].
  split; [simpl; lia|]. split; [simpl; lia|].
  apply (frame_ids_sort_like_timestamps before_tick after_tick Ha Hb);
    simpl; lia.
Defined.

Example frame_ids_order_example :
  _generate_frame_id before_tick = "20251201_143025_999999"
  ∧ _generate_frame_id after_tick = "20251201_143026_000000"
  ∧ compare before_tick after_tick = Lt
  ∧ isoformat before_tick = "2025-12-01T14:30:25.999999"
  ∧ isoformat after_tick = "2025-12-01T14:30:26".
Proof. by vm_compute. Qed.

End Stamps.

(** ** Values of the statistics dicts ([get_stats], [_get_stats_via_api]) *)

Module Json.

Inductive value :=
| VInt (n : Z)
| VStr (s : string)
| VNum (q : Q).

(** [d.get(key, default)] *)
Definition get_default (d : gmap string value) (key : string) (default : value)
  : value :=
  match d !! key with Some v => v | None => default end.

End Json.

(** ** The capture loop of the GUI, remote mode
    ([RecordWorker.start_recording], [_get_stats_via_api]) *)

Module RemoteLoop.

Import Datetime Allocator Json.
Import Server (StoreFrameRequest, MkStoreFrameRequest, req_frame_id,
               req_timestamp, image_base64, req_metadata).

Inductive event :=
| LogCaptureFailed
| LogFiltered
| LogPassed
| Post (url : string) (payload : StoreFrameRequest)
| LogUploaded (frame_id : string)
| LogUploadFailed
| ErrorSignal
| LogStored (frame_count : Z)
| LogStatsUnavailable
| StatsSignal (stats : gmap string value)
| LogRecordingError
| Sleep.

(** How a round of the [while self.running] loop ends. *)
Inductive control :=
| Continue
| Break.

(** [s.rstrip("/")] *)
Fixpoint rstrip_slash (s : string) : string :=
  match s with
  | EmptyString => EmptyString
  | String c s' =>
      match rstrip_slash s' with
      | EmptyString =>
          if Ascii.eqb c "/" then EmptyString else String c EmptyString
      | r => String c r
      end
  end.

Section Loop.

(** Collaborators: the score of the filter and its threshold, the
    configured backend address, JPEG compression followed by base64, the
    rendering of [{"size": image.size}], and the two HTTP calls, each
    with its [raise_for_status]. *)
Variable calculate_normalized_rms_diff : string → string → Q.
Variable SIMPLE_FILTER_DIFF_THRESHOLD : Q.
Variable GUI_REMOTE_BACKEND_URL : string.
Variable jpeg_base64 : string → outcome string.
Variable size_metadata : string → string.
Variable requests_post : string → StoreFrameRequest → outcome unit.
Variable requests_get : string → outcome (gmap string value).

Record recorder := Recorder {
  running : bool;
  last_frame_image : option string;
  frame_count : Z;
  trace : list event
}.

Definition emit (e : event) : M recorder unit :=
  modify (λ r, Recorder (running r) (last_frame_image r) (frame_count r)
                 (trace r ++ [e])).

Definition lift {A} (o : outcome A) : M recorder A := λ r, (o, r).

(** [self.backend_url], set in [__init__]. *)
Definition backend_url : string :=
  if bool_decide (GUI_REMOTE_BACKEND_URL = EmptyString) then EmptyString
  else rstrip_slash GUI_REMOTE_BACKEND_URL.

Definition default_stats : gmap string value :=
  {[ "total_frames" := VInt 0; "storage_mode" := VStr "remote";
     "recording_frames" := VInt 0 ]}.

(** [_get_stats_via_api] *)
Definition _get_stats_via_api : M recorder (gmap string value) :=
  try_except
    (if bool_decide (backend_url = EmptyString)
     then do! emit LogStatsUnavailable in ret default_stats
     else lift (requests_get (backend_url +:+ "/api/stats")))
    (λ e, do! emit LogStatsUnavailable in ret default_stats).

(** The dict [payload]. *)
Definition payload (frame_id : string) (timestamp : datetime)
    (img_b64 image : string) : StoreFrameRequest :=
  MkStoreFrameRequest frame_id (Stamps.isoformat timestamp) img_b64
    (Some (size_metadata image)).

(** The [try] block of the remote branch. *)
Definition upload (frame_id : string) (timestamp : datetime) (image : string)
  : M recorder unit :=
  do! (if bool_decide (GUI_REMOTE_BACKEND_URL = EmptyString)
       then raise RuntimeError else ret tt) in
  let! img_b64 := lift (jpeg_base64 image) in
  let url := rstrip_slash GUI_REMOTE_BACKEND_URL +:+ "/api/store_frame" in
  do! emit (Post url (payload frame_id timestamp img_b64 image)) in
  do! lift (requests_post url (payload frame_id timestamp img_b64 image)) in
  emit (LogUploaded frame_id).

(** [stop_recording], which runs in the GUI thread; without an OCR
    thread (remote mode) it only clears the flag. *)
Definition stop_recording : M recorder unit :=
  modify (λ r, Recorder false (last_frame_image r) (frame_count r) (trace r)).

(** One round of the loop; [captured] is what [self.capturer.capture()]
    gave, and [stop_arrives] tells whether [stop_recording] runs while
    the upload is under way (the only place where the round reads
    [self.running]). *)
Definition round (captured : outcome (option (datetime * string)))
    (stop_arrives : bool) : M recorder control :=
  try_except
    (let! frame := lift captured in
     match frame with
     | None => do! emit LogCaptureFailed in do! emit Sleep in ret Continue
     | Some (timestamp, image) =>
         let! r := get in
         let keep :=
           Dedup._should_keep_frame calculate_normalized_rms_diff
             SIMPLE_FILTER_DIFF_THRESHOLD (last_frame_image r) image in
         do! modify (λ r, Recorder (running r) keep.2 (frame_count r)
                            (trace r)) in
         if negb keep.1
         then do! emit LogFiltered in do! emit Sleep in ret Continue
         else
           do! emit LogPassed in
           let frame_id := _generate_frame_id timestamp in
           do! (if stop_arrives then stop_recording else ret tt) in
           let! failed :=
             try_except
               (do! upload frame_id timestamp image in ret None)
               (λ e, let! r := get in
                     if negb (running r) then ret (Some Break)
                     else
                       do! emit LogUploadFailed in
                       do! emit ErrorSignal in
                       do! emit Sleep in
                       ret (Some Continue)) in
           match failed with
           | Some c => ret c
           | None =>
               do! modify (λ r, Recorder (running r) (last_frame_image r)
                                  (frame_count r + 1) (trace r)) in
               let! r := get in
               do! emit (LogStored (frame_count r)) in
               let! stats := _get_stats_via_api in
               do! emit (StatsSignal
                           (<["recording_frames" := VInt (frame_count r)]>
                              stats)) in
               do! emit Sleep in
               ret Continue
           end
     end)
    (λ e, do! emit LogRecordingError in
          do! emit ErrorSignal in
          do! emit Sleep in
          ret Continue).

(** What the recording thread meets: a captured frame (with or without
    a stop request during its upload), or a stop request between two
    rounds. *)
Inductive input :=
| Capture (captured : outcome (option (datetime * string)))
          (stop_arrives : bool)
| Stop.

(** [while self.running: ...] *)
Fixpoint rounds (inputs : list input) (r : recorder) : recorder :=
  match inputs with
  | [] => r
  | Stop :: rest => rounds rest (stop_recording r).2
  | Capture captured stop_arrives :: rest =>
      if running r then
        match round captured stop_arrives r with
        | (Returned Continue, r') => rounds rest r'
        | (_, r') => r'
        end
      else r
  end.

Definition is_post (e : event) : bool :=
  match e with Post _ _ => true | _ => false end.

Definition is_uploaded (e : event) : bool :=
  match e with LogUploaded _ => true | _ => false end.

(** The events a run adds. *)
Definition emitted (r r' : recorder) : list event :=
  drop (length (trace r)) (trace r').

Fixpoint count (P : event → bool) (evs : list event) : Z :=
  match evs with
  | [] => 0
  | e :: rest => (if P e then 1 else 0) + count P rest
  end.

Lemma count_app (P : event → bool) (l k : list event) :
  count P (l ++ k) = count P l + count P k.
Proof. induction l as [|e l IH]; simpl; lia. Qed.

(** A posted request counts as accepted when the call and its
    [raise_for_status] returned. *)
Definition accepted (e : event) : bool :=
  match e with
  | Post url payload => is_returned (requests_post url payload)
  | _ => false
  end.

(** Whether the [try] block of the upload gets to its end. *)
Definition upload_ok (timestamp : datetime) (image : string) : bool :=
  negb (bool_decide (GUI_REMOTE_BACKEND_URL = EmptyString))
  && match jpeg_base64 image with
     | Returned img_b64 =>
         is_returned
           (requests_post
              (rstrip_slash GUI_REMOTE_BACKEND_URL +:+ "/api/store_frame")
              (payload (_generate_frame_id timestamp) timestamp img_b64 image))
     | Raised _ => false
     end.

Ltac run_round :=
  unfold round, upload, _get_stats_via_api, stop_recording, try_except, bind,
    lift, emit, modify, get, ret, raise;
  cbn [running last_frame_image frame_count trace];
  repeat (case_match; simplify_eq/=);
  cbn [running last_frame_image frame_count trace fst snd];
  rewrite <- ?app_assoc; cbn [app].

Lemma round_step (captured : outcome (option (datetime * string)))
    (stop_arrives : bool) (r : recorder) :
  ∃ evs, trace (round captured stop_arrives r).2 = trace r ++ evs
    ∧ frame_count (round captured stop_arrives r).2
      = frame_count r + count accepted evs
    ∧ count accepted evs ≤ count is_post evs ≤ 1.
Proof.
  destruct r as [run last n tr].
  run_round; eexists; (split; [reflexivity|]); cbn;
    repeat match goal with
    | H : requests_post _ _ = _ |- _ => rewrite H
    end; cbn; lia.
Qed.

Lemma rounds_trace (inputs : list input) (r : recorder) :
  ∃ evs, trace (rounds inputs r) = trace r ++ evs
    ∧ frame_count (rounds inputs r) = frame_count r + count accepted evs
    ∧ count accepted evs ≤ count is_post evs.
Proof.
  revert r. induction inputs as [|[captured stop_arrives|] rest IH]; intros r.
  - exists []. rewrite app_nil_r. cbn. split; [done|lia].
  - cbn [rounds].
    destruct (round_step captured stop_arrives r) as (evs & Htr & Hn & Hle).
    destruct (running r);
      [|exists []; rewrite app_nil_r; cbn; split; [done|lia]].
    destruct (round captured stop_arrives r) as [[[|]|e] r'] eqn:Hround;
      cbn [snd] in *.
    + destruct (IH r') as (evs' & -> & -> & Hle').
      exists (evs ++ evs'). rewrite Htr, Hn, !count_app, <- app_assoc.
      split; [done|lia].
    + exists evs. split; [done|lia].
    + exists evs. split; [done|lia].
  - cbn [rounds]. destruct (IH (stop_recording r).2) as (evs' & -> & -> & Hle').
    exists evs'. by destruct r.
Qed.


(** A frame that passed the filter becomes the baseline even when its
    upload fails: frames that differ from it by less than the threshold
    are then filtered out, so nothing of that screen content is ever
    posted again until the screen changes, and the lost frame is not
    counted. *)
Theorem failed_upload_still_moves_baseline (r : recorder)
    (timestamp timestamp' : datetime) (image image' : string)
    (stop_arrives' : bool) :
  running r = true →
  (Dedup._should_keep_frame calculate_normalized_rms_diff
     SIMPLE_FILTER_DIFF_THRESHOLD (last_frame_image r) image).1 = true →
  upload_ok timestamp image = false →
  (calculate_normalized_rms_diff image image'
   < SIMPLE_FILTER_DIFF_THRESHOLD)%Q →
  let r1 := (round (Returned (Some (timestamp, image))) false r).2 in
  let r2 := (round (Returned (Some (timestamp', image'))) stop_arrives' r1).2 in
  last_frame_image r1 = Some image
  ∧ count accepted (emitted r r1) = 0
  ∧ emitted r1 r2 = [LogFiltered; Sleep]
  ∧ frame_count r2 = frame_count r.
Proof.
  intros Hrun Hkeep Hfail Hnear.
  assert (Hbase : (Dedup._should_keep_frame calculate_normalized_rms_diff
     SIMPLE_FILTER_DIFF_THRESHOLD (last_frame_image r) image).2 = Some image).
  { unfold Dedup._should_keep_frame in *.
    destruct (last_frame_image r); [|done].
    by destruct (Qlt_le_dec _ _). }
  assert (Hnext : Dedup._should_keep_frame calculate_normalized_rms_diff
     SIMPLE_FILTER_DIFF_THRESHOLD (Some image) image' = (false, Some image)).
  { unfold Dedup._should_keep_frame.
    destruct (Qlt_le_dec _ _) as [|Hle]; [done|].
    exfalso. by apply (Qlt_not_le _ _ Hnear). }
  destruct r as [run last n tr]. cbn [running last_frame_image] in *.
  subst run. unfold upload_ok in Hfail.
  assert (H1 : ∃ evs,
    round (Returned (Some (timestamp, image))) false (Recorder true last n tr)
    = (Returned Continue, Recorder true (Some image) n (tr ++ evs))
    ∧ count accepted evs = 0).
  { unfold round, upload, stop_recording, try_except, bind, lift, emit,
      modify, get, ret, raise.
    cbn [running last_frame_image frame_count trace].
    rewrite Hkeep, Hbase. cbn [negb].
    destruct (bool_decide (GUI_REMOTE_BACKEND_URL = EmptyString)) eqn:Hurl;
      cbn [negb andb] in Hfail;
      cbn [running last_frame_image frame_count trace fst snd negb].
    - rewrite <- !app_assoc. eexists. split; [reflexivity|done].
    - destruct (jpeg_base64 image) as [img_b64|e];
        cbn [running last_frame_image frame_count trace fst snd negb].
      + destruct (requests_post _ _) as [[]|e] eqn:Hpost; [done|].
        cbn [running last_frame_image frame_count trace fst snd negb].
        rewrite <- !app_assoc. eexists. split; [reflexivity|].
        cbn. by rewrite Hpost.
      + rewrite <- !app_assoc. eexists. split; [reflexivity|done]. }
  destruct H1 as (evs & H1 & Hacc). cbn zeta. rewrite H1. cbn [snd].
  split; [done|]. split; [unfold emitted; cbn [trace];
                          by rewrite drop_app_length|].
  unfold round, try_except, bind, lift, emit, modify, get, ret.
  cbn [running last_frame_image frame_count trace].
  rewrite Hnext. cbn [negb fst snd frame_count trace].
  split; [|done]. unfold emitted. cbn [trace].
  rewrite <- (app_assoc (tr ++ evs)). by rewrite drop_app_length.
Qed.

End Loop.

(** *** What the backend does with an uploaded frame *)

Section Backend.

Import Frame Batch Server.

Context {vdb sdb : Type}.
Variable store_frames_batch : list frame_data → vdb → outcome bool * vdb.
Variable store_frame_with_ocr : sqlite_row → sdb → outcome unit * sdb.
Variable decode_image : string → outcome string.
Variable encode_image : string → list Q.
Variable size_metadata : string → string.
Variable ocr_engine : option (string → outcome OCRResult).
Variable IMAGE_STORAGE_PATH : string.

(** [store_frame] on the backend, reading timestamps as Python does. *)
Definition backend_store_frame
  : nat → Q → StoreFrameRequest → server → option (outcome string * server) :=
  store_frame store_frames_batch store_frame_with_ocr Iso.fromisoformat
    decode_image encode_image size_metadata ocr_engine IMAGE_STORAGE_PATH.

Lemma generate_frame_id_format (timestamp : datetime) :
  _generate_frame_id timestamp = format_id timestamp (microsecond timestamp).
Proof. reflexivity. Qed.

(** The recorder and the backend agree on the identifier of an uploaded
    frame exactly when the slot of the frame's own microsecond is unused
    on the backend: the backend reads the posted timestamp back as the
    frame's timestamp, and the entry it buffers carries the identifier
    the recorder computed (and logged) if and only if no stored image
    occupies that slot; with the slot unused the upload is stored. *)
Theorem uploaded_frame_keeps_its_id (gui_size_metadata : string → string)
    (fuel : nat) (now : Q) (timestamp : datetime)
    (img_b64 image decoded : string) (s : server) (v : vdb) (db : sdb) :
  Stamps.valid timestamp →
  vector_storage (components s) = Some v →
  sqlite_storage (components s) = Some db →
  decode_image img_b64 = Returned decoded →
  let req :=
    payload gui_size_metadata (_generate_frame_id timestamp) timestamp
      img_b64 image in
  let own_slot := slot IMAGE_STORAGE_PATH timestamp (microsecond timestamp) in
  (∀ r s',
     backend_store_frame fuel now req s = Some (Returned r, s') →
     ∃ fd,
       filter (λ e, is_add_frame e = true) (emitted_by s s') = [CallAddFrame fd]
       ∧ Frame.timestamp fd = timestamp
       ∧ (Frame.frame_id fd = req_frame_id req ↔ own_slot ∉ files s))
  ∧ (own_slot ∉ files s →
     ∃ s', backend_store_frame fuel now req s = Some (Returned "ok", s')).
Proof.
  intros Hvalid Hv Hdb Himg req own_slot.
  assert (Hts : Iso.fromisoformat (req_timestamp req) = Some timestamp)
    by by apply Stamps.fromisoformat_isoformat.
  assert (Hus : 0 ≤ microsecond timestamp ≤ 999999) by apply Hvalid.
  split.
  - intros r s' Hrun.
    destruct (allocate IMAGE_STORAGE_PATH fuel (files s) timestamp)
      as [[id path]|] eqn:Halloc;
      [|by unfold backend_store_frame, store_frame in Hrun;
           rewrite Hv, Hdb, Hts in Hrun;
           change (image_base64 req) with img_b64 in Hrun;
           rewrite Himg, Halloc in Hrun].
    destruct (store_frame_stored store_frames_batch store_frame_with_ocr
                Iso.fromisoformat decode_image encode_image size_metadata
                ocr_engine IMAGE_STORAGE_PATH fuel now req s v db timestamp
                decoded id path Hv Hdb Hts Himg Halloc)
      as (s1 & Hs1 & _ & Hev).
    unfold backend_store_frame in Hrun. rewrite Hs1 in Hrun.
    injection Hrun as <- <-.
    destruct (allocate_sound _ _ _ _ _ _ (proj2 Hus) Halloc)
      as (m & Hm & -> & -> & Hfree & Hocc).
    exists (entry_of encode_image size_metadata req timestamp decoded
              (format_id timestamp m) (slot IMAGE_STORAGE_PATH timestamp m)
              (run_ocr ocr_engine (format_id timestamp m) decoded).1).
    split; [|split; [done|]].
    + rewrite Hev.
      destruct (store_events_split store_frames_batch store_frame_with_ocr
                  encode_image size_metadata ocr_engine now req timestamp
                  decoded (format_id timestamp m)
                  (slot IMAGE_STORAGE_PATH timestamp m) (components s))
        as (tail & -> & Htail & _).
      destruct (before_queue_no_store_call ocr_engine (format_id timestamp m)
                  decoded (slot IMAGE_STORAGE_PATH timestamp m)) as [_ Hb].
      rewrite !filter_app, Hb.
      rewrite (buffer_events_not is_add_frame tail) by (done || by intros []).
      done.
    + cbn [Frame.frame_id entry_of req payload req_frame_id].
      rewrite generate_frame_id_format. split.
      * intros Heq. apply format_id_inj in Heq; [|lia|lia]. by subst m.
      * intros Hown. f_equal.
        destruct (decide (m = microsecond timestamp)) as [|Hne]; [done|].
        exfalso. apply Hown, Hocc. lia.
  - intros Hown.
    assert (Halloc : allocate IMAGE_STORAGE_PATH fuel (files s) timestamp
                     = Some (format_id timestamp (microsecond timestamp),
                             own_slot)).
    { unfold allocate. fold (format_id timestamp (microsecond timestamp)).
      fold (slot IMAGE_STORAGE_PATH timestamp (microsecond timestamp)).
      fold own_slot. by rewrite bool_decide_eq_false_2. }
    destruct (store_frame_stored store_frames_batch store_frame_with_ocr
                Iso.fromisoformat decode_image encode_image size_metadata
                ocr_engine IMAGE_STORAGE_PATH fuel now req s v db timestamp
                decoded _ _ Hv Hdb Hts Himg Halloc) as (s1 & Hs1 & _).
    by exists s1.
Qed.

End Backend.

(** A recorder whose backend cannot be reached, looking at a screen
    that does not change. *)
Definition same_or_not (a b : string) : Q :=
  if String.eqb a b then 0 else 1.

Definition compress (image : string) : outcome string := Returned image.

Definition unreachable (url : string) (payload : StoreFrameRequest)
  : outcome unit := Raised IOError.

Definition no_stats (url : string) : outcome (gmap string value) :=
  Raised IOError.

Definition idle : recorder := Recorder true None 0 [].

Lemma failed_upload_witness :
  running idle = true
  ∧ (Dedup._should_keep_frame same_or_not (6 # 1000) (last_frame_image idle)
       "screen").1 = true
  ∧ upload_ok "http://backend:8080/" compress Server.size_any unreachable
      Stamps.before_tick "screen" = false
  ∧ (same_or_not "screen" "screen" < 6 # 1000)%Q
  ∧ (last_frame_image
       (round same_or_not (6 # 1000) "http://backend:8080/" compress
          Server.size_any unreachable no_stats
          (Returned (Some (Stamps.before_tick, "screen"))) false idle).2
     = Some "screen"
     ∧ count (accepted unreachable)
         (emitted idle
            (round same_or_not (6 # 1000) "http://backend:8080/" compress
               Server.size_any unreachable no_stats
               (Returned (Some (Stamps.before_tick, "screen"))) false idle).2)
       = 0
     ∧ emitted
         (round same_or_not (6 # 1000) "http://backend:8080/" compress
            Server.size_any unreachable no_stats
            (Returned (Some (Stamps.before_tick, "screen"))) false idle).2
         (round same_or_not (6 # 1000) "http://backend:8080/" compress
            Server.size_any unreachable no_stats
            (Returned (Some (Stamps.after_tick, "screen"))) false
            (round same_or_not (6 # 1000) "http://backend:8080/" compress
               Server.size_any unreachable no_stats
               (Returned (Some (Stamps.before_tick, "screen"))) false idle).2).2
       = [LogFiltered; Sleep]
     ∧ frame_count
         (round same_or_not (6 # 1000) "http://backend:8080/" compress
            Server.size_any unreachable no_stats
            (Returned (Some (Stamps.after_tick, "screen"))) false
            (round same_or_not (6 # 1000) "http://backend:8080/" compress
               Server.size_any unreachable no_stats
               (Returned (Some (Stamps.before_tick, "screen"))) false idle).2).2
       = frame_count idle).
Proof.
  split; [reflexivity|]. split; [reflexivity|]. split; [reflexivity|].
  split; [reflexivity|].
  apply (failed_upload_still_moves_baseline same_or_not (6 # 1000)
           "http://backend:8080/" compress Server.size_any unreachable
           no_stats idle Stamps.before_tick Stamps.after_tick "screen"
           "screen" false); reflexivity.
Defined.

Example unreachable_backend_trace :
  trace (rounds same_or_not (6 # 1000) "http://backend:8080/" compress
           Server.size_any unreachable no_stats
           [Capture (Returned (Some (Stamps.before_tick, "screen"))) false;
            Capture (Returned (Some (Stamps.after_tick, "screen"))) false]
           idle)
  = [LogPassed;
     Post "http://backend:8080/api/store_frame"
       (payload Server.size_any "20251201_143025_999999" Stamps.before_tick
          "screen" "screen");
     LogUploadFailed; ErrorSignal; Sleep; LogFiltered; Sleep].
Proof. by vm_compute. Qed.

Lemma uploaded_frame_witness :
  Stamps.valid Stamps.before_tick
  ∧ Batch.vector_storage (Server.components Server.fresh_server) = Some tt
  ∧ Batch.sqlite_storage (Server.components Server.fresh_server) = Some tt
  ∧ Server.decode_any "aGVsbG8=" = Returned "aGVsbG8="
  ∧ ((∀ r s',
        backend_store_frame Batch.accepting_batch Batch.accepting_row
          Server.decode_any Server.encode_none Server.size_any None "/data"
          5 1
          (payload Server.size_any (_generate_frame_id Stamps.before_tick)
             Stamps.before_tick "aGVsbG8=" "screen")
          Server.fresh_server
        = Some (Returned r, s') →
        ∃ fd,
          filter (λ e, Server.is_add_frame e = true)
            (Server.emitted_by Server.fresh_server s')
          = [Batch.CallAddFrame fd]
          ∧ Frame.timestamp fd = Stamps.before_tick
          ∧ (Frame.frame_id fd
             = req_frame_id
                 (payload Server.size_any
                    (_generate_frame_id Stamps.before_tick)
                    Stamps.before_tick "aGVsbG8=" "screen")
             ↔ slot "/data" Stamps.before_tick
                 (microsecond Stamps.before_tick)
               ∉ Server.files Server.fresh_server))
     ∧ (slot "/data" Stamps.before_tick (microsecond Stamps.before_tick)
        ∉ Server.files Server.fresh_server →
        ∃ s',
          backend_store_frame Batch.accepting_batch Batch.accepting_row
            Server.decode_any Server.encode_none Server.size_any None "/data"
            5 1
            (payload Server.size_any (_generate_frame_id Stamps.before_tick)
               Stamps.before_tick "aGVsbG8=" "screen")
            Server.fresh_server
          = Some (Returned "ok", s'))).
Proof.
  assert (Hv : Stamps.valid Stamps.before_tick)
    by by apply Stamps.valid_intro.
  split; [exact Hv|]. split; [reflexivity|]. split; [reflexivity|].
  split; [reflexivity|].
  apply (uploaded_frame_keeps_its_id Batch.accepting_batch
           Batch.accepting_row Server.decode_any Server.encode_none
           Server.size_any None "/data" Server.size_any 5 1
           Stamps.before_tick "aGVsbG8=" "screen" "aGVsbG8="
           Server.fresh_server tt tt Hv); reflexivity.
Defined.

End RemoteLoop.

(** ** Browsing by date
    ([get_frames_count_by_date], [get_frames_by_date],
    [get_frames_by_date_range], [get_date_range]) *)

Module Browse.

Import Datetime Allocator Stamps Server.

(** A row of the table [frames], as far as the count query reads it. *)
Record stored_frame := StoredFrame {
  st_frame_id : string;
  st_timestamp : string;
  st_image_path : option string
}.

Fixpoint count_if {A} (P : A → bool) (l : list A) : Z :=
  match l with
  | [] => 0
  | x :: rest => (if P x then 1 else 0) + count_if P rest
  end.

(** [f.timestamp >= ? AND f.timestamp < ?]: the column holds text, which
    SQLite compares byte by byte. *)
Definition in_window (start_time_str end_time_str t : string) : bool :=
  String.leb start_time_str t && String.ltb t end_time_str.

(** [f.image_path IS NOT NULL AND f.image_path != ''] *)
Definition has_path (f : stored_frame) : bool :=
  match st_image_path f with
  | Some path => negb (String.eqb path EmptyString)
  | None => false
  end.

(** The [SELECT COUNT( * )] of [get_frames_count_by_date]. *)
Definition select_count (start_time_str end_time_str : string)
    (frames : list stored_frame) : Z :=
  count_if (λ f, in_window start_time_str end_time_str (st_timestamp f)
                 && has_path f) frames.

(** [DateFrameCountResponse] *)
Record DateFrameCountResponse := MkDateFrameCountResponse {
  count_date : string;
  total_count : Z
}.

Section Count.

(** [datetime.fromisoformat]; [None] stands for its [ValueError]. *)
Variable fromisoformat : string → option datetime.

(** [get_frames_count_by_date]; [sqlite_storage] is [None] when it is
    not initialised, and otherwise what the connection gives: the rows of
    the table, or an error. *)
Definition get_frames_count_by_date (date : string)
    (sqlite_storage : option (outcome (list stored_frame)))
  : outcome DateFrameCountResponse :=
  match sqlite_storage with
  | None => Raised (HTTPException 500)
  | Some connection =>
      let body :=
        let start_time_str := date in
        match fromisoformat date with
        | None => Raised ValueError
        | Some date_obj =>
            match add_one_day date_obj with
            | Raised e => Raised e
            | Returned next_day =>
                let end_time_str := strftime_iso_date next_day in
                match connection with
                | Raised e => Raised e
                | Returned frames =>
                    Returned (MkDateFrameCountResponse date
                                (select_count start_time_str end_time_str
                                   frames))
                end
            end
        end in
      match body with
      | Returned response => Returned response
      | Raised ValueError => Raised (HTTPException 400)
      | Raised _ => Raised (HTTPException 500)
      end
  end.

Lemma compare_nil_l (s : string) : String.compare EmptyString s ≠ Gt.
Proof. by destruct s. Qed.

Lemma compare_nil_r (s : string) : String.compare s EmptyString ≠ Lt.
Proof. by destruct s. Qed.

Lemma prefix_append (p q rest : string) :
  String.length p = String.length q →
  String.prefix p (q +:+ rest) = bool_decide (p = q).
Proof.
  revert q. induction p as [|a p IH]; intros [|b q] Hlen; try done.
  { by destruct rest. }
  rewrite append_cons. cbn [String.prefix].
  destruct (Ascii.ascii_dec a b) as [->|Hne].
  - rewrite IH by by injection Hlen.
    apply bool_decide_ext. split; [by intros ->|by intros [= ->]].
  - symmetry. apply bool_decide_eq_false. by intros [= ? ?].
Qed.

(** For a stored timestamp that starts with a date, being in the window
    of a day is starting with that day. *)
Lemma window_is_prefix (d next_day ts : datetime) (rest : string) :
  valid d → valid ts → add_one_day (midnight d) = Returned next_day →
  in_window (strftime_iso_date d) (strftime_iso_date next_day)
    (strftime_iso_date ts +:+ rest)
  = String.prefix (strftime_iso_date d) (strftime_iso_date ts +:+ rest).
Proof.
  intros Hd Hts Hnext.
  assert (Hmid : valid (midnight d)).
  { destruct Hd as (? & ? & ? & _). unfold valid, midnight; simpl. lia. }
  destruct (add_one_day_next _ _ Hmid Hnext) as (Hn & Hlt & Hsucc).
  rewrite prefix_append by done.
  unfold in_window, String.leb, String.ltb.
  rewrite <- (append_nil_r (strftime_iso_date d)) at 1.
  rewrite <- (append_nil_r (strftime_iso_date next_day)).
  rewrite !compare_iso_date by done.
  change (date_compare (midnight d) next_day) with (date_compare d next_day)
    in Hlt.
  destruct (date_compare d ts) eqn:Hc; cbn [lex].
  - apply date_compare_eq in Hc as Heq.
    rewrite bool_decide_eq_true_2 by done.
    assert (date_compare ts next_day = Lt) as ->.
    { rewrite <- Hlt. unfold date_compare.
      unfold date_compare, lex in Hc.
      destruct (Z.compare_spec (year d) (year ts)); [|done|done].
      destruct (Z.compare_spec (month d) (month ts)); [|done|done].
      destruct (Z.compare_spec (day d) (day ts)); [|done|done].
      congruence. }
    cbn [lex]. pose proof (compare_nil_l rest).
    by destruct (String.compare EmptyString rest).
  - rewrite bool_decide_eq_false_2.
    + specialize (Hsucc ts Hts Hc).
      destruct (date_compare ts next_day); cbn [lex]; [|done|done].
      pose proof (compare_nil_r rest).
      by destruct (String.compare rest EmptyString).
    + intros Heq.
      pose proof (compare_iso_date d ts EmptyString EmptyString Hd Hts) as Hcmp.
      rewrite Heq, compare_refl, Hc in Hcmp. done.
  - rewrite bool_decide_eq_false_2; [done|].
    intros Heq.
    pose proof (compare_iso_date d ts EmptyString EmptyString Hd Hts) as Hcmp.
    rewrite Heq, compare_refl, Hc in Hcmp. done.
Qed.

(** The count for a day is the number of stored frames of that day that
    have an image: for a date [d] written YYYY-MM-DD, other than the last
    day of the year 9999, and stored timestamps that start with a date,
    the handler counts exactly the rows whose timestamp starts with the
    requested date and whose image path is set. *)
Theorem count_by_date_counts_that_day (d : datetime)
    (frames : list stored_frame) :
  valid d → 1000 ≤ year d →
  ¬ (year d = 9999 ∧ month d = 12 ∧ day d = 31) →
  fromisoformat (strftime_iso_date d) = Some (midnight d) →
  Forall (λ f, ∃ ts rest,
            valid ts ∧ st_timestamp f = strftime_iso_date ts +:+ rest)
         frames →
  get_frames_count_by_date (strftime_iso_date d) (Some (Returned frames))
  = Returned
      (MkDateFrameCountResponse (strftime_iso_date d)
         (count_if (λ f, String.prefix (strftime_iso_date d) (st_timestamp f)
                         && has_path f) frames)).
Proof.
  intros Hd _ Hlast Hparse Hframes.
  unfold get_frames_count_by_date. rewrite Hparse.
  destruct (add_one_day (midnight d)) as [next_day|e] eqn:Hnext.
  - do 2 f_equal. unfold select_count.
    induction Hframes as [|f frames (ts & rest & Hts & Hf) _ IH]; [done|].
    cbn [count_if]. rewrite IH, Hf.
    by rewrite (window_is_prefix d next_day ts rest Hd Hts Hnext).
  - exfalso. destruct Hd as (Hy & Hm & Hday & _).
    pose proof (days_in_month_bounds (year d) (month d)).
    unfold add_one_day, midnight in Hnext. cbn [year month day] in Hnext.
    destruct (Z.ltb_spec (day d) (days_in_month (year d) (month d)));
      [done|].
    destruct (Z.ltb_spec (month d) 12); [done|].
    destruct (Z.ltb_spec (year d) 9999); [done|].
    apply Hlast. assert (month d = 12) as Hm12 by lia.
    assert (year d = 9999) as Hy9 by lia.
    rewrite Hm12, Hy9 in *. unfold days_in_month in *. simpl in *. lia.
Qed.

End Count.

(** A database with three frames of 1 December 2025, one of them
    without an image, and one frame of the next day. *)
Definition december : list stored_frame :=
  [StoredFrame "a" "2025-12-01T00:00:00" (Some "/img/a.jpg");
   StoredFrame "b" "2025-12-01T23:59:59.999999" (Some "/img/b.jpg");
   StoredFrame "c" "2025-12-01T12:00:00" None;
   StoredFrame "d" "2025-12-02T00:00:00" (Some "/img/d.jpg")].

Definition first_of_december : datetime := Mk 2025 12 1 0 0 0 0.

Lemma count_by_date_witness :
  valid first_of_december ∧ 1000 ≤ year first_of_december
  ∧ ¬ (year first_of_december = 9999 ∧ month first_of_december = 12
       ∧ day first_of_december = 31)
  ∧ Iso.fromisoformat (strftime_iso_date first_of_december)
    = Some (midnight first_of_december)
  ∧ Forall (λ f, ∃ ts rest,
              valid ts ∧ st_timestamp f = strftime_iso_date ts +:+ rest)
           december
  ∧ get_frames_count_by_date Iso.fromisoformat
      (strftime_iso_date first_of_december) (Some (Returned december))
    = Returned
        (MkDateFrameCountResponse (strftime_iso_date first_of_december)
           (count_if
              (λ f, String.prefix (strftime_iso_date first_of_december)
                      (st_timestamp f) && has_path f) december)).
Proof.
  assert (Hv : valid first_of_december) by by apply valid_intro.
  assert (Hrows : Forall (λ f, ∃ ts rest,
              valid ts ∧ st_timestamp f = strftime_iso_date ts +:+ rest)
           december).
  { repeat constructor.
    - exists first_of_december, "T00:00:00". by split.
    - exists first_of_december, "T23:59:59.999999". by split.
    - exists first_of_december, "T12:00:00". by split.
    - exists (Mk 2025 12 2 0 0 0 0), "T00:00:00".
      split; [by apply valid_intro|done]. }
  split; [exact Hv|]. split; [simpl; lia|]. split; [simpl; lia|].
  split; [reflexivity|]. split; [exact Hrows|].
  apply (count_by_date_counts_that_day Iso.fromisoformat first_of_december
           december Hv); [simpl; lia|simpl; lia|reflexivity|exact Hrows].
Defined.

Example count_by_date_example :
  get_frames_count_by_date Iso.fromisoformat "2025-12-01"
    (Some (Returned december))
  = Returned (MkDateFrameCountResponse "2025-12-01" 2)
  ∧ get_frames_count_by_date Iso.fromisoformat "9999-12-31"
      (Some (Returned december))
    = Raised (HTTPException 500)
  ∧ get_frames_count_by_date Iso.fromisoformat "1 December"
      (Some (Returned december))
    = Raised (HTTPException 400).
Proof. by vm_compute. Qed.

(** *** A page of a day ([get_frames_by_date]) *)

Section Page.

Context {vdb sdb : Type}.
Variable fromisoformat : string → option datetime.
Variable isoformat : datetime → string.
Variable select_frames
  : string → string → Z → Z → sdb → outcome (list frame_row).

(** The request with its paging values brought into range. *)
Definition clamp (req : GetFramesByDateRequest) : GetFramesByDateRequest :=
  MkGetFramesByDateRequest (date req) (Z.max 0 (offset req))
    (Z.min (Z.max 1 (limit req)) 200).

Lemma rows_to_json_length (rows : list frame_row) (result : list frame_json) :
  rows_to_json fromisoformat isoformat rows = Returned result →
  (length result ≤ length rows)%nat
  ∧ Forall (λ j, json_image_path j ≠ EmptyString) result.
Proof.
  revert result. induction rows as [|row rows IH]; intros result Hres.
  - injection Hres as <-. by split.
  - cbn [rows_to_json] in Hres.
    destruct (sel_image_path row) as [path|];
      [|destruct (IH _ Hres); split; [simpl; lia|done]].
    case_bool_decide as Hpath;
      [destruct (IH _ Hres); split; [simpl; lia|done]|].
    destruct (fromisoformat (sel_timestamp row)); [|done].
    destruct (rows_to_json fromisoformat isoformat rows) as [rest|]; [|done].
    injection Hres as <-. destruct (IH _ eq_refl) as [Hlen Hall].
    split; [simpl; lia|]. by constructor.
Qed.

(** Paging is clamped and the page is capped: a request is answered as
    the request with [limit] brought into 1..200 and [offset] raised to
    at least 0; and when the query honours its [LIMIT], a page holds at
    most 200 frames, each with an image path. *)
Theorem page_of_a_day_is_clamped_and_capped (req : GetFramesByDateRequest)
    (s : @server vdb sdb) :
  (∀ start_time end_time limit offset db rows,
     0 ≤ limit →
     select_frames start_time end_time limit offset db = Returned rows →
     Z.of_nat (length rows) ≤ limit) →
  get_frames_by_date fromisoformat isoformat select_frames (clamp req) s
  = get_frames_by_date fromisoformat isoformat select_frames req s
  ∧ ∀ result,
      get_frames_by_date fromisoformat isoformat select_frames req s
      = Returned result →
      Z.of_nat (length result) ≤ 200
      ∧ Forall (λ j, json_image_path j ≠ EmptyString) result.
Proof.
  intros Hlimit. split.
  - unfold get_frames_by_date, frames_by_date_body, clamp.
    cbn [date offset limit].
    replace (Z.max 0 (Z.max 0 (offset req))) with (Z.max 0 (offset req))
      by lia.
    replace (Z.min (Z.max 1 (Z.min (Z.max 1 (limit req)) 200)) 200)
      with (Z.min (Z.max 1 (limit req)) 200) by lia.
    done.
  - intros result Hres.
    unfold get_frames_by_date, frames_by_date_body in Hres.
    destruct (Batch.sqlite_storage (components s)) as [db|]; [|done].
    destruct (fromisoformat (date req)) as [date_obj|]; [|done].
    destruct (add_one_day date_obj) as [next_day|[]]; try done.
    destruct (select_frames _ _ _ _ db) as [rows|e] eqn:Hsel;
      [|by destruct e].
    destruct (rows_to_json fromisoformat isoformat rows) as [res|e] eqn:Hjson;
      [|by destruct e].
    injection Hres as ->.
    destruct (rows_to_json_length rows result Hjson) as [Hlen Hall].
    split; [|done]. apply Hlimit in Hsel; lia.
Qed.

Lemma rows_to_json_unreadable (rows : list frame_row) (row : frame_row)
    (path : string) :
  row ∈ rows → sel_image_path row = Some path → path ≠ EmptyString →
  fromisoformat (sel_timestamp row) = None →
  rows_to_json fromisoformat isoformat rows = Raised ValueError.
Proof.
  intros Hin Hpath Hne Hts.
  induction rows as [|r rows IH]; [by apply elem_of_nil in Hin|].
  cbn [rows_to_json].
  apply elem_of_cons in Hin as [<-|Hin].
  - rewrite Hpath, bool_decide_eq_false_2, Hts by done. done.
  - specialize (IH Hin).
    destruct (sel_image_path r) as [p|]; [|done].
    case_bool_decide; [done|].
    destruct (fromisoformat (sel_timestamp r)); [|done].
    by rewrite IH.
Qed.

(** One stored row whose timestamp cannot be read fails the whole page,
    and the failure is reported as the client's: when a row of the page
    has an image path and a timestamp [fromisoformat] rejects, the
    handler answers 400 ("Invalid date format") for a well-formed
    request. *)
Theorem unreadable_row_fails_the_page_as_bad_request
    (req : GetFramesByDateRequest) (s : @server vdb sdb) (db : sdb)
    (date_obj next_day : datetime) (rows : list frame_row) (row : frame_row)
    (path : string) :
  Batch.sqlite_storage (components s) = Some db →
  fromisoformat (date req) = Some date_obj →
  add_one_day date_obj = Returned next_day →
  select_frames (date req) (strftime_iso_date next_day)
    (Z.min (Z.max 1 (limit req)) 200) (Z.max 0 (offset req)) db
  = Returned rows →
  row ∈ rows → sel_image_path row = Some path → path ≠ EmptyString →
  fromisoformat (sel_timestamp row) = None →
  get_frames_by_date fromisoformat isoformat select_frames req s
  = Raised (HTTPException 400).
Proof.
  intros Hdb Hdate Hnext Hsel Hin Hpath Hne Hts.
  unfold get_frames_by_date, frames_by_date_body.
  rewrite Hdb, Hdate, Hnext, Hsel.
  by rewrite (rows_to_json_unreadable rows row path Hin Hpath Hne Hts).
Qed.

End Page.

(** A table whose query honours [LIMIT] and [OFFSET], holding a row
    whose timestamp was stored with a one-digit hour. *)
Definition stored_rows : list frame_row :=
  [MkFrameRow "a" "2025-12-01T00:00:00" (Some "/img/a.jpg") (Some "hello");
   MkFrameRow "b" "2025-12-01T8:00:00" (Some "/img/b.jpg") None].

Definition select_page (rows : list frame_row)
    (start_time end_time : string) (limit offset : Z) (db : unit)
  : outcome (list frame_row) :=
  Returned (take (Z.to_nat limit) (drop (Z.to_nat offset) rows)).

Lemma page_cap_witness :
  (∀ start_time end_time limit offset db rows,
     0 ≤ limit →
     select_page stored_rows start_time end_time limit offset db
     = Returned rows →
     Z.of_nat (length rows) ≤ limit)
  ∧ (get_frames_by_date Iso.fromisoformat isoformat (select_page stored_rows)
       (clamp (MkGetFramesByDateRequest "2025-12-01" (-5) 1000)) fresh_server
     = get_frames_by_date Iso.fromisoformat isoformat
         (select_page stored_rows)
         (MkGetFramesByDateRequest "2025-12-01" (-5) 1000) fresh_server
     ∧ ∀ result,
         get_frames_by_date Iso.fromisoformat isoformat
           (select_page stored_rows)
           (MkGetFramesByDateRequest "2025-12-01" (-5) 1000) fresh_server
         = Returned result →
         Z.of_nat (length result) ≤ 200
         ∧ Forall (λ j, json_image_path j ≠ EmptyString) result).
Proof.
  assert (Hlimit : ∀ start_time end_time limit offset db rows,
     0 ≤ limit →
     select_page stored_rows start_time end_time limit offset db
     = Returned rows →
     Z.of_nat (length rows) ≤ limit).
  { intros ? ? limit offset ? rows Hpos [= <-].
    rewrite length_take. lia. }
  split; [exact Hlimit|].
  exact (page_of_a_day_is_clamped_and_capped Iso.fromisoformat isoformat
           (select_page stored_rows)
           (MkGetFramesByDateRequest "2025-12-01" (-5) 1000)
           fresh_server Hlimit).
Defined.

Lemma unreadable_row_witness :
  Batch.sqlite_storage (components fresh_server) = Some tt
  ∧ Iso.fromisoformat "2025-12-01" = Some first_of_december
  ∧ add_one_day first_of_december = Returned (Mk 2025 12 2 0 0 0 0)
  ∧ select_page stored_rows "2025-12-01" "2025-12-02" 50 0 tt
    = Returned stored_rows
  ∧ MkFrameRow "b" "2025-12-01T8:00:00" (Some "/img/b.jpg") None
    ∈ stored_rows
  ∧ "/img/b.jpg" ≠ EmptyString
  ∧ Iso.fromisoformat "2025-12-01T8:00:00" = None
  ∧ get_frames_by_date Iso.fromisoformat isoformat (select_page stored_rows)
      (MkGetFramesByDateRequest "2025-12-01" 0 50) fresh_server
    = Raised (HTTPException 400).
Proof.
  assert (Hin : MkFrameRow "b" "2025-12-01T8:00:00" (Some "/img/b.jpg") None
                ∈ stored_rows) by (right; left).
  assert (Hdate : Iso.fromisoformat "2025-12-01" = Some first_of_december)
    by by vm_compute.
  assert (Hbad : Iso.fromisoformat "2025-12-01T8:00:00" = None)
    by by vm_compute.
  assert (Hsel : select_page stored_rows "2025-12-01" "2025-12-02" 50 0 tt
                 = Returned stored_rows) by by vm_compute.
  split; [reflexivity|]. split; [exact Hdate|]. split; [reflexivity|].
  split; [exact Hsel|]. split; [exact Hin|]. split; [done|].
  split; [exact Hbad|].
  apply (unreadable_row_fails_the_page_as_bad_request Iso.fromisoformat
           isoformat (select_page stored_rows)
           (MkGetFramesByDateRequest "2025-12-01" 0 50) fresh_server tt
           first_of_december (Mk 2025 12 2 0 0 0 0) stored_rows
           (MkFrameRow "b" "2025-12-01T8:00:00" (Some "/img/b.jpg") None)
           "/img/b.jpg"); done.
Defined.

(** *** A range of days ([get_frames_by_date_range]) *)

(** The JSON body of [/api/frames]. *)
Record GetFramesByDateRangeRequest := MkGetFramesByDateRangeRequest {
  start_date : string;
  end_date : string;
  range_offset : Z;
  range_limit : Z
}.

(** A timestamp as the storage returns it: a [datetime] or text. *)
Inductive stamp :=
| AsDatetime (ts : datetime)
| AsText (s : string).

(** A dict returned by [get_frames_in_timerange]; [None] is a missing
    key. *)
Record range_row := MkRangeRow {
  rr_frame_id : option string;
  rr_timestamp : option stamp;
  rr_image_path : option string;
  rr_ocr_text : option string
}.

Section Range.

Context {sdb : Type}.
Variable fromisoformat : string → option datetime.
Variable isoformat : datetime → string.
Variable get_frames_in_timerange
  : string → string → Z → sdb → outcome (list range_row).

(** [ts.isoformat() if isinstance(ts, datetime) else str(ts)] *)
Definition stamp_text (ts : option stamp) : string :=
  match ts with
  | Some (AsDatetime ts) => isoformat ts
  | Some (AsText s) => s
  | None => "None"
  end.

Definition range_json (frame : range_row) : frame_json :=
  MkFrameJson (default EmptyString (rr_frame_id frame))
    (stamp_text (rr_timestamp frame))
    (default EmptyString (rr_image_path frame))
    (default EmptyString (rr_ocr_text frame)).

(** [get_frames_by_date_range] *)
Definition get_frames_by_date_range (req : GetFramesByDateRangeRequest)
    (sqlite_storage : option sdb) : outcome (list frame_json) :=
  match sqlite_storage with
  | None => Raised (HTTPException 500)
  | Some db =>
      let body :=
        let start_time_str := start_date req in
        match fromisoformat (end_date req) with
        | None => Raised ValueError
        | Some end_date_obj =>
            match add_one_day end_date_obj with
            | Raised e => Raised e
            | Returned next_day =>
                let end_time_str := strftime_iso_date next_day in
                match get_frames_in_timerange start_time_str end_time_str
                        100000 db with
                | Raised e => Raised e
                | Returned all_frames => Returned (range_json <$> all_frames)
                end
            end
        end in
      match body with
      | Returned result => Returned result
      | Raised ValueError => Raised (HTTPException 400)
      | Raised _ => Raised (HTTPException 500)
      end
  end.


End Range.

(** *** The first and the last day ([get_date_range]) *)

(** [DateRangeResponse] *)
Record DateRangeResponse := MkDateRangeResponse {
  earliest_date : option string;
  latest_date : option string
}.

(** The part of [s] before the first [c], and whether [c] occurs. *)
Fixpoint before (c : Ascii.ascii) (s : string) : string :=
  match s with
  | EmptyString => EmptyString
  | String a s' => if Ascii.eqb a c then EmptyString else String a (before c s')
  end.

Fixpoint occurs (c : Ascii.ascii) (s : string) : bool :=
  match s with
  | EmptyString => false
  | String a s' => Ascii.eqb a c || occurs c s'
  end.

(** The date of a timestamp:
    [ts.date().isoformat()] for a [datetime], and for text
    [ts.split('T')[0] if 'T' in str(ts) else str(ts)[:10]]. *)
Definition date_text (ts : stamp) : string :=
  match ts with
  | AsDatetime ts => strftime_iso_date ts
  | AsText s =>
      if occurs "T" s then before "T" s else String.substring 0 10 s
  end.

(** [frame and frame.get("timestamp")]: the frame may be missing, its
    timestamp may be missing or empty. *)
Definition stamp_of (frame : option (option stamp)) : option stamp :=
  match frame with
  | Some (Some (AsText EmptyString)) => None
  | Some (Some ts) => Some ts
  | _ => None
  end.

Section DateRange.

Context {sdb : Type}.
Variable get_earliest_frame : sdb → outcome (option (option stamp)).
Variable get_latest_frame : sdb → outcome (option (option stamp)).

(** [get_date_range] *)
Definition get_date_range (sqlite_storage : option sdb)
  : outcome DateRangeResponse :=
  match sqlite_storage with
  | None => Raised (HTTPException 500)
  | Some db =>
      match get_earliest_frame db with
      | Raised _ => Raised (HTTPException 500)
      | Returned earliest_frame =>
          match get_latest_frame db with
          | Raised _ => Raised (HTTPException 500)
          | Returned latest_frame =>
              Returned
                (MkDateRangeResponse (date_text <$> stamp_of earliest_frame)
                   (date_text <$> stamp_of latest_frame))
          end
      end
  end.

(** The ways a timestamp [ts] can come back from the storage: as a
    [datetime], as the text [isoformat] writes, or as text that starts
    with the date and has no [T] at all. *)
Definition stored_as (ts : datetime) (st : stamp) : Prop :=
  st = AsDatetime ts ∨ st = AsText (Stamps.isoformat ts)
  ∨ ∃ rest, occurs "T" rest = false
            ∧ st = AsText (strftime_iso_date ts +:+ rest).

Lemma digit_not_T (n : Z) : Ascii.eqb (digit n) "T" = false.
Proof.
  apply Ascii.eqb_neq. intros Heq.
  pose proof (is_digit_digit n) as Hd. by rewrite Heq in Hd.
Qed.

Lemma date_chars_before (ts : datetime) (rest : string) :
  before "T" (date_chars ts rest) = date_chars ts (before "T" rest)
  ∧ occurs "T" (date_chars ts rest) = occurs "T" rest.
Proof.
  unfold date_chars. cbn [before occurs]. rewrite !digit_not_T.
  by cbn.
Qed.

Lemma date_text_stored (ts : datetime) (st : stamp) :
  stored_as ts st → date_text st = strftime_iso_date ts.
Proof.
  intros [->|[->|(rest & Hrest & ->)]]; [done| |]; unfold date_text.
  - rewrite isoformat_chars.
    destruct (date_chars_before ts (time_chars ts
      (if microsecond ts =? 0 then EmptyString
       else String "." (zero_pad 6 (microsecond ts))))) as [-> ->].
    done.
  - change (strftime_iso_date ts +:+ rest) with (date_chars ts rest).
    destruct (date_chars_before ts rest) as [_ ->]. rewrite Hrest.
    unfold date_chars. cbn [String.substring]. by rewrite substring_0_0.
Qed.

(** The first and the last day are read off the stored timestamps in
    each form the storage returns them: for a first frame of time [e] and
    a last frame of time [l], the answer holds the two dates in the form
    YYYY-MM-DD. *)
Theorem date_range_reads_each_stored_form (db : sdb) (e l : datetime)
    (first last : stamp) :
  stored_as e first → stored_as l last →
  get_earliest_frame db = Returned (Some (Some first)) →
  get_latest_frame db = Returned (Some (Some last)) →
  get_date_range (Some db)
  = Returned (MkDateRangeResponse (Some (strftime_iso_date e))
                (Some (strftime_iso_date l))).
Proof.
  intros He Hl Hfirst Hlast. unfold get_date_range.
  rewrite Hfirst, Hlast.
  assert (Hne : ∀ ts st, stored_as ts st → stamp_of (Some (Some st)) = Some st).
  { intros ts st [->|[->|(rest & _ & ->)]]; [done| |];
      by rewrite ?isoformat_chars. }
  rewrite (Hne e first He), (Hne l last Hl). cbn [fmap option_fmap option_map].
  by rewrite (date_text_stored e first He), (date_text_stored l last Hl).
Qed.

End DateRange.

Definition first_stored (db : unit) : outcome (option (option stamp)) :=
  Returned (Some (Some (AsText "2025-12-01T14:30:25.999999"))).

Definition last_stored (db : unit) : outcome (option (option stamp)) :=
  Returned (Some (Some (AsText "2025-12-01 14:30:26"))).

Lemma date_range_witness :
  stored_as before_tick (AsText "2025-12-01T14:30:25.999999")
  ∧ stored_as after_tick (AsText "2025-12-01 14:30:26")
  ∧ first_stored tt
    = Returned (Some (Some (AsText "2025-12-01T14:30:25.999999")))
  ∧ last_stored tt = Returned (Some (Some (AsText "2025-12-01 14:30:26")))
  ∧ get_date_range first_stored last_stored (Some tt)
    = Returned (MkDateRangeResponse (Some (strftime_iso_date before_tick))
                  (Some (strftime_iso_date after_tick))).
Proof.
  assert (H1 : stored_as before_tick (AsText "2025-12-01T14:30:25.999999"))
    by (right; left; done).
  assert (H2 : stored_as after_tick (AsText "2025-12-01 14:30:26"))
    by (right; right; by exists " 14:30:26").
  split; [exact H1|]. split; [exact H2|]. split; [reflexivity|].
  split; [reflexivity|].
  by apply (date_range_reads_each_stored_form first_stored last_stored tt
              before_tick after_tick _ _ H1 H2).
Defined.

Example date_text_of_zone_name :
  date_text (AsText "2025-12-01 14:30:26 EST") = "2025-12-01 14:30:26 ES".
Proof. reflexivity. Qed.

End Browse.

(** ** Serving image files ([get_image]) *)

Module Images.

(** [FileResponse(path, media_type=..., headers={"Cache-Control": ...})] *)
Record FileResponse := MkFileResponse {
  file_path : string;
  media_type : string;
  cache_control : string
}.

(** What the handler logs. *)
Inductive log_line :=
| WarnNotFound (path : string)
| WarnResolved (final_path : string)
| WarnProjectRoot (project_root : string)
| WarnCwd (cwd : string)
| WarnStoragePath (image_storage_path : string)
| ErrorFailedToServe (path : string).

(** How the [try] block ends: with a response, with an exception of the
    kinds of [Py.exn], or with the [UnboundLocalError] Python raises when
    a local name is read before any assignment to it. *)
Inductive ending :=
| Responds (response : FileResponse)
| Raises (e : exn)
| RaisesUnboundLocalError (name : string).

(** ['visualmem_storage' in path_str] *)
Definition mentions_storage (path_str : string) : bool :=
  match String.index 0 "visualmem_storage" path_str with
  | Some _ => true
  | None => false
  end.

Section GetImage.

(** The file system and the process: [Path.is_absolute], [a / b],
    [Path.exists], [Path.is_file], the directory of the script, the
    working directory and [config.IMAGE_STORAGE_PATH]. *)
Variable is_absolute : string → bool.
Variable joinpath : string → string → string.
Variable path_exists : string → bool.
Variable is_file : string → bool.
Variable script_dir : string.
Variable cwd : string.
Variable IMAGE_STORAGE_PATH : string.

(** The locals of the handler after the path has been resolved;
    [project_root] and [cwd] are assigned on the relative branch only. *)
Record locals := Locals {
  final_path : string;
  local_project_root : option string;
  local_cwd : option string
}.

Definition resolve (path_str : string) : locals :=
  if is_absolute path_str then Locals path_str None None
  else
    let project_root := script_dir in
    let final_path :=
      if mentions_storage path_str then
        let final_path := joinpath project_root path_str in
        if negb (path_exists final_path) then joinpath cwd path_str
        else final_path
      else
        let base_path := IMAGE_STORAGE_PATH in
        if is_absolute base_path then joinpath base_path path_str
        else
          let final_path := joinpath (joinpath project_root base_path) path_str in
          if negb (path_exists final_path)
          then joinpath (joinpath cwd base_path) path_str
          else final_path in
    Locals final_path (Some project_root) (Some cwd).

(** The [try] block: its ending and the lines it logged. *)
Definition serve (path : string) : ending * list log_line :=
  let l := resolve path in
  if negb (path_exists (final_path l)) || negb (is_file (final_path l)) then
    let logged := [WarnNotFound path; WarnResolved (final_path l)] in
    match local_project_root l with
    | None => (RaisesUnboundLocalError "project_root", logged)
    | Some project_root =>
        match local_cwd l with
        | None =>
            (RaisesUnboundLocalError "cwd",
             logged ++ [WarnProjectRoot project_root])
        | Some cwd =>
            (Raises (HTTPException 404),
             logged ++ [WarnProjectRoot project_root; WarnCwd cwd;
                        WarnStoragePath IMAGE_STORAGE_PATH])
        end
    end
  else
    (Responds (MkFileResponse (final_path l) "image/jpeg"
                 "public, max-age=3600"), []).

(** [get_image] with its two [except] clauses. *)
Definition get_image (path : string) : outcome FileResponse * list log_line :=
  match serve path with
  | (Responds response, logged) => (Returned response, logged)
  | (Raises (HTTPException status_code), logged) =>
      (Raised (HTTPException status_code), logged)
  | (_, logged) =>
      (Raised (HTTPException 500), logged ++ [ErrorFailedToServe path])
  end.

(** Absolute paths: the handler serves any absolute path that is an
    existing file, wherever it lies, and answers 500, not 404, for an
    absolute path that is not one (the "not found" branch reads
    [project_root], which only the relative branch assigns).  Relative
    paths are answered 404 or with an existing file. *)
Theorem absolute_image_paths_are_served_or_fail_with_500 (path : string) :
  (is_absolute path = true →
   (get_image path).1
   = if path_exists path && is_file path
     then Returned (MkFileResponse path "image/jpeg" "public, max-age=3600")
     else Raised (HTTPException 500))
  ∧ (is_absolute path = false →
     (get_image path).1 = Raised (HTTPException 404)
     ∨ ∃ final_path,
         (get_image path).1
         = Returned (MkFileResponse final_path "image/jpeg"
                       "public, max-age=3600")
         ∧ path_exists final_path = true ∧ is_file final_path = true).
Proof.
  unfold get_image, serve, resolve. split; intros ->.
  - cbn [final_path local_project_root local_cwd].
    by destruct (path_exists path), (is_file path).
  - set (final := if mentions_storage path then _ else _).
    cbn [final_path local_project_root local_cwd].
    destruct (path_exists final) eqn:He, (is_file final) eqn:Hf;
      cbn [negb orb fst]; eauto.
Qed.

End GetImage.

(** A server whose only file is [/etc/passwd], asked for it and for an
    absolute path that does not exist. *)
Definition starts_with_slash (p : string) : bool := String.prefix "/" p.

Definition slash_join (a b : string) : string := a +:+ "/" +:+ b.

Definition only_passwd (p : string) : bool := String.eqb p "/etc/passwd".

Example absolute_paths_example :
  (get_image starts_with_slash slash_join only_passwd only_passwd "/srv/app"
     "/srv/app" "./visualmem_storage/visualmem_image" "/etc/passwd").1
  = Returned (MkFileResponse "/etc/passwd" "image/jpeg" "public, max-age=3600")
  ∧ get_image starts_with_slash slash_join only_passwd only_passwd "/srv/app"
      "/srv/app" "./visualmem_storage/visualmem_image" "/data/missing.jpg"
    = (Raised (HTTPException 500),
       [WarnNotFound "/data/missing.jpg"; WarnResolved "/data/missing.jpg";
        ErrorFailedToServe "/data/missing.jpg"])
  ∧ (get_image starts_with_slash slash_join only_passwd only_passwd "/srv/app"
       "/srv/app" "./visualmem_storage/visualmem_image" "missing.jpg").1
    = Raised (HTTPException 404).
Proof. by vm_compute. Qed.

End Images.

(** ** Storage statistics
    ([_get_directory_size], [_format_size], [get_stats]) *)

Module Stats.

Import Json.

(** *** The size of a directory *)

(** An entry [rglob] yields: what [is_file()] and [stat().st_size]
    give for it. *)
Record entry := Entry {
  entry_is_file : outcome bool;
  entry_size : outcome Z
}.

(** A directory: whether it exists and is one, the entries the walk
    yields and the error, if any, that ends the walk after them. *)
Record directory := Directory {
  dir_exists : bool;
  dir_is_dir : bool;
  dir_entries : list entry;
  dir_error : option exn
}.

(** [except (OSError, PermissionError)]: [IOError] is Python's other
    name of [OSError], and [PermissionError] derives from it. *)
Definition is_os_error (e : exn) : bool :=
  match e with IOError => true | _ => false end.

(** The body of the [for] loop, with its own [try]. *)
Definition add_entry (total_size : Z) (entry : entry) : outcome Z :=
  let attempt :=
    match entry_is_file entry with
    | Returned true =>
        match entry_size entry with
        | Returned st_size => Returned (total_size + st_size)
        | Raised e => Raised e
        end
    | Returned false => Returned total_size
    | Raised e => Raised e
    end in
  match attempt with
  | Returned total => Returned total
  | Raised e => if is_os_error e then Returned total_size else Raised e
  end.

(** The loop; an exception other than an [OSError] leaves it, and the
    function. *)
Fixpoint add_entries (total_size : Z) (entries : list entry) : outcome Z :=
  match entries with
  | [] => Returned total_size
  | entry :: rest =>
      match add_entry total_size entry with
      | Returned total => add_entries total rest
      | Raised e => Raised e
      end
  end.

(** [_get_directory_size] *)
Definition _get_directory_size (d : directory) : outcome Z :=
  if dir_exists d && dir_is_dir d then
    match add_entries 0 (dir_entries d) with
    | Returned total_size =>
        match dir_error d with
        | None => Returned total_size
        | Some e => if is_os_error e then Returned total_size else Raised e
        end
    | Raised e => Raised e
    end
  else Returned 0.

(** What an entry adds when it can be read. *)
Definition readable_size (entry : entry) : Z :=
  match entry_is_file entry, entry_size entry with
  | Returned true, Returned st_size => st_size
  | _, _ => 0
  end.

Definition raises_only_os_errors {A} (r : outcome A) : Prop :=
  match r with Returned _ => True | Raised e => is_os_error e = true end.

Fixpoint sum_list (l : list Z) : Z :=
  match l with [] => 0 | x :: rest => x + sum_list rest end.

Lemma add_entries_readable (entries : list entry) (total_size : Z) :
  Forall (λ entry, raises_only_os_errors (entry_is_file entry)
                   ∧ raises_only_os_errors (entry_size entry)) entries →
  add_entries total_size entries
  = Returned (total_size + sum_list (readable_size <$> entries)).
Proof.
  intros Hall. revert total_size.
  induction Hall as [|entry rest [Hf Hs] _ IH]; intros total_size.
  - simpl. f_equal. lia.
  - cbn [add_entries fmap list_fmap sum_list].
    assert (add_entry total_size entry
            = Returned (total_size + readable_size entry)) as ->.
    { unfold add_entry, readable_size.
      destruct (entry_is_file entry) as [[|]|e]; cbn in Hf.
      - destruct (entry_size entry) as [st_size|e]; cbn in Hs; [done|].
        rewrite Hs. f_equal. lia.
      - f_equal. lia.
      - rewrite Hf. f_equal. lia. }
    rewrite IH. f_equal. lia.
Qed.

(** The size of a directory is the sum of the sizes of the files that
    could be read: as long as the file system raises nothing but OS
    errors, the function returns, entries whose [is_file] or [stat]
    fails count as 0 without stopping the walk, a walk that fails
    half-way gives the sum so far, and a directory that does not exist
    gives 0. *)
Theorem directory_size_adds_up_readable_files (d : directory) :
  Forall (λ entry, raises_only_os_errors (entry_is_file entry)
                   ∧ raises_only_os_errors (entry_size entry))
         (dir_entries d) →
  match dir_error d with Some e => is_os_error e = true | None => True end →
  _get_directory_size d
  = Returned (if dir_exists d && dir_is_dir d
              then sum_list (readable_size <$> dir_entries d) else 0).
Proof.
  intros Hentries Herr. unfold _get_directory_size.
  destruct (dir_exists d && dir_is_dir d); [|done].
  rewrite (add_entries_readable _ 0 Hentries). cbn [Z.add].
  destruct (dir_error d) as [e|]; [|done]. by rewrite Herr.
Qed.

(** *** Sizes for reading *)

(** The integer nearest to [num / den], ties going to the even one
    ([den] positive). *)
Definition round_half_even (num den : Z) : Z :=
  let q := num / den in
  let r := num mod den in
  if 2 * r <? den then q
  else if den <? 2 * r then q + 1
  else if Z.even q then q else q + 1.

(** [f"{num / den:.{decimals}f}"] for a quotient that is not negative
    and that the float holds exactly, as is every [n / 1024 ** k] with
    [n] below [2 ** 53]: the formatting rounds the exact value to the
    nearest decimal, ties to even. *)
Definition fixed (decimals : nat) (num den : Z) : string :=
  let unit := 10 ^ Z.of_nat decimals in
  let scaled := round_half_even (num * unit) den in
  pretty (scaled / unit) +:+ "." +:+ Datetime.zero_pad decimals (scaled mod unit).

(** [_format_size] *)
Definition _format_size (bytes_size : Z) : string :=
  if bytes_size <? 1024 then pretty bytes_size +:+ " B"
  else if bytes_size <? 1024 * 1024 then fixed 1 bytes_size 1024 +:+ " KB"
  else if bytes_size <? 1024 * 1024 * 1024
       then fixed 1 bytes_size (1024 * 1024) +:+ " MB"
  else fixed 2 bytes_size (1024 * 1024 * 1024) +:+ " GB".

Lemma round_half_even_near (num den : Z) :
  0 < den →
  Z.abs (num - den * round_half_even num den) * 2 ≤ den.
Proof.
  intros Hden. unfold round_half_even.
  pose proof (Z.div_mod num den ltac:(lia)).
  pose proof (Z.mod_pos_bound num den Hden).
  repeat case_match; lia.
Qed.

(** Sizes from 1 KiB up to 1 MiB are shown in KB with one decimal,
    rounded to the nearest tenth of a KiB; the tenths shown run from 1.0
    up to 1024.0, and the text reads "1024.0 KB" for every size from
    1048525 bytes on. *)
Theorem kilobyte_sizes_round_to_a_tenth (bytes_size : Z) :
  1024 ≤ bytes_size < 1024 * 1024 →
  ∃ tenths,
    _format_size bytes_size
    = pretty (tenths / 10) +:+ "." +:+ Datetime.zero_pad 1 (tenths mod 10)
      +:+ " KB"
    ∧ Z.abs (10 * bytes_size - 1024 * tenths) ≤ 512
    ∧ 10 ≤ tenths ≤ 10240
    ∧ (tenths = 10240 ↔ 1048525 ≤ bytes_size)
    ∧ (1048525 ≤ bytes_size → _format_size bytes_size = "1024.0 KB").
Proof.
  intros Hn.
  exists (round_half_even (bytes_size * 10) 1024).
  pose proof (round_half_even_near (bytes_size * 10) 1024 ltac:(lia)) as Hnear.
  assert (Hfmt : _format_size bytes_size
    = pretty (round_half_even (bytes_size * 10) 1024 / 10) +:+ "."
      +:+ Datetime.zero_pad 1 (round_half_even (bytes_size * 10) 1024 mod 10)
      +:+ " KB").
  { unfold _format_size.
    destruct (Z.ltb_spec bytes_size 1024); [lia|].
    destruct (Z.ltb_spec bytes_size (1024 * 1024)); [|lia].
    unfold fixed. change (10 ^ Z.of_nat 1) with 10.
    by rewrite <- !Allocator.append_assoc. }
  assert (Hrange : 10 ≤ round_half_even (bytes_size * 10) 1024 ≤ 10240
    ∧ (round_half_even (bytes_size * 10) 1024 = 10240
       ↔ 1048525 ≤ bytes_size)).
  { unfold round_half_even.
    pose proof (Z.div_mod (bytes_size * 10) 1024 ltac:(lia)).
    pose proof (Z.mod_pos_bound (bytes_size * 10) 1024 ltac:(lia)).
    repeat case_match; lia. }
  split; [exact Hfmt|]. split; [lia|]. split; [lia|]. split; [tauto|].
  intros Hbig. rewrite Hfmt.
  replace (round_half_even (bytes_size * 10) 1024) with 10240
    by (symmetry; apply Hrange; lia).
  reflexivity.
Qed.

Lemma kilobyte_sizes_witness :
  1024 ≤ 1048570 < 1024 * 1024
  ∧ ∃ tenths,
      _format_size 1048570
      = pretty (tenths / 10) +:+ "." +:+ Datetime.zero_pad 1 (tenths mod 10)
        +:+ " KB"
      ∧ Z.abs (10 * 1048570 - 1024 * tenths) ≤ 512
      ∧ 10 ≤ tenths ≤ 10240
      ∧ (tenths = 10240 ↔ 1048525 ≤ 1048570)
      ∧ (1048525 ≤ 1048570 → _format_size 1048570 = "1024.0 KB").
Proof.
  split; [lia|]. apply (kilobyte_sizes_round_to_a_tenth 1048570). lia.
Defined.

Example format_size_examples :
  _format_size 0 = "0 B" ∧ _format_size 1023 = "1023 B"
  ∧ _format_size 1024 = "1.0 KB" ∧ _format_size 1280 = "1.2 KB"
  ∧ _format_size 1792 = "1.8 KB" ∧ _format_size 1048575 = "1024.0 KB"
  ∧ _format_size 1048576 = "1.0 MB"
  ∧ _format_size 5368709120 = "5.00 GB".
Proof. by vm_compute. Qed.

(** A storage root with two files, a directory, a file whose [stat]
    is refused, and a walk that is cut short. *)
Definition storage_root : directory :=
  Directory true true
    [Entry (Returned true) (Returned 4096);
     Entry (Returned false) (Returned 0);
     Entry (Returned true) (Raised IOError);
     Entry (Returned true) (Returned 1044474)]
    (Some IOError).

Lemma directory_size_witness :
  Forall (λ entry, raises_only_os_errors (entry_is_file entry)
                   ∧ raises_only_os_errors (entry_size entry))
         (dir_entries storage_root)
  ∧ match dir_error storage_root with
    | Some e => is_os_error e = true
    | None => True
    end
  ∧ _get_directory_size storage_root
    = Returned (if dir_exists storage_root && dir_is_dir storage_root
                then sum_list (readable_size <$> dir_entries storage_root)
                else 0).
Proof.
  assert (H : Forall (λ entry, raises_only_os_errors (entry_is_file entry)
                   ∧ raises_only_os_errors (entry_size entry))
         (dir_entries storage_root)) by (repeat constructor).
  split; [exact H|]. split; [reflexivity|].
  by apply (directory_size_adds_up_readable_files storage_root H).
Defined.

(** *** The statistics dict *)

Section GetStats.

(** The configuration and the collaborators: the walk of
    [config.STORAGE_ROOT] and the two [get_stats] methods. *)
Context {vdb sdb : Type}.
Variable VLM_API_MODEL : string.
Variable SIMPLE_FILTER_DIFF_THRESHOLD : Q.
Variable CAPTURE_INTERVAL_SECONDS : Z.
Variable MAX_IMAGE_WIDTH : Z.
Variable IMAGE_QUALITY : Z.
Variable STORAGE_ROOT : directory.
Variable vector_get_stats : vdb → outcome (gmap string value).
Variable sqlite_get_stats : sdb → outcome (gmap string value).

(** [model[:20] + "..." if len(model) > 20 else model] *)
Definition shown_model : string :=
  if (20 <? String.length VLM_API_MODEL)%nat
  then String.substring 0 20 VLM_API_MODEL +:+ "..."
  else VLM_API_MODEL.

(** [v == 0] *)
Definition is_zero (v : value) : bool :=
  match v with
  | VInt n => n =? 0
  | VNum q => Qeq_bool q 0
  | VStr _ => false
  end.

Definition base_stats : gmap string value :=
  {[ "total_frames" := VInt 0;
     "ocr_frames" := VInt 0;
     "storage_mode" := VStr "vector";
     "storage" := VStr "Local SQLite";
     "vlm_model" := VStr shown_model;
     "disk_usage" := VStr "—";
     "diff_threshold" := VNum SIMPLE_FILTER_DIFF_THRESHOLD;
     "capture_interval_seconds" := VInt CAPTURE_INTERVAL_SECONDS;
     "max_image_width" := VInt MAX_IMAGE_WIDTH;
     "image_quality" := VInt IMAGE_QUALITY ]}.

(** The three blocks of [get_stats], each with its [try]. *)
Definition with_disk_usage (stats : gmap string value) : gmap string value :=
  match _get_directory_size STORAGE_ROOT with
  | Returned storage_size =>
      <["disk_usage" := VStr (_format_size storage_size)]> stats
  | Raised _ => <["disk_usage" := VStr "—"]> stats
  end.

Definition with_vector_stats (vector_storage : option vdb)
    (stats : gmap string value) : gmap string value :=
  match vector_storage with
  | None => stats
  | Some v =>
      match vector_get_stats v with
      | Returned vector_stats =>
          <["storage" := VStr "Vector DB"]>
            (<["embedding_dim" :=
                 get_default vector_stats "embedding_dim" (VInt 0)]>
               (<["db_path" :=
                    get_default vector_stats "db_path" (VStr EmptyString)]>
                  (<["ocr_frames" :=
                       get_default vector_stats "ocr_frames" (VInt 0)]>
                     (<["total_frames" :=
                          get_default vector_stats "total_frames" (VInt 0)]>
                        stats))))
      | Raised _ => stats
      end
  end.

Definition with_sqlite_stats (sqlite_storage : option sdb)
    (stats : gmap string value) : gmap string value :=
  match sqlite_storage with
  | None => stats
  | Some s =>
      match sqlite_get_stats s with
      | Returned sqlite_stats =>
          let stats :=
            <["ocr_frames" :=
                get_default sqlite_stats "total_ocr_results" (VInt 0)]> stats in
          if is_zero (get_default stats "total_frames" (VInt 0))
          then <["total_frames" :=
                   get_default sqlite_stats "total_frames" (VInt 0)]> stats
          else stats
      | Raised _ => stats
      end
  end.

(** [get_stats] *)
Definition get_stats (vector_storage : option vdb) (sqlite_storage : option sdb)
  : gmap string value :=
  with_sqlite_stats sqlite_storage
    (with_vector_stats vector_storage (with_disk_usage base_stats)).

(** What a store answered, if it is set and its [get_stats] returned. *)
Definition answered {db} (get : db → outcome (gmap string value))
    (storage : option db) : option (gmap string value) :=
  match storage with
  | Some d => match get d with Returned stats => Some stats | Raised _ => None end
  | None => None
  end.

Lemma length_substring_le (n : nat) (s : string) :
  (String.length (String.substring 0 n s) ≤ n)%nat.
Proof.
  revert s. induction n as [|n IH]; intros [|a s]; simpl; try lia.
  specialize (IH s). lia.
Qed.

Lemma base_stats_lookup :
  base_stats !! "total_frames" = Some (VInt 0)
  ∧ base_stats !! "ocr_frames" = Some (VInt 0)
  ∧ base_stats !! "storage_mode" = Some (VStr "vector")
  ∧ base_stats !! "storage" = Some (VStr "Local SQLite")
  ∧ base_stats !! "vlm_model" = Some (VStr shown_model).
Proof.
  unfold base_stats.
  generalize (VStr shown_model) (VNum SIMPLE_FILTER_DIFF_THRESHOLD)
    (VInt CAPTURE_INTERVAL_SECONDS) (VInt MAX_IMAGE_WIDTH)
    (VInt IMAGE_QUALITY).
  intros; repeat split; reflexivity.
Qed.

Lemma with_disk_usage_lookup (stats : gmap string value) (key : string) :
  with_disk_usage stats !! key
  = if bool_decide (key = "disk_usage")
    then Some (VStr (match _get_directory_size STORAGE_ROOT with
                     | Returned storage_size => _format_size storage_size
                     | Raised _ => "—"
                     end))
    else stats !! key.
Proof.
  unfold with_disk_usage.
  destruct (_get_directory_size STORAGE_ROOT); case_bool_decide as Hk;
    subst; first [by rewrite lookup_insert_eq
                 |by rewrite lookup_insert_ne by congruence].
Qed.

Lemma with_vector_stats_lookup (vector_storage : option vdb)
    (stats : gmap string value) :
  let m := with_vector_stats vector_storage stats in
  m !! "total_frames"
  = match answered vector_get_stats vector_storage with
    | Some d => Some (get_default d "total_frames" (VInt 0))
    | None => stats !! "total_frames"
    end
  ∧ m !! "ocr_frames"
    = match answered vector_get_stats vector_storage with
      | Some d => Some (get_default d "ocr_frames" (VInt 0))
      | None => stats !! "ocr_frames"
      end
  ∧ m !! "storage"
    = match answered vector_get_stats vector_storage with
      | Some _ => Some (VStr "Vector DB")
      | None => stats !! "storage"
      end
  ∧ m !! "storage_mode" = stats !! "storage_mode"
  ∧ m !! "disk_usage" = stats !! "disk_usage"
  ∧ m !! "vlm_model" = stats !! "vlm_model".
Proof.
  unfold with_vector_stats, answered.
  destruct vector_storage as [v|]; [|done].
  destruct (vector_get_stats v) as [vector_stats|e]; [|done].
  cbn zeta. repeat split;
    by (repeat (rewrite lookup_insert_ne by done);
        rewrite ?lookup_insert_eq).
Qed.

Lemma with_sqlite_stats_lookup (sqlite_storage : option sdb)
    (stats : gmap string value) (total : value) :
  stats !! "total_frames" = Some total →
  let m := with_sqlite_stats sqlite_storage stats in
  m !! "total_frames"
  = match answered sqlite_get_stats sqlite_storage with
    | Some d =>
        Some (if is_zero total then get_default d "total_frames" (VInt 0)
              else total)
    | None => Some total
    end
  ∧ m !! "ocr_frames"
    = match answered sqlite_get_stats sqlite_storage with
      | Some d => Some (get_default d "total_ocr_results" (VInt 0))
      | None => stats !! "ocr_frames"
      end
  ∧ m !! "storage" = stats !! "storage"
  ∧ m !! "storage_mode" = stats !! "storage_mode"
  ∧ m !! "disk_usage" = stats !! "disk_usage"
  ∧ m !! "vlm_model" = stats !! "vlm_model".
Proof.
  intros Htotal. unfold with_sqlite_stats, answered.
  destruct sqlite_storage as [s|]; [|done].
  destruct (sqlite_get_stats s) as [sqlite_stats|e]; [|done].
  cbn zeta.
  assert (get_default
            (<["ocr_frames" :=
                 get_default sqlite_stats "total_ocr_results" (VInt 0)]> stats)
            "total_frames" (VInt 0) = total) as ->.
  { unfold get_default at 1. rewrite lookup_insert_ne by done.
    by rewrite Htotal. }
  destruct (is_zero total); repeat split;
    by (repeat (rewrite lookup_insert_ne by done);
        rewrite ?lookup_insert_eq).
Qed.

(** Where the figures come from: the OCR count is SQLite's
    [total_ocr_results] whenever SQLite answers, and the vector index's
    otherwise; the frame total is the vector index's unless that is zero
    (or missing) and SQLite answers; the storage label says "Vector DB"
    exactly when the vector index answered; the storage mode is always
    reported as "vector"; the disk usage is the formatted size of the
    storage root; and the model name shown has at most 23 characters. *)
Theorem stats_figures_by_source (vector_storage : option vdb)
    (sqlite_storage : option sdb) :
  let stats := get_stats vector_storage sqlite_storage in
  let vector_stats := answered vector_get_stats vector_storage in
  let sqlite_stats := answered sqlite_get_stats sqlite_storage in
  let vector_total :=
    match vector_stats with
    | Some d => get_default d "total_frames" (VInt 0)
    | None => VInt 0
    end in
  stats !! "ocr_frames"
  = Some (match sqlite_stats, vector_stats with
          | Some d, _ => get_default d "total_ocr_results" (VInt 0)
          | None, Some d => get_default d "ocr_frames" (VInt 0)
          | None, None => VInt 0
          end)
  ∧ stats !! "total_frames"
    = Some (match sqlite_stats with
            | Some d =>
                if is_zero vector_total
                then get_default d "total_frames" (VInt 0)
                else vector_total
            | None => vector_total
            end)
  ∧ stats !! "storage"
    = Some (VStr (match vector_stats with
                  | Some _ => "Vector DB"
                  | None => "Local SQLite"
                  end))
  ∧ stats !! "storage_mode" = Some (VStr "vector")
  ∧ stats !! "disk_usage"
    = Some (VStr (match _get_directory_size STORAGE_ROOT with
                  | Returned storage_size => _format_size storage_size
                  | Raised _ => "—"
                  end))
  ∧ stats !! "vlm_model" = Some (VStr shown_model)
  ∧ (String.length shown_model ≤ 23)%nat.
Proof.
  cbn zeta. unfold get_stats.
  destruct base_stats_lookup as (Hb1 & Hb2 & Hb3 & Hb4 & Hb5).
  destruct (with_vector_stats_lookup vector_storage
              (with_disk_usage base_stats))
    as (Hv1 & Hv2 & Hv3 & Hv4 & Hv5 & Hv6).
  rewrite !with_disk_usage_lookup in Hv1, Hv2, Hv3, Hv4, Hv5, Hv6.
  rewrite bool_decide_eq_false_2 in Hv1, Hv2, Hv3, Hv4, Hv6 by done.
  rewrite bool_decide_eq_true_2 in Hv5 by done.
  rewrite Hb1 in Hv1. rewrite Hb2 in Hv2. rewrite Hb4 in Hv3.
  rewrite Hb3 in Hv4. rewrite Hb5 in Hv6.
  set (total := match answered vector_get_stats vector_storage with
                | Some d => get_default d "total_frames" (VInt 0)
                | None => VInt 0
                end).
  assert (Htotal : with_vector_stats vector_storage
                     (with_disk_usage base_stats) !! "total_frames"
                   = Some total).
  { rewrite Hv1. subst total. by destruct (answered _ _). }
  destruct (with_sqlite_stats_lookup sqlite_storage _ total Htotal)
    as (Hs1 & Hs2 & Hs3 & Hs4 & Hs5 & Hs6).
  rewrite Hs1, Hs2, Hs3, Hs4, Hs5, Hs6, Hv2, Hv3, Hv4, Hv5, Hv6.
  split; [by destruct (answered sqlite_get_stats _), (answered vector_get_stats _)|].
  split; [by destruct (answered sqlite_get_stats _)|].
  split; [by destruct (answered vector_get_stats _)|].
  do 3 (split; [done|]).
  unfold shown_model. destruct (Nat.ltb_spec 20 (String.length VLM_API_MODEL)).
  - rewrite Stamps.length_append.
    pose proof (length_substring_le 20 VLM_API_MODEL). simpl. lia.
  - lia.
Qed.

End GetStats.

End Stats.

(** ** Naive and aware datetimes ([_ensure_utc]) and the comparisons of
    the time-window fusion *)

Module Tz.

Import TimeFusion.

(** A datetime as far as comparisons go: the reading of its own clock,
    in microseconds, and the offset of its [tzinfo] from UTC ([None] for
    a naive datetime). *)
Record moment := Moment {
  wall : Z;
  utcoffset : option Z
}.

(** [_ensure_utc]; [dt.replace(tzinfo=timezone.utc)] keeps the reading
    of the clock. *)
Definition _ensure_utc (dt : option moment) : option moment :=
  match dt with
  | None => None
  | Some m =>
      match utcoffset m with
      | None => Some (Moment (wall m) (Some 0))
      | Some _ => Some m
      end
  end.

(** The place of an aware datetime on the UTC time line. *)
Definition instant_of (m : moment) : instant :=
  wall m - default 0 (utcoffset m).

(** Ordering two datetimes: Python raises [TypeError] ([None] here) when
    one is naive and the other aware. *)
Definition compare (a b : moment) : option comparison :=
  match utcoffset a, utcoffset b with
  | None, None => Some (wall a ?= wall b)
  | Some oa, Some ob => Some (wall a - oa ?= wall b - ob)
  | _, _ => None
  end.

(** [max(a, b)] and [min(a, b)]: the first argument wins a tie. *)
Definition max (a b : moment) : option moment :=
  c ← compare b a; Some (match c with Gt => b | _ => a end).

Definition min (a b : moment) : option moment :=
  c ← compare b a; Some (match c with Lt => b | _ => a end).

Definition window : Type := option moment * option moment.

(** The fusion block of [query_rag_with_time] on datetimes; the outer
    [None] is a [TypeError] raised by a comparison. *)
Definition fuse_start (explicit_start llm_start : option moment)
  : option (option moment) :=
  match explicit_start, llm_start with
  | Some e, Some l => Some <$> max e l
  | Some _, None => Some explicit_start
  | None, Some _ => Some llm_start
  | None, None => Some explicit_start
  end.

Definition fuse_end (explicit_end llm_end : option moment)
  : option (option moment) :=
  match explicit_end, llm_end with
  | Some e, Some l => Some <$> min e l
  | Some _, None => Some explicit_end
  | None, Some _ => Some llm_end
  | None, None => Some explicit_end
  end.

(** [start_time and end_time and start_time > end_time] *)
Definition inverted (w : window) : option bool :=
  match w with
  | (Some s, Some e) =>
      c ← compare s e; Some (match c with Gt => true | _ => false end)
  | _ => Some false
  end.

Definition resolve_time (explicit : window) (llm_time_range : option window)
  : option window :=
  let '(explicit_start, explicit_end) := explicit in
  match llm_time_range with
  | None => Some (explicit_start, explicit_end)
  | Some (llm_start, llm_end) =>
      start_time ← fuse_start explicit_start llm_start;
      end_time ← fuse_end explicit_end llm_end;
      match inverted (start_time, end_time) with
      | None => None
      | Some true =>
          if TimeFusion.is_set (instant_of <$> explicit_start)
             || TimeFusion.is_set (instant_of <$> explicit_end)
          then Some (explicit_start, explicit_end)
          else Some (llm_start, llm_end)
      | Some false => Some (start_time, end_time)
      end
  end.

(** The bounds as the handler prepares them: each one goes through
    [_ensure_utc]. *)
Definition ensured (w : window) : window :=
  (_ensure_utc w.1, _ensure_utc w.2).

Definition instants (w : window) : TimeFusion.window :=
  (instant_of <$> w.1, instant_of <$> w.2).

Definition aware (dt : option moment) : Prop :=
  match dt with
  | Some m => is_Some (utcoffset m)
  | None => True
  end.

Lemma ensure_utc_aware (dt : option moment) : aware (_ensure_utc dt).
Proof. destruct dt as [[w [o|]]|]; simpl; eauto. Qed.

Lemma compare_aware (a b : moment) :
  is_Some (utcoffset a) → is_Some (utcoffset b) →
  compare a b = Some (instant_of a ?= instant_of b).
Proof. intros [oa Ha] [ob Hb]. unfold compare, instant_of. by rewrite Ha, Hb. Qed.

(** After [_ensure_utc] the fusion never raises and is the fusion of the
    instants: whatever mix of naive and aware bounds the request and the
    model give, with every bound passed through [_ensure_utc] all the
    comparisons of the fusion are defined, and the window computed, read
    on the UTC time line, is the window [TimeFusion.resolve_time] gives
    for the bounds read on the UTC time line.  [_ensure_utc] leaves an
    aware datetime as it is, reads a naive one as UTC, and applying it
    twice changes nothing more.  Without it, a naive bound met by an
    aware one makes the comparison raise. *)
Theorem ensure_utc_makes_the_fusion_total (explicit : window)
    (llm_time_range : option window) :
  (∃ w, resolve_time (ensured explicit) (ensured <$> llm_time_range) = Some w
        ∧ instants w
          = TimeFusion.resolve_time (instants (ensured explicit))
              (instants <$> (ensured <$> llm_time_range)))
  ∧ (∀ dt, _ensure_utc (_ensure_utc dt) = _ensure_utc dt)
  ∧ (∀ m, is_Some (utcoffset m) → _ensure_utc (Some m) = Some m)
  ∧ (∀ w, instant_of <$> _ensure_utc (Some (Moment w None)) = Some w)
  ∧ (∀ w w' o,
       resolve_time (Some (Moment w None), None)
         (Some (Some (Moment w' (Some o)), None)) = None).
Proof.
  split; [|split; [|split; [|split]]].
  - destruct explicit as [es ee]. destruct llm_time_range as [[ls le]|];
      [|by eexists].
    unfold ensured. cbn [fst snd fmap option_fmap option_map].
    pose proof (ensure_utc_aware es) as Hes.
    pose proof (ensure_utc_aware ee) as Hee.
    pose proof (ensure_utc_aware ls) as Hls.
    pose proof (ensure_utc_aware le) as Hle.
    destruct (_ensure_utc es) as [es'|], (_ensure_utc ee) as [ee'|],
      (_ensure_utc ls) as [ls'|], (_ensure_utc le) as [le'|];
      cbn [aware] in *;
      unfold resolve_time, TimeFusion.resolve_time, fuse_start, fuse_end,
        TimeFusion.fuse_start, TimeFusion.fuse_end, inverted,
        TimeFusion.inverted, max, min, instants;
      cbn [fst snd fmap option_fmap option_map mbind option_bind
           TimeFusion.is_set orb];
      rewrite ?compare_aware by done;
      cbn [fst snd fmap option_fmap option_map mbind option_bind
           TimeFusion.is_set orb];
      repeat match goal with
      | |- context [?a ?= ?b] =>
          destruct (Z.compare_spec a b);
          cbn [fst snd fmap option_fmap option_map mbind option_bind
               TimeFusion.is_set orb];
          rewrite ?compare_aware by done
      end;
      repeat match goal with
      | |- context [?a <? ?b] => destruct (Z.ltb_spec a b)
      end;
      try lia;
      (eexists; split; [reflexivity|]);
      cbn [fst snd fmap option_fmap option_map]; f_equal; f_equal; lia.
  - by intros [[w [o|]]|].
  - intros [w o] [o' Ho]. simpl in Ho. by subst.
  - intros w. cbn. unfold instant_of. cbn. f_equal. lia.
  - done.
Qed.

End Tz.

(** ** The retrieval pipeline ([query_rag_with_time]) *)

Module Query.

Import Merge TimeFusion.

(** The JSON body of [/api/query_rag_with_time]. *)
Record QueryRagWithTimeRequest := MkQueryRagWithTimeRequest {
  query : string;
  start_time : option string;
  end_time : option string;
  search_type : string;
  ocr_mode : bool;
  enable_hybrid : option bool;
  enable_rerank : option bool
}.

(** [FrameResult] and [QueryRagWithTimeResponse] *)
Record FrameResult := MkFrameResult {
  result_frame_id : string;
  result_timestamp : string;
  result_image_base64 : option string;
  result_image_path : option string;
  result_ocr_text : string
}.

Record QueryRagWithTimeResponse := MkQueryRagWithTimeResponse {
  answer : string;
  frames : list FrameResult
}.

(** The calls the handler makes and the lines it logs. *)
Inductive event :=
| CallRewriteAndTime (query : string)
| LogRewriteFailed
| CallSearch (q : string) (w : window)
| CallSearchOcr (q : string) (w : window)
| CallSearchByText (q : string)
| CallOpenImage (path : string)
| LogLoadFailed (path : string)
| CallRerank (n : nat)
| CallVlm (n : nat).

(** The three fixed answers. *)
Definition NOTHING_FOUND : string := "在指定时间范围内未找到相关的屏幕记录。".
Definition NOTHING_LOADED : string := "检索到的图片无法加载。".
Definition NOTHING_RERANKED : string :=
  "Rerank 后没有图片，无法进行 VLM 分析。".

Section Handler.

(** Configuration. *)
Variable ENABLE_HYBRID : bool.
Variable ENABLE_RERANK : bool.
Variable ENABLE_LLM_REWRITE : bool.
Variable MAX_IMAGES_TO_LOAD : Z.
Variable RERANK_TOP_K : Z.

(** Collaborators.  [read_time] stands for
    [_ensure_utc(datetime.fromisoformat(s))] read on the UTC time line,
    [None] for its [ValueError]; [search q] and [search_ocr q] stand for
    [encoder.encode_text(q)] followed by the search with the embedding;
    the hits of the searches and the rows of the text search are dicts
    of the shape [Merge.hit]; [call_vlm] is [vlm._call_vlm] with the
    prompt built from the query; [thumbnail] is the JPEG of an image in
    base64, taken not to raise. *)
Variable read_time : string → option instant.
Variable rewrite_and_time
  : string → outcome (list string * list string * option window).
Variable search : string → Z → window → outcome (list hit).
Variable search_ocr : string → Z → window → outcome (list hit).
Variable search_by_text : string → Z → outcome (list hit).
Variable filter_by_time : list hit → window → list hit.
Variable open_image : string → outcome string.
Variable reranker
  : option (string → list (hit * string) → Z → outcome (list (hit * string))).
Variable call_vlm : string → list string → list (option instant) → outcome string.
Variable thumbnail : string → string.
Variable render_timestamp : option instant → string.

Definition emit (e : event) : M (list event) unit :=
  modify (λ tr, tr ++ [e]).

Definition lift {A} (o : outcome A) : M (list event) A := λ tr, (o, tr).

(** [x if x else None] for the two optional strings of the request. *)
Definition given (s : option string) : option string :=
  match s with
  | Some EmptyString => None
  | _ => s
  end.

(** [_ensure_utc(datetime.fromisoformat(s)) if s else None] *)
Definition explicit_bound (s : option string) : M (list event) (option instant) :=
  match given s with
  | None => ret None
  | Some text =>
      match read_time text with
      | Some t => ret (Some t)
      | None => raise ValueError
      end
  end.

(** Step 3: the rewrite call with its [try]; the result is the dense
    queries, the sparse queries and the model's window. *)
Definition rewritten (query : string)
  : M (list event) (list string * list string * option window) :=
  do! emit (CallRewriteAndTime query) in
  match rewrite_and_time query with
  | Returned (dense_llm, sparse_llm, llm_time_range) =>
      if ENABLE_LLM_REWRITE then ret (dense_llm, sparse_llm, llm_time_range)
      else ret ([query], [query], llm_time_range)
  | Raised _ => do! emit LogRewriteFailed in ret ([query], [query], None)
  end.

(** [_dense_search] *)
Fixpoint _dense_search (text_mode : bool) (top_k : Z) (w : window)
    (dense_queries : list string) : M (list event) (list hit) :=
  match dense_queries with
  | [] => ret []
  | q :: rest =>
      let! res :=
        if text_mode
        then do! emit (CallSearchOcr q w) in lift (search_ocr q top_k w)
        else do! emit (CallSearch q w) in lift (search q top_k w) in
      let! more := _dense_search text_mode top_k w rest in
      ret (res ++ more)
  end.

(** The dict built for a row of the text search. *)
Definition sparse_frame (r : hit) : hit :=
  Hit (frame_id r) (timestamp r) (image_path r) (ocr_text r) true.

(** [_sparse_search] *)
Fixpoint sparse_queries_search (top_k : Z) (w : window)
    (sparse_queries : list string) : M (list event) (list hit) :=
  match sparse_queries with
  | [] => ret []
  | q :: rest =>
      do! emit (CallSearchByText q) in
      let! res := lift (search_by_text q top_k) in
      let res :=
        if is_set w.1 || is_set w.2 then filter_by_time res w else res in
      let frames :=
        sparse_frame <$> filter (λ r, truthy (frame_id r) = true) res in
      let! more := sparse_queries_search top_k w rest in
      ret (frames ++ more)
  end.

Definition _sparse_search (hybrid : bool) (top_k : Z) (w : window)
    (sparse_queries : list string) : M (list event) (list hit) :=
  if negb hybrid then ret []
  else sparse_queries_search top_k w sparse_queries.

(** The loop that loads the images. *)
Fixpoint load_images (frames : list hit) : M (list event) (list (hit * string)) :=
  match frames with
  | [] => ret []
  | f :: rest =>
      match image_path f with
      | Some path =>
          if bool_decide (path = EmptyString) then load_images rest
          else
            do! emit (CallOpenImage path) in
            match open_image path with
            | Returned img =>
                let! more := load_images rest in
                ret ((f, img) :: more)
            | Raised _ =>
                do! emit (LogLoadFailed path) in
                load_images rest
            end
      | None => load_images rest
      end
  end.

(** A frame of the response. *)
Definition frame_result (f : hit * string) : FrameResult :=
  MkFrameResult (default EmptyString (frame_id f.1))
    (render_timestamp (timestamp f.1)) (Some (thumbnail f.2))
    (image_path f.1) (ocr_text f.1).

(** The VLM call and the response built from its answer. *)
Definition analyse (query : string) (frames_for_vlm : list (hit * string))
  : M (list event) QueryRagWithTimeResponse :=
  do! emit (CallVlm (length frames_for_vlm)) in
  let! answer :=
    lift (call_vlm query (snd <$> frames_for_vlm)
            ((λ f, timestamp f.1) <$> frames_for_vlm)) in
  ret (MkQueryRagWithTimeResponse answer (frame_result <$> frames_for_vlm)).

(** From the merged frames to the response. *)
Definition answer_from (rerank : bool) (query : string) (frames : list hit)
  : M (list event) QueryRagWithTimeResponse :=
  match frames with
  | [] => ret (MkQueryRagWithTimeResponse NOTHING_FOUND [])
  | _ :: _ =>
      let! loaded_frames := load_images frames in
      match loaded_frames with
      | [] => ret (MkQueryRagWithTimeResponse NOTHING_LOADED [])
      | _ :: _ =>
          if rerank then
            match reranker with
            | Some rerank_frames =>
                do! emit (CallRerank (length loaded_frames)) in
                let! frames_for_vlm :=
                  lift (rerank_frames query loaded_frames RERANK_TOP_K) in
                match frames_for_vlm with
                | [] => ret (MkQueryRagWithTimeResponse NOTHING_RERANKED [])
                | _ :: _ => analyse query frames_for_vlm
                end
            | None => raise RuntimeError
            end
          else analyse query loaded_frames
      end
  end.

(** Steps 1 to 4: the explicit bounds, the rewrite and the window. *)
Definition prepare (req : QueryRagWithTimeRequest)
  : M (list event) (list string * list string * window) :=
  let! explicit_start := explicit_bound (start_time req) in
  let! explicit_end := explicit_bound (end_time req) in
  let! r := rewritten (query req) in
  ret (r.1.1, r.1.2, resolve_time (explicit_start, explicit_end) r.2).

(** [query_rag_with_time]; [ready] tells whether the four components
    the handler asserts are set. *)
Definition query_rag_with_time (ready : bool) (req : QueryRagWithTimeRequest)
  : M (list event) QueryRagWithTimeResponse :=
  if negb ready then raise AssertionError
  else
    let hybrid := default ENABLE_HYBRID (enable_hybrid req) in
    let rerank := default ENABLE_RERANK (enable_rerank req) in
    if rerank && negb (bool_decide (is_Some reranker))
    then raise (HTTPException 500)
    else
      let! p := prepare req in
      let top_k := MAX_IMAGES_TO_LOAD in
      let! dense_results :=
        _dense_search (bool_decide (search_type req = "text")) top_k p.2
          p.1.1 in
      let! sparse_results := _sparse_search hybrid top_k p.2 p.1.2 in
      answer_from rerank (query req) (merge dense_results sparse_results).

(** What a hit becomes in the loading loop: the hit with its image, when
    its path is set and the file opens. *)
Definition loadable (f : hit) : option (hit * string) :=
  match image_path f with
  | Some path =>
      if bool_decide (path = EmptyString) then None
      else match open_image path with
           | Returned img => Some (f, img)
           | Raised _ => None
           end
  | None => None
  end.

(** Events by kind. *)
Definition before_vlm (e : event) : Prop :=
  match e with
  | CallVlm _ | CallRerank _ => False
  | _ => True
  end.

Definition no_text_search (e : event) : Prop :=
  match e with
  | CallSearchByText _ => False
  | _ => True
  end.

Definition no_rerank (e : event) : Prop :=
  match e with
  | CallRerank _ => False
  | _ => True
  end.

(** A computation that only appends events of a given kind. *)
Definition emits {A} (P : event → Prop) (m : M (list event) A) : Prop :=
  ∀ tr, ∃ evs, (m tr).2 = tr ++ evs ∧ Forall P evs.

Lemma emits_ret {A} (P : event → Prop) (a : A) : emits P (ret a).
Proof. intros tr. exists []. by rewrite app_nil_r. Qed.

Lemma emits_raise {A} (P : event → Prop) (e : exn) : emits P (raise (A := A) e).
Proof. intros tr. exists []. by rewrite app_nil_r. Qed.

Lemma emits_lift {A} (P : event → Prop) (o : outcome A) : emits P (lift o).
Proof. intros tr. exists []. by rewrite app_nil_r. Qed.

Lemma emits_emit (P : event → Prop) (e : event) : P e → emits P (emit e).
Proof. intros He tr. exists [e]. split; [done|]. by constructor. Qed.

Lemma emits_bind {A B} (P : event → Prop) (m : M (list event) A)
    (k : A → M (list event) B) :
  emits P m → (∀ a, emits P (k a)) → emits P (bind m k).
Proof.
  intros Hm Hk tr. destruct (Hm tr) as (evs & H1 & F1). unfold bind.
  destruct (m tr) as [[a|e] tr1]; simpl in H1; subst tr1.
  - destruct (Hk a (tr ++ evs)) as (evs2 & H2 & F2).
    exists (evs ++ evs2). rewrite H2, app_assoc. split; [done|].
    by apply Forall_app.
  - by exists evs.
Qed.

Lemma explicit_bound_emits (P : event → Prop) (s : option string) :
  emits P (explicit_bound s).
Proof.
  unfold explicit_bound. destruct (given s) as [text|]; [|apply emits_ret].
  destruct (read_time text); [apply emits_ret | apply emits_raise].
Qed.

Lemma dense_search_emits (P : event → Prop) (text_mode : bool) (top_k : Z)
    (w : window) (dense_queries : list string) :
  (∀ q, P (CallSearch q w)) → (∀ q, P (CallSearchOcr q w)) →
  emits P (_dense_search text_mode top_k w dense_queries).
Proof.
  intros Hs Ho. induction dense_queries as [|q rest IH]; simpl.
  - apply emits_ret.
  - apply emits_bind.
    + destruct text_mode; (apply emits_bind; [by apply emits_emit|]);
        intros _; apply emits_lift.
    + intros res. apply emits_bind; [done|]. intros more. apply emits_ret.
Qed.

Lemma sparse_search_emits (P : event → Prop) (hybrid : bool) (top_k : Z)
    (w : window) (sparse_queries : list string) :
  (hybrid = true → ∀ q, P (CallSearchByText q)) →
  emits P (_sparse_search hybrid top_k w sparse_queries).
Proof.
  unfold _sparse_search. destruct hybrid; simpl; [|intros _; apply emits_ret].
  intros Hs. specialize (Hs eq_refl).
  induction sparse_queries as [|q rest IH]; simpl.
  - apply emits_ret.
  - apply emits_bind; [by apply emits_emit|]. intros _.
    apply emits_bind; [apply emits_lift|]. intros res.
    apply emits_bind; [done|]. intros more. apply emits_ret.
Qed.

(** The loading loop never raises: it returns the hits that load, in
    order, and only opens files and logs. *)
Lemma load_images_loadable (P : event → Prop) (frames : list hit)
    (tr : list event) :
  (∀ path, P (CallOpenImage path)) → (∀ path, P (LogLoadFailed path)) →
  ∃ evs, load_images frames tr = (Returned (omap loadable frames), tr ++ evs)
         ∧ Forall P evs.
Proof.
  intros Ho Hl. revert tr. induction frames as [|f rest IH]; intros tr.
  - exists []. by rewrite app_nil_r.
  - cbn [load_images omap list_omap]. unfold loadable at 1.
    destruct (image_path f) as [path|]; [|apply IH].
    destruct (bool_decide (path = EmptyString)); [apply IH|].
    unfold bind at 1, emit, modify.
    destruct (open_image path) as [img|e].
    + unfold bind. destruct (IH (tr ++ [CallOpenImage path])) as (evs & -> & F).
      exists (CallOpenImage path :: evs). split.
      * f_equal. by rewrite <- app_assoc.
      * by constructor.
    + unfold bind at 1.
      destruct (IH ((tr ++ [CallOpenImage path]) ++ [LogLoadFailed path]))
        as (evs & -> & F).
      exists (CallOpenImage path :: LogLoadFailed path :: evs). split.
      * f_equal. by rewrite <- !app_assoc.
      * by repeat constructor.
Qed.

Lemma rewritten_first (P : event → Prop) (query : string) (tr : list event) :
  P LogRewriteFailed →
  ∃ evs, (rewritten query tr).2 = tr ++ CallRewriteAndTime query :: evs
         ∧ Forall P evs.
Proof.
  intros Hl. unfold rewritten, bind, emit, modify.
  destruct (rewrite_and_time query) as [[[d s'] t]|e].
  - exists []. by destruct ENABLE_LLM_REWRITE.
  - exists [LogRewriteFailed]. split; [|by repeat constructor].
    simpl. by rewrite <- app_assoc.
Qed.

Lemma analyse_emits (P : event → Prop) (query : string)
    (frames_for_vlm : list (hit * string)) :
  (∀ n, P (CallVlm n)) → emits P (analyse query frames_for_vlm).
Proof.
  intros Hv. unfold analyse. apply emits_bind; [by apply emits_emit|].
  intros _. apply emits_bind; [apply emits_lift|]. intros a. apply emits_ret.
Qed.

Lemma answer_from_emits (P : event → Prop) (rerank : bool) (query : string)
    (frames : list hit) :
  (∀ path, P (CallOpenImage path)) → (∀ path, P (LogLoadFailed path)) →
  (∀ n, P (CallVlm n)) → (rerank = true → ∀ n, P (CallRerank n)) →
  emits P (answer_from rerank query frames).
Proof.
  intros Ho Hl Hv Hr. unfold answer_from.
  destruct frames as [|f rest]; [apply emits_ret|].
  apply emits_bind.
  - intros tr. destruct (load_images_loadable P (f :: rest) tr Ho Hl)
      as (evs & -> & F). by exists evs.
  - intros [|l loaded]; [apply emits_ret|].
    destruct rerank; [|by apply analyse_emits].
    destruct reranker as [rerank_frames|]; [|apply emits_raise].
    apply emits_bind; [by apply emits_emit, Hr|]. intros _.
    apply emits_bind; [apply emits_lift|].
    intros [|x xs]; [apply emits_ret | by apply analyse_emits].
Qed.

(** Without rerank, from the merged frames on. *)
Lemma answer_from_loaded (query : string) (frames : list hit)
    (tr tr' : list event) (resp : QueryRagWithTimeResponse) :
  answer_from false query frames tr = (Returned resp, tr') →
  ∃ evs,
    Query.frames resp = frame_result <$> omap loadable frames
    ∧ Forall before_vlm evs
    ∧ match Query.frames resp with
      | [] => tr' = tr ++ evs
              ∧ (answer resp = NOTHING_FOUND ∨ answer resp = NOTHING_LOADED)
      | _ :: _ => tr' = tr ++ evs ++ [CallVlm (length (Query.frames resp))]
      end.
Proof.
  unfold answer_from. destruct frames as [|f rest].
  - intros [= <- <-]. exists []. rewrite app_nil_r. simpl. eauto.
  - unfold bind at 1.
    destruct (load_images_loadable before_vlm (f :: rest) tr) as (evs & -> & F);
      [done..|].
    destruct (omap loadable (f :: rest)) as [|l loaded] eqn:Hl.
    + intros [= <- <-]. exists evs. simpl. eauto.
    + unfold analyse, bind, emit, modify, lift.
      destruct (call_vlm _ _ _) as [a|e]; [|done].
      intros [= <- <-]. exists evs. cbn [Query.frames answer].
      split; [done|]. split; [done|].
      cbn [fmap list_fmap length]. by rewrite length_fmap, <- app_assoc.
Qed.

(** The loaded hits of a merge: distinct, non-empty identifiers and an
    image that opened. *)
Lemma loaded_merge_ids (dense_results sparse_results : list hit) :
  NoDup (result_frame_id
           <$> (frame_result <$> omap loadable (merge dense_results sparse_results))).
Proof.
  rewrite merge_kept.
  pose proof (kept_ids_NoDup (dense_results ++ sparse_results) ∅) as Hnd.
  assert (Hall : ∀ r, r ∈ kept ∅ (dense_results ++ sparse_results) →
                      is_Some (frame_id r)).
  { intros r (fid & -> & _)%kept_fresh. eauto. }
  induction (kept ∅ (dense_results ++ sparse_results)) as [|r k IH];
    [constructor|].
  destruct (Hall r) as [fid Hfid]; [by left|].
  rewrite (ids_cons_Some _ _ _ Hfid) in Hnd.
  apply NoDup_cons in Hnd as [Hnot Hnd].
  specialize (IH Hnd ltac:(intros x Hx; apply Hall; by right)).
  cbn [omap list_omap]. destruct (loadable r) as [[f img]|] eqn:Hload; [|done].
  assert (f = r) as ->.
  { unfold loadable in Hload. repeat case_match; simplify_eq. done. }
  cbn [fmap list_fmap]. apply NoDup_cons. split; [|done].
  unfold frame_result at 1. cbn [result_frame_id fst]. rewrite Hfid.
  cbn [default]. intros Hin. apply Hnot.
  apply list_elem_of_fmap in Hin as (fr & Hfr & Hin).
  apply list_elem_of_fmap in Hin as ([x ximg] & -> & Hin).
  apply list_elem_of_omap in Hin as (y & Hy & Hly).
  assert (x = y) as ->.
  { unfold loadable in Hly. repeat case_match; simplify_eq. done. }
  apply ids_elem. exists y. split; [done|].
  destruct (Hall y) as [g Hg]; [by right|].
  unfold frame_result in Hfr. cbn [result_frame_id fst] in Hfr.
  rewrite Hg in Hfr. simpl in Hfr. congruence.
Qed.

Lemma loaded_merge_frames (dense_results sparse_results : list hit) :
  Forall (λ f, result_frame_id f ≠ EmptyString
               ∧ ∃ path img, result_image_path f = Some path
                             ∧ path ≠ EmptyString
                             ∧ open_image path = Returned img
                             ∧ result_image_base64 f = Some (thumbnail img))
    (frame_result <$> omap loadable (merge dense_results sparse_results)).
Proof.
  apply Forall_forall. intros fr Hin.
  apply list_elem_of_fmap in Hin as ([x img] & -> & Hin).
  apply list_elem_of_omap in Hin as (y & Hy & Hly).
  rewrite merge_kept in Hy. apply kept_fresh in Hy as (fid & Hfid & Hne & _).
  unfold loadable in Hly.
  destruct (image_path y) as [path|] eqn:Hpath; [|done].
  destruct (bool_decide (path = EmptyString)) eqn:Hp; [done|].
  apply bool_decide_eq_false in Hp.
  destruct (open_image path) as [i|] eqn:Hopen; [|done].
  injection Hly as <- <-.
  unfold frame_result. cbn [result_frame_id result_image_path
    result_image_base64 fst snd]. rewrite Hfid. split; [done|].
  exists path, i. by rewrite Hpath.
Qed.


(** A bound of the request that [datetime.fromisoformat] rejects, and a
    rerank asked for (by the request, or by the configuration when the
    request is silent) while no reranker was loaded. *)
Definition unreadable (s : option string) : Prop :=
  ∃ text, given s = Some text ∧ read_time text = None.

Definition rerank_unavailable (req : QueryRagWithTimeRequest) : Prop :=
  default ENABLE_RERANK (enable_rerank req) = true ∧ reranker = None.

Lemma rerank_guard (req : QueryRagWithTimeRequest) :
  ¬ rerank_unavailable req →
  default ENABLE_RERANK (enable_rerank req)
  && negb (bool_decide (is_Some reranker)) = false.
Proof.
  unfold rerank_unavailable. intros Hno.
  destruct (default ENABLE_RERANK (enable_rerank req)); [|done].
  destruct reranker; [|by destruct Hno].
  cbn [andb]. rewrite bool_decide_eq_true_2; eauto.
Qed.

Lemma explicit_bound_run (s : option string) (tr : list event) :
  (unreadable s ∧ explicit_bound s tr = (Raised ValueError, tr))
  ∨ (¬ unreadable s ∧ ∃ t, explicit_bound s tr = (Returned t, tr)).
Proof.
  unfold unreadable, explicit_bound.
  destruct (given s) as [text|] eqn:Hs.
  - destruct (read_time text) as [t|] eqn:Ht.
    + right. split; [|by eexists]. intros (text' & [= <-] & ?). congruence.
    + left. split; [by exists text | done].
  - right. split; [|by eexists]. by intros (text' & ? & _).
Qed.

(** The handler refuses before it calls anything: with a component
    missing its [assert] fails; a rerank that is asked for without a
    reranker is answered 500, whatever else the request holds; an
    unreadable [start_time] or [end_time] raises [ValueError], which the
    handler does not catch.  A request that passes these checks always
    consults the rewrite model first, whether query rewriting is enabled
    or not; with hybrid search off it then makes no text search, and
    with rerank off no rerank call. *)
Theorem query_refusals_and_calls (req : QueryRagWithTimeRequest)
    (tr : list event) :
  query_rag_with_time false req tr = (Raised AssertionError, tr)
  ∧ (rerank_unavailable req →
     query_rag_with_time true req tr = (Raised (HTTPException 500), tr))
  ∧ (¬ rerank_unavailable req →
     unreadable (start_time req) ∨ unreadable (end_time req) →
     query_rag_with_time true req tr = (Raised ValueError, tr))
  ∧ (¬ rerank_unavailable req →
     ¬ unreadable (start_time req) → ¬ unreadable (end_time req) →
     ∃ evs, (query_rag_with_time true req tr).2
            = tr ++ CallRewriteAndTime (query req) :: evs
            ∧ (default ENABLE_HYBRID (enable_hybrid req) = false →
               Forall no_text_search evs)
            ∧ (default ENABLE_RERANK (enable_rerank req) = false →
               Forall no_rerank evs)).
Proof.
  split; [done|]. split; [|split].
  - intros [Hr Hn]. unfold query_rag_with_time. by rewrite Hr, Hn.
  - intros Hguard%rerank_guard Hbad. unfold query_rag_with_time.
    rewrite Hguard. cbn [negb]. unfold bind at 1, prepare. unfold bind at 1.
    destruct (explicit_bound_run (start_time req) tr) as [[_ ->]|[Hs [t ->]]];
      [done|].
    unfold bind at 1.
    destruct (explicit_bound_run (end_time req) tr) as [[_ ->]|[He [t' ->]]];
      [done|].
    by destruct Hbad.
  - intros Hguard%rerank_guard Hstart Hend. unfold query_rag_with_time.
    rewrite Hguard. cbn [negb].
    set (hybrid := default ENABLE_HYBRID (enable_hybrid req)).
    set (rerank := default ENABLE_RERANK (enable_rerank req)).
    set (P := λ e, (hybrid = false → no_text_search e)
                   ∧ (rerank = false → no_rerank e)).
    assert (Hsplit : ∀ evs, Forall P evs →
              (hybrid = false → Forall no_text_search evs)
              ∧ (rerank = false → Forall no_rerank evs)).
    { intros evs F. split; intros H; eapply Forall_impl; [exact F| |exact F|];
        intros e [H1 H2]; auto. }
    match goal with
    | |- context [bind (prepare req) ?k] => set (rest := k)
    end.
    assert (Hrest : ∀ p, emits P (rest p)).
    { intros p. unfold rest. apply emits_bind.
      { by apply dense_search_emits. }
      intros dense_results. apply emits_bind.
      { apply sparse_search_emits. intros Hh q. split; [|done].
        fold hybrid. by rewrite Hh. }
      intros sparse_results. apply answer_from_emits; try done.
      intros Hr n. split; [done|]. by rewrite Hr. }
    unfold bind at 1, prepare. unfold bind at 1.
    destruct (explicit_bound_run (start_time req) tr) as [[? _]|[_ [t ->]]];
      [done|].
    unfold bind at 1.
    destruct (explicit_bound_run (end_time req) tr) as [[? _]|[_ [t' ->]]];
      [done|].
    unfold bind at 1.
    destruct (rewritten_first P (query req) tr) as (evs0 & H0 & F0); [done|].
    assert (Hret : ∃ r, (rewritten (query req) tr).1 = Returned r).
    { unfold rewritten, bind, emit, modify.
      destruct (rewrite_and_time (query req)) as [[[d s'] w]|e];
        [destruct ENABLE_LLM_REWRITE|]; by eexists. }
    destruct Hret as [r Hret].
    destruct (rewritten (query req) tr) as [o tr0]. simpl in H0, Hret.
    subst o tr0. unfold ret at 1.
    destruct (Hrest (r.1.1, r.1.2, resolve_time (t, t') r.2)
                (tr ++ CallRewriteAndTime (query req) :: evs0))
      as (evs & -> & F).
    exists (evs0 ++ evs). split; [by rewrite <- app_assoc|].
    apply Hsplit. by apply Forall_app.
Qed.

End Handler.

(** A server without reranker that loads at most two images per search:
    two dense queries from the rewrite model, one image that does not
    open, one hit without a path. *)
Definition shot (fid path : string) : hit :=
  Hit (Some fid) (Some 0) (Some path) EmptyString false.

Definition demo_rewrite (q : string)
  : outcome (list string * list string * option window) :=
  Returned (["editor"; "terminal"], ["editor"], None).

Definition demo_search (q : string) (top_k : Z) (w : window)
  : outcome (list hit) :=
  if String.eqb q "editor"
  then Returned [shot "A" "/img/a.jpg"; shot "B" "/img/b.jpg"]
  else Returned [shot "C" EmptyString; shot "A" "/img/a.jpg"].

Definition demo_search_by_text (q : string) (top_k : Z) : outcome (list hit) :=
  Returned [shot "D" "/img/d.jpg"; shot "E" "/img/e.jpg"].

Definition demo_open (path : string) : outcome string :=
  if String.eqb path "/img/b.jpg" then Raised IOError
  else Returned ("image of " +:+ path).

Definition demo_vlm (query : string) (images : list string)
    (timestamps : list (option instant)) : outcome string :=
  Returned "answer".

Definition demo_query (req : QueryRagWithTimeRequest)
  : outcome QueryRagWithTimeResponse * list event :=
  query_rag_with_time true false true 2 1 (λ _, None) demo_rewrite demo_search
    demo_search (λ q top_k, demo_search_by_text q top_k) (λ res _, res)
    demo_open None demo_vlm (λ img, img) (λ _, "2025-12-01T00:00:00+00:00")
    true req [].

Definition demo_request : QueryRagWithTimeRequest :=
  MkQueryRagWithTimeRequest "what was I editing" None None "image" false None
    None.

Definition demo_frame (fid path : string) : FrameResult :=
  MkFrameResult fid "2025-12-01T00:00:00+00:00" (Some ("image of " +:+ path))
    (Some path) EmptyString.

Definition demo_response : QueryRagWithTimeResponse :=
  MkQueryRagWithTimeResponse "answer"
    [demo_frame "A" "/img/a.jpg"; demo_frame "D" "/img/d.jpg";
     demo_frame "E" "/img/e.jpg"].

Definition demo_trace : list event :=
  [CallRewriteAndTime "what was I editing";
   CallSearch "editor" (None, None); CallSearch "terminal" (None, None);
   CallSearchByText "editor"; CallOpenImage "/img/a.jpg";
   CallOpenImage "/img/b.jpg"; LogLoadFailed "/img/b.jpg";
   CallOpenImage "/img/d.jpg"; CallOpenImage "/img/e.jpg"; CallVlm 3].

Example demo_query_run :
  demo_query demo_request = (Returned demo_response, demo_trace).
Proof. by vm_compute. Qed.


End Query.

(** ** The VLM server ([vlm_backend_transformer/main.py]) *)

Module Vlm.

(** A JSON value as [request.get_json()] returns it; an object keeps its
    members in order, each key once. *)
Local Unset Elimination Schemes.

Inductive json :=
| JNull
| JBool (b : bool)
| JNum (q : Q)
| JStr (s : string)
| JArr (items : list json)
| JObj (members : list (string * json)).

Local Set Elimination Schemes.

(** Truthiness of the Python value. *)
Definition truthy (v : json) : bool :=
  match v with
  | JNull => false
  | JBool b => b
  | JNum q => negb (Qeq_bool q (0 # 1))
  | JStr s => negb (bool_decide (s = EmptyString))
  | JArr items => negb (bool_decide (items = []))
  | JObj members => negb (bool_decide (members = []))
  end.

(** [len(v)]; [None] is the [TypeError] of a value without length. *)
Definition len (v : json) : option nat :=
  match v with
  | JStr s => Some (String.length s)
  | JArr items => Some (length items)
  | JObj members => Some (length members)
  | _ => None
  end.

Fixpoint characters (s : string) : list json :=
  match s with
  | EmptyString => []
  | String c rest => JStr (String c EmptyString) :: characters rest
  end.

(** What [enumerate(v)] runs over, for a value that has a length. *)
Definition elements (v : json) : list json :=
  match v with
  | JStr s => characters s
  | JArr items => items
  | JObj members => JStr <$> members.*1
  | _ => []
  end.

(** [d.get(key, default)] *)
Fixpoint dict_get (key : string) (default : json)
    (members : list (string * json)) : json :=
  match members with
  | [] => default
  | (k, v) :: rest =>
      if bool_decide (k = key) then v else dict_get key default rest
  end.

(** [s.split(',')] *)
Fixpoint split_comma (s : string) : list string :=
  match s with
  | EmptyString => [EmptyString]
  | String c rest =>
      if bool_decide (c = ","%char) then EmptyString :: split_comma rest
      else match split_comma rest with
           | head :: tail => String c head :: tail
           | [] => [String c EmptyString]
           end
  end.

(** What the [try] of the handler may catch: the [AttributeError] of
    [data.get] on a value that is no dict, the [TypeError] of [len], and
    whatever the libraries raise. *)
Inductive error :=
| AttributeErrorGet
| TypeErrorLen
| LibraryError (message : string).

(** The body of a reply and the reply with its status. *)
Inductive body :=
| ErrorMessage (message : string)
| ErrorStr (e : error)
| Response (response : string).

Record reply := Reply {
  reply_body : body;
  status_code : Z
}.

(** What [request.get_json()] does. *)
Inductive get_json :=
| Parsed (data : json)
| GetJsonRaises (message : string).

Section Server.

(** [Image.open(io.BytesIO(base64.b64decode(s)))] followed by the
    conversion to RGB, [None] when any of them raises; and the run of the
    model on the decoded images and the text, from the chat template to
    the decoded output. *)
Variable image : Type.
Variable open_base64 : string → option image.
Variable run_model : list image → json → string + string.

(** [process_image_from_base64]; [None] is its [return None]. *)
Definition process_image_from_base64 (base64_string : json) : option image :=
  match base64_string with
  | JStr base64_string =>
      if String.prefix "data:image/" base64_string then
        match split_comma base64_string with
        | _ :: second :: _ => open_base64 second
        | _ => None
        end
      else open_base64 base64_string
  | _ => None
  end.

(** The decoding loop: the index of the first image that fails, or the
    images. *)
Fixpoint decode_images (idx : nat) (images_base64 : list json)
  : nat + list image :=
  match images_base64 with
  | [] => inr []
  | img_base64 :: rest =>
      match process_image_from_base64 img_base64 with
      | None => inl idx
      | Some image =>
          match decode_images (S idx) rest with
          | inl failed => inl failed
          | inr images => inr (image :: images)
          end
      end
  end.

(** A call of the model. *)
Record model_call := ModelCall {
  call_images : list image;
  call_text : json
}.

(** [generate_response]: the reply and the calls of the model it made;
    [loaded] tells whether [model] and [processor] are set. *)
Definition generate_response (loaded : bool) (request : get_json)
  : reply * list model_call :=
  if negb loaded then (Reply (ErrorMessage "Model not loaded") 500, [])
  else
    match request with
    | GetJsonRaises message => (Reply (ErrorStr (LibraryError message)) 500, [])
    | Parsed data =>
        if negb (truthy data)
        then (Reply (ErrorMessage "No JSON data provided") 400, [])
        else
          match data with
          | JObj members =>
              let image_base64 := dict_get "image" JNull members in
              let images_base64 := dict_get "images" (JArr []) members in
              let text := dict_get "text" (JStr EmptyString) members in
              match len images_base64 with
              | None => (Reply (ErrorStr TypeErrorLen) 500, [])
              | Some _ =>
                  let images_base64 :=
                    if truthy image_base64 && negb (truthy images_base64)
                    then JArr [image_base64] else images_base64 in
                  if negb (truthy images_base64)
                  then (Reply (ErrorMessage "No images provided") 400, [])
                  else
                    match decode_images 0 (elements images_base64) with
                    | inl idx =>
                        (Reply (ErrorMessage
                                  ("Invalid image format at index "
                                   +:+ pretty idx)) 400, [])
                    | inr images =>
                        match run_model images text with
                        | inl response =>
                            (Reply (Response response) 200,
                             [ModelCall images text])
                        | inr message =>
                            (Reply (ErrorStr (LibraryError message)) 500,
                             [ModelCall images text])
                        end
                    end
              end
          | _ => (Reply (ErrorStr AttributeErrorGet) 500, [])
          end
    end.

(** The decoding loop against the list it runs over. *)
Lemma decode_images_failed (idx : nat) (images_base64 : list json) (i : nat)
    (v : json) :
  images_base64 !! i = Some v → process_image_from_base64 v = None →
  (∀ j w, (j < i)%nat → images_base64 !! j = Some w →
          is_Some (process_image_from_base64 w)) →
  decode_images idx images_base64 = inl (idx + i)%nat.
Proof.
  revert idx i. induction images_base64 as [|x rest IH]; intros idx i Hi Hv Hbefore.
  - done.
  - destruct i as [|i]; simpl in Hi.
    + injection Hi as ->. simpl. rewrite Hv. f_equal. lia.
    + simpl. destruct (Hbefore 0%nat x ltac:(lia) eq_refl) as [img ->].
      rewrite (IH (S idx) i Hi Hv).
      * f_equal. lia.
      * intros j w Hj Hw. apply (Hbefore (S j) w); [lia|done].
Qed.

Lemma decode_images_all (idx : nat) (images_base64 : list json)
    (images : list image) :
  Forall2 (λ v img, process_image_from_base64 v = Some img) images_base64
    images →
  decode_images idx images_base64 = inr images.
Proof.
  intros H. revert idx. induction H as [|v img vs imgs Hv _ IH]; intros idx.
  - done.
  - simpl. by rewrite Hv, IH.
Qed.

Lemma dict_get_nil_members (key : string) (default v : json)
    (members : list (string * json)) :
  dict_get key default members = v → v ≠ default → members ≠ [].
Proof. by intros <- Hne ->. Qed.

(** The handler decodes the images in order and stops at the first one
    that fails: for a request whose [images] is a non-empty list, the
    first image that [process_image_from_base64] rejects is reported by
    its index with status 400 and the model is not run; when every image
    decodes, the model is run once, on all of them in the order sent and
    with the [text] of the request, and the reply is its output with
    status 200, or status 500 when the run raises. *)
Theorem images_are_decoded_in_order_up_to_the_first_failure
    (members : list (string * json)) (items : list json) :
  dict_get "images" (JArr []) members = JArr items → items ≠ [] →
  (∀ i v, items !! i = Some v → process_image_from_base64 v = None →
     (∀ j w, (j < i)%nat → items !! j = Some w →
             is_Some (process_image_from_base64 w)) →
     generate_response true (Parsed (JObj members))
     = (Reply (ErrorMessage ("Invalid image format at index " +:+ pretty i))
          400, []))
  ∧ (∀ images,
       Forall2 (λ v img, process_image_from_base64 v = Some img) items
         images →
       let text := dict_get "text" (JStr EmptyString) members in
       generate_response true (Parsed (JObj members))
       = (match run_model images text with
          | inl response => Reply (Response response) 200
          | inr message => Reply (ErrorStr (LibraryError message)) 500
          end, [ModelCall images text])).
Proof.
  intros Himages Hne.
  assert (Hmembers : members ≠ []).
  { apply (dict_get_nil_members _ _ _ _ Himages). by intros [= ->]. }
  assert (Hhead : ∀ r,
    (match decode_images 0 items with
     | inl idx =>
         (Reply (ErrorMessage ("Invalid image format at index " +:+ pretty idx))
            400, [])
     | inr images =>
         match run_model images (dict_get "text" (JStr EmptyString) members) with
         | inl response =>
             (Reply (Response response) 200,
              [ModelCall images (dict_get "text" (JStr EmptyString) members)])
         | inr message =>
             (Reply (ErrorStr (LibraryError message)) 500,
              [ModelCall images (dict_get "text" (JStr EmptyString) members)])
         end
     end) = r →
    generate_response true (Parsed (JObj members)) = r).
  { intros r <-. unfold generate_response. cbn [negb truthy].
    rewrite bool_decide_eq_false_2 by done. cbn [negb]. rewrite Himages.
    cbn [len truthy]. rewrite bool_decide_eq_false_2 by done.
    cbn [negb]. rewrite andb_false_r. cbn [truthy elements].
    by rewrite bool_decide_eq_false_2. }
  split.
  - intros i v Hi Hv Hbefore. apply Hhead.
    by rewrite (decode_images_failed 0 items i v Hi Hv Hbefore).
  - intros images Hall text. apply Hhead.
    rewrite (decode_images_all 0 items images Hall). fold text.
    by destruct (run_model images text).
Qed.

Lemma decode_images_length (idx : nat) (images_base64 : list json)
    (images : list image) :
  decode_images idx images_base64 = inr images →
  length images = length images_base64.
Proof.
  revert idx images. induction images_base64 as [|x rest IH];
    intros idx images; simpl.
  - by intros [= <-].
  - destruct (process_image_from_base64 x); [|done].
    destruct (decode_images (S idx) rest) as [|imgs] eqn:Hrest; [done|].
    intros [= <-]. simpl. f_equal. by apply (IH (S idx)).
Qed.

Lemma elements_truthy (v : json) :
  is_Some (len v) → truthy v = true → elements v ≠ [].
Proof.
  destruct v as [|b|q|s|items|members]; simpl; try by intros [? [=]].
  - by destruct s.
  - by destruct items.
  - by destruct members.
Qed.

(** The handler on a non-empty object. *)
Definition on_members (members : list (string * json))
  : reply * list model_call :=
  let image_base64 := dict_get "image" JNull members in
  let images_base64 := dict_get "images" (JArr []) members in
  let text := dict_get "text" (JStr EmptyString) members in
  match len images_base64 with
  | None => (Reply (ErrorStr TypeErrorLen) 500, [])
  | Some _ =>
      let images_base64 :=
        if truthy image_base64 && negb (truthy images_base64)
        then JArr [image_base64] else images_base64 in
      if negb (truthy images_base64)
      then (Reply (ErrorMessage "No images provided") 400, [])
      else
        match decode_images 0 (elements images_base64) with
        | inl idx =>
            (Reply (ErrorMessage ("Invalid image format at index "
                                  +:+ pretty idx)) 400, [])
        | inr images =>
            match run_model images text with
            | inl response =>
                (Reply (Response response) 200, [ModelCall images text])
            | inr message =>
                (Reply (ErrorStr (LibraryError message)) 500,
                 [ModelCall images text])
            end
        end
  end.

Lemma generate_response_members (members : list (string * json)) :
  members ≠ [] →
  generate_response true (Parsed (JObj members)) = on_members members.
Proof.
  intros Hne. unfold generate_response, on_members. cbn [negb truthy].
  by rewrite bool_decide_eq_false_2.
Qed.

(** The single [image] of the old request format is a fallback: it is
    used, as a list of one, only when [images] is missing or empty; when
    [images] is not empty the reply does not depend on [image]; with
    neither the reply is 400; and an [images] that has no length (null, a
    number, a boolean) fails the request with 500 even when [image]
    holds a picture. *)
Theorem single_image_is_used_only_without_images
    (members : list (string * json)) :
  let image_base64 := dict_get "image" JNull members in
  let images_base64 := dict_get "images" (JArr []) members in
  let text := dict_get "text" (JStr EmptyString) members in
  (is_Some (len images_base64) → truthy images_base64 = false →
   truthy image_base64 = true →
   generate_response true (Parsed (JObj members))
   = generate_response true
       (Parsed (JObj [("images", JArr [image_base64]); ("text", text)])))
  ∧ (truthy images_base64 = true →
     ∀ members',
       dict_get "images" (JArr []) members' = images_base64 →
       dict_get "text" (JStr EmptyString) members' = text →
       generate_response true (Parsed (JObj members'))
       = generate_response true (Parsed (JObj members)))
  ∧ (members ≠ [] → is_Some (len images_base64) →
     truthy images_base64 = false → truthy image_base64 = false →
     generate_response true (Parsed (JObj members))
     = (Reply (ErrorMessage "No images provided") 400, []))
  ∧ (len images_base64 = None →
     generate_response true (Parsed (JObj members))
     = (Reply (ErrorStr TypeErrorLen) 500, [])).
Proof.
  intros image_base64 images_base64 text.
  split; [|split; [|split]].
  - intros [n Hlen] Himages Himage.
    rewrite generate_response_members by (intros ->; by subst image_base64).
    unfold on_members. fold image_base64 images_base64 text.
    rewrite Hlen, Himages, Himage. cbn [andb negb truthy].
    rewrite bool_decide_eq_false_2 by done. cbn [negb elements].
    reflexivity.
  - intros Himages members' Hsame Htext.
    rewrite (generate_response_members members)
      by (intros ->; by subst images_base64).
    rewrite (generate_response_members members').
    2:{ intros ->. simpl in Hsame. subst images_base64.
        by rewrite <- Hsame in Himages. }
    unfold on_members. rewrite Hsame, Htext.
    fold image_base64 images_base64 text. rewrite Himages.
    cbn [negb]. by rewrite !andb_false_r.
  - intros Hne [n Hlen] Himages Himage.
    rewrite generate_response_members by done. unfold on_members.
    fold image_base64 images_base64 text.
    rewrite Hlen, Himage. cbn [andb]. by rewrite Himages.
  - intros Hlen. rewrite generate_response_members.
    + unfold on_members. fold images_base64. by rewrite Hlen.
    + intros ->. by subst images_base64.
Qed.

(** Only a non-empty JSON object is processed: without a loaded model
    the reply is 500; a body that is null, empty, zero or false is
    answered 400; any other body that is not an object is answered 500
    (the handler calls [get] on it).  Whatever the request, the status is
    200, 400 or 500; the model is run at most once and never without an
    image, never for a reply with status 400, and a reply with status
    200 carries the output of the one run. *)
Theorem only_a_non_empty_object_is_processed (loaded : bool)
    (request : get_json) :
  generate_response false request
  = (Reply (ErrorMessage "Model not loaded") 500, [])
  ∧ (∀ data, request = Parsed data → truthy data = false →
       generate_response true request
       = (Reply (ErrorMessage "No JSON data provided") 400, []))
  ∧ (∀ data, request = Parsed data → truthy data = true →
       (∀ members, data ≠ JObj members) →
       generate_response true request
       = (Reply (ErrorStr AttributeErrorGet) 500, []))
  ∧ (let r := generate_response loaded request in
     status_code r.1 ∈ [200; 400; 500]
     ∧ (r.2 = [] ∨ ∃ c, r.2 = [c] ∧ call_images c ≠ [])
     ∧ (status_code r.1 = 400 → r.2 = [])
     ∧ (status_code r.1 = 200 →
        ∃ c response, r.2 = [c] ∧ reply_body r.1 = Response response
                      ∧ run_model (call_images c) (call_text c)
                        = inl response)).
Proof.
  split; [done|]. split; [|split].
  - intros data -> Hfalsy. unfold generate_response. by rewrite Hfalsy.
  - intros data -> Htruthy Hno. unfold generate_response. rewrite Htruthy.
    cbn [negb]. destruct data; try done. by destruct (Hno members).
  - unfold generate_response.
    destruct loaded; cbn [negb]; [|set_solver].
    destruct request as [data|message]; [|set_solver].
    destruct (truthy data) eqn:Hdata; cbn [negb]; [|set_solver].
    destruct data as [| | | | |members]; try set_solver.
    destruct (len _) as [n|] eqn:Hlen; [|set_solver].
    set (images_base64 := if _ && _ then _ else _).
    assert (Hlen' : is_Some (len images_base64)).
    { unfold images_base64. destruct (_ && _); simpl; eauto. }
    destruct (truthy images_base64) eqn:Himages; cbn [negb]; [|set_solver].
    destruct (decode_images 0 (elements images_base64)) as [idx|images]
      eqn:Hdecode; [set_solver|].
    assert (images ≠ []) as Hne.
    { apply decode_images_length in Hdecode.
      apply elements_truthy in Himages; [|done].
      destruct images; [|done]. by destruct (elements images_base64). }
    destruct (run_model images _) as [response|message] eqn:Hrun;
      cbn [fst snd status_code reply_body].
    + split; [set_solver|]. split; [right; by eexists|]. split; [done|].
      intros _. by eexists _, _.
    + split; [set_solver|]. split; [right; by eexists|]. done.
Qed.

Lemma list_ascii_append (a b : string) :
  String.list_ascii_of_string (a +:+ b)
  = String.list_ascii_of_string a ++ String.list_ascii_of_string b.
Proof.
  induction a as [|c a IH]; [done|].
  rewrite Allocator.append_cons. simpl. by rewrite IH.
Qed.

Lemma split_comma_whole (s : string) :
  ","%char ∉ String.list_ascii_of_string s → split_comma s = [s].
Proof.
  induction s as [|c s IH]; [done|]. simpl. intros Hno.
  rewrite bool_decide_eq_false_2 by set_solver.
  rewrite IH by set_solver. done.
Qed.

Lemma split_comma_append (a b : string) :
  ","%char ∉ String.list_ascii_of_string a →
  split_comma (a +:+ "," +:+ b) = a :: split_comma b.
Proof.
  induction a as [|c a IH]; [done|]. intros Hno. simpl in Hno.
  rewrite Allocator.append_cons. cbn [split_comma].
  rewrite bool_decide_eq_false_2 by set_solver.
  rewrite IH by set_solver. done.
Qed.

Lemma data_image_prefix (rest : string) :
  String.prefix "data:image/" ("data:image/" +:+ rest) = true
  ∧ ","%char ∉ String.list_ascii_of_string "data:image/".
Proof.
  split; [rewrite !Allocator.append_cons; by destruct rest|].
  intros H. simpl in H. by repeat (apply elem_of_cons in H as [H|H]; [done|]);
    apply elem_of_nil in H.
Qed.

(** Data URLs: for a string that starts with [data:image/], what is
    decoded is the text between its first comma and the next one, so a
    data URL with the usual header gives the same image as its bare
    payload, and one without a comma is rejected whatever it holds; any
    other string is decoded as it is, and a value that is not a string is
    rejected. *)
Theorem data_url_header_is_stripped (mime payload : string) :
  ","%char ∉ String.list_ascii_of_string mime →
  ","%char ∉ String.list_ascii_of_string payload →
  process_image_from_base64 (JStr ("data:image/" +:+ mime +:+ "," +:+ payload))
  = open_base64 payload
  ∧ (∀ more,
       process_image_from_base64
         (JStr ("data:image/" +:+ mime +:+ "," +:+ payload +:+ "," +:+ more))
       = open_base64 payload)
  ∧ process_image_from_base64 (JStr ("data:image/" +:+ mime)) = None
  ∧ (∀ s, String.prefix "data:image/" s = false →
          process_image_from_base64 (JStr s) = open_base64 s)
  ∧ (∀ v, (∀ s, v ≠ JStr s) → process_image_from_base64 v = None).
Proof.
  intros Hmime Hpayload.
  destruct (data_image_prefix mime) as [Hprefix Hhead].
  assert (Hno : ","%char ∉ String.list_ascii_of_string ("data:image/" +:+ mime)).
  { rewrite list_ascii_append. by intros [?|?]%elem_of_app. }
  split; [|split; [|split; [|split]]].
  - unfold process_image_from_base64.
    rewrite (proj1 (data_image_prefix _)).
    rewrite <- Allocator.append_assoc, (split_comma_append _ _ Hno).
    by rewrite (split_comma_whole _ Hpayload).
  - intros more. unfold process_image_from_base64.
    rewrite (proj1 (data_image_prefix _)).
    rewrite <- Allocator.append_assoc, (split_comma_append _ _ Hno).
    by rewrite (split_comma_append _ _ Hpayload).
  - unfold process_image_from_base64. rewrite Hprefix.
    by rewrite (split_comma_whole _ Hno).
  - intros s Hs. unfold process_image_from_base64. by rewrite Hs.
  - intros v Hv. destruct v; try done. by destruct (Hv s).
Qed.

End Server.

(** A server whose decoder accepts the base64 of a JPEG file, and a
    request with a good image, a good data URL, a string that is no
    image and a number. *)
Definition demo_open (s : string) : option string :=
  if String.prefix "/9j/" s then Some s else None.

Definition demo_model (images : list string) (text : json) : string + string :=
  inl "a screenshot".

Definition demo_items : list json :=
  [JStr "/9j/4AAQ"; JStr "data:image/jpeg;base64,/9j/4BBR"; JStr "oops";
   JNum (5 # 1)].

Definition demo_members : list (string * json) :=
  [("text", JStr "what is this"); ("image", JStr "/9j/4CCS");
   ("images", JArr demo_items)].

Lemma images_in_order_witness :
  (∀ i v, demo_items !! i = Some v →
     process_image_from_base64 string demo_open v = None →
     (∀ j w, (j < i)%nat → demo_items !! j = Some w →
             is_Some (process_image_from_base64 string demo_open w)) →
     generate_response string demo_open demo_model true
       (Parsed (JObj demo_members))
     = (Reply (ErrorMessage ("Invalid image format at index " +:+ pretty i))
          400, []))
  ∧ (∀ images,
       Forall2 (λ v img, process_image_from_base64 string demo_open v = Some img)
         demo_items images →
       let text := dict_get "text" (JStr EmptyString) demo_members in
       generate_response string demo_open demo_model true
         (Parsed (JObj demo_members))
       = (match demo_model images text with
          | inl response => Reply (Response response) 200
          | inr message => Reply (ErrorStr (LibraryError message)) 500
          end, [ModelCall string images text])).
Proof.
  apply (images_are_decoded_in_order_up_to_the_first_failure string demo_open
           demo_model demo_members demo_items).
  - reflexivity.
  - discriminate.
Defined.

Lemma data_url_witness :
  process_image_from_base64 string demo_open
    (JStr ("data:image/" +:+ "jpeg;base64" +:+ "," +:+ "/9j/4BBR"))
  = demo_open "/9j/4BBR"
  ∧ (∀ more,
       process_image_from_base64 string demo_open
         (JStr ("data:image/" +:+ "jpeg;base64" +:+ "," +:+ "/9j/4BBR" +:+ ","
                +:+ more))
       = demo_open "/9j/4BBR")
  ∧ process_image_from_base64 string demo_open
      (JStr ("data:image/" +:+ "jpeg;base64")) = None
  ∧ (∀ s, String.prefix "data:image/" s = false →
          process_image_from_base64 string demo_open (JStr s) = demo_open s)
  ∧ (∀ v, (∀ s, v ≠ JStr s) →
          process_image_from_base64 string demo_open v = None).
Proof.
  apply (data_url_header_is_stripped string demo_open "jpeg;base64" "/9j/4BBR").
  - apply (bool_decide_unpack _). vm_compute. exact I.
  - apply (bool_decide_unpack _). vm_compute. exact I.
Defined.

Example generate_response_examples :
  generate_response string demo_open demo_model true (Parsed (JObj demo_members))
  = (Reply (ErrorMessage "Invalid image format at index 2") 400, [])
  ∧ generate_response string demo_open demo_model true
      (Parsed (JObj [("image", JStr "/9j/4CCS"); ("text", JStr "what is this")]))
    = (Reply (Response "a screenshot") 200,
       [ModelCall string ["/9j/4CCS"] (JStr "what is this")])
  ∧ generate_response string demo_open demo_model true
      (Parsed (JObj [("image", JStr "/9j/4CCS"); ("images", JNull)]))
    = (Reply (ErrorStr TypeErrorLen) 500, [])
  ∧ generate_response string demo_open demo_model true
      (Parsed (JObj [("images", JStr "/9j/4CCS")]))
    = (Reply (ErrorMessage "Invalid image format at index 0") 400, [])
  ∧ generate_response string demo_open demo_model true (Parsed (JObj []))
    = (Reply (ErrorMessage "No JSON data provided") 400, [])
  ∧ generate_response string demo_open demo_model true
      (Parsed (JArr [JStr "/9j/4CCS"]))
    = (Reply (ErrorStr AttributeErrorGet) 500, []).
Proof. by vm_compute. Qed.

End Vlm.

(** ** Stopping the recorder: the OCR thread, its queue and
    [stop_recording] *)

Module Shutdown.

(** Where the OCR thread stands in [_ocr_worker]: at the test of the
    [while], inside [ocr_queue.get(timeout=1.0)], between the [get] and
    the [task_done] of a task, or past the loop. *)
Inductive worker_pc :=
| AtLoopTest
| InGet
| Processing (task : Recorder.task)
| LoopEnded.

(** Where the caller of [stop_recording] stands: before the call, after
    [self.running = False], after [ocr_thread_running.clear()], inside
    [ocr_queue.join()], inside [ocr_thread.join(timeout=5.0)], before the
    last [emit], and after it. *)
Inductive stop_pc :=
| NotCalled
| RunningCleared
| EventCleared
| InQueueJoin
| InThreadJoin
| AtEmit
| Stopped.

(** The recorder as far as the shutdown goes; [unfinished_tasks] is the
    counter of [queue.Queue] that [put] raises, [task_done] lowers and
    [join] waits on. *)
Record recorder := Recorder {
  use_ocr : bool;
  running : bool;
  ocr_thread_running : bool;
  ocr_queue : list Recorder.task;
  unfinished_tasks : nat;
  ocr_thread : worker_pc;
  stop_recording : stop_pc;
  status : list string
}.

(** The end of [_init_ocr] with OCR in use, in a recorder that records. *)
Definition _init_ocr : recorder :=
  Recorder true true true [] 0 AtLoopTest NotCalled [].

(** What the threads do, one step at a time: the recording loop puts a
    task ([_enqueue_ocr_task]); the OCR thread advances; the OCR thread
    leaves the [try] of its loop body by an exception; the caller of
    [stop_recording] advances. *)
Inductive action :=
| Enqueue (task : Recorder.task)
| WorkerStep
| WorkerRaises
| StopStep.

(** [self.ocr_queue.put(task, block=False)] under the [except queue.Full]
    of [_enqueue_ocr_task] *)
Definition _enqueue_ocr_task (task : Recorder.task) (r : recorder) : recorder :=
  if negb (use_ocr r) then r
  else if (length (ocr_queue r) <? Recorder.OCR_QUEUE_MAXSIZE)%nat
  then Recorder (use_ocr r) (running r) (ocr_thread_running r)
         (ocr_queue r ++ [task]) (S (unfinished_tasks r)) (ocr_thread r)
         (stop_recording r) (status r)
  else r.

Definition set_ocr_thread (pc : worker_pc) (r : recorder) : recorder :=
  Recorder (use_ocr r) (running r) (ocr_thread_running r) (ocr_queue r)
    (unfinished_tasks r) pc (stop_recording r) (status r).

Definition set_stop_recording (pc : stop_pc) (r : recorder) : recorder :=
  Recorder (use_ocr r) (running r) (ocr_thread_running r) (ocr_queue r)
    (unfinished_tasks r) (ocr_thread r) pc (status r).

(** One step of [_ocr_worker]; [None] when the thread has ended.  The
    last step of a task is [task_done], which lowers the counter (it is
    above zero there, see [step_counter]). *)
Definition _ocr_worker (r : recorder) : option recorder :=
  match ocr_thread r with
  | AtLoopTest =>
      Some (set_ocr_thread (if ocr_thread_running r then InGet else LoopEnded) r)
  | InGet =>
      match ocr_queue r with
      | task :: rest =>
          Some (Recorder (use_ocr r) (running r) (ocr_thread_running r) rest
                  (unfinished_tasks r) (Processing task) (stop_recording r)
                  (status r))
      | [] => Some (set_ocr_thread AtLoopTest r)
      end
  | Processing _ =>
      Some (Recorder (use_ocr r) (running r) (ocr_thread_running r)
              (ocr_queue r) (pred (unfinished_tasks r)) AtLoopTest
              (stop_recording r) (status r))
  | LoopEnded => None
  end.

(** The [except Exception] of the loop body: the error is logged and the
    loop goes on, without [task_done]. *)
Definition _ocr_worker_raises (r : recorder) : option recorder :=
  match ocr_thread r with
  | Processing _ => Some (set_ocr_thread AtLoopTest r)
  | _ => None
  end.

(** One step of [stop_recording]; [None] when the caller cannot advance:
    [ocr_queue.join()] returns only with [unfinished_tasks] at zero. *)
Definition stop_recording_step (r : recorder) : option recorder :=
  match stop_recording r with
  | NotCalled =>
      Some (Recorder (use_ocr r) false (ocr_thread_running r) (ocr_queue r)
              (unfinished_tasks r) (ocr_thread r) RunningCleared (status r))
  | RunningCleared =>
      if use_ocr r
      then Some (Recorder (use_ocr r) (running r) false (ocr_queue r)
                   (unfinished_tasks r) (ocr_thread r) EventCleared (status r))
      else Some (set_stop_recording AtEmit r)
  | EventCleared =>
      match ocr_queue r with
      | [] => Some (set_stop_recording InThreadJoin r)
      | _ :: _ => Some (set_stop_recording InQueueJoin r)
      end
  | InQueueJoin =>
      match unfinished_tasks r with
      | O => Some (set_stop_recording InThreadJoin r)
      | S _ => None
      end
  | InThreadJoin => Some (set_stop_recording AtEmit r)
  | AtEmit =>
      Some (Recorder (use_ocr r) (running r) (ocr_thread_running r)
              (ocr_queue r) (unfinished_tasks r) (ocr_thread r) Stopped
              (status r ++ ["录制已停止"]))
  | Stopped => None
  end.

Definition step (a : action) (r : recorder) : option recorder :=
  match a with
  | Enqueue task => Some (_enqueue_ocr_task task r)
  | WorkerStep => _ocr_worker r
  | WorkerRaises => _ocr_worker_raises r
  | StopStep => stop_recording_step r
  end.

(** A schedule of the threads; [None] when it asks a thread for a step
    the thread cannot take. *)
Fixpoint run (schedule : list action) (r : recorder) : option recorder :=
  match schedule with
  | [] => Some r
  | a :: rest =>
      match step a r with
      | Some r' => run rest r'
      | None => None
      end
  end.

(** Tasks the OCR thread holds. *)
Definition in_hand (r : recorder) : nat :=
  match ocr_thread r with
  | Processing _ => 1
  | _ => 0
  end.

(** Tasks the OCR thread may still take once the event is cleared. *)
Definition takes_left (r : recorder) : nat :=
  match ocr_thread r with
  | InGet => 1
  | _ => 0
  end.

Ltac step_cases H :=
  match type of H with
  | step ?a ?r = Some _ =>
      destruct r as [u rn f q n w s st]; destruct a as [t| | |];
      unfold step, _enqueue_ocr_task, _ocr_worker, _ocr_worker_raises,
        stop_recording_step, set_ocr_thread, set_stop_recording in H;
      cbn [use_ocr running ocr_thread_running ocr_queue unfinished_tasks
           ocr_thread stop_recording status] in H;
      repeat case_match; simplify_eq
  end.

(** The counter covers the tasks that are queued or in hand, with the
    margin it has: nothing lowers the margin. *)
Lemma step_counter (a : action) (r r' : recorder) (k : nat) :
  step a r = Some r' →
  (length (ocr_queue r) + in_hand r + k ≤ unfinished_tasks r)%nat →
  (length (ocr_queue r') + in_hand r' + k ≤ unfinished_tasks r')%nat.
Proof.
  intros H. step_cases H; unfold in_hand; cbn; rewrite ?length_app; cbn; lia.
Qed.

Lemma run_counter (schedule : list action) (r r' : recorder) (k : nat) :
  run schedule r = Some r' →
  (length (ocr_queue r) + in_hand r + k ≤ unfinished_tasks r)%nat →
  (length (ocr_queue r') + in_hand r' + k ≤ unfinished_tasks r')%nat.
Proof.
  revert r. induction schedule as [|a rest IH]; intros r; simpl.
  - by intros [= <-].
  - destruct (step a r) as [r1|] eqn:Hstep; [|done].
    intros Hrun Hk. apply (IH r1 Hrun). by apply (step_counter a r).
Qed.

(** An exception in the loop body widens the margin by one. *)
Lemma raise_counter (r r' : recorder) (k : nat) :
  step WorkerRaises r = Some r' →
  (length (ocr_queue r) + in_hand r + k ≤ unfinished_tasks r)%nat →
  (length (ocr_queue r') + in_hand r' + S k ≤ unfinished_tasks r')%nat.
Proof.
  intros H. destruct r as [u rn f q n w s st].
  unfold step, _ocr_worker_raises, set_ocr_thread in H. cbn in H.
  destruct w; simplify_eq. unfold in_hand. cbn. lia.
Qed.

(** While [stop_recording] stands between the [clear] and the return of
    [ocr_queue.join()], the event is cleared. *)
Definition cleared (r : recorder) : Prop :=
  use_ocr r = true
  ∧ (stop_recording r = EventCleared ∨ stop_recording r = InQueueJoin →
     ocr_thread_running r = false).

Lemma step_cleared (a : action) (r r' : recorder) :
  step a r = Some r' → cleared r → cleared r'.
Proof.
  intros H [Hu Hc]. unfold cleared in *.
  step_cases H; cbn in *; split; try done; intros [?|?]; try done;
    apply Hc; auto.
Qed.

Lemma run_cleared (schedule : list action) (r r' : recorder) :
  run schedule r = Some r' → cleared r → cleared r'.
Proof.
  revert r. induction schedule as [|a rest IH]; intros r; simpl.
  - by intros [= <-].
  - destruct (step a r) as [r1|] eqn:Hstep; [|done].
    intros Hrun Hc. apply (IH r1 Hrun). by apply (step_cleared a r).
Qed.

(** The state in which [stop_recording] cannot return: the event is
    cleared, the caller is at or in [ocr_queue.join()], and more tasks are
    queued than the OCR thread will still take. *)
Definition stuck (r : recorder) : Prop :=
  ocr_thread_running r = false
  ∧ (stop_recording r = EventCleared ∨ stop_recording r = InQueueJoin)
  ∧ (1 + takes_left r ≤ length (ocr_queue r))%nat
  ∧ (length (ocr_queue r) + in_hand r ≤ unfinished_tasks r)%nat.

Lemma step_stuck (a : action) (r r' : recorder) :
  step a r = Some r' → stuck r → stuck r'.
Proof.
  intros H (Hf & Hs & Hq & Hn).
  step_cases H; unfold stuck, takes_left, in_hand in *; cbn in *;
    rewrite ?length_app in *; cbn in *;
    try (destruct Hs; done);
    repeat split; auto; try lia.
Qed.

Lemma run_stuck (schedule : list action) (r r' : recorder) :
  run schedule r = Some r' → stuck r → stuck r'.
Proof.
  revert r. induction schedule as [|a rest IH]; intros r; simpl.
  - by intros [= <-].
  - destruct (step a r) as [r1|] eqn:Hstep; [|done].
    intros Hrun Hc. apply (IH r1 Hrun). by apply (step_stuck a r).
Qed.

(** [stop_recording] does not return when, at the moment it clears the
    event, more OCR tasks are queued than the OCR thread can still take
    (one if it is waiting in [get], none otherwise; so in particular
    whenever two or more are queued): the thread takes at most that one
    task before its loop ends, so under every schedule of the threads a
    task stays in the queue, [unfinished_tasks] stays above zero and the
    caller stays at or in [ocr_queue.join()]. *)
Theorem stop_recording_waits_forever_on_a_backlog
    (before after : list action) (r r' : recorder) :
  run before _init_ocr = Some r →
  stop_recording r = EventCleared →
  (takes_left r < length (ocr_queue r))%nat →
  run after r = Some r' →
  (stop_recording r' = EventCleared ∨ stop_recording r' = InQueueJoin)
  ∧ ocr_queue r' ≠ []
  ∧ (0 < unfinished_tasks r')%nat.
Proof.
  intros Hbefore Hstop Hqueue Hafter.
  assert (Hc : cleared r).
  { apply (run_cleared before _init_ocr); [done|].
    split; [done|]. by intros [?|?]. }
  assert (Hn : (length (ocr_queue r) + in_hand r + 0 ≤ unfinished_tasks r)%nat).
  { apply (run_counter before _init_ocr); [done|]. cbn. lia. }
  assert (Hstuck : stuck r).
  { split; [apply Hc; auto|]. split; [auto|]. split; lia. }
  destruct (run_stuck after r r' Hafter Hstuck) as (_ & Hs & Hq & Hu).
  split; [done|]. split; [|lia]. destruct (ocr_queue r'); [cbn in Hq; lia|done].
Qed.

(** A task whose processing raises is never marked done: once the loop
    body of [_ocr_worker] has left by an exception, [unfinished_tasks]
    stays above zero whatever is processed afterwards, so a caller of
    [stop_recording] that has entered [ocr_queue.join()] stays there
    under every schedule, also when the queue has been emptied. *)
Theorem failed_ocr_task_blocks_the_join
    (before between after : list action) (r0 r1 r2 r3 : recorder) :
  run before _init_ocr = Some r0 →
  step WorkerRaises r0 = Some r1 →
  run between r1 = Some r2 →
  stop_recording r2 = InQueueJoin →
  run after r2 = Some r3 →
  stop_recording r3 = InQueueJoin ∧ (0 < unfinished_tasks r3)%nat.
Proof.
  intros Hbefore Hraise Hbetween Hstop Hafter.
  assert (H0 : (length (ocr_queue r0) + in_hand r0 + 0 ≤ unfinished_tasks r0)%nat).
  { apply (run_counter before _init_ocr); [done|]. cbn. lia. }
  apply (raise_counter r0 r1 0 Hraise) in H0.
  apply (run_counter between r1 r2 1 Hbetween) in H0.
  clear Hbefore Hraise Hbetween. revert r2 Hstop H0 Hafter.
  induction after as [|a rest IH]; intros r2 Hstop H2; simpl.
  - intros [= <-]. split; [done|lia].
  - destruct (step a r2) as [r|] eqn:Hstep; [|done].
    intros Hrun. apply (IH r); [|by apply (step_counter a r2)|done].
    clear IH Hrun. step_cases Hstep; cbn in *; try done; lia.
Qed.

(** Two frames are queued while the OCR thread waits in [get];
    [stop_recording] clears the event; the thread finishes the first
    frame and ends. *)
Definition backlog_before : list action :=
  [WorkerStep; Enqueue (Recorder.numbered_task 1);
   Enqueue (Recorder.numbered_task 2); StopStep; StopStep].

Definition backlog_after : list action :=
  [WorkerStep; WorkerStep; WorkerStep; StopStep].

Definition backlog_at_clear : recorder :=
  Recorder true false false
    [Recorder.numbered_task 1; Recorder.numbered_task 2] 2 InGet EventCleared
    [].

Definition backlog_end : recorder :=
  Recorder true false false [Recorder.numbered_task 2] 1 LoopEnded
    InQueueJoin [].

Lemma backlog_witness :
  (stop_recording backlog_end = EventCleared
   ∨ stop_recording backlog_end = InQueueJoin)
  ∧ ocr_queue backlog_end ≠ []
  ∧ (0 < unfinished_tasks backlog_end)%nat.
Proof.
  apply (stop_recording_waits_forever_on_a_backlog backlog_before
           backlog_after backlog_at_clear backlog_end).
  - vm_compute. reflexivity.
  - reflexivity.
  - unfold takes_left. simpl. lia.
  - vm_compute. reflexivity.
Defined.

Example two_queued_tasks_are_a_backlog (r : recorder) :
  (2 ≤ length (ocr_queue r))%nat → (takes_left r < length (ocr_queue r))%nat.
Proof. unfold takes_left. destruct (ocr_thread r); lia. Qed.

(** The first frame fails in the OCR thread, the second is processed;
    [stop_recording] is called with a third frame queued, which the
    thread still processes. *)
Definition failure_before : list action :=
  [Enqueue (Recorder.numbered_task 1); WorkerStep; WorkerStep].

Definition failure_between : list action :=
  [Enqueue (Recorder.numbered_task 2); WorkerStep; WorkerStep; WorkerStep;
   WorkerStep; Enqueue (Recorder.numbered_task 3); StopStep; StopStep;
   StopStep].

Definition failure_after : list action :=
  [WorkerStep; WorkerStep; WorkerStep].

Definition failure_end : recorder :=
  Recorder true false false [] 1 LoopEnded InQueueJoin [].

Lemma failed_task_witness :
  stop_recording failure_end = InQueueJoin
  ∧ (0 < unfinished_tasks failure_end)%nat.
Proof.
  apply (failed_ocr_task_blocks_the_join failure_before failure_between
           failure_after
           (Recorder true true true [] 1
              (Processing (Recorder.numbered_task 1)) NotCalled [])
           (Recorder true true true [] 1 AtLoopTest NotCalled [])
           (Recorder true false false [Recorder.numbered_task 3] 2 InGet
              InQueueJoin [])
           failure_end).
  - vm_compute. reflexivity.
  - reflexivity.
  - vm_compute. reflexivity.
  - reflexivity.
  - vm_compute. reflexivity.
Defined.

(** With one frame queued and nothing failing, [stop_recording] returns
    when the OCR thread was already waiting in [get], and does not when
    the thread was at the test of its loop. *)
Example stop_recording_with_one_task :
  (stop_recording
   <$> run [WorkerStep; Enqueue (Recorder.numbered_task 1); StopStep; StopStep;
            StopStep; WorkerStep; WorkerStep; WorkerStep; StopStep; StopStep;
            StopStep] _init_ocr) = Some Stopped
  ∧ run [Enqueue (Recorder.numbered_task 1); StopStep; StopStep; StopStep;
         WorkerStep] _init_ocr
    = Some (Recorder true false false [Recorder.numbered_task 1] 1 LoopEnded
              InQueueJoin [])
  ∧ stop_recording_step
      (Recorder true false false [Recorder.numbered_task 1] 1 LoopEnded
         InQueueJoin []) = None.
Proof. by vm_compute. Qed.

End Shutdown.

(** ** The latest frames ([get_recent_frames]) *)

Module Recent.

Import Datetime.

(** A value of a row dict: [None], text or a [datetime]. *)
Inductive cell :=
| Null
| Text (s : string)
| Datetime (ts : datetime).

(** A dict returned by [get_frames_in_timerange]; [None] is a missing
    key. *)
Record row := Row {
  frame_id : option cell;
  timestamp : option cell;
  image_path : option cell;
  ocr_text : option cell
}.

(** An element of ["frames"] in the answer. *)
Record recent_frame := RecentFrame {
  recent_frame_id : cell;
  recent_timestamp : string;
  recent_image_path : cell;
  recent_ocr_text : cell
}.

Section Handler.

(** [datetime.now(timezone.utc)], [end_time - timedelta(minutes=minutes)]
    (which raises when out of range), [isoformat] and the storage. *)
Context {sdb : Type}.
Variable now : datetime.
Variable minus_minutes : datetime → Z → outcome datetime.
Variable isoformat : datetime → string.
Variable get_frames_in_timerange
  : datetime → datetime → sdb → outcome (list row).

(** The dict built for one row; [None] is the [KeyError] of a missing
    key or the [AttributeError] of a timestamp without [isoformat]. *)
Definition recent_of (f : row) : option recent_frame :=
  match frame_id f with
  | None => None
  | Some fid =>
      match timestamp f with
      | Some (Datetime ts) =>
          match image_path f with
          | None => None
          | Some path =>
              match ocr_text f with
              | None => None
              | Some text => Some (RecentFrame fid (isoformat ts) path text)
              end
          end
      | _ => None
      end
  end.

(** The loop over the rows: it stops at the first exception. *)
Fixpoint recent_frames_of (frames : list row) : option (list recent_frame) :=
  match frames with
  | [] => Some []
  | f :: rest =>
      match recent_of f with
      | None => None
      | Some frame =>
          match recent_frames_of rest with
          | None => None
          | Some recent_frames => Some (frame :: recent_frames)
          end
      end
  end.

(** [get_recent_frames]: the list under ["frames"]. *)
Definition get_recent_frames (minutes : Z) (sqlite_storage : option sdb)
  : list recent_frame :=
  match sqlite_storage with
  | None => []
  | Some db =>
      let end_time := now in
      match minus_minutes end_time minutes with
      | Raised _ => []
      | Returned start_time =>
          match get_frames_in_timerange start_time end_time db with
          | Raised _ => []
          | Returned frames =>
              match recent_frames_of frames with
              | None => []
              | Some recent_frames => recent_frames
              end
          end
      end
  end.

(** A row the loop can convert. *)
Definition complete (f : row) : Prop :=
  is_Some (frame_id f) ∧ (∃ ts, timestamp f = Some (Datetime ts))
  ∧ is_Some (image_path f) ∧ is_Some (ocr_text f).

Lemma recent_of_complete (f : row) : is_Some (recent_of f) ↔ complete f.
Proof.
  unfold recent_of, complete. destruct f as [fid ts path text]. simpl. split.
  - intros [x Hx]. repeat case_match; simplify_eq. eauto 10.
  - intros ([a ->] & [t ->] & [b ->] & [c ->]). eauto.
Qed.

Lemma recent_frames_of_all (frames : list row) :
  Forall complete frames →
  ∃ recent_frames,
    recent_frames_of frames = Some recent_frames
    ∧ Forall2 (λ f frame, recent_of f = Some frame) frames recent_frames.
Proof.
  induction 1 as [|f rest Hf _ (recent & IH & Hall)]; [by eexists|].
  apply recent_of_complete in Hf as [frame Hframe].
  exists (frame :: recent). simpl. rewrite Hframe, IH. split; [done|].
  by constructor.
Qed.

Lemma recent_frames_of_broken (frames : list row) (f : row) :
  f ∈ frames → ¬ complete f → recent_frames_of frames = None.
Proof.
  intros Hin Hbad. induction frames as [|x rest IH]; [by apply elem_of_nil in Hin|].
  simpl. destruct (recent_of x) as [frame|] eqn:Hx; [|done].
  apply elem_of_cons in Hin as [->|Hin].
  - destruct Hbad. apply recent_of_complete. eauto.
  - by rewrite IH.
Qed.

(** The answer is all or nothing: when every row the storage returns
    has its four keys and a [datetime] as timestamp, the answer lists
    every row, in order, rows without image path included; one row that
    lacks a key or whose timestamp is text or [None] empties the whole
    answer, as do a missing storage, a storage that raises and a number
    of minutes too large to subtract; an empty answer therefore does not
    tell "no frames" from "failed". *)
Theorem recent_frames_are_all_or_nothing (minutes : Z) (db : sdb)
    (start_time : datetime) (frames : list row) :
  minus_minutes now minutes = Returned start_time →
  get_frames_in_timerange start_time now db = Returned frames →
  (Forall complete frames →
   Forall2 (λ f frame, recent_of f = Some frame) frames
     (get_recent_frames minutes (Some db)))
  ∧ (∀ f, f ∈ frames → ¬ complete f → get_recent_frames minutes (Some db) = [])
  ∧ get_recent_frames minutes None = []
  ∧ (∀ minutes' e, minus_minutes now minutes' = Raised e →
                   get_recent_frames minutes' (Some db) = [])
  ∧ (∀ minutes' start_time' e,
       minus_minutes now minutes' = Returned start_time' →
       get_frames_in_timerange start_time' now db = Raised e →
       get_recent_frames minutes' (Some db) = []).
Proof.
  intros Hstart Hframes. unfold get_recent_frames.
  split; [|split; [|split; [|split]]].
  - intros Hall. rewrite Hstart, Hframes.
    by destruct (recent_frames_of_all frames Hall) as (recent & -> & H).
  - intros f Hin Hbad. rewrite Hstart, Hframes.
    by rewrite (recent_frames_of_broken frames f Hin Hbad).
  - done.
  - by intros minutes' e ->.
  - by intros minutes' start_time' e -> ->.
Qed.

End Handler.

(** A storage that returns two rows, the second with its timestamp as
    text. *)
Definition five_minutes_before (end_time : datetime) (minutes : Z)
  : outcome datetime :=
  if (0 <=? minutes) && (minutes <=? minute end_time)
  then Returned (Mk (year end_time) (month end_time) (day end_time)
                   (hour end_time) (minute end_time - minutes)
                   (second end_time) (microsecond end_time))
  else Raised OverflowError.

Definition noon : datetime := Mk 2025 12 1 12 30 0 0.

Definition good_row : row :=
  Row (Some (Text "20251201_122900_000000"))
    (Some (Datetime (Mk 2025 12 1 12 29 0 0))) (Some Null) (Some (Text "hello")).

Definition text_row : row :=
  Row (Some (Text "20251201_122930_000000"))
    (Some (Text "2025-12-01T12:29:30")) (Some (Text "/img/b.jpg")) (Some Null).

Definition two_rows (start_time end_time : datetime) (db : unit)
  : outcome (list row) :=
  Returned [good_row; text_row].

Lemma recent_frames_witness :
  (Forall complete [good_row; text_row] →
   Forall2 (λ f frame, recent_of Stamps.isoformat f = Some frame)
     [good_row; text_row]
     (get_recent_frames noon five_minutes_before Stamps.isoformat two_rows 5
        (Some tt)))
  ∧ (∀ f, f ∈ [good_row; text_row] → ¬ complete f →
       get_recent_frames noon five_minutes_before Stamps.isoformat two_rows 5
         (Some tt) = [])
  ∧ get_recent_frames noon five_minutes_before Stamps.isoformat two_rows 5 None
    = []
  ∧ (∀ minutes' e, five_minutes_before noon minutes' = Raised e →
       get_recent_frames noon five_minutes_before Stamps.isoformat two_rows
         minutes' (Some tt) = [])
  ∧ (∀ minutes' start_time' e,
       five_minutes_before noon minutes' = Returned start_time' →
       two_rows start_time' noon tt = Raised e →
       get_recent_frames noon five_minutes_before Stamps.isoformat two_rows
         minutes' (Some tt) = []).
Proof.
  apply (recent_frames_are_all_or_nothing noon five_minutes_before
           Stamps.isoformat two_rows 5 tt (Mk 2025 12 1 12 25 0 0)
           [good_row; text_row]).
  - reflexivity.
  - reflexivity.
Defined.

Example recent_frames_example :
  get_recent_frames noon five_minutes_before Stamps.isoformat two_rows 5
    (Some tt) = []
  ∧ get_recent_frames noon five_minutes_before Stamps.isoformat
      (λ _ _ _, Returned [good_row]) 5 (Some tt)
    = [RecentFrame (Text "20251201_122900_000000") "2025-12-01T12:29:00" Null
         (Text "hello")].
Proof. by vm_compute. Qed.

End Recent.

(** ** Loading the components at startup ([_init_all_components]) *)

Module Startup.

Import Batch.

Section Components.

(** The objects behind the module globals: the CLIP encoder, the two
    stores, the reranker, the VLM client and the OCR engine. *)
Context {E V S R L O : Type}.

(** The module globals of the server. *)
Record components := Components {
  encoder : option E;
  vector_storage : option V;
  sqlite_storage : option S;
  reranker : option R;
  vlm : option L;
  ocr_engine : option O;
  batch_write_buffer : option buffer_state
}.

(** The globals as the module body leaves them. *)
Definition not_loaded : components :=
  Components None None None None None None None.

(** Configuration and constructors; [LanceDBStorage] is given the
    encoder for its [embedding_dim], [has_table] is
    [vector_storage.table is not None]. *)
Variable ENABLE_RERANK : bool.
Variable ENABLE_OCR : bool.
Variable CLIPEncoder : outcome E.
Variable LanceDBStorage : E → outcome V.
Variable SQLiteStorage : outcome S.
Variable Reranker : outcome R.
Variable ApiVLM : outcome L.
Variable create_ocr_engine : string → outcome O.
Variable has_table : V → bool.
Variable cleanup_old_versions : V → outcome bool.

Definition lift {A} (o : outcome A) : M components A := λ c, (o, c).

Definition set_encoder (x : option E) : M components unit :=
  modify (λ c, Components x (vector_storage c) (sqlite_storage c) (reranker c)
                 (vlm c) (ocr_engine c) (batch_write_buffer c)).

Definition set_vector_storage (x : option V) : M components unit :=
  modify (λ c, Components (encoder c) x (sqlite_storage c) (reranker c)
                 (vlm c) (ocr_engine c) (batch_write_buffer c)).

Definition set_sqlite_storage (x : option S) : M components unit :=
  modify (λ c, Components (encoder c) (vector_storage c) x (reranker c)
                 (vlm c) (ocr_engine c) (batch_write_buffer c)).

Definition set_reranker (x : option R) : M components unit :=
  modify (λ c, Components (encoder c) (vector_storage c) (sqlite_storage c) x
                 (vlm c) (ocr_engine c) (batch_write_buffer c)).

Definition set_vlm (x : option L) : M components unit :=
  modify (λ c, Components (encoder c) (vector_storage c) (sqlite_storage c)
                 (reranker c) x (ocr_engine c) (batch_write_buffer c)).

Definition set_ocr_engine (x : option O) : M components unit :=
  modify (λ c, Components (encoder c) (vector_storage c) (sqlite_storage c)
                 (reranker c) (vlm c) x (batch_write_buffer c)).

Definition set_batch_write_buffer (x : option buffer_state)
  : M components unit :=
  modify (λ c, Components (encoder c) (vector_storage c) (sqlite_storage c)
                 (reranker c) (vlm c) (ocr_engine c) x).

(** Step 7: the clean-up of the vector index, inside its [try]. *)
Definition optimize : M components unit :=
  try_except
    (let! c := get in
     match vector_storage c with
     | Some v =>
         if has_table v
         then let! stats := lift (cleanup_old_versions v) in ret tt
         else ret tt
     | None => ret tt
     end)
    (λ e, ret tt).

(** [_init_all_components]; [now] is the clock when the buffer is
    created. *)
Definition _init_all_components (now : Q) : M components unit :=
  let! e := lift CLIPEncoder in
  do! set_encoder (Some e) in
  let! v := lift (LanceDBStorage e) in
  do! set_vector_storage (Some v) in
  let! s := lift SQLiteStorage in
  do! set_sqlite_storage (Some s) in
  do! (if ENABLE_RERANK
       then let! r := lift Reranker in set_reranker (Some r)
       else set_reranker None) in
  let! l := lift ApiVLM in
  do! set_vlm (Some l) in
  do! (if ENABLE_OCR
       then
         let! o := try_except (lift (create_ocr_engine "pytesseract"))
                     (λ e, lift (create_ocr_engine "dummy")) in
         set_ocr_engine (Some o)
       else set_ocr_engine None) in
  do! optimize in
  set_batch_write_buffer (Some (BufferState 10 60 [] now)).

(** The four [assert]s of [query_rag_with_time] and of [store_frame]. *)
Definition query_ready (c : components) : bool :=
  bool_decide (is_Some (encoder c)) && bool_decide (is_Some (vector_storage c))
  && bool_decide (is_Some (sqlite_storage c)) && bool_decide (is_Some (vlm c)).

Definition store_ready (c : components) : bool :=
  bool_decide (is_Some (encoder c)) && bool_decide (is_Some (vector_storage c))
  && bool_decide (is_Some (sqlite_storage c))
  && bool_decide (is_Some (batch_write_buffer c)).

(** What a startup that returns leaves in the globals. *)
Lemma init_all_components_loaded (now : Q) (c0 c : components) :
  _init_all_components now c0 = (Returned tt, c) →
  ∃ e v s l,
    c = Components (Some e) (Some v) (Some s) (reranker c) (Some l)
          (ocr_engine c) (Some (BufferState 10 60 [] now))
    ∧ (if ENABLE_RERANK then is_Some (reranker c) else reranker c = None)
    ∧ (if ENABLE_OCR then is_Some (ocr_engine c) else ocr_engine c = None).
Proof.
  unfold _init_all_components, optimize, bind, lift, try_except, get, ret,
    set_encoder, set_vector_storage, set_sqlite_storage, set_reranker, set_vlm,
    set_ocr_engine, set_batch_write_buffer, modify.
  intros H. cbn in H.
  repeat (case_match; simplify_eq/=); eauto 10.
Qed.

End Components.

(** *** The server after startup, asked a query *)

Section Serving.

Context {E V S L O : Type}.

(** The reranker as its [rerank] method. *)
Definition rerank_method : Type :=
  string → list (Merge.hit * string) → Z → outcome (list (Merge.hit * string)).

Variable ENABLE_RERANK : bool.
Variable ENABLE_OCR : bool.
Variable CLIPEncoder : outcome E.
Variable LanceDBStorage : E → outcome V.
Variable SQLiteStorage : outcome S.
Variable Reranker : outcome rerank_method.
Variable ApiVLM : outcome L.
Variable create_ocr_engine : string → outcome O.
Variable has_table : V → bool.
Variable cleanup_old_versions : V → outcome bool.

(** The rest of the configuration and the collaborators of
    [query_rag_with_time]. *)
Variable ENABLE_HYBRID : bool.
Variable ENABLE_LLM_REWRITE : bool.
Variable MAX_IMAGES_TO_LOAD : Z.
Variable RERANK_TOP_K : Z.
Variable read_time : string → option TimeFusion.instant.
Variable rewrite_and_time
  : string → outcome (list string * list string * option TimeFusion.window).
Variable search : string → Z → TimeFusion.window → outcome (list Merge.hit).
Variable search_ocr : string → Z → TimeFusion.window → outcome (list Merge.hit).
Variable search_by_text : string → Z → outcome (list Merge.hit).
Variable filter_by_time : list Merge.hit → TimeFusion.window → list Merge.hit.
Variable open_image : string → outcome string.
Variable call_vlm
  : string → list string → list (option TimeFusion.instant) → outcome string.
Variable thumbnail : string → string.
Variable render_timestamp : option TimeFusion.instant → string.

(** [query_rag_with_time] over the globals [c]. *)
Definition serve_query (c : @components E V S rerank_method L O)
    (req : Query.QueryRagWithTimeRequest)
  : M (list Query.event) Query.QueryRagWithTimeResponse :=
  Query.query_rag_with_time ENABLE_HYBRID ENABLE_RERANK ENABLE_LLM_REWRITE
    MAX_IMAGES_TO_LOAD RERANK_TOP_K read_time rewrite_and_time search
    search_ocr search_by_text filter_by_time open_image (reranker c) call_vlm
    thumbnail render_timestamp (query_ready c) req.

(** A request cannot switch rerank on: after a startup that returned,
    the components the handlers assert are loaded and the write buffer
    is empty with batch size 10 and interval 60 s; the reranker is loaded
    exactly when [ENABLE_RERANK] was set and the OCR engine exactly when
    [ENABLE_OCR] was.  So on a server started without [ENABLE_RERANK]
    every query that asks for rerank is answered 500 without anything
    being searched, while on a server started with it the reranker check
    never refuses a query.  Before startup every query fails its
    [assert]. *)
Theorem rerank_needs_the_reranker_loaded_at_startup (now : Q)
    (c : @components E V S rerank_method L O) :
  _init_all_components ENABLE_RERANK ENABLE_OCR CLIPEncoder LanceDBStorage
    SQLiteStorage Reranker ApiVLM create_ocr_engine has_table
    cleanup_old_versions now not_loaded = (Returned tt, c) →
  query_ready c = true ∧ store_ready c = true
  ∧ batch_write_buffer c = Some (BufferState 10 60 [] now)
  ∧ (is_Some (reranker c) ↔ ENABLE_RERANK = true)
  ∧ (is_Some (ocr_engine c) ↔ ENABLE_OCR = true)
  ∧ (ENABLE_RERANK = false →
     ∀ req tr, Query.enable_rerank req = Some true →
       serve_query c req tr = (Raised (HTTPException 500), tr))
  ∧ (ENABLE_RERANK = true →
     ∀ req, ¬ Query.rerank_unavailable ENABLE_RERANK (reranker c) req)
  ∧ (∀ req tr, serve_query not_loaded req tr = (Raised AssertionError, tr)).
Proof.
  intros Hinit.
  destruct (init_all_components_loaded _ _ _ _ _ _ _ _ _ _ _ _ _ Hinit)
    as (e & v & s & l & Hc & Hr & Ho).
  assert (Hrerank : is_Some (reranker c) ↔ ENABLE_RERANK = true).
  { destruct ENABLE_RERANK; [done|]. rewrite Hr. split; [by intros [? ?]|done]. }
  split; [by rewrite Hc|]. split; [by rewrite Hc|]. split; [by rewrite Hc|].
  split; [done|]. split.
  { destruct ENABLE_OCR; [done|]. rewrite Ho. split; [by intros [? ?]|done]. }
  split; [|split].
  - intros Hoff req tr Hreq. unfold serve_query, Query.query_rag_with_time.
    replace (query_ready c) with true by (by rewrite Hc).
    rewrite Hreq. cbn [negb default].
    rewrite bool_decide_eq_false_2; [done|].
    rewrite Hrerank, Hoff. done.
  - intros Hon req [_ Hnone]. apply Hrerank in Hon as [r Hsome]. congruence.
  - done.
Qed.

End Serving.

(** A startup without [ENABLE_RERANK] and with a Tesseract that is not
    installed. *)
Definition no_tesseract (name : string) : outcome string :=
  if String.eqb name "pytesseract" then Raised RuntimeError
  else Returned name.

Definition no_rerank_method : outcome rerank_method :=
  Returned (λ _ frames _, Returned frames).

Definition started_components : @components unit unit unit rerank_method unit string :=
  Components (Some tt) (Some tt) (Some tt) None (Some tt) (Some "dummy")
    (Some (BufferState 10 60 [] 0)).

Example startup_without_rerank :
  _init_all_components false true (Returned tt) (λ _, Returned tt)
    (Returned tt) no_rerank_method (Returned tt) no_tesseract (λ _, true)
    (λ _, Raised IOError) 0 not_loaded
  = (Returned tt, started_components).
Proof. reflexivity. Qed.

Definition rerank_request : Query.QueryRagWithTimeRequest :=
  Query.MkQueryRagWithTimeRequest "what was I editing" None None "image" false
    None (Some true).

Lemma startup_witness :
  query_ready started_components = true
  ∧ serve_query false true true 2 1 (λ _, None) Query.demo_rewrite
      Query.demo_search Query.demo_search Query.demo_search_by_text
      (λ res _, res) Query.demo_open Query.demo_vlm (λ img, img)
      (λ _, "2025-12-01T00:00:00+00:00") started_components rerank_request []
    = (Raised (HTTPException 500), []).
Proof.
  destruct (rerank_needs_the_reranker_loaded_at_startup false true
              (Returned tt) (λ _, Returned tt) (Returned tt) no_rerank_method
              (Returned tt) no_tesseract (λ _, true) (λ _, Raised IOError)
              true true 2 1 (λ _, None) Query.demo_rewrite Query.demo_search
              Query.demo_search Query.demo_search_by_text (λ res _, res)
              Query.demo_open Query.demo_vlm (λ img, img)
              (λ _, "2025-12-01T00:00:00+00:00") 0 started_components)
    as (Hready & _ & _ & _ & _ & Hoff & _).
  - reflexivity.
  - split; [exact Hready|]. exact (Hoff eq_refl rerank_request [] eq_refl).
Defined.

End Startup.

(** ** Initialising the recorder ([RecordWorker.__init__],
    [initialize_components] and the start of [start_recording]) *)

Module Init.

(** The signals of the worker; [InitFailed] is
    [error_signal.emit(f"初始化失败: {str(e)}")]. *)
Inductive signal :=
| InitProgress (message : string)
| Ready
| InitFailed (e : exn)
| Error (message : string)
| Status (message : string).

Section Worker.

(** The objects behind the components: capturer, encoder, main storage,
    OCR engine and SQLite index. *)
Context {C E St O S : Type}.

(** The fields of [RecordWorker] that the initialisation sets;
    [ocr_queue] holds the queued tasks, [ocr_thread_running] the state of
    the event, [ocr_thread] tells that the thread was started. *)
Record worker := Worker {
  storage_mode : string;
  running : bool;
  initialized : bool;
  capturer : option C;
  encoder : option E;
  storage : option St;
  ocr_engine : option O;
  sqlite_storage : option S;
  ocr_queue : option (list Recorder.task);
  ocr_thread : option unit;
  ocr_thread_running : option bool;
  use_ocr : bool;
  signals : list signal
}.

(** [__init__] *)
Definition __init__ (storage_mode : string) : worker :=
  Worker storage_mode false false None None None None None None None None
    false [].

(** Configuration and constructors; [warm_up] is the [encode_image] of
    the dummy image, [LanceDBStorage] is given the encoder for its
    [embedding_dim]. *)
Variable GUI_MODE : string.
Variable ENABLE_OCR : bool.
Variable ScreenshotCapturer : outcome C.
Variable SimpleStorage : outcome St.
Variable CLIPEncoder : outcome E.
Variable warm_up : E → outcome unit.
Variable LanceDBStorage : E → outcome St.
Variable SQLiteStorage : outcome S.
Variable create_ocr_engine : string → outcome O.

Definition lift {A} (o : outcome A) : M worker A := λ w, (o, w).

Definition emit (s : signal) : M worker unit :=
  modify (λ w, Worker (storage_mode w) (running w) (initialized w)
                 (capturer w) (encoder w) (storage w) (ocr_engine w)
                 (sqlite_storage w) (ocr_queue w) (ocr_thread w)
                 (ocr_thread_running w) (use_ocr w) (signals w ++ [s])).

Definition set_running (b : bool) : M worker unit :=
  modify (λ w, Worker (storage_mode w) b (initialized w) (capturer w)
                 (encoder w) (storage w) (ocr_engine w) (sqlite_storage w)
                 (ocr_queue w) (ocr_thread w) (ocr_thread_running w)
                 (use_ocr w) (signals w)).

Definition set_initialized (b : bool) : M worker unit :=
  modify (λ w, Worker (storage_mode w) (running w) b (capturer w)
                 (encoder w) (storage w) (ocr_engine w) (sqlite_storage w)
                 (ocr_queue w) (ocr_thread w) (ocr_thread_running w)
                 (use_ocr w) (signals w)).

Definition set_capturer (x : option C) : M worker unit :=
  modify (λ w, Worker (storage_mode w) (running w) (initialized w) x
                 (encoder w) (storage w) (ocr_engine w) (sqlite_storage w)
                 (ocr_queue w) (ocr_thread w) (ocr_thread_running w)
                 (use_ocr w) (signals w)).

Definition set_encoder (x : option E) : M worker unit :=
  modify (λ w, Worker (storage_mode w) (running w) (initialized w)
                 (capturer w) x (storage w) (ocr_engine w) (sqlite_storage w)
                 (ocr_queue w) (ocr_thread w) (ocr_thread_running w)
                 (use_ocr w) (signals w)).

Definition set_storage (x : option St) : M worker unit :=
  modify (λ w, Worker (storage_mode w) (running w) (initialized w)
                 (capturer w) (encoder w) x (ocr_engine w) (sqlite_storage w)
                 (ocr_queue w) (ocr_thread w) (ocr_thread_running w)
                 (use_ocr w) (signals w)).

Definition set_sqlite_storage (x : option S) : M worker unit :=
  modify (λ w, Worker (storage_mode w) (running w) (initialized w)
                 (capturer w) (encoder w) (storage w) (ocr_engine w) x
                 (ocr_queue w) (ocr_thread w) (ocr_thread_running w)
                 (use_ocr w) (signals w)).

(** [self.ocr_engine = engine; self.use_ocr = use] *)
Definition set_ocr (engine : option O) (use : bool) : M worker unit :=
  modify (λ w, Worker (storage_mode w) (running w) (initialized w)
                 (capturer w) (encoder w) (storage w) engine
                 (sqlite_storage w) (ocr_queue w) (ocr_thread w)
                 (ocr_thread_running w) use (signals w)).

(** The queue, the event (set) and the started thread. *)
Definition start_ocr_thread : M worker unit :=
  modify (λ w, Worker (storage_mode w) (running w) (initialized w)
                 (capturer w) (encoder w) (storage w) (ocr_engine w)
                 (sqlite_storage w) (Some []) (Some tt) (Some true)
                 (use_ocr w) (signals w)).

Definition _init_capturer : M worker unit :=
  do! emit (InitProgress "正在初始化截图组件...") in
  let! c := lift ScreenshotCapturer in
  set_capturer (Some c).

Definition _init_storage : M worker unit :=
  if bool_decide (GUI_MODE = "remote") then
    do! emit (InitProgress
                "GUI 远程模式: 跳过本地存储初始化，使用 HTTP 上传到后端") in
    do! set_storage None in
    set_encoder None
  else
    let! w := get in
    if bool_decide (storage_mode w = "simple") then
      do! emit (InitProgress "正在初始化Simple存储...") in
      let! s := lift SimpleStorage in
      do! set_storage (Some s) in
      set_encoder None
    else
      do! emit (InitProgress "正在加载CLIP模型... (首次加载较慢，请稍候)") in
      let! e := lift CLIPEncoder in
      do! set_encoder (Some e) in
      do! emit (InitProgress "正在预热CLIP模型...") in
      do! lift (warm_up e) in
      do! emit (InitProgress "正在初始化LanceDB存储...") in
      let! s := lift (LanceDBStorage e) in
      set_storage (Some s).

Definition _init_sqlite : M worker unit :=
  if bool_decide (GUI_MODE = "remote") then
    do! emit (InitProgress
                "GUI 远程模式: 跳过本地 SQLite 初始化，由后端负责 OCR/存储") in
    set_sqlite_storage None
  else
    do! emit (InitProgress "正在初始化SQLite...") in
    let! s := lift SQLiteStorage in
    set_sqlite_storage (Some s).

Definition _init_ocr : M worker unit :=
  if bool_decide (GUI_MODE = "remote") then
    do! emit (InitProgress
                "GUI 远程模式: 跳过本地 OCR 初始化，由后端负责 OCR") in
    set_ocr None false
  else
    do! (if ENABLE_OCR then
           do! emit (InitProgress "正在初始化OCR引擎...") in
           try_except
             (let! o := lift (create_ocr_engine "pytesseract") in
              set_ocr (Some o) true)
             (λ e, let! o := lift (create_ocr_engine "dummy") in
                   set_ocr (Some o) false)
         else
           let! o := lift (create_ocr_engine "dummy") in
           set_ocr (Some o) false) in
    let! w := get in
    if use_ocr w then
      do! emit (InitProgress "正在启动OCR工作线程...") in
      start_ocr_thread
    else ret tt.

(** The [try] block of [initialize_components]. *)
Definition init_all : M worker unit :=
  do! _init_capturer in
  do! _init_storage in
  do! _init_sqlite in
  do! _init_ocr in
  do! set_initialized true in
  do! emit (InitProgress "✅ 所有组件初始化完成!") in
  emit Ready.

(** [initialize_components] *)
Definition initialize_components : M worker unit :=
  let! w := get in
  if initialized w then ret tt
  else try_except init_all (λ e, do! emit (InitFailed e) in raise e).

(** [start_recording] up to its loop; the result tells whether the loop
    is entered. *)
Definition start_recording : M worker bool :=
  let! w := get in
  let! proceed :=
    if negb (initialized w) then
      do! initialize_components in
      let! w := get in
      if negb (initialized w) then
        do! emit (Error "初始化失败，无法开始录制") in
        ret false
      else ret true
    else ret true in
  if proceed then
    do! set_running true in
    do! emit (Status "正在录制中...") in
    ret true
  else ret false.

(** What a recorder that enters its loop holds: in remote mode only the
    capturer; in local mode the capturer, the main storage (with the
    encoder unless the storage mode is [simple]), the SQLite index and an
    OCR engine, and the queue, the event and the thread of the OCR worker
    exactly when [use_ocr] is set. *)
Definition remote_shape (w : worker) : Prop :=
  is_Some (capturer w) ∧ encoder w = None ∧ storage w = None
  ∧ sqlite_storage w = None ∧ ocr_engine w = None ∧ use_ocr w = false
  ∧ ocr_queue w = None ∧ ocr_thread w = None ∧ ocr_thread_running w = None.

Definition local_shape (w : worker) : Prop :=
  is_Some (capturer w) ∧ is_Some (storage w)
  ∧ (is_Some (encoder w) ↔ storage_mode w ≠ "simple")
  ∧ is_Some (sqlite_storage w) ∧ is_Some (ocr_engine w)
  ∧ (if use_ocr w
     then ocr_queue w = Some [] ∧ ocr_thread w = Some tt
          ∧ ocr_thread_running w = Some true ∧ ENABLE_OCR = true
          ∧ is_returned (create_ocr_engine "pytesseract") = true
     else ocr_queue w = None ∧ ocr_thread w = None
          ∧ ocr_thread_running w = None).

Definition is_progress (s : signal) : Prop :=
  match s with
  | InitProgress _ => True
  | _ => False
  end.

(** What every step of the initialisation leaves alone: the flags and
    the mode, and the signals sent so far; it only reports progress. *)
Definition reports_progress (w w' : worker) : Prop :=
  running w' = running w ∧ initialized w' = initialized w
  ∧ storage_mode w' = storage_mode w
  ∧ ∃ sent, signals w' = signals w ++ sent ∧ Forall is_progress sent.

Ltac run_step :=
  unfold bind, emit, lift, try_except, ret, raise, get, modify, set_capturer,
    set_encoder, set_storage, set_sqlite_storage, set_ocr, start_ocr_thread;
  cbn [storage_mode running initialized capturer encoder storage ocr_engine
       sqlite_storage ocr_queue ocr_thread ocr_thread_running use_ocr signals
       fst snd].

Ltac progress_sent :=
  repeat split; try done;
  try first
    [ by (exists []; rewrite app_nil_r)
    | rewrite <- ?app_assoc; eexists; split; [reflexivity|];
      by repeat constructor ].

Lemma init_capturer_run (w : worker) :
  let r := _init_capturer w in
  reports_progress w r.2
  ∧ encoder r.2 = encoder w ∧ storage r.2 = storage w
  ∧ sqlite_storage r.2 = sqlite_storage w ∧ ocr_engine r.2 = ocr_engine w
  ∧ ocr_queue r.2 = ocr_queue w ∧ ocr_thread r.2 = ocr_thread w
  ∧ ocr_thread_running r.2 = ocr_thread_running w ∧ use_ocr r.2 = use_ocr w
  ∧ (is_returned r.1 = true → is_Some (capturer r.2)).
Proof.
  unfold _init_capturer, reports_progress. run_step.
  destruct ScreenshotCapturer; cbn; progress_sent; eauto.
Qed.

Lemma init_storage_run (w : worker) :
  let r := _init_storage w in
  reports_progress w r.2
  ∧ capturer r.2 = capturer w
  ∧ sqlite_storage r.2 = sqlite_storage w ∧ ocr_engine r.2 = ocr_engine w
  ∧ ocr_queue r.2 = ocr_queue w ∧ ocr_thread r.2 = ocr_thread w
  ∧ ocr_thread_running r.2 = ocr_thread_running w ∧ use_ocr r.2 = use_ocr w
  ∧ (is_returned r.1 = true →
     if bool_decide (GUI_MODE = "remote")
     then encoder r.2 = None ∧ storage r.2 = None
     else is_Some (storage r.2)
          ∧ (is_Some (encoder r.2) ↔ storage_mode w ≠ "simple")).
Proof.
  unfold _init_storage, reports_progress.
  destruct (bool_decide (GUI_MODE = "remote")); run_step;
    [progress_sent|].
  destruct (bool_decide (storage_mode w = "simple")) eqn:Hsimple.
  - apply bool_decide_eq_true in Hsimple.
    destruct SimpleStorage; cbn; progress_sent; eauto; by intros [? ?].
  - apply bool_decide_eq_false in Hsimple.
    destruct CLIPEncoder as [e|]; cbn; [|progress_sent].
    destruct (warm_up e); cbn; [|progress_sent].
    destruct (LanceDBStorage e); cbn; progress_sent; eauto.
Qed.

Lemma init_sqlite_run (w : worker) :
  let r := _init_sqlite w in
  reports_progress w r.2
  ∧ capturer r.2 = capturer w ∧ encoder r.2 = encoder w
  ∧ storage r.2 = storage w ∧ ocr_engine r.2 = ocr_engine w
  ∧ ocr_queue r.2 = ocr_queue w ∧ ocr_thread r.2 = ocr_thread w
  ∧ ocr_thread_running r.2 = ocr_thread_running w ∧ use_ocr r.2 = use_ocr w
  ∧ (is_returned r.1 = true →
     if bool_decide (GUI_MODE = "remote") then sqlite_storage r.2 = None
     else is_Some (sqlite_storage r.2)).
Proof.
  unfold _init_sqlite, reports_progress.
  destruct (bool_decide (GUI_MODE = "remote")); run_step;
    [progress_sent|].
  destruct SQLiteStorage; cbn; progress_sent; eauto.
Qed.

Lemma init_ocr_run (w : worker) :
  use_ocr w = false → ocr_queue w = None → ocr_thread w = None →
  ocr_thread_running w = None →
  let r := _init_ocr w in
  reports_progress w r.2
  ∧ capturer r.2 = capturer w ∧ encoder r.2 = encoder w
  ∧ storage r.2 = storage w ∧ sqlite_storage r.2 = sqlite_storage w
  ∧ (is_returned r.1 = true →
     if bool_decide (GUI_MODE = "remote")
     then ocr_engine r.2 = None ∧ use_ocr r.2 = false ∧ ocr_queue r.2 = None
          ∧ ocr_thread r.2 = None ∧ ocr_thread_running r.2 = None
     else is_Some (ocr_engine r.2)
          ∧ (if use_ocr r.2
             then ocr_queue r.2 = Some [] ∧ ocr_thread r.2 = Some tt
                  ∧ ocr_thread_running r.2 = Some true ∧ ENABLE_OCR = true
                  ∧ is_returned (create_ocr_engine "pytesseract") = true
             else ocr_queue r.2 = None ∧ ocr_thread r.2 = None
                  ∧ ocr_thread_running r.2 = None)).
Proof.
  intros Huse Hqueue Hthread Hevent.
  unfold _init_ocr, reports_progress.
  destruct (bool_decide (GUI_MODE = "remote")); run_step;
    [progress_sent|].
  destruct ENABLE_OCR; run_step;
    destruct (create_ocr_engine "pytesseract");
    destruct (create_ocr_engine "dummy"); cbn;
    progress_sent; eauto.
Qed.

Lemma reports_progress_trans (a b c : worker) :
  reports_progress a b → reports_progress b c → reports_progress a c.
Proof.
  intros (Hr & Hi & Hm & l & Hl & Fl) (Hr' & Hi' & Hm' & l' & Hl' & Fl').
  unfold reports_progress. rewrite Hr', Hi', Hm', Hl', Hl, <- app_assoc.
  repeat split; try done. exists (l ++ l'). split; [done|]. by apply Forall_app.
Qed.

(** The [try] block on a recorder whose OCR thread has not been set up. *)
Lemma init_all_run (w w' : worker) (o : outcome unit) :
  use_ocr w = false → ocr_queue w = None → ocr_thread w = None →
  ocr_thread_running w = None →
  init_all w = (o, w') →
  running w' = running w ∧ storage_mode w' = storage_mode w
  ∧ ∃ sent,
      Forall is_progress sent
      ∧ match o with
        | Returned _ =>
            signals w' = signals w ++ sent ++ [Ready]
            ∧ initialized w' = true
            ∧ (if bool_decide (GUI_MODE = "remote") then remote_shape w'
               else local_shape w')
        | Raised _ =>
            signals w' = signals w ++ sent ∧ initialized w' = initialized w
        end.
Proof.
  intros Huse Hqueue Hthread Hevent. unfold init_all.
  unfold bind at 1. pose proof (init_capturer_run w) as H1.
  destruct (_init_capturer w) as [[[]|e1] w1]; cbn [fst snd] in H1;
    destruct H1 as ((R1 & I1 & M1 & l1 & S1 & F1)
                    & E1 & St1 & Q1 & O1 & OQ1 & OT1 & OE1 & U1 & C1);
    [|intros [= <- <-]; split; [done|]; split; [done|]; by exists l1].
  unfold bind at 1. pose proof (init_storage_run w1) as H2.
  destruct (_init_storage w1) as [[[]|e2] w2]; cbn [fst snd] in H2;
    destruct H2 as ((R2 & I2 & M2 & l2 & S2 & F2)
                    & C2 & Q2 & O2 & OQ2 & OT2 & OE2 & U2 & St2);
    [|intros [= <- <-]; rewrite R2, M2, I2, S2, S1, <- app_assoc;
      split; [done|]; split; [done|]; exists (l1 ++ l2);
      split; [by apply Forall_app|done]].
  unfold bind at 1. pose proof (init_sqlite_run w2) as H3.
  destruct (_init_sqlite w2) as [[[]|e3] w3]; cbn [fst snd] in H3;
    destruct H3 as ((R3 & I3 & M3 & l3 & S3 & F3)
                    & C3 & E3 & St3 & O3 & OQ3 & OT3 & OE3 & U3 & Q3);
    [|intros [= <- <-]; rewrite R3, M3, I3, S3, S2, S1, <- !app_assoc;
      split; [congruence|]; split; [congruence|]; exists (l1 ++ l2 ++ l3);
      split; [by repeat apply Forall_app_2|split; [done|congruence]]].
  unfold bind at 1.
  pose proof (init_ocr_run w3 ltac:(congruence) ltac:(congruence)
                ltac:(congruence) ltac:(congruence)) as H4.
  destruct (_init_ocr w3) as [[[]|e4] w4]; cbn [fst snd] in H4;
    destruct H4 as ((R4 & I4 & M4 & l4 & S4 & F4) & C4 & E4 & St4 & Q4 & O4);
    [|intros [= <- <-]; rewrite R4, M4, I4, S4, S3, S2, S1, <- !app_assoc;
      split; [congruence|]; split; [congruence|];
      exists (l1 ++ l2 ++ l3 ++ l4);
      split; [by repeat apply Forall_app_2|split; [done|congruence]]].
  run_step. intros [= <- <-].
  cbn [storage_mode running initialized capturer encoder storage ocr_engine
       sqlite_storage ocr_queue ocr_thread ocr_thread_running use_ocr signals].
  split; [congruence|]. split; [congruence|].
  exists (l1 ++ l2 ++ l3 ++ l4 ++ [InitProgress "✅ 所有组件初始化完成!"]).
  split; [repeat apply Forall_app_2; try done; by repeat constructor|].
  split; [rewrite S4, S3, S2, S1; by rewrite <- !app_assoc|]. split; [done|].
  specialize (C1 eq_refl). specialize (St2 eq_refl). specialize (Q3 eq_refl).
  specialize (O4 eq_refl).
  unfold remote_shape, local_shape.
  cbn [storage_mode running initialized capturer encoder storage ocr_engine
       sqlite_storage ocr_queue ocr_thread ocr_thread_running use_ocr signals].
  destruct (bool_decide (GUI_MODE = "remote")).
  - destruct St2 as [? ?]. destruct O4 as (? & ? & ? & ? & ?).
    rewrite C4, C3, C2, E4, E3, St4, St3, Q4. by repeat split.
  - destruct St2 as [? Henc]. destruct O4 as [? ?].
    rewrite C4, C3, C2, E4, E3, St4, St3, Q4, M4, M3, M2.
    repeat split; try done; apply Henc.
Qed.

Ltac not_emitted :=
  let H := fresh in
  intros H; repeat (apply elem_of_cons in H as [H|H]; [discriminate|]);
  by apply elem_of_nil in H.

Lemma progress_is_no_error (sent : list signal) (message : string) :
  Forall is_progress sent → Error message ∉ sent.
Proof.
  intros F Hin. by apply (proj1 (Forall_forall _ _) F) in Hin.
Qed.

Lemma start_recording_new (mode : string) (o : outcome unit) (w' : worker) :
  init_all (__init__ mode) = (o, w') →
  start_recording (__init__ mode)
  = match o with
    | Returned _ =>
        if negb (initialized w')
        then (Returned false, (emit (Error "初始化失败，无法开始录制") w').2)
        else (Returned true,
              (emit (Status "正在录制中...") (set_running true w').2).2)
    | Raised e => (Raised e, (emit (InitFailed e) w').2)
    end.
Proof.
  intros H. unfold start_recording, initialize_components, try_except, bind,
    get, ret, raise.
  cbn [__init__ initialized negb]. rewrite H.
  destruct o as [[]|e]; [destruct (initialized w')|]; reflexivity.
Qed.

(** Recording cannot start half-initialised: [start_recording] on a new
    recorder either enters its loop, then with [initialized] and
    [running] set, every component of its mode in place (for the local
    mode the queue, the event and the thread of the OCR worker exactly
    when [use_ocr] is set, which takes [ENABLE_OCR] and a Tesseract
    engine that loads) and [ready] followed by the recording status as
    its last signals; or it raises the exception of the component that
    failed, with [running] and [initialized] still unset and the failure
    signalled once, as the last signal.  It never returns without
    recording, so its own "cannot start" message is never sent.
    Initialising an initialised recorder does nothing. *)
Theorem recording_starts_only_fully_initialized (mode : string) :
  let r := start_recording (__init__ mode) in
  storage_mode r.2 = mode
  ∧ (Error "初始化失败，无法开始录制" ∉ signals r.2)
  ∧ (match r.1 with
     | Returned entered =>
         entered = true ∧ initialized r.2 = true ∧ running r.2 = true
         ∧ (if bool_decide (GUI_MODE = "remote") then remote_shape r.2
            else local_shape r.2)
         ∧ ∃ sent, signals r.2 = sent ++ [Ready; Status "正在录制中..."]
                   ∧ Forall is_progress sent
     | Raised e =>
         initialized r.2 = false ∧ running r.2 = false
         ∧ ∃ sent, signals r.2 = sent ++ [InitFailed e]
                   ∧ Forall is_progress sent
     end)
  ∧ (∀ w, initialized w = true → initialize_components w = (Returned tt, w)).
Proof.
  cbv zeta. destruct (init_all (__init__ mode)) as [o w'] eqn:Hrun.
  rewrite (start_recording_new mode o w' Hrun).
  destruct (init_all_run (__init__ mode) w' o eq_refl eq_refl eq_refl eq_refl
              Hrun) as (Hr & Hm & sent & F & Ho).
  cbn [__init__ running storage_mode signals initialized app] in Hr, Hm, Ho.
  destruct o as [[]|e].
  - destruct Ho as (Hs & Hi & Hshape). rewrite Hi. cbn [negb].
    unfold emit, set_running, modify.
    cbn [storage_mode running initialized capturer encoder storage ocr_engine
         sqlite_storage ocr_queue ocr_thread ocr_thread_running use_ocr
         signals fst snd].
    split; [done|]. split; [|split].
    + rewrite Hs, <- app_assoc. intros [Hin|Hin]%elem_of_app.
      * by apply (progress_is_no_error sent) in Hin.
      * revert Hin. not_emitted.
    + split; [done|]. split; [done|]. split; [done|]. split.
      * unfold remote_shape, local_shape in *.
        by destruct (bool_decide (GUI_MODE = "remote")).
      * exists sent. by rewrite Hs, <- app_assoc.
    + intros w Hw. unfold initialize_components, bind, get. by rewrite Hw.
  - destruct Ho as (Hs & Hi). unfold emit, modify.
    cbn [storage_mode running initialized capturer encoder storage ocr_engine
         sqlite_storage ocr_queue ocr_thread ocr_thread_running use_ocr
         signals fst snd].
    split; [done|]. split; [|split].
    + rewrite Hs. intros [Hin|Hin]%elem_of_app.
      * by apply (progress_is_no_error sent) in Hin.
      * revert Hin. not_emitted.
    + split; [done|]. split; [done|]. exists sent. by rewrite Hs.
    + intros w Hw. unfold initialize_components, bind, get. by rewrite Hw.
Qed.

End Worker.

(** A local recorder in [simple] mode whose SQLite file cannot be
    opened, and one whose Tesseract is missing. *)
Definition engines (name : string) : outcome string :=
  if String.eqb name "pytesseract" then Raised RuntimeError
  else Returned name.

Example start_recording_examples :
  start_recording "local" true (Returned tt) (Returned tt) (Returned tt)
    (λ _, Returned tt) (λ _, Returned tt) (Raised IOError : outcome unit)
    engines (__init__ "simple")
  = (Raised IOError,
     Worker "simple" false false (Some tt) None (Some tt) None None None None
       None false
       [InitProgress "正在初始化截图组件...";
        InitProgress "正在初始化Simple存储...";
        InitProgress "正在初始化SQLite..."; InitFailed IOError])
  ∧ start_recording "local" true (Returned tt) (Returned tt) (Returned tt)
      (λ _, Returned tt) (λ _, Returned tt) (Returned tt) engines
      (__init__ "simple")
    = (Returned true,
       Worker "simple" true true (Some tt) None (Some tt) (Some "dummy")
         (Some tt) None None None false
         [InitProgress "正在初始化截图组件...";
          InitProgress "正在初始化Simple存储...";
          InitProgress "正在初始化SQLite...";
          InitProgress "正在初始化OCR引擎...";
          InitProgress "✅ 所有组件初始化完成!"; Ready;
          Status "正在录制中..."]).
Proof. by vm_compute. Qed.

End Init.

(** ** The capture loop of the GUI, local mode
    ([RecordWorker.start_recording], [_store_frame]) *)

Module LocalLoop.

Import Datetime Json.

Inductive event :=
| LogCaptureFailed
| LogFiltered
| LogPassed
| CallEncodeImage (frame_id : string)
| CallStoreFrame (frame_id : string) (embedded : bool)
| LogStoreFailed
| LogStored (frame_count : Z)
| StatsSignal (stats : gmap string value)
| LogRecordingError
| ErrorSignal
| Sleep.

Section Loop.

(** Collaborators: the score of the filter and its threshold, the
    storage root and mode, the encoder, [storage.store_frame] (given the
    embedding in vector mode), [storage.get_stats] ([None] when
    [self.storage] is [None]), and those of the SQLite row and of the
    OCR queue. *)
Context {sdb : Type}.
Variable calculate_normalized_rms_diff : string → string → Q.
Variable SIMPLE_FILTER_DIFF_THRESHOLD : Q.
Variable IMAGE_STORAGE_PATH : string.
Variable storage_mode : string.
Variable encode_image : string → outcome (list Q).
Variable storage_store_frame
  : string → datetime → string → option (list Q) → outcome bool.
Variable get_stats : option (outcome (gmap string value)).
Variable image_copy : string → outcome string.
Variable store_frame_with_ocr : Frame.sqlite_row → sdb → outcome unit * sdb.
Variable size_metadata : string → string.

(** The recorder: the part the SQLite row and the OCR queue work on,
    and the fields of the loop. *)
Record recorder := Recorder {
  worker : @Recorder.worker sdb;
  running : bool;
  last_frame_image : option string;
  frame_count : Z;
  trace : list event
}.

Definition emit (e : event) : M recorder unit :=
  modify (λ r, Recorder (worker r) (running r) (last_frame_image r)
                 (frame_count r) (trace r ++ [e])).

Definition lift {A} (o : outcome A) : M recorder A := λ r, (o, r).

(** A method that works on the worker part. *)
Definition on_worker {A} (m : M Recorder.worker A) : M recorder A :=
  λ r, let res := m (worker r) in
       (res.1, Recorder res.2 (running r) (last_frame_image r)
                 (frame_count r) (trace r)).

(** [_store_frame] *)
Definition _store_frame (frame_id : string) (timestamp : datetime)
    (image : string) : M recorder bool :=
  if bool_decide (storage_mode = "simple") then
    do! emit (CallStoreFrame frame_id false) in
    lift (storage_store_frame frame_id timestamp image None)
  else
    do! emit (CallEncodeImage frame_id) in
    let! embedding := lift (encode_image image) in
    do! emit (CallStoreFrame frame_id true) in
    lift (storage_store_frame frame_id timestamp image (Some embedding)).

(** The statistics of the local branch. *)
Definition local_stats : M recorder (gmap string value) :=
  match get_stats with
  | Some stats => lift stats
  | None => ret {[ "total_frames" := VInt 0; "storage_mode" := VStr "unknown" ]}
  end.

(** One round of the loop in local mode; [captured] is what
    [self.capturer.capture()] gave. *)
Definition round (captured : outcome (option (datetime * string)))
  : M recorder unit :=
  try_except
    (let! frame := lift captured in
     match frame with
     | None => do! emit LogCaptureFailed in emit Sleep
     | Some (timestamp, image) =>
         let! r := get in
         let keep :=
           Dedup._should_keep_frame calculate_normalized_rms_diff
             SIMPLE_FILTER_DIFF_THRESHOLD (last_frame_image r) image in
         do! modify (λ r, Recorder (worker r) (running r) keep.2
                            (frame_count r) (trace r)) in
         if negb keep.1
         then do! emit LogFiltered in emit Sleep
         else
           do! emit LogPassed in
           let frame_id := Allocator._generate_frame_id timestamp in
           let image_path :=
             IMAGE_STORAGE_PATH +:+ "/" +:+ strftime_date timestamp +:+ "/"
             +:+ frame_id +:+ ".jpg" in
           let! success := _store_frame frame_id timestamp image in
           if negb success
           then do! emit LogStoreFailed in emit Sleep
           else
             do! on_worker
                   (Recorder._store_to_sqlite store_frame_with_ocr
                      size_metadata frame_id timestamp image image_path) in
             let! r := get in
             do! (if Recorder.use_ocr (worker r)
                  then on_worker
                         (Recorder._enqueue_ocr_task image_copy frame_id
                            timestamp image image_path)
                  else ret tt) in
             do! modify (λ r, Recorder (worker r) (running r)
                                (last_frame_image r) (frame_count r + 1)
                                (trace r)) in
             let! r := get in
             do! emit (LogStored (frame_count r)) in
             let! stats := local_stats in
             do! emit (StatsSignal
                         (<["recording_frames" := VInt (frame_count r)]>
                            stats)) in
             emit Sleep
     end)
    (λ e, do! emit LogRecordingError in
          do! emit ErrorSignal in
          emit Sleep).

(** [while self.running: ...] over what the capturer gives. *)
Fixpoint rounds (inputs : list (outcome (option (datetime * string))))
    (r : recorder) : recorder :=
  match inputs with
  | [] => r
  | captured :: rest =>
      if running r then rounds rest (round captured r).2 else r
  end.

(** What [_store_frame] returns for a frame. *)
Definition store_result (timestamp : datetime) (image : string)
  : outcome bool :=
  let frame_id := Allocator._generate_frame_id timestamp in
  if bool_decide (storage_mode = "simple")
  then storage_store_frame frame_id timestamp image None
  else match encode_image image with
       | Returned embedding =>
           storage_store_frame frame_id timestamp image (Some embedding)
       | Raised e => Raised e
       end.

Definition stored (timestamp : datetime) (image : string) : bool :=
  match store_result timestamp image with
  | Returned success => success
  | Raised _ => false
  end.

(** The frames that pass the filter and are stored, counted along the
    captures. *)
Fixpoint counted (last_frame_image : option string)
    (inputs : list (outcome (option (datetime * string)))) : Z :=
  match inputs with
  | [] => 0
  | Returned (Some (timestamp, image)) :: rest =>
      let keep :=
        Dedup._should_keep_frame calculate_normalized_rms_diff
          SIMPLE_FILTER_DIFF_THRESHOLD last_frame_image image in
      (if keep.1 && stored timestamp image then 1 else 0) + counted keep.2 rest
  | _ :: rest => counted last_frame_image rest
  end.

(** The images the capturer delivered. *)
Definition images (inputs : list (outcome (option (datetime * string))))
  : list string :=
  omap (λ captured, match captured with
                    | Returned (Some (_, image)) => Some image
                    | _ => None
                    end) inputs.

Definition is_encode (e : event) : bool :=
  match e with CallEncodeImage _ => true | _ => false end.

Definition is_store (e : event) : bool :=
  match e with CallStoreFrame _ _ => true | _ => false end.

(** The SQLite row and the OCR task never end the round. *)
Lemma store_to_sqlite_returns (frame_id : string) (timestamp : datetime)
    (image image_path : string) (w : Recorder.worker) :
  (Recorder._store_to_sqlite store_frame_with_ocr size_metadata frame_id
     timestamp image image_path w).1 = Returned tt.
Proof.
  unfold Recorder._store_to_sqlite, Recorder.call_sqlite, try_except,
    Recorder.emit, modify.
  cbn [fst snd].
  by destruct (store_frame_with_ocr _ _) as [[[]|e] db].
Qed.

Lemma store_frame_run (frame_id : string) (timestamp : datetime)
    (image : string) (r : recorder) :
  frame_id = Allocator._generate_frame_id timestamp →
  ∃ evs,
    _store_frame frame_id timestamp image r
    = (store_result timestamp image,
       Recorder (worker r) (running r) (last_frame_image r) (frame_count r)
         (trace r ++ evs))
    ∧ (storage_mode = "simple" → Forall (λ e, is_encode e = false) evs).
Proof.
  intros ->. unfold _store_frame, store_result.
  destruct (bool_decide (storage_mode = "simple")) eqn:Hmode.
  - eexists. split; [reflexivity|]. intros _. by repeat constructor.
  - apply bool_decide_eq_false in Hmode.
    unfold bind, emit, lift, modify. cbn.
    destruct (encode_image image) as [embedding|e].
    + eexists. rewrite <- app_assoc. split; [reflexivity|]. done.
    + eexists. split; [reflexivity|]. done.
Qed.

Lemma bind_returned {A B} (m : M recorder A) (k : A → M recorder B)
    (r r' : recorder) (a : A) :
  m r = (Returned a, r') → bind m k r = k a r'.
Proof. unfold bind. by intros ->. Qed.

Lemma bind_raised {A B} (m : M recorder A) (k : A → M recorder B)
    (r r' : recorder) (e : exn) :
  m r = (Raised e, r') → bind m k r = (Raised e, r').
Proof. unfold bind. by intros ->. Qed.

Lemma on_worker_store (frame_id : string) (timestamp : datetime)
    (image image_path : string) (r : recorder) :
  on_worker
    (Recorder._store_to_sqlite store_frame_with_ocr size_metadata frame_id
       timestamp image image_path) r
  = (Returned tt,
     Recorder
       (Recorder._store_to_sqlite store_frame_with_ocr size_metadata frame_id
          timestamp image image_path (worker r)).2
       (running r) (last_frame_image r) (frame_count r) (trace r)).
Proof. unfold on_worker. by rewrite store_to_sqlite_returns. Qed.

Lemma enqueue_run (frame_id : string) (timestamp : datetime)
    (image image_path : string) (r : recorder) :
  ∃ w',
    (if Recorder.use_ocr (worker r)
     then on_worker
            (Recorder._enqueue_ocr_task image_copy frame_id timestamp image
               image_path)
     else ret tt) r
    = (Returned tt,
       Recorder w' (running r) (last_frame_image r) (frame_count r) (trace r)).
Proof.
  destruct r as [w run lfi fc tr]. cbn [worker].
  destruct (Recorder.use_ocr w); [|by exists w].
  unfold on_worker. cbn [worker]. rewrite Recorder.enqueue_eq. by eexists.
Qed.

Ltac fields :=
  cbn [worker running last_frame_image frame_count trace fst snd].

Ltac fields_in H :=
  cbn [worker running last_frame_image frame_count trace fst snd] in H.

Ltac returned := erewrite bind_returned by reflexivity; fields.

Ltac quiet :=
  intros; repeat (apply Forall_app; split); auto; by repeat constructor.

(** One round: it always comes back, moves the baseline as the filter
    says, and counts the frame when it passed the filter and was
    stored. *)
Lemma local_round_step (captured : outcome (option (datetime * string)))
    (r : recorder) :
  ∃ w' evs,
    round captured r
    = (Returned tt,
       Recorder w' (running r)
         (match captured with
          | Returned (Some (_, image)) =>
              (Dedup._should_keep_frame calculate_normalized_rms_diff
                 SIMPLE_FILTER_DIFF_THRESHOLD (last_frame_image r) image).2
          | _ => last_frame_image r
          end)
         (frame_count r + counted (last_frame_image r) [captured])
         (trace r ++ evs))
    ∧ (storage_mode = "simple" → Forall (λ e, is_encode e = false) evs).
Proof.
  destruct r as [w run lfi fc tr]. unfold round, try_except.
  cbn [counted]. fields.
  destruct captured as [[[timestamp image]|]|e].
  - returned. returned.
    set (keep := Dedup._should_keep_frame _ _ lfi image).
    returned.
    destruct keep.1 eqn:Hkeep; cbn [negb andb].
    2:{ returned. exists w, [LogFiltered; Sleep]. unfold emit, modify. fields.
        rewrite <- app_assoc, Z.add_0_r. split; [done|quiet]. }
    returned.
    destruct (store_frame_run (Allocator._generate_frame_id timestamp)
                timestamp image (Recorder w run keep.2 fc (tr ++ [LogPassed]))
                eq_refl) as (evs & Hstore & Hevs).
    fields. unfold stored. fields_in Hstore.
    destruct (store_result timestamp image) as [[|]|e].
    + erewrite bind_returned by exact Hstore. cbn [negb].
      erewrite bind_returned by apply on_worker_store. fields.
      set (w1 := (Recorder._store_to_sqlite _ _ _ _ _ _ w).2).
      returned.
      destruct (enqueue_run (Allocator._generate_frame_id timestamp) timestamp
                  image
                  (IMAGE_STORAGE_PATH +:+ "/" +:+ strftime_date timestamp
                   +:+ "/" +:+ Allocator._generate_frame_id timestamp
                   +:+ ".jpg")
                  (Recorder w1 run keep.2 fc ((tr ++ [LogPassed]) ++ evs)))
        as (w2 & Henq).
      fields_in Henq. erewrite bind_returned by exact Henq.
      returned. returned. returned.
      unfold local_stats. destruct get_stats as [[stats|e]|].
      * returned. returned. exists w2. eexists. unfold emit, modify. fields.
        rewrite <- !app_assoc. split; [reflexivity|quiet].
      * erewrite bind_raised by reflexivity. returned. returned.
        exists w2. eexists. unfold emit, modify. fields.
        rewrite <- !app_assoc. split; [reflexivity|quiet].
      * returned. returned. exists w2. eexists. unfold emit, modify. fields.
        rewrite <- !app_assoc. split; [reflexivity|quiet].
    + erewrite bind_returned by exact Hstore. cbn [negb]. returned.
      exists w. eexists. unfold emit, modify. fields.
      rewrite <- !app_assoc, Z.add_0_r. split; [reflexivity|quiet].
    + erewrite bind_raised by exact Hstore. returned. returned.
      exists w. eexists. unfold emit, modify. fields.
      rewrite <- !app_assoc, Z.add_0_r. split; [reflexivity|quiet].
  - returned. returned. exists w, [LogCaptureFailed; Sleep].
    unfold emit, modify. fields.
    rewrite <- app_assoc, Z.add_0_r. split; [done|quiet].
  - erewrite bind_raised by reflexivity. returned. returned.
    exists w, [LogRecordingError; ErrorSignal; Sleep].
    unfold emit, modify. fields.
    rewrite <- !app_assoc, Z.add_0_r. split; [done|quiet].
Qed.

Lemma counted_cons (last_frame_image : option string)
    (captured : outcome (option (datetime * string)))
    (rest : list (outcome (option (datetime * string)))) :
  counted last_frame_image (captured :: rest)
  = counted last_frame_image [captured]
    + counted
        (match captured with
         | Returned (Some (_, image)) =>
             (Dedup._should_keep_frame calculate_normalized_rms_diff
                SIMPLE_FILTER_DIFF_THRESHOLD last_frame_image image).2
         | _ => last_frame_image
         end) rest.
Proof. destruct captured as [[[timestamp image]|]|e]; cbn [counted]; lia. Qed.

(** In local mode the counter shown to the user counts the frames that
    passed the filter and that [_store_frame] reported as stored, and
    nothing else: a failing SQLite row, a full or failing OCR queue and
    failing statistics neither prevent nor add a count.  The filter's
    baseline follows every captured frame it let through, stored or not.
    In [simple] mode the encoder is never called. *)
Theorem local_recording_frames_counts_stored_frames
    (inputs : list (outcome (option (datetime * string)))) (r : recorder) :
  running r = true →
  frame_count (rounds inputs r)
  = frame_count r + counted (last_frame_image r) inputs
  ∧ last_frame_image (rounds inputs r)
    = Dedup.final calculate_normalized_rms_diff SIMPLE_FILTER_DIFF_THRESHOLD
        (last_frame_image r) (images inputs)
  ∧ ∃ evs, trace (rounds inputs r) = trace r ++ evs
           ∧ (storage_mode = "simple" →
              Forall (λ e, is_encode e = false) evs).
Proof.
  revert r. induction inputs as [|captured rest IH]; intros r Hrun.
  - cbn. split; [lia|]. split; [done|]. exists []. by rewrite app_nil_r.
  - cbn [rounds]. rewrite Hrun.
    destruct (local_round_step captured r) as (w' & evs & -> & Hevs).
    cbn [snd].
    match goal with
    | |- context [rounds rest ?r1] =>
        destruct (IH r1 Hrun) as (Hcount & Hbase & evs' & Htrace & Hevs')
    end.
    rewrite Hcount, Hbase, Htrace. cbn [frame_count last_frame_image trace].
    rewrite (counted_cons _ captured rest). split; [lia|]. split.
    + unfold images, Dedup.final.
      by destruct captured as [[[timestamp image]|]|e].
    + exists (evs ++ evs'). rewrite <- app_assoc. split; [done|].
      intros Hs. apply Forall_app. auto.
Qed.

End Loop.

(** A recorder in [simple] mode whose SQLite index and statistics always
    fail and whose storage refuses the image ["B"]. *)
Definition differ (a b : string) : Q :=
  if String.eqb a b then 0 else 1.

Definition refuses_b (frame_id : string) (timestamp : datetime)
    (image : string) (embedding : option (list Q)) : outcome bool :=
  Returned (negb (String.eqb image "B")).

Definition failing_sqlite (row : Frame.sqlite_row) (db : unit)
  : outcome unit * unit :=
  (Raised IOError, db).

Definition at_second (s : Z) : datetime := Mk 2025 12 1 14 30 s 0.

Definition captures : list (outcome (option (datetime * string))) :=
  [Returned (Some (at_second 1, "A")); Returned None;
   Returned (Some (at_second 4, "B")); Returned (Some (at_second 7, "B"));
   Raised IOError; Returned (Some (at_second 10, "C"))].

Definition new_recorder : @recorder unit :=
  Recorder (Recorder.Worker true [] tt []) true None 0 [].

Definition six_captures_run : @recorder unit :=
  rounds differ (6 # 1000) "/data" "simple" (λ _, Raised RuntimeError)
    refuses_b (Some (Raised IOError)) (λ image, Returned image) failing_sqlite
    (λ _, "{size}") captures new_recorder.

Lemma local_count_witness :
  frame_count six_captures_run
  = frame_count new_recorder
    + counted differ (6 # 1000) "simple" (λ _, Raised RuntimeError)
        refuses_b (last_frame_image new_recorder) captures
  ∧ last_frame_image six_captures_run
    = Dedup.final differ (6 # 1000) (last_frame_image new_recorder)
        (images captures)
  ∧ ∃ evs, trace six_captures_run = trace new_recorder ++ evs
           ∧ ("simple" = "simple" → Forall (λ e, is_encode e = false) evs).
Proof.
  apply (local_recording_frames_counts_stored_frames differ (6 # 1000)
           "/data" "simple" (λ _, Raised RuntimeError) refuses_b
           (Some (Raised IOError)) (λ image, Returned image) failing_sqlite
           (λ _, "{size}") captures new_recorder).
  reflexivity.
Defined.

Example six_captures_count :
  frame_count six_captures_run = 2
  ∧ last_frame_image six_captures_run = Some "C"
  ∧ Recorder.ocr_queue (worker six_captures_run)
    = [Recorder.Task "20251201_143001_000000" (at_second 1) "A"
         "/data/20251201/20251201_143001_000000.jpg";
       Recorder.Task "20251201_143010_000000" (at_second 10) "C"
         "/data/20251201/20251201_143010_000000.jpg"].
Proof. by vm_compute. Qed.

End LocalLoop.
